(** * Dentropic clinic-operations engine: a shallow embedding and its properties

    The development follows the TypeScript sources:
    - [security/auth.ts]       role table, [assertAuthorized], [requirePurpose];
    - [security/audit.ts]      the in-memory [AuditLog];
    - [index.ts]               the wrapper [runWithAuthAudit];
    - [store/memoryStore.ts], [store/memoryClinicOpsRepository.ts]
                               the in-memory [Map] stores;
    - [services/clinicOps.ts]  scheduling, benefit estimation, account ageing
                               and the family linker; further on, patients,
                               insurance and treatment plans, the ledger,
                               recalls, bookings, communication logs, tasks
                               and the dashboard;
    - [security/crypto.ts]     the text cipher;
    - [services/dentalImagery.ts]
                               the triage of dental images;
    - [config.ts]              the reading of a boolean setting;
    - [index.ts]               the handlers of three tools.

    Conventions of the embedding.
    - A JavaScript string is a [string]; a character stands for one UTF-16
      code unit below 256.  Changes of case are exact on 7-bit text, which is
      all the program itself ever writes, and carry the units above 127
      through unchanged; [trim] is exact.  Where a check reads a text that
      the caller is free to choose ([requirePurpose]), the check is also
      given on the full code units, in [JsUnits].
    - A JavaScript number that holds money or a percentage is a binary64
      [float] (the kernel's primitive floats are IEEE 754 binary64 with
      round-to-nearest-even, as in ECMAScript).  Numbers that the tool schema
      declares integral (minutes, hours) and time values (integral
      milliseconds since the epoch, or NaN) are [Z], NaN being [None].
    - A thrown exception is a [Throw] result; state is passed explicitly.
    - Values the environment supplies ([crypto.randomUUID()], [Date.now()],
      [new Date().toISOString()]) are extra arguments.  So is [engine], the
      reading [new Date(s)] makes of a text outside the Date Time String
      Format, which ECMAScript leaves to the engine.  Within the format,
      where ECMAScript is silent (a day that its month does not have) the
      reading is that of V8, the engine of Node.js.
    - Memory is without bound: a computation ends only as ECMAScript has it
      end, an array of [2^32 - 1] elements refusing one more. *)

From stdpp Require Import base option list gmap strings.
From Stdlib Require Import ZArith List String Ascii Bool Lia DecimalString Permutation.
From Stdlib Require Import Floats Sorted.
Import ListNotations.

Local Open Scope string_scope.
Local Open Scope Z_scope.

(** ** Results of fallible code *)

Inductive Result (E A : Type) : Type :=
| Ok (a : A)
| Throw (e : E).
Arguments Ok {E A} a.
Arguments Throw {E A} e.

Definition is_ok {E A} (r : Result E A) : bool :=
  match r with Ok _ => true | Throw _ => false end.

Definition throws {E A} (r : Result E A) : bool := negb (is_ok r).

(** ** JavaScript strings *)

Module JsString.

Definition code (c : ascii) : N := N_of_ascii c.

(** [String.prototype.startsWith]. *)
Definition startsWith (s p : string) : bool := String.prefix p s.

(** [String.prototype.endsWith]. *)
Definition endsWith (s p : string) : bool :=
  let n := String.length s in
  let m := String.length p in
  if (m <=? n)%nat then String.eqb (String.substring (n - m) m s) p else false.

(** [String.prototype.toUpperCase] on 7-bit text: a..z go to A..Z. *)
Definition upper_char (c : ascii) : ascii :=
  if ((97 <=? code c) && (code c <=? 122))%N
  then ascii_of_N (code c - 32) else c.

Fixpoint toUpperCase (s : string) : string :=
  match s with
  | EmptyString => EmptyString
  | String c r => String (upper_char c) (toUpperCase r)
  end.

(** White space and line terminators that [trim] removes, among the code
    units below 256: TAB, LF, VT, FF, CR, SPACE and NO-BREAK SPACE. *)
Definition is_space (c : ascii) : bool :=
  ((9 <=? code c) && (code c <=? 13) || (code c =? 32) || (code c =? 160))%N.

Fixpoint trimStart (s : string) : string :=
  match s with
  | EmptyString => EmptyString
  | String c r => if is_space c then trimStart r else s
  end.

(** [trimEnd s] drops the trailing white space: a character is kept when
    something that is kept follows it, or when it is not white space. *)
Fixpoint trimEnd (s : string) : string :=
  match s with
  | EmptyString => EmptyString
  | String c r =>
      match trimEnd r with
      | EmptyString => if is_space c then EmptyString else String c EmptyString
      | r' => String c r'
      end
  end.

(** [String.prototype.trim]. *)
Definition trim (s : string) : string := trimEnd (trimStart s).

(** [s.length] as a number. *)
Definition length (s : string) : Z := Z.of_nat (String.length s).

(** Truthiness of a string: the empty string is falsy. *)
Definition truthy (s : string) : bool := negb (String.eqb s "").

(** The relational operators on strings compare code units
    lexicographically. *)
Definition lt (a b : string) : bool := String.ltb a b.
Definition gt (a b : string) : bool := String.ltb b a.
Definition le (a b : string) : bool := String.leb a b.
Definition ge (a b : string) : bool := String.leb b a.

End JsString.

(** ** JavaScript strings as sequences of UTF-16 code units *)

Module JsUnits.

(** The code units of a text of the model. *)
Definition ofString (s : string) : list N :=
  map JsString.code (list_ascii_of_string s).

(** [WhiteSpace] and [LineTerminator]: TAB, LF, VT, FF, CR, SPACE,
    NO-BREAK SPACE, U+1680, U+2000 to U+200A, U+2028, U+2029, U+202F,
    U+205F, U+3000 and U+FEFF.  All are single code units, and no half of a
    surrogate pair is among them. *)
Definition isWhiteSpace (u : N) : bool :=
  ((9 <=? u) && (u <=? 13) || (u =? 32) || (u =? 160) || (u =? 5760)
   || (8192 <=? u) && (u <=? 8202) || (u =? 8232) || (u =? 8233)
   || (u =? 8239) || (u =? 8287) || (u =? 12288) || (u =? 65279))%N.

Fixpoint trimStart (s : list N) : list N :=
  match s with
  | [] => []
  | u :: r => if isWhiteSpace u then trimStart r else s
  end.

Fixpoint trimEnd (s : list N) : list N :=
  match s with
  | [] => []
  | u :: r =>
      match trimEnd r with
      | [] => if isWhiteSpace u then [] else [u]
      | r' => u :: r'
      end
  end.

(** [String.prototype.trim]. *)
Definition trim (s : list N) : list N := trimEnd (trimStart s).

(** [s.length] as a number. *)
Definition length (s : list N) : Z := Z.of_nat (List.length s).

(** Truthiness of a string: the empty string is falsy. *)
Definition truthy (s : list N) : bool :=
  match s with [] => false | _ :: _ => true end.

End JsUnits.

(** ** Domain types ([domain.ts]) *)

Inductive UserRole : Type :=
| admin | dentist | hygienist | assistant | front_desk | billing | readonly
| system.

Definition role_name (r : UserRole) : string :=
  match r with
  | admin => "admin" | dentist => "dentist" | hygienist => "hygienist"
  | assistant => "assistant" | front_desk => "front-desk"
  | billing => "billing" | readonly => "readonly" | system => "system"
  end.

Record Actor : Type := mkActor {
  userId : string;
  role : UserRole;
  purpose : option string
}.

(** ** Authorization policy ([security/auth.ts]) *)

Inductive Permission : Type :=
| patient_read | patient_write
| appointment_read | appointment_write
| insurance_read | insurance_write
| treatment_read | treatment_write
| ledger_read | ledger_write
| chart_read | chart_write
| recall_read | recall_write
| task_read | task_write
| communication_read | communication_write
| image_read | image_write | image_analyze
| migration_write
| audit_read.

(** The string each permission tag is in the source. *)
Definition permission_name (p : Permission) : string :=
  match p with
  | patient_read => "patient:read" | patient_write => "patient:write"
  | appointment_read => "appointment:read"
  | appointment_write => "appointment:write"
  | insurance_read => "insurance:read" | insurance_write => "insurance:write"
  | treatment_read => "treatment:read" | treatment_write => "treatment:write"
  | ledger_read => "ledger:read" | ledger_write => "ledger:write"
  | chart_read => "chart:read" | chart_write => "chart:write"
  | recall_read => "recall:read" | recall_write => "recall:write"
  | task_read => "task:read" | task_write => "task:write"
  | communication_read => "communication:read"
  | communication_write => "communication:write"
  | image_read => "image:read" | image_write => "image:write"
  | image_analyze => "image:analyze"
  | migration_write => "migration:write"
  | audit_read => "audit:read"
  end.

#[global] Instance UserRole_eq_dec : EqDecision UserRole.
Proof. solve_decision. Defined.

#[global] Instance Permission_eq_dec : EqDecision Permission.
Proof. solve_decision. Defined.

(** [Array.prototype.includes] on a list of tags. *)
Definition includes {A : Type} `{EqDecision A} (l : list A) (x : A) : bool :=
  existsb (fun y => bool_decide (y = x)) l.

Definition allPermissions : list Permission :=
  [ patient_read; patient_write; appointment_read; appointment_write;
    insurance_read; insurance_write; treatment_read; treatment_write;
    ledger_read; ledger_write; chart_read; chart_write; recall_read;
    recall_write; task_read; task_write; communication_read;
    communication_write; image_read; image_write; image_analyze;
    migration_write; audit_read ].

Definition rolePermissions (r : UserRole) : list Permission :=
  match r with
  | admin => allPermissions
  | system => allPermissions
  | dentist =>
      [ patient_read; patient_write; appointment_read; appointment_write;
        insurance_read; treatment_read; treatment_write; ledger_read;
        chart_read; chart_write; recall_read; recall_write; task_read;
        task_write; communication_read; communication_write; image_read;
        image_write; image_analyze ]
  | hygienist =>
      [ patient_read; appointment_read; appointment_write; insurance_read;
        treatment_read; chart_read; chart_write; recall_read; recall_write;
        task_read; task_write; communication_read; communication_write;
        image_read; image_write; image_analyze ]
  | assistant =>
      [ patient_read; appointment_read; appointment_write; treatment_read;
        chart_read; chart_write; task_read; task_write; communication_read;
        communication_write; image_read; image_write; image_analyze ]
  | front_desk =>
      [ patient_read; patient_write; appointment_read; appointment_write;
        insurance_read; recall_read; recall_write; task_read; task_write;
        communication_read; communication_write ]
  | billing =>
      [ patient_read; appointment_read; insurance_read; insurance_write;
        treatment_read; ledger_read; ledger_write; communication_read;
        communication_write; task_read; task_write ]
  | readonly =>
      [ patient_read; appointment_read; insurance_read; treatment_read;
        ledger_read; chart_read; recall_read; task_read; communication_read;
        image_read ]
  end.

Definition hasPermission (r : UserRole) (p : Permission) : bool :=
  includes (rolePermissions r) p.

(** What the program throws: an [Error] object with its message, or any
    other value [v] (JavaScript may throw anything). *)
Inductive Thrown (V : Type) : Type :=
| ThrownError (message : string)
| ThrownValue (v : V).
Arguments ThrownError {V} message.
Arguments ThrownValue {V} v.

Definition assertAuthorized {V} (actor : Actor) (p : Permission)
  : Result (Thrown V) unit :=
  if negb (hasPermission (role actor) p) then
    Throw (ThrownError
             ("Actor " ++ userId actor ++ " (" ++ role_name (role actor)
              ++ ") is not authorized for " ++ permission_name p))
  else Ok tt.

(** [!actor.purpose] holds for an absent purpose and for the empty string. *)
Definition requirePurpose {V} (actor : Actor) (requiredNote : string)
  : Result (Thrown V) unit :=
  let missing :=
    match purpose actor with
    | None => true
    | Some p =>
        negb (JsString.truthy p) || (JsString.length (JsString.trim p) <? 8)
    end in
  if missing then
    Throw (ThrownError
             ("Purpose of use is required (" ++ requiredNote
              ++ "). Provide actor.purpose with at least 8 characters."))
  else Ok tt.

(** [requirePurpose] on a purpose given by its code units: the same check
    for every JavaScript string, whatever its characters. *)
Definition requirePurposeUnits {V} (purpose : option (list N))
  (requiredNote : string) : Result (Thrown V) unit :=
  let missing :=
    match purpose with
    | None => true
    | Some p =>
        negb (JsUnits.truthy p) || (JsUnits.length (JsUnits.trim p) <? 8)
    end in
  if missing then
    Throw (ThrownError
             ("Purpose of use is required (" ++ requiredNote
              ++ "). Provide actor.purpose with at least 8 characters."))
  else Ok tt.

(** ** JavaScript numbers holding money and percentages *)

Module JsNumber.

Local Open Scope float_scope.

(** [Number.isFinite]. *)
Definition isFinite (x : float) : bool :=
  negb (PrimFloat.is_nan x) && negb (PrimFloat.is_infinity x).

(** [Math.max] of two numbers: NaN when either is NaN, and [+0] counts as
    larger than [-0]. *)
Definition Math_max (a b : float) : float :=
  if PrimFloat.is_nan a || PrimFloat.is_nan b then nan
  else if a <? b then b
  else if b <? a then a
  else if PrimFloat.get_sign a then b else a.

(** [Math.min] of two numbers: NaN when either is NaN, and [-0] counts as
    smaller than [+0]. *)
Definition Math_min (a b : float) : float :=
  if PrimFloat.is_nan a || PrimFloat.is_nan b then nan
  else if a <? b then a
  else if b <? a then b
  else if PrimFloat.get_sign a then a else b.

(** The integer [n] for which [n / 100 - m * 2^e] is closest to zero, the
    larger one on a tie ([Number.prototype.toFixed], step 10.a). *)
Definition hundredths (m : positive) (e : Z) : Z :=
  if (0 <=? e)%Z then (Z.pos m * 2 ^ e * 100)%Z
  else ((200 * Z.pos m + 2 ^ (- e)) / 2 ^ (1 - e))%Z.

(** [Number(x.toFixed(2))]: the decimal with two fraction digits nearest
    to [x], read back as the nearest binary64 number.  From [1e21] on
    [toFixed] prints [String(x)], which reads back as [x]. *)
Definition toFixed2 (x : float) : float :=
  match Prim2SF x with
  | S754_nan => nan
  | S754_infinity _ => x
  | S754_zero _ => zero
  | S754_finite s m e =>
      if 1e21 <=? PrimFloat.abs x then x
      else
        match hundredths m e with
        | Z.pos n =>
            SF2Prim (SFdiv prec emax (S754_finite s n 0)
                       (S754_finite false 100 0))
        | _ => if s then neg_zero else zero
        end
  end.

End JsNumber.

(** ** JavaScript dates *)

Module JsDate.

Definition msPerDay : Z := 86400000.

(** The largest magnitude of a time value ([TimeClip]). *)
Definition maxTime : Z := 8640000000000000.

(** Days since 1970-01-01 of a proleptic Gregorian date. *)
Definition daysFromCivil (y m d : Z) : Z :=
  let y' := if m <=? 2 then y - 1 else y in
  let era := y' / 400 in
  let yoe := y' - era * 400 in
  let mp := if 2 <? m then m - 3 else m + 9 in
  let doy := (153 * mp + 2) / 5 + d - 1 in
  let doe := yoe * 365 + yoe / 4 - yoe / 100 + doy in
  era * 146097 + doe - 719468.

(** The date of a day number, as (year, month, day). *)
Definition civilFromDays (z : Z) : Z * Z * Z :=
  let z := z + 719468 in
  let era := z / 146097 in
  let doe := z - era * 146097 in
  let yoe := (doe - doe / 1460 + doe / 36524 - doe / 146096) / 365 in
  let doy := doe - (365 * yoe + yoe / 4 - yoe / 100) in
  let mp := (5 * doy + 2) / 153 in
  let d := doy - (153 * mp + 2) / 5 + 1 in
  let m := if mp <? 10 then mp + 3 else mp - 9 in
  let y := yoe + era * 400 in
  (if m <=? 2 then y + 1 else y, m, d).

Definition isLeap (y : Z) : bool :=
  ((y mod 4 =? 0) && negb (y mod 100 =? 0)) || (y mod 400 =? 0).

Definition daysInMonth (y m : Z) : Z :=
  if m =? 2 then (if isLeap y then 29 else 28)
  else if (m =? 4) || (m =? 6) || (m =? 9) || (m =? 11) then 30
  else 31.

Definition digit (c : ascii) : option Z :=
  let n := Z.of_N (N_of_ascii c) in
  if (48 <=? n) && (n <=? 57) then Some (n - 48) else None.

(** A run of decimal digits, read as a number. *)
Fixpoint digits (acc : Z) (s : string) : option Z :=
  match s with
  | EmptyString => Some acc
  | String c r =>
      match digit c with
      | Some d => digits (10 * acc + d) r
      | None => None
      end
  end.

Definition field (start len : nat) (s : string) : option Z :=
  digits 0 (String.substring start len s).

Definition charIs (i : nat) (c : ascii) (s : string) : bool :=
  match String.get i s with
  | Some c' => Ascii.eqb c c'
  | None => false
  end.

(** [YYYY-MM-DD], ten characters, with a month from 01 to 12 and a day
    from 01 to 31: the day number.  A day past the end of its month counts
    on into the next month, as [MakeDay] has it and V8 reads it: the 30th of
    February 2025 is the 2nd of March. *)
Definition parseDay (s : string) : option Z :=
  if negb ((String.length s =? 10)%nat && charIs 4 "-" s && charIs 7 "-" s)
  then None else
  match field 0 4 s, field 5 2 s, field 8 2 s with
  | Some y, Some m, Some d =>
      if (1 <=? m) && (m <=? 12) && (1 <=? d) && (d <=? 31)
      then Some (daysFromCivil y m d) else None
  | _, _, _ => None
  end.

(** [THH:mm:ss.sssZ], fourteen characters: the milliseconds into the day.
    Hour 24 is midnight at the end of the day and admits no minutes,
    seconds or milliseconds. *)
Definition parseTimeOfDay (s : string) : option Z :=
  if negb ((String.length s =? 14)%nat && charIs 0 "T" s && charIs 3 ":" s
           && charIs 6 ":" s && charIs 9 "." s && charIs 13 "Z" s)
  then None else
  match field 1 2 s, field 4 2 s, field 7 2 s, field 10 3 s with
  | Some h, Some mi, Some sec, Some ms =>
      if (h <=? 23) && (mi <=? 59) && (sec <=? 59)
         || (h =? 24) && (mi =? 0) && (sec =? 0) && (ms =? 0)
      then Some (h * 3600000 + mi * 60000 + sec * 1000 + ms) else None
  | _, _, _, _ => None
  end.

(** The zone of a date-time, [Z] or an offset [+HH:mm] or [-HH:mm]: the
    milliseconds by which the time written is ahead of UTC. *)
Definition parseZone (z : string) : option Z :=
  if String.eqb z "Z" then Some 0
  else if negb ((String.length z =? 6)%nat && charIs 3 ":" z) then None
  else
    match field 1 2 z, field 4 2 z with
    | Some h, Some mi =>
        if (h <=? 23) && (mi <=? 59) then
          if charIs 0 "+" z then Some (h * 3600000 + mi * 60000)
          else if charIs 0 "-" z then Some (- (h * 3600000 + mi * 60000))
          else None
        else None
    | _, _ => None
    end.

(** The time of a date-time, [THH:mm], [THH:mm:ss] or [THH:mm:ss.sss],
    with the seconds and the milliseconds it leaves out. *)
Definition completeTime (t : string) : option string :=
  match String.length t with
  | 6%nat => Some (t ++ ":00.000")
  | 9%nat => Some (t ++ ".000")
  | 13%nat => Some t
  | _ => None
  end.

(** The time value of a text in the Date Time String Format of ECMAScript
    with a four-digit year: the date [YYYY-MM-DD] alone, which is midnight
    UTC, or the date, a time and a zone.  [None] for any other text, among
    them a date-time without a zone, which is local time. *)
Definition parseFormat (s : string) : option Z :=
  match parseDay (String.substring 0 10 s) with
  | None => None
  | Some day =>
      let rest := String.substring 10 (String.length s - 10) s in
      if (String.length rest =? 0)%nat then Some (day * msPerDay)
      else
        let zoneLength :=
          if JsString.endsWith rest "Z" then 1%nat else 6%nat in
        let timeLength := (String.length rest - zoneLength)%nat in
        match completeTime (String.substring 0 timeLength rest),
              parseZone (String.substring timeLength zoneLength rest) with
        | Some time, Some offset =>
            match parseTimeOfDay (time ++ "Z") with
            | Some ms => Some (day * msPerDay + ms - offset)
            | None => None
            end
        | _, _ => None
        end
  end.

Definition isDigitAt (i : nat) (s : string) : bool :=
  match String.get i s with
  | Some c => match digit c with Some _ => true | None => false end
  | None => false
  end.

(** A date, the letter [T] on its own, and then no hour: not two digits,
    no more, for a number up to 24.  V8 gives such a text up with a time
    value of NaN, whatever follows. *)
Definition hourMissing (s : string) : bool :=
  match parseDay (String.substring 0 10 s) with
  | None => false
  | Some _ =>
      charIs 10 "T" s
      && match String.get 11 s with
         | Some c => (JsString.code c <? 65)%N
         | None => true
         end
      && negb ((String.length (String.substring 11 2 s) =? 2)%nat
               && match field 11 2 s with
                  | Some h => h <=? 24
                  | None => false
                  end
               && negb (isDigitAt 13 s))
  end.

(** [new Date(s).getTime()]; [None] is NaN.  A text in the Date Time
    String Format has the time value ECMAScript gives it, and a date-time
    without its hour has none.  Any other text is left to the engine, with
    its own formats and heuristics: [engine s] is what it answers. *)
Definition parse (engine : string -> option Z) (s : string) : option Z :=
  if hourMissing s then None
  else
    match parseFormat s with
    | Some t => Some t
    | None => engine s
    end.

Definition digitChar (d : Z) : ascii := ascii_of_N (Z.to_N (48 + d)).

(** The last [width] decimal digits of a non-negative number, the most
    significant first. *)
Fixpoint padded (width : nat) (n : Z) : string :=
  match width with
  | O => EmptyString
  | S w => String (digitChar (n / 10 ^ Z.of_nat w mod 10)) (padded w n)
  end.

(** The text [Date.prototype.toISOString] writes for a time value in
    range: four-digit years from 0 to 9999, a sign and six digits
    otherwise. *)
Definition isoText (t : Z) : string :=
  let day := t / msPerDay in
  let ms := t mod msPerDay in
  let '(y, m, d) := civilFromDays day in
  let year :=
    if (0 <=? y) && (y <=? 9999) then padded 4 y
    else if y <? 0 then "-" ++ padded 6 (- y) else "+" ++ padded 6 y in
  year ++ "-" ++ padded 2 m ++ "-" ++ padded 2 d ++ "T"
    ++ padded 2 (ms / 3600000) ++ ":" ++ padded 2 (ms / 60000 mod 60) ++ ":"
    ++ padded 2 (ms / 1000 mod 60) ++ "." ++ padded 3 (ms mod 1000) ++ "Z".

(** [new Date(t).toISOString()]: a [RangeError] outside the range of time
    values. *)
Definition toISOString {V} (t : Z) : Result (Thrown V) string :=
  if (- maxTime <=? t) && (t <=? maxTime) then Ok (isoText t)
  else Throw (ThrownError "Invalid time value").

End JsDate.

(** ** Audit log ([security/audit.ts]) *)

Record AuditEvent : Type := mkAuditEvent {
  ev_id : string;
  ev_at : string;
  ev_actorUserId : string;
  ev_actorRole : UserRole;
  ev_action : string;
  ev_resourceType : string;
  ev_resourceId : option string;
  ev_success : bool;
  ev_reason : option string;
  ev_metadata : gmap string string
}.

Record AuditLogInput : Type := mkAuditLogInput {
  in_actor : Actor;
  in_action : string;
  in_resourceType : string;
  in_resourceId : option string;
  in_success : bool;
  in_reason : option string;
  in_metadata : option (gmap string string)
}.

Module AuditLog.

(** The private array [events], oldest first. *)
Definition t : Type := list AuditEvent.

Definition empty : t := [].

(** [log(input)]: builds the event, pushes it, returns it.  [uuid] and
    [now] are [crypto.randomUUID()] and [new Date().toISOString()]. *)
Definition log (uuid now : string) (input : AuditLogInput) (events : t)
  : AuditEvent * t :=
  let event :=
    {| ev_id := uuid;
       ev_at := now;
       ev_actorUserId := userId (in_actor input);
       ev_actorRole := role (in_actor input);
       ev_action := in_action input;
       ev_resourceType := in_resourceType input;
       ev_resourceId := in_resourceId input;
       ev_success := in_success input;
       ev_reason := in_reason input;
       ev_metadata := default ∅ (in_metadata input) |} in
  (event, (events ++ [event])%list).

End AuditLog.

(** ** The authorized-action wrapper ([index.ts]) *)

Section Wrapper.

(** [V] is the type of the JavaScript values that occur as metadata values
    and as thrown non-[Error] values, [String_of] is [String(value)] on
    them; [T] is the result type of the unit of work, which runs on a
    state [World] (the stores) that does not hold the audit log. *)
Context {V T World : Type}.
Variable String_of : V -> string.

Record ToolRunOptions : Type := mkToolRunOptions {
  opt_actor : Actor;
  opt_permission : Permission;
  opt_action : string;
  opt_resourceType : string;
  opt_resourceId : option string;
  opt_requirePurposeOnRead : option bool;
  opt_metadata : option (gmap string V)
}.

Definition metadataToStrings (metadata : option (gmap string V))
  : gmap string string :=
  match metadata with
  | None => ∅
  | Some m => String_of <$> m
  end.

(** [error instanceof Error ? error.message : String(error)]. *)
Definition reasonOf (error : Thrown V) : string :=
  match error with
  | ThrownError message => message
  | ThrownValue v => String_of v
  end.

Definition auditInput (options : ToolRunOptions) (success : bool)
  (reason : option string) : AuditLogInput :=
  {| in_actor := opt_actor options;
     in_action := opt_action options;
     in_resourceType := opt_resourceType options;
     in_resourceId := opt_resourceId options;
     in_success := success;
     in_reason := reason;
     in_metadata := Some (metadataToStrings (opt_metadata options)) |}.

(** [runWithAuthAudit(options, fn)].  [requirePurposeOnSensitiveReads] is
    the configuration flag; the state is the world of [fn] paired with the
    audit log. *)
Definition runWithAuthAudit
  (requirePurposeOnSensitiveReads : bool) (uuid now : string)
  (options : ToolRunOptions)
  (fn : World -> Result (Thrown V) T * World)
  (st : World * AuditLog.t)
  : Result (Thrown V) T * (World * AuditLog.t) :=
  match assertAuthorized (opt_actor options) (opt_permission options) with
  | Throw e => (Throw e, st)
  | Ok _ =>
      match
        (if default false (opt_requirePurposeOnRead options)
            && requirePurposeOnSensitiveReads
         then requirePurpose (opt_actor options) "sensitive read operation"
         else Ok tt)
      with
      | Throw e => (Throw e, st)
      | Ok _ =>
          match fn (fst st) with
          | (Ok result, w) =>
              (Ok result,
               (w, snd (AuditLog.log uuid now
                          (auditInput options true None) (snd st))))
          | (Throw error, w) =>
              (Throw error,
               (w, snd (AuditLog.log uuid now
                          (auditInput options false (Some (reasonOf error)))
                          (snd st))))
          end
      end
  end.

End Wrapper.

(** ** Records of the stores ([domain.ts]) *)

Inductive AppointmentStatus : Type :=
| scheduled | checked_in | completed | cancelled.

Inductive InsuranceTier : Type := primary | secondary.

Definition tier_name (t : InsuranceTier) : string :=
  match t with primary => "primary" | secondary => "secondary" end.

Inductive LedgerEntryType : Type :=
| charge | payment | adjustment | claim | insurance_payment.

Inductive BlockType : Type := available | booked | break | hold.

Inductive TreatmentPlanStatus : Type :=
| tp_active | tp_accepted | tp_completed | tp_archived.

Inductive TreatmentPlanItemStatus : Type :=
| proposed | item_scheduled | item_completed | removed.

#[global] Instance InsuranceTier_eq_dec : EqDecision InsuranceTier.
Proof. solve_decision. Defined.

#[global] Instance LedgerEntryType_eq_dec : EqDecision LedgerEntryType.
Proof. solve_decision. Defined.

#[global] Instance BlockType_eq_dec : EqDecision BlockType.
Proof. solve_decision. Defined.

Record PatientRecord : Type := mkPatient {
  pat_id : string;
  pat_firstName : string;
  pat_lastName : string;
  pat_dateOfBirth : string;
  pat_phone : option string;
  pat_email : option string;
  pat_insuranceCarrier : option string;
  pat_metadata : gmap string string;
  pat_externalIds : gmap string string;
  pat_createdAt : string;
  pat_updatedAt : string
}.

Record AppointmentRecord : Type := mkAppointment {
  appt_id : string;
  appt_patientId : string;
  appt_provider : string;
  appt_reason : string;
  appt_startAt : string;
  appt_endAt : string;
  appt_status : AppointmentStatus;
  appt_createdAt : string
}.

Record FamilyMember : Type := mkFamilyMember {
  patientId : string;
  relationToGuarantor : string;
  isGuarantor : bool
}.

Record FamilyRecord : Type := mkFamily {
  fam_id : string;
  guarantorPatientId : string;
  members : list FamilyMember;
  fam_createdAt : string;
  fam_updatedAt : string
}.

Record InsurancePlanRecord : Type := mkInsurancePlan {
  ins_id : string;
  ins_patientId : string;
  tier : InsuranceTier;
  carrier : string;
  employer : option string;
  subscriberName : string;
  subscriberId : string;
  relationToSubscriber : string;
  groupName : option string;
  groupNumber : option string;
  annualMax : option float;
  deductible : option float;
  benefitPercentages : gmap string float;
  ins_notes : option string;
  ins_createdAt : string;
  ins_updatedAt : string
}.

Record TreatmentPlanRecord : Type := mkTreatmentPlan {
  tp_id : string;
  tp_patientId : string;
  heading : string;
  tp_status : TreatmentPlanStatus;
  signed : bool;
  tp_createdAt : string;
  tp_updatedAt : string
}.

Record TreatmentPlanItemRecord : Type := mkTreatmentPlanItem {
  item_id : string;
  planId : string;
  item_patientId : string;
  tooth : option string;
  surface : option string;
  diagnosis : option string;
  adaCode : string;
  description : string;
  fee : float;
  allowedFee : option float;
  priority : float;
  item_status : TreatmentPlanItemStatus;
  insuranceEstPrimary : float;
  insuranceEstSecondary : float;
  patientEst : float;
  item_createdAt : string;
  item_updatedAt : string
}.

Record LedgerEntryRecord : Type := mkLedgerEntry {
  led_id : string;
  led_patientId : string;
  led_familyId : option string;
  led_type : LedgerEntryType;
  amount : float;
  led_description : string;
  entryDate : string;
  relatedPlanItemId : option string;
  claimStatus : option string;
  led_createdBy : string;
  led_createdAt : string
}.

Record ScheduleBlockRecord : Type := mkScheduleBlock {
  block_id : string;
  block_provider : string;
  operatory : option string;
  block_startAt : string;
  block_endAt : string;
  blockType : BlockType;
  block_patientId : option string;
  appointmentId : option string;
  block_notes : option string;
  block_createdAt : string;
  block_updatedAt : string
}.

(** ** JavaScript [Map] and [Array.prototype.sort] *)

Module JsMap.

Section Map.
Context {A : Type}.

(** The entries in insertion order. *)
Definition t : Type := list (string * A).

Fixpoint get (k : string) (m : t) : option A :=
  match m with
  | [] => None
  | (k', v) :: r => if String.eqb k' k then Some v else get k r
  end.

(** [set] keeps the place of a key that is present and appends a new
    one. *)
Fixpoint set (k : string) (v : A) (m : t) : t :=
  match m with
  | [] => [(k, v)]
  | (k', v') :: r =>
      if String.eqb k' k then (k, v) :: r else (k', v') :: set k v r
  end.

Definition values (m : t) : list A := map snd m.

Definition keys (m : t) : list string := map fst m.
End Map.

Arguments t A : clear implicits.

End JsMap.

Section Sort.
Context {A : Type}.

(** The comparator's sign: [Lt] when it answers a negative number, [Gt]
    for a positive one, [Eq] otherwise. *)
Variable cmp : A -> A -> comparison.

Fixpoint insertSorted (x : A) (l : list A) : list A :=
  match l with
  | [] => [x]
  | y :: r =>
      match cmp x y with
      | Gt => y :: insertSorted x r
      | _ => x :: l
      end
  end.

(** A stable sort, as [Array.prototype.sort] is: of two elements the
    comparator does not order, the earlier stays first. *)
Definition sortBy (l : list A) : list A := fold_right insertSorted [] l.

End Sort.

Definition signOfZ (n : Z) : comparison := n ?= 0.

Definition signOfNumber (x : float) : comparison :=
  if (x <? 0)%float then Lt else if (0 <? x)%float then Gt else Eq.

(** ** The in-memory stores *)

Record MemoryDentalStore : Type := mkStore {
  patients : JsMap.t PatientRecord;
  appointments : JsMap.t AppointmentRecord
}.

Record MemoryClinicOpsRepository : Type := mkRepo {
  families : JsMap.t FamilyRecord;
  insurancePlans : JsMap.t InsurancePlanRecord;
  treatmentPlans : JsMap.t TreatmentPlanRecord;
  treatmentPlanItems : JsMap.t TreatmentPlanItemRecord;
  ledgerEntries : JsMap.t LedgerEntryRecord;
  scheduleBlocks : JsMap.t ScheduleBlockRecord
}.

(** Two half-open intervals of ISO strings overlap. *)
Definition overlap (startA endA startB endB : string) : bool :=
  JsString.lt startA endB && JsString.gt endA startB.

Section Stores.

(** [a.localeCompare(b)]: the host's collation, a negative, zero or
    positive number. *)
Variable localeCompare : string -> string -> Z.

Definition byLocale {A} (key : A -> string) (a b : A) : comparison :=
  signOfZ (localeCompare (key a) (key b)).

(** *** [MemoryDentalStore] *)

Definition getPatient (store : MemoryDentalStore) (id : string)
  : option PatientRecord :=
  JsMap.get id (patients store).

Definition listAppointmentsByRange (store : MemoryDentalStore)
  (startAt endAt : string) (provider : option string)
  : list AppointmentRecord :=
  sortBy (byLocale appt_startAt)
    (filter
       (fun appointment =>
          let overlaps :=
            JsString.lt (appt_startAt appointment) endAt
            && JsString.gt (appt_endAt appointment) startAt in
          if negb overlaps then false
          else if match provider with
                  | Some p =>
                      JsString.truthy p
                      && negb (String.eqb (appt_provider appointment) p)
                  | None => false
                  end
               then false
               else true)
       (JsMap.values (appointments store))).

(** *** [MemoryClinicOpsRepository] *)

Definition findFamilyById (repo : MemoryClinicOpsRepository)
  (familyId : string) : option FamilyRecord :=
  JsMap.get familyId (families repo).

Definition findFamilyByGuarantor (repo : MemoryClinicOpsRepository)
  (guarantor : string) : option FamilyRecord :=
  find (fun family => String.eqb (guarantorPatientId family) guarantor)
    (JsMap.values (families repo)).

Definition saveFamily (repo : MemoryClinicOpsRepository)
  (family : FamilyRecord) : MemoryClinicOpsRepository :=
  {| families := JsMap.set (fam_id family) family (families repo);
     insurancePlans := insurancePlans repo;
     treatmentPlans := treatmentPlans repo;
     treatmentPlanItems := treatmentPlanItems repo;
     ledgerEntries := ledgerEntries repo;
     scheduleBlocks := scheduleBlocks repo |}.

Definition listInsurancePlansByPatient (repo : MemoryClinicOpsRepository)
  (patient : string) : list InsurancePlanRecord :=
  sortBy (byLocale (fun plan => tier_name (tier plan)))
    (filter (fun plan => String.eqb (ins_patientId plan) patient)
       (JsMap.values (insurancePlans repo))).

Definition getTreatmentPlan (repo : MemoryClinicOpsRepository)
  (id : string) : option TreatmentPlanRecord :=
  JsMap.get id (treatmentPlans repo).

Definition saveTreatmentPlanItem (repo : MemoryClinicOpsRepository)
  (item : TreatmentPlanItemRecord) : MemoryClinicOpsRepository :=
  {| families := families repo;
     insurancePlans := insurancePlans repo;
     treatmentPlans := treatmentPlans repo;
     treatmentPlanItems :=
       JsMap.set (item_id item) item (treatmentPlanItems repo);
     ledgerEntries := ledgerEntries repo;
     scheduleBlocks := scheduleBlocks repo |}.

Definition listTreatmentPlanItemsByPlan (repo : MemoryClinicOpsRepository)
  (plan : string) : list TreatmentPlanItemRecord :=
  sortBy (fun a b => signOfNumber (priority a - priority b)%float)
    (filter (fun item => String.eqb (planId item) plan)
       (JsMap.values (treatmentPlanItems repo))).

Definition listLedgerEntriesByPatient (repo : MemoryClinicOpsRepository)
  (patient : string) : list LedgerEntryRecord :=
  sortBy (byLocale entryDate)
    (filter (fun entry => String.eqb (led_patientId entry) patient)
       (JsMap.values (ledgerEntries repo))).

Definition listScheduleBlocksByProviderInRange
  (repo : MemoryClinicOpsRepository) (provider startIso endIso : string)
  : list ScheduleBlockRecord :=
  sortBy (byLocale block_startAt)
    (filter
       (fun block =>
          overlap (block_startAt block) (block_endAt block) startIso endIso)
       (filter (fun block => String.eqb (block_provider block) provider)
          (JsMap.values (scheduleBlocks repo)))).

End Stores.

(** ** The clinic-operations service ([services/clinicOps.ts]) *)

(** [clampPercent(value, fallback)]: [value] is [undefined] or a number. *)
Definition clampPercent (value : option float) (fallback : float) : float :=
  match value with
  | None => fallback
  | Some v =>
      if negb (JsNumber.isFinite v) then fallback
      else JsNumber.Math_max 0 (JsNumber.Math_min 100 v)
  end.

(** The branches of [estimateCategoryFromAdaCode], on the upper-cased
    code. *)
Definition categoryOfUpper (code : string) : string :=
  if JsString.startsWith code "D1" || JsString.startsWith code "T1" then
    "preventive"
  else if JsString.startsWith code "D3" || JsString.startsWith code "T3"
          || JsString.startsWith code "D2" then
    "restorative"
  else if JsString.startsWith code "D33" || JsString.startsWith code "D34" then
    "endodontic"
  else if JsString.startsWith code "D4" then
    "periodontal"
  else if JsString.startsWith code "D7" then
    "oralSurgery"
  else if JsString.startsWith code "D27" then
    "crowns"
  else if JsString.startsWith code "D5" || JsString.startsWith code "D6" then
    "prosthodontics"
  else
    "restorative".

Definition estimateCategoryFromAdaCode (adaCode : string) : string :=
  categoryOfUpper (JsString.toUpperCase adaCode).

Inductive AgingBucket : Type := age_0_30 | age_31_60 | age_61_90 | age_over_90.

#[global] Instance AgingBucket_eq_dec : EqDecision AgingBucket.
Proof. solve_decision. Defined.

Definition bucket_name (b : AgingBucket) : string :=
  match b with
  | age_0_30 => "0-30" | age_31_60 => "31-60" | age_61_90 => "61-90"
  | age_over_90 => "over-90"
  end.

(** [Math.floor((now - time) / (1000 * 60 * 60 * 24))] for integral [now]
    and [time]: the quotient is computed in binary64 and then floored.  The
    function only tests it against 30, 60 and 90, and there the flooring of
    the rounded quotient and the integer division agree: a quotient below
    an integer [k <= 91] is at least [1 / 86400000] below it, far more than
    the spacing of binary64 numbers of that size, and rounding is monotone.
    So the age is taken with [Z]'s floor division. *)
Definition ageDays (now time : Z) : Z := (now - time) / JsDate.msPerDay.

(** [bucketByAge(entryDate)]; [now] is what [Date.now()] answers in this
    call.  With an entry date that [new Date] does not read, the age is NaN
    and every comparison fails. *)
Definition bucketByAge (engine : string -> option Z) (now : Z)
  (entryDate : string) : AgingBucket :=
  match JsDate.parse engine entryDate with
  | None => age_over_90
  | Some time =>
      let ageDays := ageDays now time in
      if ageDays <=? 30 then age_0_30
      else if ageDays <=? 60 then age_31_60
      else if ageDays <=? 90 then age_61_90
      else age_over_90
  end.

Record UpsertFamilyInput : Type := mkUpsertFamilyInput {
  uf_familyId : option string;
  uf_guarantorPatientId : string;
  uf_memberPatientId : string;
  uf_relationToGuarantor : string
}.

Record FindOpenSlotsInput : Type := mkFindOpenSlotsInput {
  fs_provider : string;
  fs_date : string;
  durationMinutes : Z;
  intervalMinutes : option Z;
  startHour : option Z;
  endHour : option Z
}.

Record Slot : Type := mkSlot {
  startAt : string;
  endAt : string
}.

Record EstimateTotals : Type := mkTotals {
  feeTotal : float;
  primaryEstimateTotal : float;
  secondaryEstimateTotal : float;
  patientEstimateTotal : float
}.

Record Estimate : Type := mkEstimate {
  est_plan : TreatmentPlanRecord;
  est_items : list TreatmentPlanItemRecord;
  est_totals : EstimateTotals
}.

Record Aging : Type := mkAging {
  aging_0_30 : float;
  aging_31_60 : float;
  aging_61_90 : float;
  aging_over_90 : float
}.

Definition agingAt (a : Aging) (b : AgingBucket) : float :=
  match b with
  | age_0_30 => aging_0_30 a | age_31_60 => aging_31_60 a
  | age_61_90 => aging_61_90 a | age_over_90 => aging_over_90 a
  end.

(** [aging[bucket] += amount]. *)
Definition agingAdd (a : Aging) (b : AgingBucket) (x : float) : Aging :=
  match b with
  | age_0_30 =>
      mkAging (aging_0_30 a + x)%float (aging_31_60 a) (aging_61_90 a) (aging_over_90 a)
  | age_31_60 =>
      mkAging (aging_0_30 a) (aging_31_60 a + x)%float (aging_61_90 a) (aging_over_90 a)
  | age_61_90 =>
      mkAging (aging_0_30 a) (aging_31_60 a) (aging_61_90 a + x)%float (aging_over_90 a)
  | age_over_90 =>
      mkAging (aging_0_30 a) (aging_31_60 a) (aging_61_90 a) (aging_over_90 a + x)%float
  end.

Record AccountTotals : Type := mkAccountTotals {
  charges : float;
  credits : float;
  pendingInsurance : float;
  estimatedBalance : float
}.

Record AccountSnapshot : Type := mkSnapshot {
  snap_entries : list LedgerEntryRecord;
  snap_aging : Aging;
  snap_totals : AccountTotals
}.

(** [String(n)] of an integral number. *)
Definition String_of_Z (n : Z) : string :=
  NilEmpty.string_of_int (Z.to_int n).

(** [s.padStart(2, "0")]. *)
Definition padStart2 (s : string) : string :=
  match String.length s with
  | O => "00" ++ s
  | S O => "0" ++ s
  | _ => s
  end.

Section ClinicOpsService.

Context {V : Type}.
Variable localeCompare : string -> string -> Z.
Variable engine : string -> option Z.

Abbreviation Fallible A := (Result (Thrown V) A).

(** *** Family linker *)

(** [existingMember.relationToGuarantor = relation] on the member that
    [find] returns, the first with that patient id. *)
Fixpoint relabelFirst (member relation : string) (l : list FamilyMember)
  : list FamilyMember :=
  match l with
  | [] => []
  | m :: r =>
      if String.eqb (patientId m) member
      then mkFamilyMember (patientId m) relation (isGuarantor m) :: r
      else m :: relabelFirst member relation r
  end.

(** [input.familyId] when it is a non-empty string. *)
Definition givenFamilyId (input : UpsertFamilyInput) : option string :=
  match uf_familyId input with
  | Some f => if JsString.truthy f then Some f else None
  | None => None
  end.

(** [upsertFamily(input)]; [now] is [nowIso()] and [uuid] what
    [crypto.randomUUID()] answers if it is called.  The family found in
    the repository is the stored object itself, and [saveFamily], the only
    writer of the map, keeps every family under its own id: changing the
    object and saving it under its id is one update of the map. *)
Definition upsertFamily (now uuid : string) (input : UpsertFamilyInput)
  (store : MemoryDentalStore) (repo : MemoryClinicOpsRepository)
  : Fallible FamilyRecord * MemoryClinicOpsRepository :=
  match getPatient store (uf_guarantorPatientId input),
        getPatient store (uf_memberPatientId input) with
  | Some _, Some _ =>
      let byId :=
        match givenFamilyId input with
        | Some f => findFamilyById repo f
        | None => None
        end in
      let found :=
        match byId with
        | Some f => Some f
        | None => findFamilyByGuarantor repo (uf_guarantorPatientId input)
        end in
      let family :=
        match found with
        | Some f => f
        | None =>
            {| fam_id := default uuid (givenFamilyId input);
               guarantorPatientId := uf_guarantorPatientId input;
               members :=
                 [ mkFamilyMember (uf_guarantorPatientId input) "self" true ];
               fam_createdAt := now;
               fam_updatedAt := now |}
        end in
      let existingMember :=
        find (fun m => String.eqb (patientId m) (uf_memberPatientId input))
          (members family) in
      let members' :=
        match existingMember with
        | Some _ =>
            relabelFirst (uf_memberPatientId input)
              (uf_relationToGuarantor input) (members family)
        | None =>
            (members family
               ++ [ mkFamilyMember (uf_memberPatientId input)
                      (uf_relationToGuarantor input) false ])%list
        end in
      let family' :=
        {| fam_id := fam_id family;
           guarantorPatientId := guarantorPatientId family;
           members := members';
           fam_createdAt := fam_createdAt family;
           fam_updatedAt := now |} in
      (Ok family', saveFamily repo family')
  | _, _ =>
      (Throw (ThrownError "Guarantor and member must both exist"), repo)
  end.

(** *** Benefit estimation *)

Definition listInsurancePlans (repo : MemoryClinicOpsRepository)
  (patient : string) : list InsurancePlanRecord :=
  listInsurancePlansByPatient localeCompare repo patient.

(** [plan?.benefitPercentages?.[category]]. *)
Definition benefitOf (plan : option InsurancePlanRecord) (category : string)
  : option float :=
  match plan with
  | Some p => benefitPercentages p !! category
  | None => None
  end.

(** The body of the [map] callback of [estimateTreatmentPlan]: the record
    that is saved for [item]; [now] is [nowIso()]. *)
Definition estimateItem (primary secondary : option InsurancePlanRecord)
  (now : string) (item : TreatmentPlanItemRecord) : TreatmentPlanItemRecord :=
  let category := estimateCategoryFromAdaCode (adaCode item) in
  let allowed :=
    match allowedFee item with Some a => a | None => fee item end in
  let primaryPct := clampPercent (benefitOf primary category) 0 in
  let primaryEstimate := (allowed * primaryPct / 100)%float in
  let remainingAfterPrimary :=
    JsNumber.Math_max 0 (allowed - primaryEstimate)%float in
  let secondaryPct := clampPercent (benefitOf secondary category) 0 in
  let secondaryEstimate := (remainingAfterPrimary * secondaryPct / 100)%float in
  let patientEstimate :=
    JsNumber.Math_max 0 (fee item - primaryEstimate - secondaryEstimate)%float in
  {| item_id := item_id item;
     planId := planId item;
     item_patientId := item_patientId item;
     tooth := tooth item;
     surface := surface item;
     diagnosis := diagnosis item;
     adaCode := adaCode item;
     description := description item;
     fee := fee item;
     allowedFee := allowedFee item;
     priority := priority item;
     item_status := item_status item;
     insuranceEstPrimary := JsNumber.toFixed2 primaryEstimate;
     insuranceEstSecondary := JsNumber.toFixed2 secondaryEstimate;
     patientEst := JsNumber.toFixed2 patientEstimate;
     item_createdAt := item_createdAt item;
     item_updatedAt := now |}.

(** The callbacks run in the order of the items; the [k]-th reads the
    clock as [clock k]. *)
Fixpoint estimateItems (primary secondary : option InsurancePlanRecord)
  (clock : nat -> string) (k : nat) (items : list TreatmentPlanItemRecord)
  : list TreatmentPlanItemRecord :=
  match items with
  | [] => []
  | item :: r =>
      estimateItem primary secondary (clock k) item
        :: estimateItems primary secondary clock (S k) r
  end.

Definition addTotals (acc : EstimateTotals) (item : TreatmentPlanItemRecord)
  : EstimateTotals :=
  {| feeTotal := (feeTotal acc + fee item)%float;
     primaryEstimateTotal :=
       (primaryEstimateTotal acc + insuranceEstPrimary item)%float;
     secondaryEstimateTotal :=
       (secondaryEstimateTotal acc + insuranceEstSecondary item)%float;
     patientEstimateTotal := (patientEstimateTotal acc + patientEst item)%float |}.

Definition roundTotals (t : EstimateTotals) : EstimateTotals :=
  {| feeTotal := JsNumber.toFixed2 (feeTotal t);
     primaryEstimateTotal := JsNumber.toFixed2 (primaryEstimateTotal t);
     secondaryEstimateTotal := JsNumber.toFixed2 (secondaryEstimateTotal t);
     patientEstimateTotal := JsNumber.toFixed2 (patientEstimateTotal t) |}.

Definition isTier (t : InsuranceTier) (plan : InsurancePlanRecord) : bool :=
  bool_decide (tier plan = t).

(** [estimateTreatmentPlan(planId)]. *)
Definition estimateTreatmentPlan (clock : nat -> string) (id : string)
  (repo : MemoryClinicOpsRepository)
  : Fallible Estimate * MemoryClinicOpsRepository :=
  match getTreatmentPlan repo id with
  | None =>
      (Throw (ThrownError ("Treatment plan " ++ id ++ " not found")), repo)
  | Some plan =>
      let insurance := listInsurancePlans repo (tp_patientId plan) in
      let primary := find (isTier primary) insurance in
      let secondary := find (isTier secondary) insurance in
      let sourceItems :=
        listTreatmentPlanItemsByPlan repo (tp_id plan) in
      let items := estimateItems primary secondary clock 0 sourceItems in
      let repo' := fold_left saveTreatmentPlanItem items repo in
      let totals := fold_left addTotals items (mkTotals 0 0 0 0) in
      (Ok (mkEstimate plan items (roundTotals totals)), repo')
  end.

(** *** Account ledger *)

Record LedgerSums : Type := mkSums {
  sum_aging : Aging;
  sum_charges : float;
  sum_credits : float;
  sum_pending : float;
  sum_reads : nat
}.

(** One turn of the loop of [getAccountSnapshot]; [sum_reads] counts the
    calls of [bucketByAge] so far, the [k]-th finding [Date.now()] to be
    [clock k]. *)
Definition ledgerStep (clock : nat -> Z) (s : LedgerSums)
  (entry : LedgerEntryRecord) : LedgerSums :=
  match led_type entry with
  | charge | adjustment =>
      let bucket :=
        bucketByAge engine (clock (sum_reads s)) (entryDate entry) in
      {| sum_aging := agingAdd (sum_aging s) bucket (amount entry);
         sum_charges := (sum_charges s + amount entry)%float;
         sum_credits := sum_credits s;
         sum_pending := sum_pending s;
         sum_reads := S (sum_reads s) |}
  | payment | insurance_payment =>
      {| sum_aging := sum_aging s;
         sum_charges := sum_charges s;
         sum_credits := (sum_credits s + amount entry)%float;
         sum_pending := sum_pending s;
         sum_reads := sum_reads s |}
  | claim =>
      {| sum_aging := sum_aging s;
         sum_charges := sum_charges s;
         sum_credits := sum_credits s;
         sum_pending := (sum_pending s + amount entry)%float;
         sum_reads := sum_reads s |}
  end.

Definition ledgerSums (clock : nat -> Z) (entries : list LedgerEntryRecord)
  : LedgerSums :=
  fold_left (ledgerStep clock) entries
    (mkSums (mkAging 0 0 0 0) 0 0 0 O).

(** The object [getAccountSnapshot] returns for the listed entries. *)
Definition snapshotOf (clock : nat -> Z) (entries : list LedgerEntryRecord)
  : AccountSnapshot :=
  let s := ledgerSums clock entries in
  {| snap_entries := entries;
     snap_aging :=
       mkAging (JsNumber.toFixed2 (aging_0_30 (sum_aging s)))
         (JsNumber.toFixed2 (aging_31_60 (sum_aging s)))
         (JsNumber.toFixed2 (aging_61_90 (sum_aging s)))
         (JsNumber.toFixed2 (aging_over_90 (sum_aging s)));
     snap_totals :=
       {| charges := JsNumber.toFixed2 (sum_charges s);
          credits := JsNumber.toFixed2 (sum_credits s);
          pendingInsurance := JsNumber.toFixed2 (sum_pending s);
          estimatedBalance :=
            JsNumber.toFixed2
              (sum_charges s - sum_credits s - sum_pending s)%float |} |}.

(** [getAccountSnapshot(patientId)]. *)
Definition getAccountSnapshot (clock : nat -> Z) (patient : string)
  (repo : MemoryClinicOpsRepository) : AccountSnapshot :=
  snapshotOf clock (listLedgerEntriesByPatient localeCompare repo patient).

End ClinicOpsService.


(** ** Scheduling ([services/clinicOps.ts]) *)

Section Scheduling.

Context {V : Type}.
Variable localeCompare : string -> string -> Z.
Variable engine : string -> option Z.

(** The most elements an array holds, [2^32 - 1]: a [push] onto an array
    of that length throws a [RangeError]. *)
Definition arrayLimit : Z := 4294967295.

(** The [while] loop of [createTimeSlots] with [room] for that many more
    slots in the array.  A time value out of range makes [toISOString]
    throw, and so does a [push] without room. *)
Fixpoint slotsLoop (room : nat) (cursor end_ durationMs intervalMs : Z)
  {struct room} : Result (Thrown V) (list Slot) :=
  if cursor + durationMs <=? end_ then
    match JsDate.toISOString cursor with
    | Throw e => Throw e
    | Ok slotStart =>
        match JsDate.toISOString (cursor + durationMs) with
        | Throw e => Throw e
        | Ok slotEnd =>
            match room with
            | O => Throw (ThrownError "Invalid array length")
            | S room' =>
                match
                  slotsLoop room' (cursor + intervalMs) end_ durationMs
                    intervalMs
                with
                | Throw e => Throw e
                | Ok slots => Ok (mkSlot slotStart slotEnd :: slots)
                end
            end
        end
    end
  else Ok [].

(** A number of turns by which the loop has ended: none when the test
    fails at once; else, with a positive step the cursor has passed the
    end, with a negative one it has left the range of time values, and with
    a step of zero the array is full. *)
Definition turnsBound (cursor end_ durationMs intervalMs : Z) : Z :=
  if cursor + durationMs <=? end_ then
    if 0 <? intervalMs then (end_ - cursor - durationMs) / intervalMs + 1
    else if intervalMs <? 0 then
      Z.max 0 ((cursor + JsDate.maxTime) / (- intervalMs) + 1)
    else arrayLimit
  else 0.

(** [createTimeSlots(startIso, endIso, durationMinutes, intervalMinutes)].
    With a start or an end that is NaN the loop test fails at once.  The
    array starts empty, with room for [arrayLimit] slots; room beyond
    [turnsBound] is never used (lemma [slotsLoop_room] below), so the loop
    is run with the smaller of the two. *)
Definition createTimeSlots (startIso endIso : string)
  (durationMinutes intervalMinutes : Z) : Result (Thrown V) (list Slot) :=
  let durationMs := durationMinutes * 60 * 1000 in
  let intervalMs := intervalMinutes * 60 * 1000 in
  match JsDate.parse engine startIso, JsDate.parse engine endIso with
  | Some cursor, Some end_ =>
      slotsLoop
        (Z.to_nat
           (Z.min arrayLimit (turnsBound cursor end_ durationMs intervalMs)))
        cursor end_ durationMs intervalMs
  | _, _ => Ok []
  end.

Definition isAvailable (block : ScheduleBlockRecord) : bool :=
  bool_decide (blockType block = available).

(** [["booked", "break", "hold"].includes(block.blockType)]. *)
Definition isBlocking (block : ScheduleBlockRecord) : bool :=
  includes [booked; break; hold] (blockType block).

(** A slot lies within a block, bounds included. *)
Definition within (slot : Slot) (block : ScheduleBlockRecord) : bool :=
  JsString.ge (startAt slot) (block_startAt block)
  && JsString.le (endAt slot) (block_endAt block).

(** The callback of the final [filter] of [findOpenSlots]. *)
Definition slotIsOpen (availableBlocks blockingBlocks : list ScheduleBlockRecord)
  (appointments : list AppointmentRecord) (slot : Slot) : bool :=
  if (0 <? List.length availableBlocks)%nat
     && negb (existsb (within slot) availableBlocks)
  then false
  else if existsb
            (fun appointment =>
               overlap (startAt slot) (endAt slot) (appt_startAt appointment)
                 (appt_endAt appointment))
            appointments
  then false
  else if existsb
            (fun block =>
               overlap (startAt slot) (endAt slot) (block_startAt block)
                 (block_endAt block))
            blockingBlocks
  then false
  else true.

(** [input.intervalMinutes || 15]. *)
Definition intervalOf (input : FindOpenSlotsInput) : Z :=
  match intervalMinutes input with
  | Some i => if i =? 0 then 15 else i
  | None => 15
  end.

Definition hourText (date : string) (hour : Z) : string :=
  (date ++ "T" ++ padStart2 (String_of_Z hour) ++ ":00:00.000Z")%string.

(** The appointments and the schedule blocks [findOpenSlots] fetches for a
    provider and a date. *)
Definition dayAppointments (store : MemoryDentalStore) (provider date : string)
  : list AppointmentRecord :=
  listAppointmentsByRange localeCompare store
    (date ++ "T00:00:00.000Z")%string (date ++ "T23:59:59.999Z")%string
    (Some provider).

Definition dayBlocks (repo : MemoryClinicOpsRepository) (provider date : string)
  : list ScheduleBlockRecord :=
  listScheduleBlocksByProviderInRange localeCompare repo provider
    (date ++ "T00:00:00.000Z")%string (date ++ "T23:59:59.999Z")%string.

(** [findOpenSlots(input)]. *)
Definition findOpenSlots (input : FindOpenSlotsInput)
  (store : MemoryDentalStore) (repo : MemoryClinicOpsRepository)
  : Result (Thrown V) (list Slot) :=
  let startHour' := default 8 (startHour input) in
  let endHour' := default 17 (endHour input) in
  let rangeStart := hourText (fs_date input) startHour' in
  let rangeEnd := hourText (fs_date input) endHour' in
  match
    createTimeSlots rangeStart rangeEnd (durationMinutes input)
      (intervalOf input)
  with
  | Ok baseSlots =>
      let appointments :=
        dayAppointments store (fs_provider input) (fs_date input) in
      let providerBlocks :=
        dayBlocks repo (fs_provider input) (fs_date input) in
      let availableBlocks := filter isAvailable providerBlocks in
      let blockingBlocks := filter isBlocking providerBlocks in
      Ok (filter (slotIsOpen availableBlocks blockingBlocks appointments)
            baseSlots)
  | Throw e => Throw e
  end.

End Scheduling.


(** * Vocabulary of the statements *)

(** A permission tag of the form [*:write]. *)
Definition isWritePermission (p : Permission) : bool :=
  JsString.endsWith (permission_name p) ":write".

(** The code units of white space and of line ends: what
    [String.prototype.trim] strips. *)
Definition whiteSpaceUnits : list N :=
  [ 9; 10; 11; 12; 13; 32; 160; 5760; 8192; 8193; 8194; 8195; 8196; 8197;
    8198; 8199; 8200; 8201; 8202; 8232; 8233; 8239; 8287; 12288; 65279 ]%N.

(** The purpose-of-use check the wrapper makes for [options], if any. *)
Definition purposeGuard {V} (requirePurposeOnSensitiveReads : bool)
  (requirePurposeOnRead : option bool) (actor : Actor)
  : Result (Thrown V) unit :=
  if default false requirePurposeOnRead && requirePurposeOnSensitiveReads
  then requirePurpose actor "sensitive read operation"
  else Ok tt.

Section SchedulingVocabulary.

Context {V : Type}.
Variable localeCompare : string -> string -> Z.
Variable engine : string -> option Z.

(** The day's window, as [findOpenSlots] writes it. *)
Definition dayStartText (date : string) : string := (date ++ "T00:00:00.000Z")%string.
Definition dayEndText (date : string) : string := (date ++ "T23:59:59.999Z")%string.

(** The candidate slots of a request. *)
Definition baseSlotsOf (input : FindOpenSlotsInput)
  : Result (Thrown V) (list Slot) :=
  createTimeSlots engine
    (hourText (fs_date input) (default 8 (startHour input)))
    (hourText (fs_date input) (default 17 (endHour input)))
    (durationMinutes input) (intervalOf input).

(** The [available] blocks [findOpenSlots] works with. *)
Definition availableBlocksOf (repo : MemoryClinicOpsRepository)
  (input : FindOpenSlotsInput) : list ScheduleBlockRecord :=
  filter isAvailable
    (dayBlocks localeCompare repo (fs_provider input) (fs_date input)).

Definition blockingBlocksOf (repo : MemoryClinicOpsRepository)
  (input : FindOpenSlotsInput) : list ScheduleBlockRecord :=
  filter isBlocking
    (dayBlocks localeCompare repo (fs_provider input) (fs_date input)).

(** A slot overlaps none of the appointments and none of the blocks. *)
Definition clearOf (appointments : list AppointmentRecord)
  (blocks : list ScheduleBlockRecord) (slot : Slot) : bool :=
  negb (existsb
          (fun a => overlap (startAt slot) (endAt slot) (appt_startAt a)
                      (appt_endAt a))
          appointments)
  && negb (existsb
             (fun b => overlap (startAt slot) (endAt slot) (block_startAt b)
                         (block_endAt b))
             blocks).

End SchedulingVocabulary.

(** ** Data of the worked examples *)

(** A collation for the examples: by code units. *)
Definition codeUnitCompare (a b : string) : Z :=
  match String.compare a b with Lt => -1 | Eq => 0 | Gt => 1 end.

Definition exProvider : string := "dr-lee".
Definition exDate : string := "2025-01-06".

(** 30-minute slots every 15 minutes between 08:00 and 17:00. *)
Definition exRequest : FindOpenSlotsInput :=
  mkFindOpenSlotsInput exProvider exDate 30 (Some 15) (Some 8) (Some 17).



Definition exBlock (id : string) (type : BlockType) (start_ end_ : string)
  : ScheduleBlockRecord :=
  mkScheduleBlock id exProvider None start_ end_ type None None None
    "2025-01-02T08:00:00.000Z" "2025-01-02T08:00:00.000Z".

Definition exAvailable : ScheduleBlockRecord :=
  exBlock "block-1" available "2025-01-06T09:00:00.000Z"
    "2025-01-06T12:00:00.000Z".

Definition exBreak : ScheduleBlockRecord :=
  exBlock "block-2" break "2025-01-06T12:00:00.000Z"
    "2025-01-06T13:00:00.000Z".

Definition exAppointment : AppointmentRecord :=
  mkAppointment "appt-1" "pat-1" exProvider "cleaning"
    "2025-01-06T10:00:00.000Z" "2025-01-06T10:30:00.000Z" scheduled
    "2025-01-02T08:00:00.000Z".

Definition emptyStore : MemoryDentalStore := mkStore [] [].
Definition emptyRepo : MemoryClinicOpsRepository := mkRepo [] [] [] [] [] [].

Definition withBlocks (blocks : list ScheduleBlockRecord)
  : MemoryClinicOpsRepository :=
  mkRepo [] [] [] [] [] (map (fun b => (block_id b, b)) blocks).

Definition withAppointments (l : list AppointmentRecord) : MemoryDentalStore :=
  mkStore [] (map (fun a => (appt_id a, a)) l).

(** The slots of [minutes] minutes that start [step] minutes apart, [n] of
    them from the instant [t0] on. *)
Definition slotsFrom (t0 minutes step : Z) (n : nat) : list Slot :=
  map (fun k : nat =>
         mkSlot (JsDate.isoText (t0 + Z.of_nat k * (step * 60000)))
           (JsDate.isoText (t0 + Z.of_nat k * (step * 60000) + minutes * 60000)))
    (seq 0 n).

(** 2025-01-06T00:00:00.000Z. *)
Definition exMidnight : Z := 1736121600000.

(** ** Ledger vocabulary *)

Definition isChargeLike (e : LedgerEntryRecord) : bool :=
  bool_decide (led_type e = charge) || bool_decide (led_type e = adjustment).

Definition isCredit (e : LedgerEntryRecord) : bool :=
  bool_decide (led_type e = payment)
  || bool_decide (led_type e = insurance_payment).

Definition isClaim (e : LedgerEntryRecord) : bool :=
  bool_decide (led_type e = claim).

(** The amounts of the entries added to [acc] one after the other. *)
Definition addAmounts (acc : float) (l : list LedgerEntryRecord) : float :=
  fold_left (fun a e => (a + amount e)%float) l acc.

(** The charges and adjustments among the entries, each with the bucket
    [bucketByAge] gives it; the [k]-th of them is aged at [clock k]. *)
Fixpoint bucketsFrom (engine : string -> option Z) (clock : nat -> Z)
  (k : nat) (entries : list LedgerEntryRecord)
  : list (LedgerEntryRecord * AgingBucket) :=
  match entries with
  | [] => []
  | e :: r =>
      if isChargeLike e
      then (e, bucketByAge engine (clock k) (entryDate e))
             :: bucketsFrom engine clock (S k) r
      else bucketsFrom engine clock k r
  end.

(** The entries placed in bucket [b]. *)
Definition placedIn (b : AgingBucket)
  (l : list (LedgerEntryRecord * AgingBucket)) : list LedgerEntryRecord :=
  map fst (filter (fun p => bool_decide (snd p = b)) l).

Definition exLedgerEntry (id : string) (type : LedgerEntryType) (x : float)
  (date : string) : LedgerEntryRecord :=
  mkLedgerEntry id "pat-1" None type x "entry" date None None "u-1" date.

Definition withLedger (l : list LedgerEntryRecord) : MemoryClinicOpsRepository :=
  mkRepo [] [] [] [] (map (fun e => (led_id e, e)) l) [].

(** ** Map invariant *)

(** A [Map] has each key once; a store keeps each record under its id. *)
Definition keyedBy {A : Type} (id : A -> string) (m : JsMap.t A) : Prop :=
  List.NoDup (JsMap.keys m) /\ Forall (fun kv => id (snd kv) = fst kv) m.

(** ** The estimation waterfall, in the words of the specification *)














(** ** Family vocabulary *)

(** The family the call works on, if the repository has one: the family of
    the given id, else the first family of the guarantor. *)
Definition locateFamily (input : UpsertFamilyInput)
  (repo : MemoryClinicOpsRepository) : option FamilyRecord :=
  match
    match givenFamilyId input with
    | Some f => findFamilyById repo f
    | None => None
    end
  with
  | Some f => Some f
  | None => findFamilyByGuarantor repo (uf_guarantorPatientId input)
  end.

(** The family that is created when none is found. *)
Definition freshFamily (now uuid : string) (input : UpsertFamilyInput)
  : FamilyRecord :=
  {| fam_id := default uuid (givenFamilyId input);
     guarantorPatientId := uf_guarantorPatientId input;
     members := [ mkFamilyMember (uf_guarantorPatientId input) "self" true ];
     fam_createdAt := now;
     fam_updatedAt := now |}.

(** The family with the member of the call linked to it. *)
Definition linkMember (now : string) (input : UpsertFamilyInput)
  (family : FamilyRecord) : FamilyRecord :=
  {| fam_id := fam_id family;
     guarantorPatientId := guarantorPatientId family;
     members :=
       match
         find (fun m => String.eqb (patientId m) (uf_memberPatientId input))
           (members family)
       with
       | Some _ =>
           relabelFirst (uf_memberPatientId input)
             (uf_relationToGuarantor input) (members family)
       | None =>
           (members family
              ++ [ mkFamilyMember (uf_memberPatientId input)
                     (uf_relationToGuarantor input) false ])%list
       end;
     fam_createdAt := fam_createdAt family;
     fam_updatedAt := now |}.

(** The number of entries of a member list for a patient. *)
Definition countMember (patient : string) (l : list FamilyMember) : nat :=
  count_occ string_dec (map patientId l) patient.

(** The families are kept under their ids, and none lists a patient
    twice. *)
Definition familiesWf (repo : MemoryClinicOpsRepository) : Prop :=
  keyedBy fam_id (families repo)
  /\ Forall (fun kv => List.NoDup (map patientId (members (snd kv))))
       (families repo).

Definition exPatient (id first last_ : string) : PatientRecord :=
  mkPatient id first last_ "1980-02-03" None None None ∅ ∅
    "2025-01-02T08:00:00.000Z" "2025-01-02T08:00:00.000Z".

Definition exFamilyStore : MemoryDentalStore :=
  mkStore
    [ ("pat-1", exPatient "pat-1" "Ana" "Lee");
      ("pat-2", exPatient "pat-2" "Ben" "Lee") ]
    [].

Definition exLink : UpsertFamilyInput :=
  mkUpsertFamilyInput None "pat-1" "pat-2" "child".

(** ** Instants *)

(** The first and the last instant of the years 0 to 9999. *)
Definition firstInstant : Z := -62167219200000.
Definition lastInstant : Z := 253402300799999.

(** The day number of a date of the calendar: [YYYY-MM-DD] with a day that
    its month has. *)
Definition calendarDay (s : string) : option Z :=
  if negb ((String.length s =? 10)%nat && JsDate.charIs 4 "-" s
           && JsDate.charIs 7 "-" s)
  then None else
  match JsDate.field 0 4 s, JsDate.field 5 2 s, JsDate.field 8 2 s with
  | Some y, Some m, Some d =>
      if (1 <=? m) && (m <=? 12) && (1 <=? d) && (d <=? JsDate.daysInMonth y m)
      then Some (JsDate.daysFromCivil y m d) else None
  | _, _, _ => None
  end.

(** The instant of a text in the form [toISOString] writes for the years 0
    to 9999, [YYYY-MM-DDTHH:mm:ss.sssZ] on a date of the calendar (and, as
    the program writes the end of a day, with hour 24 for midnight). *)
Definition isoInstant (s : string) : option Z :=
  match calendarDay (String.substring 0 10 s),
        JsDate.parseTimeOfDay (String.substring 10 (String.length s - 10) s)
  with
  | Some day, Some ms => Some (day * JsDate.msPerDay + ms)
  | _, _ => None
  end.

(** A text of decimal digits. *)
Fixpoint allDigits (s : string) : bool :=
  match s with
  | EmptyString => true
  | String c r =>
      match JsDate.digit c with Some _ => allDigits r | None => false end
  end.

(** An engine with no format of its own: it reads the Date Time String
    Format and nothing else. *)
Definition plainEngine : string -> option Z := fun _ => None.

(** Comparing by a first key and then by a second one. *)
Definition thenBy (c1 c2 : comparison) : comparison :=
  match c1 with Eq => c2 | _ => c1 end.

(** The days before 1 March of year [y], counted from 1 March of year 0. *)
Definition marchFirst (y : Z) : Z :=
  let era := y / 400 in
  let yoe := y - era * 400 in
  era * 146097 + yoe * 365 + yoe / 4 - yoe / 100.

(** The day of the year that starts on 1 March. *)
Definition marchDay (m d : Z) : Z :=
  (153 * (if 2 <? m then m - 3 else m + 9) + 2) / 5 + d - 1.

(** * The rest of the sources *)

(** ** JavaScript arrays and strings, continued *)

Module JsArray.

(** The index [Array.prototype.slice] makes of a relative position: from
    the end when negative, clamped to the array. *)
Definition relativeIndex (len position : Z) : Z :=
  if position <? 0 then Z.max (len + position) 0 else Z.min position len.

(** [l.slice(start, end)]; [end] absent is the length. *)
Definition slice {A : Type} (start : Z) (end_ : option Z) (l : list A)
  : list A :=
  let len := Z.of_nat (List.length l) in
  let k := relativeIndex len start in
  let final :=
    match end_ with
    | Some e => relativeIndex len e
    | None => len
    end in
  firstn (Z.to_nat (Z.max (final - k) 0)) (skipn (Z.to_nat k) l).

(** [l.join(separator)] on strings. *)
Fixpoint join (separator : string) (l : list string) : string :=
  match l with
  | [] => ""
  | [s] => s
  | s :: r => s ++ separator ++ join separator r
  end.

End JsArray.

Module JsText.

(** [String.prototype.toLowerCase] on 7-bit text: A..Z go to a..z. *)
Definition lower_char (c : ascii) : ascii :=
  if ((65 <=? JsString.code c) && (JsString.code c <=? 90))%N
  then ascii_of_N (JsString.code c + 32) else c.

Fixpoint toLowerCase (s : string) : string :=
  match s with
  | EmptyString => EmptyString
  | String c r => String (lower_char c) (toLowerCase r)
  end.

(** [s.includes(q)]: [q] occurs in [s]. *)
Fixpoint includes (s q : string) : bool :=
  String.prefix q s
  || match s with
     | EmptyString => false
     | String _ r => includes r q
     end.

Definition isDigit (c : ascii) : bool :=
  ((48 <=? JsString.code c) && (JsString.code c <=? 57))%N.

(** [s.replace(/\D/g, "")]: the decimal digits of [s]. *)
Fixpoint digitsOnly (s : string) : string :=
  match s with
  | EmptyString => EmptyString
  | String c r => if isDigit c then String c (digitsOnly r) else digitsOnly r
  end.

(** [s.split(separator)] for a separator of one character: the pieces
    between its occurrences, one more than there are occurrences. *)
Fixpoint split (separator : ascii) (s : string) : list string :=
  match s with
  | EmptyString => [EmptyString]
  | String c r =>
      if Ascii.eqb c separator then EmptyString :: split separator r
      else
        match split separator r with
        | piece :: pieces => String c piece :: pieces
        | [] => [String c EmptyString]
        end
  end.

End JsText.

(** ** Audit log, continued ([security/audit.ts]) *)

(** [AuditLog.list(limit = 100)]:
    [this.events.slice(-Math.max(1, limit)).reverse()]. *)
Definition AuditLog_list (limit : option Z) (events : AuditLog.t)
  : list AuditEvent :=
  rev (JsArray.slice (- Z.max 1 (default 100 limit)) None events).

(** ** Configuration ([config.ts]) *)

(** [normalizeBoolean(value, fallback)]; [value] is an environment
    variable, absent or a string. *)
Definition normalizeBoolean (value : option string) (fallback : bool) : bool :=
  match value with
  | None => fallback
  | Some v =>
      if negb (JsString.truthy v) then fallback
      else
        let normalized := JsText.toLowerCase (JsString.trim v) in
        String.eqb normalized "1" || String.eqb normalized "true"
        || String.eqb normalized "yes"
  end.

(** ** [MemoryDentalStore], continued ([store/memoryStore.ts]) *)

Record UpsertPatientInput : Type := mkUpsertPatientInput {
  up_patientId : option string;
  up_firstName : string;
  up_lastName : string;
  up_dateOfBirth : string;
  up_phone : option string;
  up_email : option string;
  up_insuranceCarrier : option string;
  up_metadata : option (gmap string string);
  up_externalIds : option (gmap string string)
}.

Record CreateAppointmentInput : Type := mkCreateAppointmentInput {
  ca_patientId : string;
  ca_provider : string;
  ca_reason : string;
  ca_startAt : string;
  ca_endAt : string;
  ca_status : option AppointmentStatus
}.

(** [value ? { ...value } : {}]. *)
Definition safeRecord (value : option (gmap string string))
  : gmap string string :=
  default ∅ value.

(** [x || y] on an optional string: [x] when it is present and not empty. *)
Definition orElse (x : option string) (y : string) : string :=
  match x with
  | Some s => if JsString.truthy s then s else y
  | None => y
  end.

Section StoresContinued.

Variable localeCompare : string -> string -> Z.

(** [upsertPatient(input)]; [uuid] is what [crypto.randomUUID()] answers
    if it is called, [nowCreated] and [nowUpdated] what the two calls of
    [nowIso()] answer (the first is made only for a new patient).  In
    [{ ...a, ...b }] the keys of [b] win. *)
Definition upsertPatient (uuid nowCreated nowUpdated : string)
  (input : UpsertPatientInput) (store : MemoryDentalStore)
  : PatientRecord * MemoryDentalStore :=
  let patientId := orElse (up_patientId input) uuid in
  let existing := JsMap.get patientId (patients store) in
  let createdAt := orElse (pat_createdAt <$> existing) nowCreated in
  let updatedAt := nowUpdated in
  let patient :=
    {| pat_id := patientId;
       pat_firstName := up_firstName input;
       pat_lastName := up_lastName input;
       pat_dateOfBirth := up_dateOfBirth input;
       pat_phone := up_phone input;
       pat_email := up_email input;
       pat_insuranceCarrier := up_insuranceCarrier input;
       pat_metadata :=
         safeRecord (up_metadata input)
         ∪ default ∅ (pat_metadata <$> existing);
       pat_externalIds :=
         safeRecord (up_externalIds input)
         ∪ default ∅ (pat_externalIds <$> existing);
       pat_createdAt := createdAt;
       pat_updatedAt := updatedAt |} in
  (patient,
   {| patients := JsMap.set patientId patient (patients store);
      appointments := appointments store |}).

Definition listPatients (store : MemoryDentalStore) : list PatientRecord :=
  sortBy (byLocale localeCompare pat_lastName) (JsMap.values (patients store)).

(** [createAppointment(input)]. *)
Definition createAppointment (uuid now : string)
  (input : CreateAppointmentInput) (store : MemoryDentalStore)
  : AppointmentRecord * MemoryDentalStore :=
  let appointment :=
    {| appt_id := uuid;
       appt_patientId := ca_patientId input;
       appt_provider := ca_provider input;
       appt_reason := ca_reason input;
       appt_startAt := ca_startAt input;
       appt_endAt := ca_endAt input;
       appt_status := default scheduled (ca_status input);
       appt_createdAt := now |} in
  (appointment,
   {| patients := patients store;
      appointments := JsMap.set (appt_id appointment) appointment
                        (appointments store) |}).

Definition getAppointment (store : MemoryDentalStore) (id : string)
  : option AppointmentRecord :=
  JsMap.get id (appointments store).

(** [updateAppointmentStatus(appointmentId, status)]: [null] for an
    appointment that is not there. *)
Definition updateAppointmentStatus (store : MemoryDentalStore)
  (appointmentId : string) (status : AppointmentStatus)
  : option AppointmentRecord * MemoryDentalStore :=
  match JsMap.get appointmentId (appointments store) with
  | None => (None, store)
  | Some existing =>
      let updated :=
        {| appt_id := appt_id existing;
           appt_patientId := appt_patientId existing;
           appt_provider := appt_provider existing;
           appt_reason := appt_reason existing;
           appt_startAt := appt_startAt existing;
           appt_endAt := appt_endAt existing;
           appt_status := status;
           appt_createdAt := appt_createdAt existing |} in
      (Some updated,
       {| patients := patients store;
          appointments := JsMap.set appointmentId updated
                            (appointments store) |})
  end.

Definition listAppointments (store : MemoryDentalStore) (patient : string)
  : list AppointmentRecord :=
  sortBy (byLocale localeCompare appt_startAt)
    (filter (fun appointment => String.eqb (appt_patientId appointment) patient)
       (JsMap.values (appointments store))).

(** ** [MemoryClinicOpsRepository], continued
    ([store/memoryClinicOpsRepository.ts]) *)

Definition findFamilyByPatient (repo : MemoryClinicOpsRepository)
  (patient : string) : option FamilyRecord :=
  find
    (fun family =>
       existsb (fun member => String.eqb (patientId member) patient)
         (members family))
    (JsMap.values (families repo)).

Definition getInsurancePlan (repo : MemoryClinicOpsRepository) (id : string)
  : option InsurancePlanRecord :=
  JsMap.get id (insurancePlans repo).

Definition saveInsurancePlan (repo : MemoryClinicOpsRepository)
  (plan : InsurancePlanRecord) : MemoryClinicOpsRepository :=
  {| families := families repo;
     insurancePlans := JsMap.set (ins_id plan) plan (insurancePlans repo);
     treatmentPlans := treatmentPlans repo;
     treatmentPlanItems := treatmentPlanItems repo;
     ledgerEntries := ledgerEntries repo;
     scheduleBlocks := scheduleBlocks repo |}.

Definition saveTreatmentPlan (repo : MemoryClinicOpsRepository)
  (plan : TreatmentPlanRecord) : MemoryClinicOpsRepository :=
  {| families := families repo;
     insurancePlans := insurancePlans repo;
     treatmentPlans := JsMap.set (tp_id plan) plan (treatmentPlans repo);
     treatmentPlanItems := treatmentPlanItems repo;
     ledgerEntries := ledgerEntries repo;
     scheduleBlocks := scheduleBlocks repo |}.

(** Newest first: the comparator is [b.createdAt.localeCompare(a.createdAt)]. *)
Definition listTreatmentPlansByPatient (repo : MemoryClinicOpsRepository)
  (patient : string) : list TreatmentPlanRecord :=
  sortBy (fun a b => byLocale localeCompare tp_createdAt b a)
    (filter (fun plan => String.eqb (tp_patientId plan) patient)
       (JsMap.values (treatmentPlans repo))).

Definition saveLedgerEntry (repo : MemoryClinicOpsRepository)
  (entry : LedgerEntryRecord) : MemoryClinicOpsRepository :=
  {| families := families repo;
     insurancePlans := insurancePlans repo;
     treatmentPlans := treatmentPlans repo;
     treatmentPlanItems := treatmentPlanItems repo;
     ledgerEntries := JsMap.set (led_id entry) entry (ledgerEntries repo);
     scheduleBlocks := scheduleBlocks repo |}.

Definition saveScheduleBlock (repo : MemoryClinicOpsRepository)
  (block : ScheduleBlockRecord) : MemoryClinicOpsRepository :=
  {| families := families repo;
     insurancePlans := insurancePlans repo;
     treatmentPlans := treatmentPlans repo;
     treatmentPlanItems := treatmentPlanItems repo;
     ledgerEntries := ledgerEntries repo;
     scheduleBlocks := JsMap.set (block_id block) block (scheduleBlocks repo) |}.

End StoresContinued.

(** ** Records of the stores, continued ([domain.ts]) *)

Inductive RecallStatus : Type := recall_due | recall_scheduled | recall_completed.

Inductive TaskPriority : Type := low | medium | high | urgent.

Inductive TaskStatus : Type := task_open | task_in_progress | task_done.

Inductive CommunicationType : Type :=
| comm_text | comm_email | comm_phone | comm_letter | comm_in_person.

Inductive CommunicationDirection : Type := inbound | outbound.

#[global] Instance TaskPriority_eq_dec : EqDecision TaskPriority.
Proof. solve_decision. Defined.

#[global] Instance TaskStatus_eq_dec : EqDecision TaskStatus.
Proof. solve_decision. Defined.

Record ChartEntryRecord : Type := mkChartEntry {
  chart_id : string;
  chart_patientId : string;
  chart_entryDate : string;
  chart_tooth : option string;
  chart_surface : option string;
  chart_diagnosis : option string;
  procedureCode : option string;
  chart_note : string;
  chart_provider : string;
  chart_createdAt : string
}.

Record RecallRecord : Type := mkRecall {
  recall_id : string;
  recall_patientId : string;
  recallType : string;
  recall_intervalMonths : Z;
  lastVisitDate : option string;
  dueDate : string;
  recall_status : RecallStatus;
  recall_createdAt : string;
  recall_updatedAt : string
}.

Record CommunicationLogRecord : Type := mkCommunicationLog {
  comm_id : string;
  comm_patientId : string;
  communicationType : CommunicationType;
  direction : CommunicationDirection;
  noteCiphertext : string;
  comm_createdBy : string;
  comm_createdAt : string
}.

Record TaskRecord : Type := mkTask {
  task_id : string;
  task_patientId : option string;
  title : string;
  detailsCiphertext : option string;
  assignedTo : option string;
  dueAt : option string;
  task_priority : TaskPriority;
  task_status : TaskStatus;
  task_createdBy : string;
  task_createdAt : string;
  task_updatedAt : string
}.

(** The maps of [MemoryClinicOpsRepository] that the operations modelled
    so far do not touch. *)
Record MemoryClinicOpsRecords : Type := mkRecords {
  chartEntries : JsMap.t ChartEntryRecord;
  recalls : JsMap.t RecallRecord;
  communicationLogs : JsMap.t CommunicationLogRecord;
  tasks : JsMap.t TaskRecord
}.

Record ListTasksFilter : Type := mkListTasksFilter {
  filter_status : option TaskStatus;
  filter_assignedTo : option string;
  filter_limit : Z
}.

Section RecordsRepository.

Variable localeCompare : string -> string -> Z.

Definition saveChartEntry (repo : MemoryClinicOpsRecords)
  (entry : ChartEntryRecord) : MemoryClinicOpsRecords :=
  {| chartEntries := JsMap.set (chart_id entry) entry (chartEntries repo);
     recalls := recalls repo;
     communicationLogs := communicationLogs repo;
     tasks := tasks repo |}.

(** Newest first. *)
Definition listChartEntriesByPatient (repo : MemoryClinicOpsRecords)
  (patient : string) : list ChartEntryRecord :=
  sortBy (fun a b => byLocale localeCompare chart_entryDate b a)
    (filter (fun entry => String.eqb (chart_patientId entry) patient)
       (JsMap.values (chartEntries repo))).

Definition saveRecall (repo : MemoryClinicOpsRecords) (recall : RecallRecord)
  : MemoryClinicOpsRecords :=
  {| chartEntries := chartEntries repo;
     recalls := JsMap.set (recall_id recall) recall (recalls repo);
     communicationLogs := communicationLogs repo;
     tasks := tasks repo |}.

Definition listRecallsDue (repo : MemoryClinicOpsRecords)
  (fromIso toIso : string) : list RecallRecord :=
  sortBy (byLocale localeCompare dueDate)
    (filter
       (fun recall =>
          JsString.ge (dueDate recall) fromIso
          && JsString.le (dueDate recall) toIso)
       (JsMap.values (recalls repo))).

Definition saveCommunicationLog (repo : MemoryClinicOpsRecords)
  (log : CommunicationLogRecord) : MemoryClinicOpsRecords :=
  {| chartEntries := chartEntries repo;
     recalls := recalls repo;
     communicationLogs := JsMap.set (comm_id log) log (communicationLogs repo);
     tasks := tasks repo |}.

(** Newest first. *)
Definition listCommunicationLogsByPatient (repo : MemoryClinicOpsRecords)
  (patient : string) : list CommunicationLogRecord :=
  sortBy (fun a b => byLocale localeCompare comm_createdAt b a)
    (filter (fun log => String.eqb (comm_patientId log) patient)
       (JsMap.values (communicationLogs repo))).

Definition getTask (repo : MemoryClinicOpsRecords) (id : string)
  : option TaskRecord :=
  JsMap.get id (tasks repo).

Definition saveTask (repo : MemoryClinicOpsRecords) (task : TaskRecord)
  : MemoryClinicOpsRecords :=
  {| chartEntries := chartEntries repo;
     recalls := recalls repo;
     communicationLogs := communicationLogs repo;
     tasks := JsMap.set (task_id task) task (tasks repo) |}.

(** [listTasks(filter)]: a status is never an empty string, an assignee
    may be; the most recently updated first, [filter.limit] of them. *)
Definition repoListTasks (repo : MemoryClinicOpsRecords)
  (filter_ : ListTasksFilter) : list TaskRecord :=
  JsArray.slice 0 (Some (filter_limit filter_))
    (sortBy (fun a b => byLocale localeCompare task_updatedAt b a)
       (filter
          (fun task =>
             match filter_assignedTo filter_ with
             | Some who =>
                 if JsString.truthy who
                 then bool_decide (assignedTo task = Some who)
                 else true
             | None => true
             end)
          (filter
             (fun task =>
                match filter_status filter_ with
                | Some status => bool_decide (task_status task = status)
                | None => true
                end)
             (JsMap.values (tasks repo))))).

End RecordsRepository.

(** ** Text cipher ([security/crypto.ts]) *)

(** The interface [TextCipher].  [encrypt] draws random bytes, which are
    its first argument here; [decrypt] may throw. *)
Record TextCipher (V Rand : Type) : Type := mkTextCipher {
  enabled : bool;
  encrypt : Rand -> string -> string;
  decrypt : string -> Result (Thrown V) string
}.
Arguments mkTextCipher {V Rand} enabled encrypt decrypt.
Arguments enabled {V Rand} t.
Arguments encrypt {V Rand} t rand plaintext.
Arguments decrypt {V Rand} t ciphertext.

Module Hex.

Definition digitOf (n : N) : ascii :=
  if (n <? 10)%N then ascii_of_N (48 + n) else ascii_of_N (87 + n).

(** The value of a hexadecimal digit, of either case. *)
Definition valueOf (c : ascii) : option N :=
  let n := N_of_ascii c in
  if ((48 <=? n) && (n <=? 57))%N then Some (n - 48)%N
  else if ((97 <=? n) && (n <=? 102))%N then Some (n - 87)%N
  else if ((65 <=? n) && (n <=? 70))%N then Some (n - 55)%N
  else None.

(** [buffer.toString("hex")]: two lower-case digits a byte. *)
Fixpoint toHex (input : list Byte.byte) : string :=
  match input with
  | [] => EmptyString
  | b :: r =>
      String (digitOf (Byte.to_N b / 16))
        (String (digitOf (Byte.to_N b mod 16)) (toHex r))
  end.

(** [Buffer.from(input, "hex")]: the bytes of the pairs of digits, up to
    the first pair that is not one. *)
Fixpoint fromHex (input : string) : list Byte.byte :=
  match input with
  | String c1 (String c2 r) =>
      match valueOf c1, valueOf c2 with
      | Some hi, Some lo =>
          match Byte.of_N (hi * 16 + lo) with
          | Some b => b :: fromHex r
          | None => []
          end
      | _, _ => []
      end
  | _ => []
  end.

End Hex.

Section Crypto.

(** What [node:crypto] and [Buffer] supply: SHA-256, AES-256-GCM (the
    decipher throws when the tag does not fit) and the UTF-8 coding of
    strings. *)
Context {V : Type}.
Variable sha256 : list Byte.byte -> list Byte.byte.
Variable aesGcmEncrypt :
  list Byte.byte -> list Byte.byte -> list Byte.byte
  -> list Byte.byte * list Byte.byte.
Variable aesGcmDecrypt :
  list Byte.byte -> list Byte.byte -> list Byte.byte -> list Byte.byte
  -> Result (Thrown V) (list Byte.byte).
Variable utf8Encode : string -> list Byte.byte.
Variable utf8Decode : list Byte.byte -> string.

Definition PREFIX : string := "enc:v1".

Definition normalizeKey (input : string) : list Byte.byte :=
  sha256 (utf8Encode input).

(** [createTextCipher(keyMaterial)]; the random bytes of [encrypt] are the
    initialisation vector. *)
Definition createTextCipher (keyMaterial : option string)
  : TextCipher V (list Byte.byte) :=
  match keyMaterial with
  | Some material =>
      if JsString.truthy material then
        let key := normalizeKey material in
        {| enabled := true;
           encrypt := fun iv plaintext =>
             let '(encrypted, tag) :=
               aesGcmEncrypt key iv (utf8Encode plaintext) in
             PREFIX ++ ":" ++ Hex.toHex iv ++ ":" ++ Hex.toHex tag ++ ":"
               ++ Hex.toHex encrypted;
           decrypt := fun ciphertext =>
             if negb (JsString.startsWith ciphertext (PREFIX ++ ":"))
             then Ok ciphertext
             else
               match JsText.split ":" ciphertext with
               | [_; _; iv; tag; body] =>
                   match
                     aesGcmDecrypt key (Hex.fromHex iv) (Hex.fromHex tag)
                       (Hex.fromHex body)
                   with
                   | Ok plaintext => Ok (utf8Decode plaintext)
                   | Throw e => Throw e
                   end
               | _ => Throw (ThrownError "Invalid ciphertext envelope")
               end |}
      else
        {| enabled := false;
           encrypt := fun _ plaintext => plaintext;
           decrypt := fun ciphertext => Ok ciphertext |}
  | None =>
      {| enabled := false;
         encrypt := fun _ plaintext => plaintext;
         decrypt := fun ciphertext => Ok ciphertext |}
  end.

End Crypto.

(** ** The clinic-operations service, continued ([services/clinicOps.ts]) *)

Definition startOfDayIso (date : string) : string := date ++ "T00:00:00.000Z".

Definition endOfDayIso (date : string) : string := date ++ "T23:59:59.999Z".

(** [x || fallback] on an optional number: zero and NaN are falsy. *)
Definition numberOr (x : option float) (fallback : float) : float :=
  match x with
  | Some v =>
      if (v =? 0)%float || PrimFloat.is_nan v then fallback else v
  | None => fallback
  end.

(** [x || fallback] on an optional integral number. *)
Definition integerOr (x : option Z) (fallback : Z) : Z :=
  match x with
  | Some v => if v =? 0 then fallback else v
  | None => fallback
  end.

Section LocalTime.

(** [LocalTZA(t, isUTC)]: the offset of the host's time zone, in
    milliseconds, at the UTC instant [t] or at the local time [t]. *)
Variable localTZA : Z -> bool -> Z.
Variable engine : string -> option Z.

(** [date.setMonth(date.getMonth() + months)] on a valid time value:
    [MakeDay] of the year, the new month and the day of the month, at the
    same local time of day; [None] is NaN, the answer of [TimeClip] out of
    range. *)
Definition setMonthFrom (t months : Z) : option Z :=
  let localTime := t + localTZA t true in
  let '(year, month, day) := JsDate.civilFromDays (localTime / JsDate.msPerDay) in
  let timeWithinDay := localTime mod JsDate.msPerDay in
  let m := month - 1 + months in
  let ym := year + m / 12 in
  let mn := m mod 12 in
  let newDay := JsDate.daysFromCivil ym (mn + 1) 1 + day - 1 in
  let newDate := newDay * JsDate.msPerDay + timeWithinDay in
  let u := newDate - localTZA newDate false in
  if (- JsDate.maxTime <=? u) && (u <=? JsDate.maxTime) then Some u else None.

(** [addMonths(dateIso, months)]: [toISOString] throws a [RangeError] on
    an invalid date. *)
Definition addMonths {V} (dateIso : string) (months : Z)
  : Result (Thrown V) string :=
  match JsDate.parse engine dateIso with
  | Some t =>
      match setMonthFrom t months with
      | Some u => JsDate.toISOString u
      | None => Throw (ThrownError "Invalid time value")
      end
  | None => Throw (ThrownError "Invalid time value")
  end.

End LocalTime.

Record SearchPatientsInput : Type := mkSearchPatientsInput {
  sp_query : option string;
  sp_lastName : option string;
  sp_firstName : option string;
  sp_phone : option string;
  sp_dateOfBirth : option string;
  sp_externalId : option string;
  sp_limit : option Z
}.

Record UpsertInsurancePlanInput : Type := mkUpsertInsurancePlanInput {
  uip_planId : option string;
  uip_patientId : string;
  uip_tier : InsuranceTier;
  uip_carrier : string;
  uip_employer : option string;
  uip_subscriberName : string;
  uip_subscriberId : string;
  uip_relationToSubscriber : string;
  uip_groupName : option string;
  uip_groupNumber : option string;
  uip_annualMax : option float;
  uip_deductible : option float;
  uip_benefitPercentages : option (gmap string float);
  uip_notes : option string
}.

Record CreateTreatmentPlanInput : Type := mkCreateTreatmentPlanInput {
  ctp_planId : option string;
  ctp_patientId : string;
  ctp_heading : string;
  ctp_status : option TreatmentPlanStatus;
  ctp_signed : option bool
}.

Record AddTreatmentPlanItemInput : Type := mkAddTreatmentPlanItemInput {
  ati_itemId : option string;
  ati_planId : string;
  ati_patientId : string;
  ati_tooth : option string;
  ati_surface : option string;
  ati_diagnosis : option string;
  ati_adaCode : string;
  ati_description : string;
  ati_fee : float;
  ati_allowedFee : option float;
  ati_priority : option float
}.

Record PostLedgerEntryInput : Type := mkPostLedgerEntryInput {
  ple_patientId : string;
  ple_familyId : option string;
  ple_type : LedgerEntryType;
  ple_amount : float;
  ple_description : string;
  ple_entryDate : option string;
  ple_relatedPlanItemId : option string;
  ple_claimStatus : option string;
  ple_createdBy : string
}.

Record AddChartEntryInput : Type := mkAddChartEntryInput {
  ace_patientId : string;
  ace_entryDate : option string;
  ace_tooth : option string;
  ace_surface : option string;
  ace_diagnosis : option string;
  ace_procedureCode : option string;
  ace_note : string;
  ace_provider : string
}.

Record UpsertRecallInput : Type := mkUpsertRecallInput {
  ur_recallId : option string;
  ur_patientId : string;
  ur_recallType : string;
  ur_intervalMonths : Z;
  ur_lastVisitDate : option string;
  ur_dueDate : option string;
  ur_status : option RecallStatus
}.

Record UpsertScheduleBlockInput : Type := mkUpsertScheduleBlockInput {
  usb_blockId : option string;
  usb_provider : string;
  usb_operatory : option string;
  usb_startAt : string;
  usb_endAt : string;
  usb_blockType : BlockType;
  usb_patientId : option string;
  usb_appointmentId : option string;
  usb_notes : option string
}.

Record BookAppointmentInput : Type := mkBookAppointmentInput {
  ba_patientId : string;
  ba_provider : string;
  ba_reason : string;
  ba_startAt : string;
  ba_endAt : string;
  ba_operatory : option string
}.

Record AddCommunicationLogInput : Type := mkAddCommunicationLogInput {
  acl_patientId : string;
  acl_communicationType : CommunicationType;
  acl_direction : CommunicationDirection;
  acl_note : string;
  acl_createdBy : string
}.

Record UpsertTaskInput : Type := mkUpsertTaskInput {
  ut_taskId : option string;
  ut_patientId : option string;
  ut_title : string;
  ut_details : option string;
  ut_assignedTo : option string;
  ut_dueAt : option string;
  ut_priority : option TaskPriority;
  ut_status : option TaskStatus;
  ut_actorUserId : string
}.

Record ListTasksInput : Type := mkListTasksInput {
  lt_status : option TaskStatus;
  lt_assignedTo : option string;
  lt_limit : option Z
}.

Record Dashboard : Type := mkDashboard {
  dash_date : string;
  schedule : list AppointmentRecord;
  recallsDue : list RecallRecord;
  openTasks : nat;
  urgentTasks : nat
}.

Record Booking : Type := mkBooking {
  booking_appointment : AppointmentRecord;
  booking_scheduleBlock : ScheduleBlockRecord
}.

Section ClinicOpsServiceContinued.

Context {V Rand : Type}.
Variable localeCompare : string -> string -> Z.
Variable localTZA : Z -> bool -> Z.
Variable engine : string -> option Z.
Variable textCipher : TextCipher V Rand.

(** [Object.values(record)]: the values in the object's property order,
    which the finite map does not record. *)
Variable objectValues : gmap string string -> list string.

(** *** Patients *)

(** The filter of [searchPatients] on the prepared search terms. *)
Definition patientMatches (q last first phone externalId : string)
  (dateOfBirth : option string) (patient : PatientRecord) : bool :=
  if JsString.truthy q
     && negb
          (JsText.includes
             (JsText.toLowerCase
                (JsArray.join " "
                   [ pat_firstName patient; pat_lastName patient;
                     orElse (pat_phone patient) "";
                     orElse (pat_email patient) "";
                     pat_dateOfBirth patient;
                     JsArray.join " " (objectValues (pat_externalIds patient)) ]))
             q)
  then false
  else if JsString.truthy last
          && negb (JsText.includes
                     (JsText.toLowerCase (pat_lastName patient)) last)
  then false
  else if JsString.truthy first
          && negb (JsText.includes
                     (JsText.toLowerCase (pat_firstName patient)) first)
  then false
  else if match dateOfBirth with
          | Some dob =>
              JsString.truthy dob
              && negb (String.eqb (pat_dateOfBirth patient) dob)
          | None => false
          end
  then false
  else if JsString.truthy phone
          && negb (JsText.includes
                     (JsText.digitsOnly (orElse (pat_phone patient) ""))
                     phone)
  then false
  else if JsString.truthy externalId
          && negb (JsText.includes
                     (JsText.toLowerCase
                        (JsArray.join " "
                           (objectValues (pat_externalIds patient))))
                     externalId)
  then false
  else true.

(** [Math.max(1, Math.min(200, limit || 50))]. *)
Definition pageSize (limit : option Z) : Z :=
  Z.max 1 (Z.min 200 (integerOr limit 50)).

(** [searchPatients(input)]. *)
Definition searchPatients (input : SearchPatientsInput)
  (store : MemoryDentalStore) : list PatientRecord :=
  let q := JsText.toLowerCase (JsString.trim (orElse (sp_query input) "")) in
  let last :=
    JsText.toLowerCase (JsString.trim (orElse (sp_lastName input) "")) in
  let first :=
    JsText.toLowerCase (JsString.trim (orElse (sp_firstName input) "")) in
  let phone := JsText.digitsOnly (orElse (sp_phone input) "") in
  let externalId :=
    JsText.toLowerCase (JsString.trim (orElse (sp_externalId input) "")) in
  let limit := pageSize (sp_limit input) in
  let patients := listPatients localeCompare store in
  let filtered :=
    filter (patientMatches q last first phone externalId (sp_dateOfBirth input))
      patients in
  JsArray.slice 0 (Some limit) filtered.

Definition listFamilyByPatient (repo : MemoryClinicOpsRepository)
  (patient : string) : option FamilyRecord :=
  findFamilyByPatient repo patient.

(** *** Insurance and treatment plans *)

(** [clampPercent(input.benefitPercentages?.[category], fallback)]. *)
Definition normalizedBenefit (input : UpsertInsurancePlanInput)
  (category : string) (fallback : float) : float :=
  clampPercent (uip_benefitPercentages input ≫= (.!! category)) fallback.

Definition normalizedBenefits (input : UpsertInsurancePlanInput)
  : gmap string float :=
  <["prosthodontics" := normalizedBenefit input "prosthodontics" 50]>
    (<["crowns" := normalizedBenefit input "crowns" 50]>
       (<["oralSurgery" := normalizedBenefit input "oralSurgery" 80]>
          (<["periodontal" := normalizedBenefit input "periodontal" 80]>
             (<["endodontic" := normalizedBenefit input "endodontic" 80]>
                (<["restorative" := normalizedBenefit input "restorative" 80]>
                   (<["preventive" := normalizedBenefit input "preventive" 100]>
                      ∅)))))).

(** [upsertInsurancePlan(input)]. *)
Definition upsertInsurancePlan (now uuid : string)
  (input : UpsertInsurancePlanInput) (repo : MemoryClinicOpsRepository)
  : InsurancePlanRecord * MemoryClinicOpsRepository :=
  let planId := orElse (uip_planId input) uuid in
  let existing := getInsurancePlan repo planId in
  let plan :=
    {| ins_id := planId;
       ins_patientId := uip_patientId input;
       tier := uip_tier input;
       carrier := uip_carrier input;
       employer := uip_employer input;
       subscriberName := uip_subscriberName input;
       subscriberId := uip_subscriberId input;
       relationToSubscriber := uip_relationToSubscriber input;
       groupName := uip_groupName input;
       groupNumber := uip_groupNumber input;
       annualMax := uip_annualMax input;
       deductible := uip_deductible input;
       benefitPercentages := normalizedBenefits input;
       ins_notes := uip_notes input;
       ins_createdAt := orElse (ins_createdAt <$> existing) now;
       ins_updatedAt := now |} in
  (plan, saveInsurancePlan repo plan).

(** [createTreatmentPlan(input)]. *)
Definition createTreatmentPlan (now uuid : string)
  (input : CreateTreatmentPlanInput) (repo : MemoryClinicOpsRepository)
  : TreatmentPlanRecord * MemoryClinicOpsRepository :=
  let plan :=
    {| tp_id := orElse (ctp_planId input) uuid;
       tp_patientId := ctp_patientId input;
       heading := ctp_heading input;
       tp_status := default tp_active (ctp_status input);
       signed := default false (ctp_signed input);
       tp_createdAt := now;
       tp_updatedAt := now |} in
  (plan, saveTreatmentPlan repo plan).

(** [addTreatmentPlanItem(input)]. *)
Definition addTreatmentPlanItem (now uuid : string)
  (input : AddTreatmentPlanItemInput) (repo : MemoryClinicOpsRepository)
  : Result (Thrown V) TreatmentPlanItemRecord * MemoryClinicOpsRepository :=
  match getTreatmentPlan repo (ati_planId input) with
  | None =>
      (Throw (ThrownError
                ("Treatment plan " ++ ati_planId input ++ " not found")),
       repo)
  | Some _ =>
      let item :=
        {| item_id := orElse (ati_itemId input) uuid;
           planId := ati_planId input;
           item_patientId := ati_patientId input;
           tooth := ati_tooth input;
           surface := ati_surface input;
           diagnosis := ati_diagnosis input;
           adaCode := ati_adaCode input;
           description := ati_description input;
           fee := ati_fee input;
           allowedFee := ati_allowedFee input;
           priority := numberOr (ati_priority input) 0;
           item_status := proposed;
           insuranceEstPrimary := 0;
           insuranceEstSecondary := 0;
           patientEst := ati_fee input;
           item_createdAt := now;
           item_updatedAt := now |} in
      (Ok item, saveTreatmentPlanItem repo item)
  end.

(** [listTreatmentPlans(patientId)]: each plan with its items. *)
Definition listTreatmentPlans (repo : MemoryClinicOpsRepository)
  (patient : string)
  : list (TreatmentPlanRecord * list TreatmentPlanItemRecord) :=
  map (fun plan => (plan, listTreatmentPlanItemsByPlan repo (tp_id plan)))
    (listTreatmentPlansByPatient localeCompare repo patient).

(** *** Ledger and chart *)

(** [postLedgerEntry(input)]; [nowEntry] is what [nowIso()] answers for a
    missing entry date, [nowCreated] for [createdAt]. *)
Definition postLedgerEntry (uuid nowEntry nowCreated : string)
  (input : PostLedgerEntryInput) (repo : MemoryClinicOpsRepository)
  : LedgerEntryRecord * MemoryClinicOpsRepository :=
  let entry :=
    {| led_id := uuid;
       led_patientId := ple_patientId input;
       led_familyId := ple_familyId input;
       led_type := ple_type input;
       amount := JsNumber.toFixed2 (ple_amount input);
       led_description := ple_description input;
       entryDate := orElse (ple_entryDate input) nowEntry;
       relatedPlanItemId := ple_relatedPlanItemId input;
       claimStatus := ple_claimStatus input;
       led_createdBy := ple_createdBy input;
       led_createdAt := nowCreated |} in
  (entry, saveLedgerEntry repo entry).

(** [addChartEntry(input)]. *)
Definition addChartEntry (uuid nowEntry nowCreated : string)
  (input : AddChartEntryInput) (repo : MemoryClinicOpsRecords)
  : ChartEntryRecord * MemoryClinicOpsRecords :=
  let entry :=
    {| chart_id := uuid;
       chart_patientId := ace_patientId input;
       chart_entryDate := orElse (ace_entryDate input) nowEntry;
       chart_tooth := ace_tooth input;
       chart_surface := ace_surface input;
       chart_diagnosis := ace_diagnosis input;
       procedureCode := ace_procedureCode input;
       chart_note := ace_note input;
       chart_provider := ace_provider input;
       chart_createdAt := nowCreated |} in
  (entry, saveChartEntry repo entry).

Definition listChartEntries (repo : MemoryClinicOpsRecords) (patient : string)
  : list ChartEntryRecord :=
  listChartEntriesByPatient localeCompare repo patient.

(** *** Recalls *)

(** [upsertRecall(input)]: the due date given, or the last visit, or
    failing that now, moved on by the interval. *)
Definition upsertRecall (now uuid : string) (input : UpsertRecallInput)
  (repo : MemoryClinicOpsRecords)
  : Result (Thrown V) RecallRecord * MemoryClinicOpsRecords :=
  let computed :=
    match ur_lastVisitDate input with
    | Some lastVisit =>
        if JsString.truthy lastVisit
        then addMonths localTZA engine lastVisit (ur_intervalMonths input)
        else addMonths localTZA engine now (ur_intervalMonths input)
    | None => addMonths localTZA engine now (ur_intervalMonths input)
    end in
  let due :=
    match ur_dueDate input with
    | Some d => if JsString.truthy d then Ok d else computed
    | None => computed
    end in
  match due with
  | Throw e => (Throw e, repo)
  | Ok dueDate =>
      let recall :=
        {| recall_id := orElse (ur_recallId input) uuid;
           recall_patientId := ur_patientId input;
           recallType := ur_recallType input;
           recall_intervalMonths := ur_intervalMonths input;
           lastVisitDate := ur_lastVisitDate input;
           dueDate := dueDate;
           recall_status := default recall_due (ur_status input);
           recall_createdAt := now;
           recall_updatedAt := now |} in
      (Ok recall, saveRecall repo recall)
  end.

Definition listRecallDue (repo : MemoryClinicOpsRecords)
  (fromDate toDate : string) : list RecallRecord :=
  listRecallsDue localeCompare repo (startOfDayIso fromDate)
    (endOfDayIso toDate).

(** *** Schedule blocks and booking *)

(** [upsertScheduleBlock(input)]. *)
Definition upsertScheduleBlock (now uuid : string)
  (input : UpsertScheduleBlockInput) (repo : MemoryClinicOpsRepository)
  : ScheduleBlockRecord * MemoryClinicOpsRepository :=
  let block :=
    {| block_id := orElse (usb_blockId input) uuid;
       block_provider := usb_provider input;
       operatory := usb_operatory input;
       block_startAt := usb_startAt input;
       block_endAt := usb_endAt input;
       blockType := usb_blockType input;
       block_patientId := usb_patientId input;
       appointmentId := usb_appointmentId input;
       block_notes := usb_notes input;
       block_createdAt := now;
       block_updatedAt := now |} in
  (block, saveScheduleBlock repo block).

(** [bookAppointmentFromSlot(input)]: the appointment, then the [booked]
    block that points to it. *)
Definition bookAppointmentFromSlot
  (appointmentUuid appointmentNow blockNow blockUuid : string)
  (input : BookAppointmentInput) (store : MemoryDentalStore)
  (repo : MemoryClinicOpsRepository)
  : Booking * (MemoryDentalStore * MemoryClinicOpsRepository) :=
  let '(appointment, store') :=
    createAppointment appointmentUuid appointmentNow
      {| ca_patientId := ba_patientId input;
         ca_provider := ba_provider input;
         ca_reason := ba_reason input;
         ca_startAt := ba_startAt input;
         ca_endAt := ba_endAt input;
         ca_status := Some scheduled |} store in
  let '(scheduleBlock, repo') :=
    upsertScheduleBlock blockNow blockUuid
      {| usb_blockId := None;
         usb_provider := ba_provider input;
         usb_operatory := ba_operatory input;
         usb_startAt := ba_startAt input;
         usb_endAt := ba_endAt input;
         usb_blockType := booked;
         usb_patientId := Some (ba_patientId input);
         usb_appointmentId := Some (appt_id appointment);
         usb_notes := Some (ba_reason input) |} repo in
  (mkBooking appointment scheduleBlock, (store', repo')).

(** *** Communication log and tasks *)

(** [addCommunicationLog(input)]. *)
Definition addCommunicationLog (uuid : string) (rand : Rand) (now : string)
  (input : AddCommunicationLogInput) (repo : MemoryClinicOpsRecords)
  : CommunicationLogRecord * MemoryClinicOpsRecords :=
  let log :=
    {| comm_id := uuid;
       comm_patientId := acl_patientId input;
       communicationType := acl_communicationType input;
       direction := acl_direction input;
       noteCiphertext := encrypt textCipher rand (acl_note input);
       comm_createdBy := acl_createdBy input;
       comm_createdAt := now |} in
  (log, saveCommunicationLog repo log).

(** [logs.map(...)]: the callback runs log after log, and the first
    [decrypt] that throws ends the call. *)
Fixpoint decryptLogs (logs : list CommunicationLogRecord)
  : Result (Thrown V) (list (CommunicationLogRecord * string)) :=
  match logs with
  | [] => Ok []
  | log :: r =>
      match decrypt textCipher (noteCiphertext log) with
      | Throw e => Throw e
      | Ok note =>
          match decryptLogs r with
          | Throw e => Throw e
          | Ok notes => Ok ((log, note) :: notes)
          end
      end
  end.

(** [listCommunicationLogs(patientId)]: each log with its note. *)
Definition listCommunicationLogs (repo : MemoryClinicOpsRecords)
  (patient : string)
  : Result (Thrown V) (list (CommunicationLogRecord * string)) :=
  decryptLogs (listCommunicationLogsByPatient localeCompare repo patient).

(** [upsertTask(input)]. *)
Definition upsertTask (now uuid : string) (rand : Rand)
  (input : UpsertTaskInput) (repo : MemoryClinicOpsRecords)
  : TaskRecord * MemoryClinicOpsRecords :=
  let existing :=
    match ut_taskId input with
    | Some id => if JsString.truthy id then getTask repo id else None
    | None => None
    end in
  let task :=
    {| task_id := orElse (ut_taskId input) uuid;
       task_patientId := ut_patientId input;
       title := ut_title input;
       detailsCiphertext :=
         match ut_details input with
         | Some details => Some (encrypt textCipher rand details)
         | None => existing ≫= detailsCiphertext
         end;
       assignedTo := ut_assignedTo input;
       dueAt := ut_dueAt input;
       task_priority :=
         default (default medium (task_priority <$> existing))
           (ut_priority input);
       task_status :=
         default (default task_open (task_status <$> existing))
           (ut_status input);
       task_createdBy := orElse (task_createdBy <$> existing) (ut_actorUserId input);
       task_createdAt := orElse (task_createdAt <$> existing) now;
       task_updatedAt := now |} in
  (task, saveTask repo task).

(** The callback of the [map] of [listTasks]: a task with its details,
    [undefined] when there is no ciphertext or an empty one. *)
Fixpoint decryptTasks (l : list TaskRecord)
  : Result (Thrown V) (list (TaskRecord * option string)) :=
  match l with
  | [] => Ok []
  | task :: r =>
      let details :=
        match detailsCiphertext task with
        | Some c =>
            if JsString.truthy c then
              match decrypt textCipher c with
              | Ok d => Ok (Some d)
              | Throw e => Throw e
              end
            else Ok None
        | None => Ok None
        end in
      match details with
      | Throw e => Throw e
      | Ok d =>
          match decryptTasks r with
          | Throw e => Throw e
          | Ok rest => Ok ((task, d) :: rest)
          end
      end
  end.

(** [listTasks(input)]. *)
Definition listTasks (input : ListTasksInput) (repo : MemoryClinicOpsRecords)
  : Result (Thrown V) (list (TaskRecord * option string)) :=
  let limit := pageSize (lt_limit input) in
  decryptTasks
    (repoListTasks localeCompare repo
       {| filter_status := lt_status input;
          filter_assignedTo := lt_assignedTo input;
          filter_limit := limit |}).

(** [getDashboard(date)]. *)
Definition getDashboard (date : string) (store : MemoryDentalStore)
  (repo : MemoryClinicOpsRecords) : Result (Thrown V) Dashboard :=
  let start_ := startOfDayIso date in
  let end_ := endOfDayIso date in
  let appointments := listAppointmentsByRange localeCompare store start_ end_ None in
  let recallsDue := listRecallDue repo date date in
  match listTasks (mkListTasksInput (Some task_open) None (Some 500)) repo with
  | Throw e => Throw e
  | Ok tasks =>
      Ok {| dash_date := date;
            schedule := appointments;
            recallsDue := recallsDue;
            openTasks := List.length tasks;
            urgentTasks :=
              List.length
                (filter
                   (fun task => bool_decide (task_priority (fst task) = urgent))
                   tasks) |}
  end.

End ClinicOpsServiceContinued.

(** ** The tool handlers ([index.ts]) *)

(** What a tool shows of a patient: the record, or only these four
    fields. *)
Inductive PatientView : Type :=
| WholePatient (patient : PatientRecord)
| RedactedPatient (id firstName lastName dateOfBirth : string).

(** [redactPatientForRole(actor, patient)]. *)
Definition redactPatientForRole (actor : Actor) (patient : PatientRecord)
  : PatientView :=
  if includes [admin; dentist; hygienist; assistant; front_desk; billing; system]
       (role actor)
  then WholePatient patient
  else
    RedactedPatient (pat_id patient) (pat_firstName patient)
      (pat_lastName patient) (pat_dateOfBirth patient).

Section Tools.

Context {V : Type}.
Variable String_of : V -> string.
Variable stringValue : string -> V.
Variable localeCompare : string -> string -> Z.
Variable objectValues : gmap string string -> list string.

(** [config.requirePurposeOnSensitiveReads]. *)
Variable requirePurposeOnSensitiveReads : bool.

(** The handler of [search-patients]: the count and the patients as the
    actor may see them. *)
Definition searchPatientsTool (uuid now : string) (actor : Actor)
  (input : SearchPatientsInput) (st : MemoryDentalStore * AuditLog.t)
  : Result (Thrown V) (nat * list PatientView)
    * (MemoryDentalStore * AuditLog.t) :=
  match
    runWithAuthAudit String_of requirePurposeOnSensitiveReads uuid now
      {| opt_actor := actor;
         opt_permission := patient_read;
         opt_action := "search-patients";
         opt_resourceType := "patient";
         opt_resourceId := None;
         opt_requirePurposeOnRead := Some true;
         opt_metadata :=
           Some (<["q" := stringValue (orElse (sp_query input) "")]> ∅) |}
      (fun store =>
         (Ok (searchPatients localeCompare objectValues input store), store))
      st
  with
  | (Ok patients, st') =>
      (Ok (List.length patients, map (redactPatientForRole actor) patients),
       st')
  | (Throw e, st') => (Throw e, st')
  end.

(** The handler of [set-appointment-status]. *)
Definition setAppointmentStatusTool (uuid now : string) (actor : Actor)
  (appointmentId : string) (status : AppointmentStatus)
  (st : MemoryDentalStore * AuditLog.t)
  : Result (Thrown V) AppointmentRecord * (MemoryDentalStore * AuditLog.t) :=
  match
    runWithAuthAudit String_of requirePurposeOnSensitiveReads uuid now
      {| opt_actor := actor;
         opt_permission := appointment_write;
         opt_action := "set-appointment-status";
         opt_resourceType := "appointment";
         opt_resourceId := Some appointmentId;
         opt_requirePurposeOnRead := None;
         opt_metadata := None |}
      (fun store =>
         let '(appointment, store') :=
           updateAppointmentStatus store appointmentId status in
         (Ok appointment, store'))
      st
  with
  | (Ok (Some appointment), st') => (Ok appointment, st')
  | (Ok None, st') =>
      (Throw (ThrownError ("Appointment " ++ appointmentId ++ " not found")),
       st')
  | (Throw e, st') => (Throw e, st')
  end.

(** The handler of [list-audit-events]: the unit of work reads the log as
    it is when it runs, before the call's own event is appended. *)
Definition listAuditEventsTool (uuid now : string) (actor : Actor)
  (limit : option Z) (st : unit * AuditLog.t)
  : Result (Thrown V) (list AuditEvent * nat) * (unit * AuditLog.t) :=
  match
    runWithAuthAudit String_of requirePurposeOnSensitiveReads uuid now
      {| opt_actor := actor;
         opt_permission := audit_read;
         opt_action := "list-audit-events";
         opt_resourceType := "audit";
         opt_resourceId := None;
         opt_requirePurposeOnRead := Some true;
         opt_metadata := None |}
      (fun w => (Ok (AuditLog_list (Some (integerOr limit 100)) (snd st)), w))
      st
  with
  | (Ok events, st') => (Ok (events, List.length events), st')
  | (Throw e, st') => (Throw e, st')
  end.

End Tools.

(** ** Triage of dental images ([services/dentalImagery.ts]) *)

Inductive DentalModality : Type :=
| bitewing | periapical | panoramic | cbct | intraoral_photo.

Inductive RiskLevel : Type := risk_low | risk_moderate | risk_high.

#[global] Instance RiskLevel_eq_dec : EqDecision RiskLevel.
Proof. solve_decision. Defined.

Record ImageFinding : Type := mkImageFinding {
  finding_code : string;
  finding_label : string;
  finding_summary : string;
  confidence : float;
  risk : RiskLevel;
  finding_toothNumbers : list string
}.

Record DentalImageRecord : Type := mkDentalImage {
  img_id : string;
  img_patientId : string;
  modality : DentalModality;
  imageUrl : string;
  capturedAt : string;
  img_toothNumbers : list string;
  img_notes : option string;
  img_findings : list ImageFinding;
  img_riskLevel : option RiskLevel;
  analyzedAt : option string;
  img_createdAt : string
}.

Record ImageTriageInput : Type := mkImageTriageInput {
  image : DentalImageRecord;
  clinicalContext : option string
}.

Record ImageTriageResult : Type := mkImageTriageResult {
  triage_summary : string;
  triage_riskLevel : RiskLevel;
  triage_findings : list ImageFinding
}.

Definition CARIES_KEYWORDS : list string :=
  ["caries"; "decay"; "lesion"; "demineralization"].
Definition ENDO_KEYWORDS : list string :=
  ["abscess"; "periapical"; "endodontic"].
Definition PERIODONTAL_KEYWORDS : list string :=
  ["bone loss"; "periodontal"; "pocket"; "furcation"].

(** [keywords.some((keyword) => haystack.includes(keyword))]. *)
Definition containsAny (haystack : string) (keywords : list string) : bool :=
  existsb (fun keyword => JsText.includes haystack keyword) keywords.

(** The notes and the clinical context, a space between them, in lower
    case. *)
Definition combinedContext (input : ImageTriageInput) : string :=
  JsText.toLowerCase
    (orElse (img_notes (image input)) "" ++ " "
     ++ orElse (clinicalContext input) "").

(** [triageDentalImage(input)]: the findings are pushed in this order, and
    the placeholder only when there is no other.  The confidences 0.62,
    0.67 and 0.59 are written as the binary64 numbers they denote. *)
Definition triageDentalImage (input : ImageTriageInput) : ImageTriageResult :=
  let context := combinedContext input in
  let teeth := img_toothNumbers (image input) in
  let findings :=
    ((if containsAny context CARIES_KEYWORDS then
        [mkImageFinding "suspected-caries" "Possible caries"
           "Context suggests possible carious lesion. Confirm with full clinical exam."
           0x1.3d70a3d70a3d7p-1 risk_moderate teeth]
      else [])
     ++ (if containsAny context ENDO_KEYWORDS then
           [mkImageFinding "possible-endo-pathology"
              "Possible endodontic pathology"
              "Potential endodontic involvement is mentioned in context. Review pulp vitality tests."
              0x1.570a3d70a3d71p-1 risk_high teeth]
         else [])
     ++ (if containsAny context PERIODONTAL_KEYWORDS then
           [mkImageFinding "possible-periodontal-involvement"
              "Possible periodontal involvement"
              "Text indicates possible periodontal disease progression. Correlate with probing chart."
              0x1.2e147ae147ae1p-1 risk_moderate teeth]
         else []))%list in
  let findings :=
    if (List.length findings =? 0)%nat then
      [mkImageFinding "no-high-risk-signal" "No high-risk signal"
         "No high-risk keywords detected. This is a triage result only, not a diagnosis."
         0.5 risk_low teeth]
    else findings in
  let riskLevel :=
    if existsb (fun finding => bool_decide (risk finding = risk_high)) findings
    then risk_high
    else if existsb (fun finding => bool_decide (risk finding = risk_moderate))
              findings
    then risk_moderate
    else risk_low in
  {| triage_summary :=
       match riskLevel with
       | risk_high => "High-priority review suggested based on image context."
       | risk_moderate =>
           "Moderate-risk signals detected; routine review recommended."
       | risk_low => "No high-risk signals detected in triage."
       end;
     triage_riskLevel := riskLevel;
     triage_findings := findings |}.

(** * Vocabulary of the further statements *)

(** The categories of the object literal [normalizedBenefits] of
    [upsertInsurancePlan], with the fallback of each. *)
Definition benefitDefaults : list (string * float) :=
  [("preventive", 100%float); ("restorative", 80%float);
   ("endodontic", 80%float); ("periodontal", 80%float);
   ("oralSurgery", 80%float); ("crowns", 50%float);
   ("prosthodontics", 50%float)].

(** The order of the levels of risk. *)
Definition riskRank (level : RiskLevel) : nat :=
  match level with risk_low => 0 | risk_moderate => 1 | risk_high => 2 end.

(** The note [listCommunicationLogs] shows for a log whose text
    deciphers. *)
Definition noteOf {V Rand : Type} (textCipher : TextCipher V Rand)
  (log : CommunicationLogRecord) : string :=
  match decrypt textCipher (noteCiphertext log) with
  | Ok note => note
  | Throw _ => ""
  end.

(** ** Data of the worked examples, continued *)

Definition exAdmin : Actor := mkActor "u-1" admin None.
Definition exDentist : Actor := mkActor "u-3" dentist None.
Definition exReader : Actor := mkActor "u-7" readonly None.

(** The values of an object in the order of its keys. *)
Definition exObjectValues (m : gmap string string) : list string :=
  map snd (map_to_list m).

(** Stand-ins for the primitives of the cipher, for the examples: the
    digest is the text, the sealed body is the plain bytes and the tag is
    the vector, which opening checks. *)
Definition exDigest (input : list Byte.byte) : list Byte.byte := input.

Definition exSeal (key iv plain : list Byte.byte)
  : list Byte.byte * list Byte.byte :=
  (plain, iv).

Definition exOpen (key iv tag body : list Byte.byte)
  : Result (Thrown string) (list Byte.byte) :=
  if String.eqb (string_of_list_byte tag) (string_of_list_byte iv) then Ok body
  else Throw (ThrownError "Unsupported state or unable to authenticate data").

Definition exCipher : TextCipher string (list Byte.byte) :=
  createTextCipher exDigest exSeal exOpen list_byte_of_string
    string_of_list_byte (Some "secret").

Definition exVector : list Byte.byte := [Byte.x01; Byte.xab].

Definition exTask (id : string) (priority : TaskPriority) (status : TaskStatus)
  : TaskRecord :=
  mkTask id (Some "pat-1") "call back"
    (Some (encrypt exCipher exVector "ask about the crown")) (Some "u-3")
    None priority status "u-1" "2025-01-02T08:00:00.000Z"
    "2025-01-02T08:00:00.000Z".

Definition exRecords : MemoryClinicOpsRecords :=
  mkRecords [] [] []
    [ ("task-1", exTask "task-1" urgent task_open);
      ("task-2", exTask "task-2" low task_done) ].

Definition exUtc (t : Z) (isUTC : bool) : Z := 0.

(** * Properties *)

(** ** Authorization policy *)

Section AuthorizationProperties.

Context {V : Type}.

Lemma includes_In {A : Type} `{EqDecision A} (l : list A) (x : A) :
  includes l x = true <-> In x l.
Proof.
  unfold includes. rewrite existsb_exists. split.
  - intros [y [Hy Hd]]. apply bool_decide_eq_true in Hd. now subst.
  - intros Hx. exists x. split; [assumption | now apply bool_decide_eq_true].
Qed.

Lemma hasPermission_In (r : UserRole) (p : Permission) :
  hasPermission r p = true <-> In p (rolePermissions r).
Proof. apply includes_In. Qed.

Lemma assertAuthorized_ok (actor : Actor) (p : Permission) :
  assertAuthorized (V := V) actor p = Ok tt <-> hasPermission (role actor) p = true.
Proof.
  unfold assertAuthorized. destruct (hasPermission (role actor) p); simpl.
  - split; reflexivity.
  - split; discriminate.
Qed.

(** C4.  [assertAuthorized] succeeds exactly when the permission is in the
    role's entry of the table, and throws an [Error] otherwise; the
    [readonly] role passes no [*:write] check; [admin] and [system] pass
    every check, their entries holding every permission. *)
Theorem assertAuthorized_iff_policy :
  forall (actor : Actor) (p : Permission),
    (assertAuthorized (V := V) actor p = Ok tt
     <-> In p (rolePermissions (role actor)))
    /\ (~ In p (rolePermissions (role actor))
        -> exists message,
             assertAuthorized (V := V) actor p = Throw (ThrownError message))
    /\ (role actor = readonly -> isWritePermission p = true
        -> throws (assertAuthorized (V := V) actor p) = true)
    /\ (role actor = admin \/ role actor = system
        -> assertAuthorized (V := V) actor p = Ok tt)
    /\ In p (rolePermissions admin) /\ In p (rolePermissions system).
Proof.
  intros actor p.
  assert (Hall : In p allPermissions).
  { apply includes_In. destruct p; reflexivity. }
  split; [| split; [| split; [| split]]].
  - rewrite assertAuthorized_ok. apply hasPermission_In.
  - intros Hnot. rewrite <- hasPermission_In in Hnot.
    unfold assertAuthorized.
    destruct (hasPermission (role actor) p); [now elim Hnot |].
    simpl. eexists. reflexivity.
  - intros Hrole Hwrite. unfold assertAuthorized. rewrite Hrole.
    destruct p; try discriminate Hwrite; reflexivity.
  - intros Hrole. apply assertAuthorized_ok, hasPermission_In.
    destruct Hrole as [-> | ->]; exact Hall.
  - split; exact Hall.
Qed.

Lemma trim_empty : JsString.trim "" = "".
Proof. reflexivity. Qed.

Lemma requirePurpose_throws_iff (actor : Actor) (note : string) :
  throws (requirePurpose (V := V) actor note) = true
  <-> purpose actor = None
      \/ exists p, purpose actor = Some p
                   /\ JsString.length (JsString.trim p) < 8.
Proof.
  unfold requirePurpose. destruct (purpose actor) as [p |]; simpl.
  - destruct (JsString.truthy p) eqn:Ht; simpl.
    + destruct (JsString.length (JsString.trim p) <? 8) eqn:Hl; simpl.
      * apply Z.ltb_lt in Hl. split; [| reflexivity].
        intros _. right. exists p. split; [reflexivity | exact Hl].
      * apply Z.ltb_ge in Hl. split; [discriminate |].
        intros [H | [q [Hq Hlt]]]; [discriminate |].
        injection Hq as <-. lia.
    + split; [| reflexivity]. intros _. right. exists p.
      split; [reflexivity |].
      unfold JsString.truthy in Ht. apply negb_false_iff in Ht.
      apply String.eqb_eq in Ht. subst p. rewrite trim_empty.
      unfold JsString.length. simpl. lia.
  - split; [| reflexivity]. intros _. now left.
Qed.

Lemma requirePurposeUnits_throws_iff (units : option (list N))
  (note : string) :
  throws (requirePurposeUnits (V := V) units note) = true
  <-> units = None
      \/ exists p, units = Some p /\ JsUnits.length (JsUnits.trim p) < 8.
Proof.
  unfold requirePurposeUnits. destruct units as [p |]; simpl.
  - destruct (JsUnits.truthy p) eqn:Ht; simpl.
    + destruct (JsUnits.length (JsUnits.trim p) <? 8) eqn:Hl; simpl.
      * apply Z.ltb_lt in Hl. split; [| reflexivity].
        intros _. right. exists p. split; [reflexivity | exact Hl].
      * apply Z.ltb_ge in Hl. split; [discriminate |].
        intros [H | [q [Hq Hlt]]]; [discriminate |].
        injection Hq as <-. lia.
    + split; [| reflexivity]. intros _. right. exists p.
      split; [reflexivity |].
      destruct p; [| discriminate Ht]. reflexivity.
  - split; [| reflexivity]. intros _. now left.
Qed.

Lemma isWhiteSpace_units (u : N) :
  JsUnits.isWhiteSpace u = true <-> In u whiteSpaceUnits.
Proof.
  split.
  - unfold JsUnits.isWhiteSpace, whiteSpaceUnits. intros H. cbn [In].
    repeat (apply orb_true_iff in H; destruct H as [H | H]);
      repeat (apply andb_true_iff in H; destruct H as [H ?]);
      repeat match goal with
             | H : (_ <=? _)%N = true |- _ => apply N.leb_le in H
             | H : (_ =? _)%N = true |- _ => apply N.eqb_eq in H
             end;
      lia.
  - intros H. unfold whiteSpaceUnits in H.
    repeat (destruct H as [<- | H]; [reflexivity |]). destruct H.
Qed.

Lemma trimStart_spec (p : list N) :
  exists before,
    p = (before ++ JsUnits.trimStart p)%list
    /\ Forall (fun u => In u whiteSpaceUnits) before
    /\ (forall u r, JsUnits.trimStart p = u :: r -> ~ In u whiteSpaceUnits).
Proof.
  induction p as [| u p IH].
  - exists []. repeat split; [constructor | discriminate].
  - cbn [JsUnits.trimStart].
    destruct (JsUnits.isWhiteSpace u) eqn:Hu.
    + destruct IH as [before [Hp [Hws Hhead]]].
      exists (u :: before). split; [cbn; now rewrite <- Hp |].
      split; [| exact Hhead].
      constructor; [now apply isWhiteSpace_units | exact Hws].
    + exists []. split; [reflexivity |]. split; [constructor |].
      intros u' r [= <- _] Hin. apply isWhiteSpace_units in Hin. congruence.
Qed.

Lemma trimEnd_head (q : list N) (u : N) (r : list N) :
  JsUnits.trimEnd q = u :: r -> exists r', q = u :: r'.
Proof.
  destruct q as [| u0 q]; [discriminate |]. cbn [JsUnits.trimEnd].
  destruct (JsUnits.trimEnd q).
  - destruct (JsUnits.isWhiteSpace u0); [discriminate |].
    intros [= <- _]. now exists q.
  - intros [= <- _]. now exists q.
Qed.

Lemma trimEnd_spec (q : list N) :
  exists after,
    q = (JsUnits.trimEnd q ++ after)%list
    /\ Forall (fun u => In u whiteSpaceUnits) after
    /\ (forall r u,
          JsUnits.trimEnd q = (r ++ [u])%list -> ~ In u whiteSpaceUnits).
Proof.
  induction q as [| u q IH].
  - exists []. repeat split; [constructor |].
    intros r u H. now destruct r.
  - destruct IH as [after [Hq [Hws Hlast]]]. cbn [JsUnits.trimEnd].
    destruct (JsUnits.trimEnd q) as [| x kept] eqn:Hkept.
    + destruct (JsUnits.isWhiteSpace u) eqn:Hu.
      * exists (u :: after). split; [cbn; now rewrite Hq |].
        split; [constructor; [now apply isWhiteSpace_units | exact Hws] |].
        intros r u' H. now destruct r.
      * exists after. split; [cbn; now rewrite Hq |].
        split; [exact Hws |].
        intros r u' H Hin. destruct r as [| y r].
        -- injection H as <-. apply isWhiteSpace_units in Hin. congruence.
        -- injection H as _ H. now destruct r.
    + exists after. split; [cbn; now rewrite Hq |].
      split; [exact Hws |].
      intros r u' H. destruct r as [| y r]; [discriminate H |].
      injection H as _ H. now apply (Hlast r u').
Qed.

(** [trim] takes the white space off both ends, all of it and nothing
    else. *)
Lemma trim_spec (p : list N) :
  exists before after,
    p = (before ++ JsUnits.trim p ++ after)%list
    /\ Forall (fun u => In u whiteSpaceUnits) before
    /\ Forall (fun u => In u whiteSpaceUnits) after
    /\ (forall u r, JsUnits.trim p = u :: r -> ~ In u whiteSpaceUnits)
    /\ (forall r u,
          JsUnits.trim p = (r ++ [u])%list -> ~ In u whiteSpaceUnits).
Proof.
  destruct (trimStart_spec p) as [before [Hp [Hbefore Hhead]]].
  destruct (trimEnd_spec (JsUnits.trimStart p))
    as [after [Hq [Hafter Hlast]]].
  exists before, after. unfold JsUnits.trim.
  split; [now rewrite <- Hq |].
  split; [exact Hbefore | split; [exact Hafter | split; [| exact Hlast]]].
  intros u r Hu. destruct (trimEnd_head _ _ _ Hu) as [r' Hr'].
  now apply (Hhead u r').
Qed.

(** On the code units below 256 the two notions of white space agree. *)
Lemma isWhiteSpace_code (c : ascii) :
  JsUnits.isWhiteSpace (JsString.code c) = JsString.is_space c.
Proof. destruct c as [[] [] [] [] [] [] [] []]; reflexivity. Qed.

Lemma ofString_nil (s : string) : JsUnits.ofString s = [] -> s = "".
Proof. destruct s; [reflexivity | discriminate]. Qed.

Lemma ofString_trimStart (s : string) :
  JsUnits.ofString (JsString.trimStart s)
  = JsUnits.trimStart (JsUnits.ofString s).
Proof.
  induction s as [| c r IH]; [reflexivity |].
  change (JsUnits.ofString (String c r))
    with (JsString.code c :: JsUnits.ofString r).
  cbn [JsString.trimStart JsUnits.trimStart].
  rewrite isWhiteSpace_code.
  destruct (JsString.is_space c); [exact IH | reflexivity].
Qed.

Lemma ofString_trimEnd (s : string) :
  JsUnits.ofString (JsString.trimEnd s)
  = JsUnits.trimEnd (JsUnits.ofString s).
Proof.
  induction s as [| c r IH]; [reflexivity |].
  change (JsUnits.ofString (String c r))
    with (JsString.code c :: JsUnits.ofString r).
  cbn [JsString.trimEnd JsUnits.trimEnd].
  rewrite <- IH, isWhiteSpace_code.
  destruct (JsString.trimEnd r) as [| c' r'] eqn:Hr.
  - cbn. destruct (JsString.is_space c); reflexivity.
  - reflexivity.
Qed.

Lemma ofString_trim (s : string) :
  JsUnits.ofString (JsString.trim s) = JsUnits.trim (JsUnits.ofString s).
Proof.
  unfold JsString.trim, JsUnits.trim.
  now rewrite ofString_trimEnd, ofString_trimStart.
Qed.

Lemma ofString_length (s : string) :
  JsUnits.length (JsUnits.ofString s) = JsString.length s.
Proof.
  unfold JsUnits.length, JsString.length, JsUnits.ofString.
  rewrite length_map. f_equal.
  induction s as [| c r IH]; [reflexivity | cbn; now rewrite IH].
Qed.

(** The check on the texts of the model is the check on their code
    units. *)
Lemma requirePurpose_units (actor : Actor) (note : string) :
  requirePurpose (V := V) actor note
  = requirePurposeUnits (option_map JsUnits.ofString (purpose actor)) note.
Proof.
  unfold requirePurpose, requirePurposeUnits.
  destruct (purpose actor) as [p |]; [| reflexivity].
  cbn [option_map].
  rewrite <- ofString_trim, ofString_length.
  destruct p; reflexivity.
Qed.

(** C10, as amended.  [requirePurpose] throws exactly when [actor.purpose]
    is absent or, with the white space around it trimmed off, shorter than
    8 characters; otherwise it returns without error.  This holds of the
    check on the code units of any JavaScript string: the trimmed purpose
    is the purpose without the white space and line ends at its two ends,
    all of them and nothing else, and its length counts code units.  The
    check on the texts of the model is this check on their code units, and
    so obeys the same rule. *)
Theorem requirePurpose_fails_iff_trimmed_short :
  forall (actor : Actor) (units : option (list N)) (note : string),
    (throws (requirePurposeUnits (V := V) units note) = true
     <-> units = None
         \/ exists p, units = Some p
                      /\ JsUnits.length (JsUnits.trim p) < 8)
    /\ (forall p, units = Some p
                  -> 8 <= JsUnits.length (JsUnits.trim p)
                  -> requirePurposeUnits (V := V) units note = Ok tt)
    /\ (forall p : list N,
          JsUnits.length p = Z.of_nat (List.length p)
          /\ exists before after,
               p = (before ++ JsUnits.trim p ++ after)%list
               /\ Forall (fun u => In u whiteSpaceUnits) before
               /\ Forall (fun u => In u whiteSpaceUnits) after
               /\ (forall u r,
                     JsUnits.trim p = u :: r -> ~ In u whiteSpaceUnits)
               /\ (forall r u,
                     JsUnits.trim p = (r ++ [u])%list ->
                     ~ In u whiteSpaceUnits))
    /\ requirePurpose (V := V) actor note
       = requirePurposeUnits (option_map JsUnits.ofString (purpose actor))
           note
    /\ (throws (requirePurpose (V := V) actor note) = true
        <-> purpose actor = None
            \/ exists p, purpose actor = Some p
                         /\ JsString.length (JsString.trim p) < 8)
    /\ (forall p, purpose actor = Some p
                  -> 8 <= JsString.length (JsString.trim p)
                  -> requirePurpose (V := V) actor note = Ok tt).
Proof.
  intros actor units note.
  split; [apply requirePurposeUnits_throws_iff |].
  split.
  { intros p Hp Hlen.
    destruct (requirePurposeUnits (V := V) units note) as [[] | e] eqn:Hr;
      [reflexivity |].
    assert (Ht : throws (requirePurposeUnits (V := V) units note) = true)
      by now rewrite Hr.
    apply requirePurposeUnits_throws_iff in Ht.
    destruct Ht as [Hn | [q [Hq Hlt]]]; [congruence |].
    rewrite Hp in Hq. injection Hq as <-. lia. }
  split; [intros p; split; [reflexivity | apply trim_spec] |].
  split; [apply requirePurpose_units |].
  split; [apply requirePurpose_throws_iff |].
  intros p Hp Hlen.
  destruct (requirePurpose (V := V) actor note) as [[] | e] eqn:Hr;
    [reflexivity |].
  assert (Ht : throws (requirePurpose (V := V) actor note) = true)
    by now rewrite Hr.
  apply requirePurpose_throws_iff in Ht.
  destruct Ht as [Hn | [q [Hq Hlt]]]; [congruence |].
  rewrite Hp in Hq. injection Hq as <-. lia.
Qed.

End AuthorizationProperties.

(** C10, the claim as stated fails: a purpose of 8 characters, five of them
    trailing spaces, is not shorter than 8 characters and yet is refused. *)
Lemma requirePurpose_refuses_padded_purpose :
  ~ (forall (actor : Actor) (note : string),
       throws (requirePurpose (V := unit) actor note) = true
       <-> purpose actor = None
           \/ exists p, purpose actor = Some p /\ JsString.length p < 8).
Proof.
  intros H.
  destruct (H (mkActor "u-1" dentist (Some "abc     "))
              "sensitive read operation") as [Hthrows _].
  destruct (Hthrows eq_refl) as [Hnone | [p [Hp Hlen]]].
  - discriminate Hnone.
  - injection Hp as <-. vm_compute in Hlen. discriminate Hlen.
Qed.

(** The white space trimmed off is that of [String.prototype.trim]: seven
    letters between two no-break spaces are refused, and so are seven
    letters after an em space (U+2003) and a byte-order mark (U+FEFF);
    eight letters between no-break spaces pass. *)
Lemma requirePurpose_trims_unicode_space :
  let nbsp := String (ascii_of_N 160) "" in
  throws (requirePurpose (V := unit)
            (mkActor "u-1" dentist (Some (nbsp ++ "abcdefg" ++ nbsp)))
            "sensitive read operation") = true
  /\ requirePurpose (V := unit)
       (mkActor "u-1" dentist (Some (nbsp ++ "abcdefgh" ++ nbsp)))
       "sensitive read operation" = Ok tt
  /\ throws (requirePurposeUnits (V := unit)
               (Some (8195%N :: 65279%N :: JsUnits.ofString "abcdefg"))
               "sensitive read operation") = true.
Proof. repeat split. Qed.

(** ** Benefit categories *)

Lemma prefix_app_l (p q s : string) :
  String.prefix (p ++ q) s = true -> String.prefix p s = true.
Proof.
  revert s. induction p as [| c p IH]; intros [| d s] H; try reflexivity.
  - discriminate H.
  - simpl in *. destruct (ascii_dec c d); [now apply IH | discriminate].
Qed.

Lemma startsWith_longer (s p q : string) :
  JsString.startsWith s (p ++ q) = true -> JsString.startsWith s p = true.
Proof. apply prefix_app_l. Qed.

Lemma categoryOfUpper_unreachable (code : string) :
  categoryOfUpper code <> "endodontic" /\ categoryOfUpper code <> "crowns".
Proof.
  unfold categoryOfUpper.
  assert (H33 : JsString.startsWith code "D33" = true
                -> JsString.startsWith code "D3" = true)
    by exact (startsWith_longer code "D3" "3").
  assert (H34 : JsString.startsWith code "D34" = true
                -> JsString.startsWith code "D3" = true)
    by exact (startsWith_longer code "D3" "4").
  assert (H27 : JsString.startsWith code "D27" = true
                -> JsString.startsWith code "D2" = true)
    by exact (startsWith_longer code "D2" "7").
  destruct (JsString.startsWith code "D1"), (JsString.startsWith code "T1");
    simpl; try (split; discriminate).
  destruct (JsString.startsWith code "D3"), (JsString.startsWith code "T3"),
    (JsString.startsWith code "D2");
    simpl; try (split; discriminate).
  destruct (JsString.startsWith code "D33"); [discriminate (H33 eq_refl) |].
  destruct (JsString.startsWith code "D34"); [discriminate (H34 eq_refl) |].
  destruct (JsString.startsWith code "D27"); [discriminate (H27 eq_refl) |].
  simpl.
  destruct (JsString.startsWith code "D4"); [split; discriminate |].
  destruct (JsString.startsWith code "D7"); [split; discriminate |].
  destruct (JsString.startsWith code "D5"), (JsString.startsWith code "D6");
    simpl; split; discriminate.
Qed.

(** C3, what the code does: the tests for [D3] and [D2] come before those
    for [D33], [D34] and [D27], so no code is mapped to [endodontic] or to
    [crowns]; the endodontic code D3310 and the crown code D2740 are both
    mapped to [restorative].  The other five categories are reached. *)
Theorem estimateCategoryFromAdaCode_never_endodontic_nor_crowns :
  (forall adaCode : string,
     estimateCategoryFromAdaCode adaCode <> "endodontic"
     /\ estimateCategoryFromAdaCode adaCode <> "crowns")
  /\ estimateCategoryFromAdaCode "D3310" = "restorative"
  /\ estimateCategoryFromAdaCode "D2740" = "restorative"
  /\ estimateCategoryFromAdaCode "D1110" = "preventive"
  /\ estimateCategoryFromAdaCode "D4341" = "periodontal"
  /\ estimateCategoryFromAdaCode "D7140" = "oralSurgery"
  /\ estimateCategoryFromAdaCode "D5110" = "prosthodontics".
Proof.
  split; [| repeat split; reflexivity].
  intros adaCode. apply categoryOfUpper_unreachable.
Qed.

(** ** The authorized-action wrapper *)

Section WrapperProperties.

Context {V T World : Type}.
Variable String_of : V -> string.

Lemma log_appends (uuid now : string) (input : AuditLogInput)
  (events : AuditLog.t) :
  snd (AuditLog.log uuid now input events)
  = (events ++ [fst (AuditLog.log uuid now input events)])%list.
Proof. reflexivity. Qed.

(** C1, as amended.  When the authorization check and the purpose check (if
    it is made) pass, the wrapper appends exactly one event to the audit
    log: with [success = true], no reason and the metadata in string form
    when the unit of work returns, with [success = false] and the error's
    message as reason when it throws; in both cases the caller gets the
    outcome of the unit of work unchanged, thrown value included.  When
    either check fails, its error is thrown, the unit of work does not run
    and the log is left as it was. *)
Theorem runWithAuthAudit_one_event_once_authorized :
  forall (flag : bool) (uuid now : string)
         (options : ToolRunOptions (V := V))
         (fn : World -> Result (Thrown V) T * World)
         (w : World) (log : AuditLog.t),
    let run := runWithAuthAudit String_of flag uuid now options fn (w, log) in
    let guard :=
      purposeGuard (V := V) flag (opt_requirePurposeOnRead options)
        (opt_actor options) in
    (assertAuthorized (V := V) (opt_actor options) (opt_permission options)
       = Ok tt
     -> guard = Ok tt
     -> exists event,
          snd (snd run) = (log ++ [event])%list
          /\ fst run = fst (fn w)
          /\ fst (snd run) = snd (fn w)
          /\ ev_success event = is_ok (fst (fn w))
          /\ ev_reason event
             = match fst (fn w) with
               | Ok _ => None
               | Throw error => Some (reasonOf String_of error)
               end
          /\ ev_metadata event
             = metadataToStrings String_of (opt_metadata options)
          /\ ev_actorUserId event = userId (opt_actor options)
          /\ ev_actorRole event = role (opt_actor options)
          /\ ev_action event = opt_action options
          /\ ev_resourceType event = opt_resourceType options
          /\ ev_resourceId event = opt_resourceId options)
    /\ (forall e,
          assertAuthorized (V := V) (opt_actor options)
            (opt_permission options) = Throw e
          -> run = (Throw e, (w, log)))
    /\ (forall e,
          assertAuthorized (V := V) (opt_actor options)
            (opt_permission options) = Ok tt
          -> guard = Throw e
          -> run = (Throw e, (w, log))).
Proof.
  intros flag uuid now options fn w log run guard.
  subst run guard. unfold runWithAuthAudit, purposeGuard. simpl.
  split; [| split].
  - intros Hauth Hguard. rewrite Hauth, Hguard.
    destruct (fn w) as [[result | error] w'] eqn:Hfn; simpl;
      eexists; repeat split; reflexivity.
  - intros e Hauth. now rewrite Hauth.
  - intros e Hauth Hguard. now rewrite Hauth, Hguard.
Qed.

End WrapperProperties.

(** C1, the claim as stated fails: a [readonly] actor asking for
    [patient:write] is refused, and the call leaves the audit log empty
    instead of appending an event with [success = false]. *)
Lemma runWithAuthAudit_unauthorized_logs_nothing :
  let options :=
    mkToolRunOptions (V := string) (mkActor "u-7" readonly None) patient_write
      "upsert-patient" "patient" None None None in
  let run :=
    runWithAuthAudit (T := unit) (fun s : string => s) false "id-1"
      "2025-01-06T09:00:00.000Z" options (fun w : unit => (Ok tt, w))
      (tt, AuditLog.empty) in
  throws (fst run) = true /\ snd (snd run) = AuditLog.empty
  /\ List.length (snd (snd run)) <> S (List.length AuditLog.empty).
Proof. repeat split. discriminate. Qed.

(** ** Sorting and maps *)

Section SortProperties.

Context {A : Type}.
Variable cmp : A -> A -> comparison.

Lemma insertSorted_In (x y : A) (l : list A) :
  In x (insertSorted cmp y l) <-> x = y \/ In x l.
Proof.
  induction l as [| z l IH]; simpl.
  - intuition.
  - destruct (cmp y z); simpl; try rewrite IH; intuition.
Qed.

(** Sorting keeps the elements. *)
Lemma sortBy_In (x : A) (l : list A) : In x (sortBy cmp l) <-> In x l.
Proof.
  induction l as [| y l IH]; simpl; [reflexivity |].
  rewrite insertSorted_In, IH. intuition.
Qed.

Lemma insertSorted_length (y : A) (l : list A) :
  List.length (insertSorted cmp y l) = S (List.length l).
Proof.
  induction l as [| z l IH]; simpl; [reflexivity |].
  destruct (cmp y z); simpl; try rewrite IH; reflexivity.
Qed.

Lemma sortBy_nil_iff (l : list A) : sortBy cmp l = [] <-> l = [].
Proof.
  destruct l as [| y l]; simpl; [intuition |].
  split; [| discriminate].
  intros H. apply (f_equal (@List.length A)) in H.
  rewrite insertSorted_length in H. discriminate H.
Qed.

End SortProperties.

Lemma String_ltb_irrefl (s : string) : String.ltb s s = false.
Proof.
  unfold String.ltb. pose proof (String.compare_antisym s s) as H.
  destruct (String.compare s s); try reflexivity; discriminate H.
Qed.

(** ** Scheduling: what the filter keeps *)

Section FilterProperties.

Context {V : Type}.
Variable localeCompare : string -> string -> Z.

Lemma findOpenSlots_unfold (engine : string -> option Z)
  (input : FindOpenSlotsInput)
  (store : MemoryDentalStore) (repo : MemoryClinicOpsRepository)
  (slots : list Slot) :
  findOpenSlots (V := V) localeCompare engine input store repo = Ok slots ->
  exists baseSlots,
    baseSlotsOf (V := V) engine input = Ok baseSlots
    /\ slots
       = filter
           (slotIsOpen (availableBlocksOf localeCompare repo input)
              (blockingBlocksOf localeCompare repo input)
              (dayAppointments localeCompare store (fs_provider input)
                 (fs_date input)))
           baseSlots.
Proof.
  unfold findOpenSlots, baseSlotsOf, availableBlocksOf, blockingBlocksOf.
  destruct (createTimeSlots _ _ _ _ _) as [baseSlots | e];
    intros H; try discriminate H.
  injection H as <-. exists baseSlots. split; reflexivity.
Qed.

Lemma slotIsOpen_true (av bl : list ScheduleBlockRecord)
  (ap : list AppointmentRecord) (slot : Slot) :
  slotIsOpen av bl ap slot = true <->
  (av = [] \/ existsb (within slot) av = true) /\ clearOf ap bl slot = true.
Proof.
  unfold slotIsOpen, clearOf.
  destruct av as [| b av]; simpl List.length; simpl Nat.ltb.
  - rewrite andb_false_l.
    destruct (existsb _ ap), (existsb _ bl); simpl; intuition discriminate.
  - rewrite andb_true_l.
    destruct (existsb (within slot) (b :: av)); simpl.
    + destruct (existsb _ ap), (existsb _ bl); simpl; intuition discriminate.
    + intuition discriminate.
Qed.

Lemma dayAppointments_In (store : MemoryDentalStore) (provider date : string)
  (a : AppointmentRecord) :
  In a (JsMap.values (appointments store)) ->
  appt_provider a = provider ->
  overlap (appt_startAt a) (appt_endAt a) (dayStartText date) (dayEndText date)
    = true ->
  In a (dayAppointments localeCompare store provider date).
Proof.
  intros Hin Hprov Hday. unfold dayAppointments, listAppointmentsByRange.
  apply sortBy_In, filter_In. split; [exact Hin |].
  unfold overlap, dayStartText, dayEndText in Hday. rewrite Hday. simpl.
  rewrite Hprov, String.eqb_refl. simpl. now rewrite andb_false_r.
Qed.

Lemma dayBlocks_In (repo : MemoryClinicOpsRepository) (provider date : string)
  (b : ScheduleBlockRecord) :
  In b (dayBlocks localeCompare repo provider date) <->
  In b (JsMap.values (scheduleBlocks repo))
  /\ block_provider b = provider
  /\ overlap (block_startAt b) (block_endAt b) (dayStartText date)
       (dayEndText date) = true.
Proof.
  unfold dayBlocks, listScheduleBlocksByProviderInRange.
  rewrite sortBy_In, !filter_In, String.eqb_eq. tauto.
Qed.

End FilterProperties.

(** ** Dates: the instants of a day *)

Section Decimal.

Lemma digit_range (c : ascii) (d : Z) : JsDate.digit c = Some d -> 0 <= d <= 9.
Proof.
  unfold JsDate.digit.
  destruct ((48 <=? Z.of_N (N_of_ascii c)) && (Z.of_N (N_of_ascii c) <=? 57))
    eqn:H; [| discriminate].
  intros [= <-]. apply andb_true_iff in H. lia.
Qed.

Lemma digits_range (s : string) :
  forall acc y,
    0 <= acc -> JsDate.digits acc s = Some y ->
    acc * 10 ^ Z.of_nat (String.length s) <= y
    < (acc + 1) * 10 ^ Z.of_nat (String.length s).
Proof.
  induction s as [| c s IH]; intros acc y Hacc H; simpl in H.
  - injection H as <-. simpl. lia.
  - destruct (JsDate.digit c) as [d |] eqn:Hd; [| discriminate].
    apply digit_range in Hd. apply IH in H; [| lia].
    simpl String.length. rewrite Nat2Z.inj_succ, Z.pow_succ_r by lia.
    nia.
Qed.

Lemma substring_length_le (s : string) :
  forall n m, (String.length (String.substring n m s) <= m)%nat.
Proof.
  induction s as [| c s IH]; intros n m.
  - destruct n, m; simpl; lia.
  - destruct n as [| n]; destruct m as [| m]; simpl; try lia.
    + specialize (IH O m). simpl in IH. lia.
    + apply IH.
    + apply IH.
Qed.

Lemma field_range (start len : nat) (s : string) (y : Z) :
  JsDate.field start len s = Some y -> 0 <= y < 10 ^ Z.of_nat len.
Proof.
  unfold JsDate.field. intros H. apply digits_range in H; [| lia].
  pose proof (substring_length_le s start len) as Hle.
  assert (10 ^ Z.of_nat (String.length (String.substring start len s))
          <= 10 ^ Z.of_nat len)
    by (apply Z.pow_le_mono_r; lia).
  lia.
Qed.

Lemma substring_all (s : string) : String.substring 0 (String.length s) s = s.
Proof. induction s as [| c s IH]; simpl; [reflexivity | now rewrite IH]. Qed.

End Decimal.

Lemma daysInMonth_le_31 (y m : Z) : JsDate.daysInMonth y m <= 31.
Proof.
  unfold JsDate.daysInMonth.
  destruct (m =? 2); [destruct (JsDate.isLeap y); lia |].
  destruct ((m =? 4) || (m =? 6) || (m =? 9) || (m =? 11)); lia.
Qed.

Lemma daysFromCivil_range (y m d : Z) :
  0 <= y <= 9999 -> 1 <= m <= 12 -> 1 <= d <= 31 ->
  -719528 <= JsDate.daysFromCivil y m d <= 2932896.
Proof.
  intros Hy Hm Hd. unfold JsDate.daysFromCivil.
  destruct (m <=? 2) eqn:H2; destruct (2 <? m) eqn:H3;
    try (apply Z.leb_le in H2); try (apply Z.leb_gt in H2);
    try (apply Z.ltb_lt in H3); try (apply Z.ltb_ge in H3); try lia;
    Z.div_mod_to_equations; lia.
Qed.

Lemma calendarDay_length (date : string) (day : Z) :
  calendarDay date = Some day -> String.length date = 10%nat.
Proof.
  unfold calendarDay.
  destruct (String.length date =? 10)%nat eqn:H; [| discriminate].
  intros _. now apply Nat.eqb_eq.
Qed.

(** A date that parses lies in the years 0 to 9999. *)
Lemma calendarDay_range (date : string) (day : Z) :
  calendarDay date = Some day -> -719528 <= day <= 2932896.
Proof.
  unfold calendarDay.
  destruct (negb _); [discriminate |].
  destruct (JsDate.field 0 4 date) as [y |] eqn:Hy; [| discriminate].
  destruct (JsDate.field 5 2 date) as [m |] eqn:Hm; [| discriminate].
  destruct (JsDate.field 8 2 date) as [d |] eqn:Hd; [| discriminate].
  destruct ((1 <=? m) && (m <=? 12) && (1 <=? d)
            && (d <=? JsDate.daysInMonth y m)) eqn:Hc; [| discriminate].
  intros [= <-]. apply field_range in Hy.
  repeat (apply andb_true_iff in Hc; destruct Hc as [Hc ?]).
  pose proof (daysInMonth_le_31 y m).
  apply daysFromCivil_range; simpl in Hy; lia.
Qed.

Lemma append_cons (c : ascii) (s r : string) :
  (String c s ++ r)%string = String c (s ++ r).
Proof. reflexivity. Qed.

Lemma append_nil (r : string) : ("" ++ r)%string = r.
Proof. reflexivity. Qed.

Lemma isoInstant_append (date rest : string) :
  String.length date = 10%nat ->
  isoInstant (date ++ rest)
  = match calendarDay date, JsDate.parseTimeOfDay rest with
    | Some day, Some ms => Some (day * JsDate.msPerDay + ms)
    | _, _ => None
    end.
Proof.
  intros Hlen.
  destruct date as [| c0 [| c1 [| c2 [| c3 [| c4 [| c5 [| c6 [| c7 [| c8
    [| c9 [| c10 r]]]]]]]]]]]; try discriminate Hlen.
  unfold isoInstant. rewrite !append_cons, append_nil.
  cbn [String.length String.substring Nat.sub].
  rewrite Nat.sub_0_r, substring_all.
  now destruct rest.
Qed.



(** ** Dates: parsing and printing are inverse *)

Lemma era_of_day (era doe : Z) :
  0 <= doe <= 146096 ->
  (era * 146097 + doe) / 146097 = era.
Proof. intros H. Z.div_mod_to_equations. lia. Qed.

Lemma yearOfEra_back (yoe doy : Z) :
  0 <= yoe <= 399 -> 0 <= doy <= 365 ->
  (doy = 365 -> (yoe + 1) mod 4 = 0 /\ ((yoe + 1) mod 100 <> 0 \/ yoe = 399)) ->
  let doe := yoe * 365 + yoe / 4 - yoe / 100 + doy in
  (doe - doe / 1460 + doe / 36524 - doe / 146096) / 365 = yoe
  /\ 0 <= doe <= 146096.
Proof.
  intros Hy Hd Hleap doe. subst doe. Z.div_mod_to_equations. lia.
Qed.

Lemma isLeap_true (y : Z) :
  JsDate.isLeap y = true <->
  y mod 4 = 0 /\ (y mod 100 <> 0 \/ y mod 400 = 0).
Proof.
  unfold JsDate.isLeap.
  rewrite orb_true_iff, andb_true_iff, negb_true_iff, !Z.eqb_eq, Z.eqb_neq.
  pose proof (Z.mod_pos_bound y 4). pose proof (Z.mod_pos_bound y 100).
  pose proof (Z.mod_pos_bound y 400).
  Z.div_mod_to_equations. lia.
Qed.

(** The date of the day number of a date is that date. *)
Lemma civilFromDays_daysFromCivil (y m d : Z) :
  1 <= m <= 12 -> 1 <= d <= JsDate.daysInMonth y m ->
  JsDate.civilFromDays (JsDate.daysFromCivil y m d) = (y, m, d).
Proof.
  intros Hm Hd.
  assert (Hdim : JsDate.daysInMonth y m
                 = if m =? 2 then (if JsDate.isLeap y then 29 else 28)
                   else if (m =? 4) || (m =? 6) || (m =? 9) || (m =? 11)
                        then 30 else 31) by reflexivity.
  assert (Hleap : d = 29 -> m = 2 ->
                  y mod 4 = 0 /\ (y mod 100 <> 0 \/ y mod 400 = 0)).
  { intros -> ->. rewrite Hdim in Hd. cbn in Hd.
    destruct (JsDate.isLeap y) eqn:E; [now apply isLeap_true | lia]. }
  assert (Hd31 : 1 <= d <= 31) by (pose proof (daysInMonth_le_31 y m); lia).
  assert (Hmd : (m = 2 -> d <= 29)
                /\ (m = 4 \/ m = 6 \/ m = 9 \/ m = 11 -> d <= 30)).
  { rewrite Hdim in Hd. split.
    - intros ->. cbn in Hd. destruct (JsDate.isLeap y); lia.
    - intros Hc. destruct (m =? 2) eqn:E2; [apply Z.eqb_eq in E2; lia |].
      destruct ((m =? 4) || (m =? 6) || (m =? 9) || (m =? 11)) eqn:E; [lia |].
      rewrite !orb_false_iff, !Z.eqb_neq in E. lia. }
  clear Hdim Hd. destruct Hmd as [Hfeb H30].
  unfold JsDate.daysFromCivil, JsDate.civilFromDays.
  set (y' := if m <=? 2 then y - 1 else y).
  set (era := y' / 400).
  set (yoe := y' - era * 400).
  set (mp := if 2 <? m then m - 3 else m + 9).
  set (doy := (153 * mp + 2) / 5 + d - 1).
  assert (Hyoe : 0 <= yoe <= 399)
    by (subst yoe era; Z.div_mod_to_equations; lia).
  assert (Hmp : 0 <= mp <= 11 /\ m = (if mp <? 10 then mp + 3 else mp - 9)
                /\ ((m <=? 2) = negb (mp <? 10))).
  { subst mp. destruct (2 <? m) eqn:E;
      [apply Z.ltb_lt in E | apply Z.ltb_ge in E].
    - destruct (m - 3 <? 10) eqn:E'; [| apply Z.ltb_ge in E'; lia].
      destruct (m <=? 2) eqn:E''; [apply Z.leb_le in E''; lia |].
      repeat split; cbn; lia.
    - destruct (m + 9 <? 10) eqn:E'; [apply Z.ltb_lt in E'; lia |].
      destruct (m <=? 2) eqn:E''; [| apply Z.leb_gt in E''; lia].
      repeat split; cbn; lia. }
  destruct Hmp as [Hmp [Hm' Hle]].
  assert (Hdoy : 0 <= doy <= 365
                 /\ (5 * doy + 2) / 153 = mp
                 /\ doy - (153 * mp + 2) / 5 + 1 = d
                 /\ (doy = 365 -> m = 2 /\ d = 29)).
  { subst doy mp.
    destruct (2 <? m) eqn:E;
      [apply Z.ltb_lt in E | apply Z.ltb_ge in E];
      assert (Hcases : m = 1 \/ m = 2 \/ m = 3 \/ m = 4 \/ m = 5 \/ m = 6
                       \/ m = 7 \/ m = 8 \/ m = 9 \/ m = 10 \/ m = 11
                       \/ m = 12) by lia;
      repeat (destruct Hcases as [-> | Hcases]); try subst m; try lia;
      cbn; repeat split; try (Z.div_mod_to_equations; lia). }
  destruct Hdoy as [Hdoy [Hmpb [Hdb Hlast]]].
  assert (Hback : (doy = 365 ->
                   (yoe + 1) mod 4 = 0
                   /\ ((yoe + 1) mod 100 <> 0 \/ yoe = 399))).
  { intros H365. destruct (Hlast H365) as [-> ->].
    destruct (Hleap eq_refl eq_refl) as [H4 H100].
    subst yoe era y'. cbn. Z.div_mod_to_equations. lia. }
  destruct (yearOfEra_back yoe doy Hyoe Hdoy Hback) as [Hyb Hdoe].
  cbv zeta in Hyb, Hdoe.
  set (doe := yoe * 365 + yoe / 4 - yoe / 100 + doy) in *.
  replace (era * 146097 + doe - 719468 + 719468) with (era * 146097 + doe)
    by lia.
  rewrite era_of_day by exact Hdoe.
  replace (era * 146097 + doe - era * 146097) with doe by lia.
  rewrite Hyb.
  replace (doe - (365 * yoe + yoe / 4 - yoe / 100)) with doy
    by (subst doe; lia).
  rewrite Hmpb, Hdb, <- Hm'.
  f_equal. f_equal.
  subst yoe y'. destruct (m <=? 2); lia.
Qed.

Lemma yearOfEra_forth (doe : Z) :
  0 <= doe <= 146096 ->
  let yoe := (doe - doe / 1460 + doe / 36524 - doe / 146096) / 365 in
  let doy := doe - (365 * yoe + yoe / 4 - yoe / 100) in
  0 <= yoe <= 399 /\ 0 <= doy <= 365
  /\ (doy = 365 -> (yoe + 1) mod 4 = 0
                   /\ ((yoe + 1) mod 100 <> 0 \/ yoe = 399)).
Proof.
  intros Hdoe yoe doy. subst doy yoe. Z.div_mod_to_equations. lia.
Qed.

(** The day number of the date of a day number is that day number, and the
    date is a date of the calendar. *)
Lemma daysFromCivil_civilFromDays (z : Z) :
  let '(y, m, d) := JsDate.civilFromDays z in
  JsDate.daysFromCivil y m d = z
  /\ 1 <= m <= 12 /\ 1 <= d <= JsDate.daysInMonth y m.
Proof.
  unfold JsDate.civilFromDays.
  set (z' := z + 719468).
  set (era := z' / 146097).
  set (doe := z' - era * 146097).
  assert (Hdoe : 0 <= doe <= 146096)
    by (subst doe era; Z.div_mod_to_equations; lia).
  destruct (yearOfEra_forth doe Hdoe) as [Hyoe [Hdoy Hleap]].
  cbv zeta in Hyoe, Hdoy, Hleap.
  set (yoe := (doe - doe / 1460 + doe / 36524 - doe / 146096) / 365) in *.
  set (doy := doe - (365 * yoe + yoe / 4 - yoe / 100)) in *.
  set (mp := (5 * doy + 2) / 153).
  assert (Hmp : 0 <= mp <= 11) by (subst mp; Z.div_mod_to_equations; lia).
  set (d := doy - (153 * mp + 2) / 5 + 1).
  set (m := if mp <? 10 then mp + 3 else mp - 9).
  set (y := if m <=? 2 then yoe + era * 400 + 1 else yoe + era * 400).
  assert (Hm : 1 <= m <= 12 /\ (m <=? 2) = negb (mp <? 10)
               /\ (if 2 <? m then m - 3 else m + 9) = mp).
  { subst m. destruct (mp <? 10) eqn:E;
      [apply Z.ltb_lt in E | apply Z.ltb_ge in E].
    - destruct (mp + 3 <=? 2) eqn:E1; [apply Z.leb_le in E1; lia |].
      destruct (2 <? mp + 3) eqn:E2; [| apply Z.ltb_ge in E2; lia].
      cbn. lia.
    - destruct (mp - 9 <=? 2) eqn:E1; [| apply Z.leb_gt in E1; lia].
      destruct (2 <? mp - 9) eqn:E2; [apply Z.ltb_lt in E2; lia |].
      cbn. lia. }
  destruct Hm as [Hm [Hle Hmpb]].
  assert (Hy' : (if m <=? 2 then y - 1 else y) = yoe + era * 400)
    by (subst y; destruct (m <=? 2); lia).
  split; [| split; [exact Hm |]].
  - unfold JsDate.daysFromCivil. rewrite Hy', Hmpb.
    assert (Hera : (yoe + era * 400) / 400 = era)
      by (Z.div_mod_to_equations; lia).
    rewrite Hera.
    replace (yoe + era * 400 - era * 400) with yoe by lia.
    subst d doy doe z'. lia.
  - assert (Hd : 1 <= d
                 /\ (mp = 11 -> d <= 29 /\ (d = 29 -> doy = 365))
                 /\ (mp = 1 \/ mp = 3 \/ mp = 6 \/ mp = 8 -> d <= 30)
                 /\ d <= 31).
    { subst d mp. Z.div_mod_to_equations. lia. }
    destruct Hd as [Hd1 [Hfeb [H30 H31]]].
    split; [exact Hd1 |].
    unfold JsDate.daysInMonth.
    destruct (m =? 2) eqn:E2; [apply Z.eqb_eq in E2 | apply Z.eqb_neq in E2].
    + assert (Hmp11 : mp = 11)
        by (subst m; destruct (mp <? 10) eqn:E;
            [apply Z.ltb_lt in E | apply Z.ltb_ge in E]; lia).
      destruct (Hfeb Hmp11) as [H29 Hlast].
      destruct (JsDate.isLeap y) eqn:El; [exact H29 |].
      assert (Hnot : d <> 29).
      { intros H. destruct (Hleap (Hlast H)) as [H4 H100].
        assert (Hl : JsDate.isLeap y = true).
        { apply isLeap_true. subst y. rewrite E2. cbn.
          Z.div_mod_to_equations. lia. }
        congruence. }
      lia.
    + destruct ((m =? 4) || (m =? 6) || (m =? 9) || (m =? 11)) eqn:E;
        [| exact H31].
      rewrite !orb_true_iff, !Z.eqb_eq in E. apply H30.
      subst m. destruct (mp <? 10) eqn:E';
        [apply Z.ltb_lt in E' | apply Z.ltb_ge in E']; lia.
Qed.

Lemma digit_digitChar (d : Z) :
  0 <= d <= 9 -> JsDate.digit (JsDate.digitChar d) = Some d.
Proof.
  intros Hd.
  assert (Hc : d = 0 \/ d = 1 \/ d = 2 \/ d = 3 \/ d = 4 \/ d = 5 \/ d = 6
               \/ d = 7 \/ d = 8 \/ d = 9) by lia.
  repeat (destruct Hc as [-> | Hc]); try subst d; reflexivity.
Qed.

Lemma digitChar_digit (c : ascii) (d : Z) :
  JsDate.digit c = Some d -> JsDate.digitChar d = c.
Proof.
  unfold JsDate.digit, JsDate.digitChar.
  destruct ((48 <=? Z.of_N (N_of_ascii c)) && (Z.of_N (N_of_ascii c) <=? 57))
    eqn:H; [| discriminate].
  intros [= <-].
  replace (48 + (Z.of_N (N_of_ascii c) - 48)) with (Z.of_N (N_of_ascii c))
    by lia.
  now rewrite N2Z.id, ascii_N_embedding.
Qed.

Lemma length_padded (w : nat) (n : Z) : String.length (JsDate.padded w n) = w.
Proof. induction w as [| w IH]; cbn; [reflexivity | now rewrite IH]. Qed.

(** Reading back the [w] digits written for [n]. *)
Lemma digits_padded (w : nat) :
  forall acc n,
    JsDate.digits acc (JsDate.padded w n)
    = Some (acc * 10 ^ Z.of_nat w + n mod 10 ^ Z.of_nat w).
Proof.
  induction w as [| w IH]; intros acc n.
  - cbn. rewrite Z.mod_1_r. f_equal. lia.
  - cbn [JsDate.padded JsDate.digits].
    rewrite digit_digitChar
      by (pose proof (Z.mod_pos_bound (n / 10 ^ Z.of_nat w) 10); lia).
    rewrite IH. f_equal.
    rewrite Nat2Z.inj_succ, Z.pow_succ_r by lia.
    assert (Hp : 0 < 10 ^ Z.of_nat w) by (apply Z.pow_pos_nonneg; lia).
    rewrite (Z.mul_comm 10 (10 ^ Z.of_nat w)).
    rewrite (Z.rem_mul_r n (10 ^ Z.of_nat w) 10) by lia.
    lia.
Qed.

Lemma field_padded (w : nat) (n : Z) :
  0 <= n < 10 ^ Z.of_nat w -> JsDate.digits 0 (JsDate.padded w n) = Some n.
Proof.
  intros Hn. rewrite digits_padded. f_equal.
  rewrite Z.mod_small by exact Hn. lia.
Qed.

(** Writing the digits that were read. *)
Lemma padded_digits (s : string) :
  forall acc v,
    0 <= acc -> JsDate.digits acc s = Some v ->
    JsDate.padded (String.length s) v = s.
Proof.
  induction s as [| c s IH]; intros acc v Hacc H; [reflexivity |].
  cbn [JsDate.digits] in H.
  destruct (JsDate.digit c) as [d |] eqn:Hd; [| discriminate].
  pose proof (digit_range c d Hd) as Hdr.
  pose proof (digits_range s (10 * acc + d) v ltac:(lia) H) as Hv.
  cbn [String.length JsDate.padded].
  rewrite (IH (10 * acc + d) v) by (try lia; exact H).
  f_equal.
  assert (Hp : 0 < 10 ^ Z.of_nat (String.length s))
    by (apply Z.pow_pos_nonneg; lia).
  assert (Hq : v / 10 ^ Z.of_nat (String.length s) = 10 * acc + d).
  { symmetry.
    apply Z.div_unique with (r := v - (10 * acc + d)
                                      * 10 ^ Z.of_nat (String.length s));
      lia. }
  rewrite Hq.
  replace ((10 * acc + d) mod 10) with d
    by (rewrite Z.add_comm, Z.mul_comm, Z.mod_add by lia;
        rewrite Z.mod_small; lia).
  now apply digitChar_digit.
Qed.

Lemma calendarDay_padded (y m d : Z) :
  0 <= y <= 9999 -> 1 <= m <= 12 -> 1 <= d <= JsDate.daysInMonth y m ->
  calendarDay
    (JsDate.padded 4 y ++ "-" ++ JsDate.padded 2 m ++ "-" ++ JsDate.padded 2 d)
  = Some (JsDate.daysFromCivil y m d).
Proof.
  intros Hy Hm Hd. pose proof (daysInMonth_le_31 y m) as H31.
  unfold calendarDay.
  set (X := (JsDate.padded 4 y ++ "-" ++ JsDate.padded 2 m ++ "-"
             ++ JsDate.padded 2 d)%string).
  replace (String.length X) with 10%nat by reflexivity.
  replace (JsDate.charIs 4 "-" X) with true by reflexivity.
  replace (JsDate.charIs 7 "-" X) with true by reflexivity.
  replace (JsDate.field 0 4 X) with (JsDate.digits 0 (JsDate.padded 4 y))
    by reflexivity.
  replace (JsDate.field 5 2 X) with (JsDate.digits 0 (JsDate.padded 2 m))
    by reflexivity.
  replace (JsDate.field 8 2 X) with (JsDate.digits 0 (JsDate.padded 2 d))
    by reflexivity.
  rewrite !field_padded by (cbn; lia).
  cbn [Nat.eqb andb negb].
  destruct (1 <=? m) eqn:E1; [| lia].
  destruct (m <=? 12) eqn:E2; [| lia].
  destruct (1 <=? d) eqn:E3; [| lia].
  destruct (d <=? JsDate.daysInMonth y m) eqn:E4; [reflexivity | lia].
Qed.

Lemma parseTimeOfDay_padded (h mi sec ms : Z) :
  0 <= h <= 23 -> 0 <= mi <= 59 -> 0 <= sec <= 59 -> 0 <= ms <= 999 ->
  JsDate.parseTimeOfDay
    ("T" ++ JsDate.padded 2 h ++ ":" ++ JsDate.padded 2 mi ++ ":"
     ++ JsDate.padded 2 sec ++ "." ++ JsDate.padded 3 ms ++ "Z")
  = Some (h * 3600000 + mi * 60000 + sec * 1000 + ms).
Proof.
  intros Hh Hmi Hsec Hms.
  unfold JsDate.parseTimeOfDay.
  set (X := ("T" ++ JsDate.padded 2 h ++ ":" ++ JsDate.padded 2 mi ++ ":"
             ++ JsDate.padded 2 sec ++ "." ++ JsDate.padded 3 ms ++ "Z")%string).
  replace (String.length X) with 14%nat by reflexivity.
  replace (JsDate.charIs 0 "T" X) with true by reflexivity.
  replace (JsDate.charIs 3 ":" X) with true by reflexivity.
  replace (JsDate.charIs 6 ":" X) with true by reflexivity.
  replace (JsDate.charIs 9 "." X) with true by reflexivity.
  replace (JsDate.charIs 13 "Z" X) with true by reflexivity.
  replace (JsDate.field 1 2 X) with (JsDate.digits 0 (JsDate.padded 2 h))
    by reflexivity.
  replace (JsDate.field 4 2 X) with (JsDate.digits 0 (JsDate.padded 2 mi))
    by reflexivity.
  replace (JsDate.field 7 2 X) with (JsDate.digits 0 (JsDate.padded 2 sec))
    by reflexivity.
  replace (JsDate.field 10 3 X) with (JsDate.digits 0 (JsDate.padded 3 ms))
    by reflexivity.
  rewrite !field_padded by (cbn; lia).
  cbn [Nat.eqb andb negb].
  destruct (h <=? 23) eqn:E1; [| lia].
  destruct (mi <=? 59) eqn:E2; [| lia].
  destruct (sec <=? 59) eqn:E3; [reflexivity | lia].
Qed.

Lemma daysFromCivil_year (y m d : Z) :
  1 <= m <= 12 -> 1 <= d <= 31 ->
  (y <= -1 -> JsDate.daysFromCivil y m d < -719528)
  /\ (10000 <= y -> 2932896 < JsDate.daysFromCivil y m d).
Proof.
  intros Hm Hd. unfold JsDate.daysFromCivil.
  destruct (m <=? 2) eqn:H2; destruct (2 <? m) eqn:H3;
    try (apply Z.leb_le in H2); try (apply Z.leb_gt in H2);
    try (apply Z.ltb_lt in H3); try (apply Z.ltb_ge in H3); try lia;
    split; intros; Z.div_mod_to_equations; lia.
Qed.

(** What [toISOString] writes for an instant of the years 0 to 9999 parses
    back to that instant. *)
Lemma isoInstant_isoText (t : Z) :
  firstInstant <= t <= lastInstant ->
  isoInstant (JsDate.isoText t) = Some t.
Proof.
  unfold firstInstant, lastInstant. intros Ht.
  unfold JsDate.isoText.
  pose proof (daysFromCivil_civilFromDays (t / JsDate.msPerDay)) as Hciv.
  destruct (JsDate.civilFromDays (t / JsDate.msPerDay)) as [[y m] d].
  destruct Hciv as [Hday [Hm Hd]].
  pose proof (daysInMonth_le_31 y m) as H31.
  assert (Hy : 0 <= y <= 9999).
  { destruct (daysFromCivil_year y m d Hm ltac:(lia)) as [Hlo Hhi].
    assert (-719528 <= t / JsDate.msPerDay <= 2932896)
      by (unfold JsDate.msPerDay; Z.div_mod_to_equations; lia).
    lia. }
  destruct (0 <=? y) eqn:E1; [| lia].
  destruct (y <=? 9999) eqn:E2; [| lia].
  cbn [andb].
  set (tod := t mod JsDate.msPerDay).
  assert (Htod : 0 <= tod < 86400000)
    by (subst tod; unfold JsDate.msPerDay; apply Z.mod_pos_bound; lia).
  change (JsDate.padded 4 y ++ "-" ++ JsDate.padded 2 m ++ "-"
          ++ JsDate.padded 2 d ++ "T" ++ JsDate.padded 2 (tod / 3600000)
          ++ ":" ++ JsDate.padded 2 (tod / 60000 mod 60) ++ ":"
          ++ JsDate.padded 2 (tod / 1000 mod 60) ++ "."
          ++ JsDate.padded 3 (tod mod 1000) ++ "Z")%string
    with ((JsDate.padded 4 y ++ "-" ++ JsDate.padded 2 m ++ "-"
           ++ JsDate.padded 2 d)
          ++ ("T" ++ JsDate.padded 2 (tod / 3600000)
              ++ ":" ++ JsDate.padded 2 (tod / 60000 mod 60) ++ ":"
              ++ JsDate.padded 2 (tod / 1000 mod 60) ++ "."
              ++ JsDate.padded 3 (tod mod 1000) ++ "Z"))%string.
  rewrite isoInstant_append by reflexivity.
  rewrite calendarDay_padded by assumption.
  rewrite parseTimeOfDay_padded
    by (Z.div_mod_to_equations; lia).
  f_equal. rewrite Hday. subst tod. unfold JsDate.msPerDay in *.
  Z.div_mod_to_equations. lia.
Qed.

Lemma substring_split (s : string) :
  forall n, (n <= String.length s)%nat ->
  s = (String.substring 0 n s
       ++ String.substring n (String.length s - n) s)%string.
Proof.
  induction s as [| c s IH]; intros n Hn.
  - destruct n; [reflexivity | cbn in Hn; lia].
  - destruct n as [| n].
    + cbn [String.substring String.length Nat.sub]. rewrite append_nil.
      now rewrite substring_all.
    + cbn [String.substring String.length Nat.sub]. rewrite append_cons.
      f_equal. apply IH. cbn in Hn. lia.
Qed.

Lemma calendarDay_inv (date : string) (day : Z) :
  calendarDay date = Some day ->
  exists y m d,
    date = (JsDate.padded 4 y ++ "-" ++ JsDate.padded 2 m ++ "-"
            ++ JsDate.padded 2 d)%string
    /\ 0 <= y <= 9999 /\ 1 <= m <= 12 /\ 1 <= d <= JsDate.daysInMonth y m
    /\ day = JsDate.daysFromCivil y m d.
Proof.
  intros H. pose proof (calendarDay_length _ _ H) as Hlen.
  destruct date as [| c0 [| c1 [| c2 [| c3 [| c4 [| c5 [| c6 [| c7 [| c8
    [| c9 [| c10 r]]]]]]]]]]]; try discriminate Hlen.
  clear Hlen. unfold calendarDay in H.
  set (X := String c0 (String c1 (String c2 (String c3 (String c4 (String c5
            (String c6 (String c7 (String c8 (String c9 "")))))))))) in *.
  replace (String.length X) with 10%nat in H by reflexivity.
  replace (JsDate.charIs 4 "-" X) with (Ascii.eqb "-" c4) in H by reflexivity.
  replace (JsDate.charIs 7 "-" X) with (Ascii.eqb "-" c7) in H by reflexivity.
  replace (JsDate.field 0 4 X)
    with (JsDate.digits 0 (String c0 (String c1 (String c2 (String c3 "")))))
    in H by reflexivity.
  replace (JsDate.field 5 2 X)
    with (JsDate.digits 0 (String c5 (String c6 ""))) in H by reflexivity.
  replace (JsDate.field 8 2 X)
    with (JsDate.digits 0 (String c8 (String c9 ""))) in H by reflexivity.
  cbn [Nat.eqb andb] in H.
  destruct (Ascii.eqb "-" c4) eqn:E4; [| discriminate H].
  destruct (Ascii.eqb "-" c7) eqn:E7; [| discriminate H].
  apply Ascii.eqb_eq in E4, E7. subst c4 c7. cbn [andb negb] in H.
  destruct (JsDate.digits 0 (String c0 (String c1 (String c2 (String c3 "")))))
    as [y |] eqn:Hy; [| discriminate H].
  destruct (JsDate.digits 0 (String c5 (String c6 ""))) as [m |] eqn:Hm;
    [| discriminate H].
  destruct (JsDate.digits 0 (String c8 (String c9 ""))) as [d |] eqn:Hd;
    [| discriminate H].
  destruct ((1 <=? m) && (m <=? 12) && (1 <=? d)
            && (d <=? JsDate.daysInMonth y m)) eqn:Hc; [| discriminate H].
  injection H as <-.
  repeat (apply andb_true_iff in Hc; destruct Hc as [Hc ?]).
  pose proof (digits_range _ 0 _ ltac:(lia) Hy) as Hyr.
  apply padded_digits in Hy, Hm, Hd; try lia.
  cbn [String.length] in Hy, Hm, Hd, Hyr.
  cbn in Hyr.
  exists y, m, d. subst X. rewrite Hy, Hm, Hd.
  repeat split; lia.
Qed.

Lemma parseTimeOfDay_inv (rest : string) (tod : Z) :
  JsDate.parseTimeOfDay rest = Some tod ->
  exists h mi sec ms,
    rest = ("T" ++ JsDate.padded 2 h ++ ":" ++ JsDate.padded 2 mi ++ ":"
            ++ JsDate.padded 2 sec ++ "." ++ JsDate.padded 3 ms ++ "Z")%string
    /\ 0 <= h /\ 0 <= mi /\ 0 <= sec /\ 0 <= ms <= 999
    /\ (h <= 23 /\ mi <= 59 /\ sec <= 59
        \/ h = 24 /\ mi = 0 /\ sec = 0 /\ ms = 0)
    /\ tod = h * 3600000 + mi * 60000 + sec * 1000 + ms.
Proof.
  intros H.
  assert (Hlen : String.length rest = 14%nat).
  { unfold JsDate.parseTimeOfDay in H.
    destruct (String.length rest =? 14)%nat eqn:E; [| discriminate H].
    now apply Nat.eqb_eq. }
  destruct rest as [| c0 [| c1 [| c2 [| c3 [| c4 [| c5 [| c6 [| c7 [| c8
    [| c9 [| c10 [| c11 [| c12 [| c13 [| c14 r]]]]]]]]]]]]]]];
    try discriminate Hlen.
  clear Hlen. unfold JsDate.parseTimeOfDay in H.
  set (X := String c0 (String c1 (String c2 (String c3 (String c4 (String c5
            (String c6 (String c7 (String c8 (String c9 (String c10
            (String c11 (String c12 (String c13 "")))))))))))))) in *.
  replace (String.length X) with 14%nat in H by reflexivity.
  replace (JsDate.charIs 0 "T" X) with (Ascii.eqb "T" c0) in H by reflexivity.
  replace (JsDate.charIs 3 ":" X) with (Ascii.eqb ":" c3) in H by reflexivity.
  replace (JsDate.charIs 6 ":" X) with (Ascii.eqb ":" c6) in H by reflexivity.
  replace (JsDate.charIs 9 "." X) with (Ascii.eqb "." c9) in H by reflexivity.
  replace (JsDate.charIs 13 "Z" X) with (Ascii.eqb "Z" c13) in H
    by reflexivity.
  replace (JsDate.field 1 2 X)
    with (JsDate.digits 0 (String c1 (String c2 ""))) in H by reflexivity.
  replace (JsDate.field 4 2 X)
    with (JsDate.digits 0 (String c4 (String c5 ""))) in H by reflexivity.
  replace (JsDate.field 7 2 X)
    with (JsDate.digits 0 (String c7 (String c8 ""))) in H by reflexivity.
  replace (JsDate.field 10 3 X)
    with (JsDate.digits 0 (String c10 (String c11 (String c12 "")))) in H
    by reflexivity.
  cbn [Nat.eqb andb] in H.
  destruct (Ascii.eqb "T" c0) eqn:E0; [| discriminate H].
  destruct (Ascii.eqb ":" c3) eqn:E3; [| discriminate H].
  destruct (Ascii.eqb ":" c6) eqn:E6; [| discriminate H].
  destruct (Ascii.eqb "." c9) eqn:E9; [| discriminate H].
  destruct (Ascii.eqb "Z" c13) eqn:E13; [| discriminate H].
  apply Ascii.eqb_eq in E0, E3, E6, E9, E13. subst c0 c3 c6 c9 c13.
  cbn [andb negb] in H.
  destruct (JsDate.digits 0 (String c1 (String c2 ""))) as [h |] eqn:Hh;
    [| discriminate H].
  destruct (JsDate.digits 0 (String c4 (String c5 ""))) as [mi |] eqn:Hmi;
    [| discriminate H].
  destruct (JsDate.digits 0 (String c7 (String c8 ""))) as [sec |] eqn:Hsec;
    [| discriminate H].
  destruct (JsDate.digits 0 (String c10 (String c11 (String c12 ""))))
    as [ms |] eqn:Hms; [| discriminate H].
  destruct ((h <=? 23) && (mi <=? 59) && (sec <=? 59)
            || (h =? 24) && (mi =? 0) && (sec =? 0) && (ms =? 0)) eqn:Hc;
    [| discriminate H].
  injection H as <-.
  pose proof (digits_range _ 0 _ ltac:(lia) Hh) as Hhr.
  pose proof (digits_range _ 0 _ ltac:(lia) Hmi) as Hmir.
  pose proof (digits_range _ 0 _ ltac:(lia) Hsec) as Hsecr.
  pose proof (digits_range _ 0 _ ltac:(lia) Hms) as Hmsr.
  apply padded_digits in Hh, Hmi, Hsec, Hms; try lia.
  cbn [String.length] in Hh, Hmi, Hsec, Hms, Hhr, Hmir, Hsecr, Hmsr.
  cbn in Hhr, Hmir, Hsecr, Hmsr.
  exists h, mi, sec, ms. subst X. rewrite Hh, Hmi, Hsec, Hms.
  assert (Hcase : h <= 23 /\ mi <= 59 /\ sec <= 59
                  \/ h = 24 /\ mi = 0 /\ sec = 0 /\ ms = 0).
  { apply orb_true_iff in Hc. destruct Hc as [Hc | Hc];
      repeat (apply andb_true_iff in Hc; destruct Hc as [Hc ?]);
      [left | right]; lia. }
  split; [reflexivity |].
  split; [lia |]. split; [lia |]. split; [lia |]. split; [lia |].
  split; [exact Hcase | reflexivity].
Qed.

(** A date-time with an hour below 24 that parses is written back as it
    was. *)
Lemma isoText_isoInstant (s : string) (t : Z) :
  isoInstant s = Some t -> String.substring 11 2 s <> "24" ->
  JsDate.isoText t = s.
Proof.
  intros H Hnot24. unfold isoInstant in H.
  destruct (calendarDay (String.substring 0 10 s)) as [day |] eqn:Hday;
    [| discriminate H].
  destruct (JsDate.parseTimeOfDay
              (String.substring 10 (String.length s - 10) s))
    as [tod |] eqn:Htod; [| discriminate H].
  injection H as <-.
  assert (Hlen : (10 <= String.length s)%nat).
  { pose proof (calendarDay_length _ _ Hday) as Hl.
    destruct (le_lt_dec 10 (String.length s)) as [Hle | Hlt]; [exact Hle |].
    exfalso.
    assert (Hall : String.substring 0 10 s = s).
    { clear - Hlt. revert Hlt. generalize 10%nat as n.
      induction s as [| c s IH]; intros n Hn.
      - now destruct n.
      - destruct n as [| n]; [cbn in Hn; lia |].
        cbn. f_equal. apply IH. cbn in Hn. lia. }
    rewrite Hall in Hl. lia. }
  pose proof (substring_split s 10 Hlen) as Hs.
  destruct (calendarDay_inv _ _ Hday) as [y [m [d [Hdate [Hy [Hm [Hd Hdayv]]]]]]].
  destruct (parseTimeOfDay_inv _ _ Htod)
    as [h [mi [sec [ms [Hrest [Hh [Hmi [Hsec [Hms [Hcase Htodv]]]]]]]]]].
  rewrite Hdate, Hrest in Hs.
  assert (Hh23 : h <= 23 /\ mi <= 59 /\ sec <= 59).
  { destruct Hcase as [Hc | [-> _]]; [exact Hc |].
    exfalso. apply Hnot24. rewrite Hs. reflexivity. }
  unfold JsDate.isoText.
  assert (Htodr : 0 <= tod < 86400000) by lia.
  replace ((day * JsDate.msPerDay + tod) / JsDate.msPerDay) with day
    by (unfold JsDate.msPerDay; Z.div_mod_to_equations; lia).
  replace ((day * JsDate.msPerDay + tod) mod JsDate.msPerDay) with tod
    by (unfold JsDate.msPerDay; Z.div_mod_to_equations; lia).
  rewrite Hdayv, civilFromDays_daysFromCivil by assumption.
  destruct (0 <=? y) eqn:E1; [| lia].
  destruct (y <=? 9999) eqn:E2; [| lia].
  cbn [andb].
  replace (tod / 3600000) with h by (Z.div_mod_to_equations; lia).
  replace (tod / 60000 mod 60) with mi by (Z.div_mod_to_equations; lia).
  replace (tod / 1000 mod 60) with sec by (Z.div_mod_to_equations; lia).
  replace (tod mod 1000) with ms by (Z.div_mod_to_equations; lia).
  symmetry. etransitivity; [exact Hs | reflexivity].
Qed.

(** ** Dates: the order of the texts is the order of the instants *)

Lemma compare_cons (c1 c2 : ascii) (s1 s2 : string) :
  String.compare (String c1 s1) (String c2 s2)
  = thenBy (Ascii.compare c1 c2) (String.compare s1 s2).
Proof.
  unfold thenBy. cbn [String.compare].
  destruct (Ascii.compare c1 c2); reflexivity.
Qed.

Lemma compare_same_head (c : ascii) (s1 s2 : string) :
  String.compare (String c s1) (String c s2) = String.compare s1 s2.
Proof.
  rewrite compare_cons. unfold Ascii.compare. now rewrite N.compare_refl.
Qed.

Lemma compare_digitChar (x y : Z) :
  0 <= x <= 9 -> 0 <= y <= 9 ->
  Ascii.compare (JsDate.digitChar x) (JsDate.digitChar y) = (x ?= y).
Proof.
  intros Hx Hy.
  assert (Hn : forall d, 0 <= d <= 9 ->
                         N_of_ascii (JsDate.digitChar d) = Z.to_N (48 + d)).
  { intros d Hd.
    assert (Hc : d = 0 \/ d = 1 \/ d = 2 \/ d = 3 \/ d = 4 \/ d = 5 \/ d = 6
                 \/ d = 7 \/ d = 8 \/ d = 9) by lia.
    repeat (destruct Hc as [-> | Hc]); try subst d; reflexivity. }
  unfold Ascii.compare. rewrite !Hn by assumption.
  rewrite Z2N.inj_compare by lia. apply Z.add_compare_mono_l.
Qed.

Lemma compare_weighted (P da db ra rb : Z) :
  0 <= ra < P -> 0 <= rb < P ->
  (da * P + ra ?= db * P + rb) = thenBy (da ?= db) (ra ?= rb).
Proof.
  intros Hra Hrb. unfold thenBy.
  destruct (Z.compare_spec da db) as [-> | Hlt | Hgt].
  - apply Z.add_compare_mono_l.
  - apply Z.compare_lt_iff. nia.
  - apply Z.compare_gt_iff. nia.
Qed.

(** Texts of [w] digits compare as the numbers they write. *)
Lemma compare_padded (w : nat) :
  forall (a b : Z) (r1 r2 : string),
    String.compare (JsDate.padded w a ++ r1) (JsDate.padded w b ++ r2)
    = thenBy (a mod 10 ^ Z.of_nat w ?= b mod 10 ^ Z.of_nat w)
        (String.compare r1 r2).
Proof.
  induction w as [| w IH]; intros a b r1 r2.
  - cbn [JsDate.padded]. rewrite !append_nil, !Z.mod_1_r. reflexivity.
  - cbn [JsDate.padded]. rewrite !append_cons, compare_cons, IH.
    assert (Hp : 0 < 10 ^ Z.of_nat w) by (apply Z.pow_pos_nonneg; lia).
    pose proof (Z.mod_pos_bound (a / 10 ^ Z.of_nat w) 10 ltac:(lia)) as Hda.
    pose proof (Z.mod_pos_bound (b / 10 ^ Z.of_nat w) 10 ltac:(lia)) as Hdb.
    pose proof (Z.mod_pos_bound a (10 ^ Z.of_nat w) Hp) as Hra.
    pose proof (Z.mod_pos_bound b (10 ^ Z.of_nat w) Hp) as Hrb.
    rewrite compare_digitChar by lia.
    rewrite Nat2Z.inj_succ, Z.pow_succ_r by lia.
    rewrite (Z.mul_comm 10 (10 ^ Z.of_nat w)).
    rewrite !(Z.rem_mul_r _ (10 ^ Z.of_nat w) 10) by lia.
    rewrite !(Z.add_comm (_ mod 10 ^ Z.of_nat w)).
    rewrite !(Z.mul_comm (10 ^ Z.of_nat w)).
    rewrite compare_weighted by assumption.
    unfold thenBy.
    destruct ((a / 10 ^ Z.of_nat w) mod 10 ?= (b / 10 ^ Z.of_nat w) mod 10);
      reflexivity.
Qed.

Lemma compare_padded_small (w : nat) (a b : Z) (r1 r2 : string) :
  0 <= a < 10 ^ Z.of_nat w -> 0 <= b < 10 ^ Z.of_nat w ->
  String.compare (JsDate.padded w a ++ r1) (JsDate.padded w b ++ r2)
  = thenBy (a ?= b) (String.compare r1 r2).
Proof.
  intros Ha Hb. rewrite compare_padded. now rewrite !Z.mod_small.
Qed.

Lemma daysFromCivil_march (y m d : Z) :
  JsDate.daysFromCivil y m d
  = marchFirst (if m <=? 2 then y - 1 else y) + marchDay m d - 719468.
Proof. unfold JsDate.daysFromCivil, marchFirst, marchDay. lia. Qed.

Lemma marchFirst_succ (y : Z) :
  marchFirst y + 365 <= marchFirst (y + 1)
  /\ ((y + 1) mod 4 = 0 /\ ((y + 1) mod 100 <> 0 \/ (y + 1) mod 400 = 0) ->
      marchFirst y + 366 = marchFirst (y + 1)).
Proof.
  unfold marchFirst. split; [| intros H]; Z.div_mod_to_equations; lia.
Qed.

Lemma marchFirst_lt (y1 y2 : Z) :
  y1 < y2 -> marchFirst (y1 + 1) <= marchFirst y2.
Proof.
  intros H.
  assert (Hn : exists n : nat, y2 = y1 + 1 + Z.of_nat n)
    by (exists (Z.to_nat (y2 - y1 - 1)); lia).
  destruct Hn as [n ->]. clear H.
  induction n as [| n IH]; [replace (y1 + 1 + Z.of_nat 0) with (y1 + 1); lia |].
  replace (y1 + 1 + Z.of_nat (S n)) with (y1 + 1 + Z.of_nat n + 1) by lia.
  pose proof (marchFirst_succ (y1 + 1 + Z.of_nat n)). lia.
Qed.

Lemma marchDay_range (y m d : Z) :
  1 <= m <= 12 -> 1 <= d <= JsDate.daysInMonth y m ->
  0 <= marchDay m d <= 365
  /\ (marchDay m d = 365 ->
      m <= 2 /\ y mod 4 = 0 /\ (y mod 100 <> 0 \/ y mod 400 = 0)).
Proof.
  intros Hm Hd. unfold marchDay.
  assert (Hc : m = 1 \/ m = 2 \/ m = 3 \/ m = 4 \/ m = 5 \/ m = 6 \/ m = 7
               \/ m = 8 \/ m = 9 \/ m = 10 \/ m = 11 \/ m = 12) by lia.
  unfold JsDate.daysInMonth in Hd.
  repeat (destruct Hc as [-> | Hc]); try subst m;
    cbn [Z.eqb Pos.eqb orb] in Hd; cbn [Z.ltb Z.compare Pos.compare
      Pos.compare_cont];
    try (split; [| intros H365]; Z.div_mod_to_equations; lia).
  destruct (JsDate.isLeap y) eqn:E;
    [| split; [| intros H365]; Z.div_mod_to_equations; lia].
  apply isLeap_true in E.
  split; [Z.div_mod_to_equations; lia |]. intros _. split; [lia | exact E].
Qed.

Lemma marchDay_lt (y m1 d1 m2 d2 : Z) :
  1 <= m1 <= 12 -> 1 <= d1 <= JsDate.daysInMonth y m1 ->
  1 <= m2 <= 12 -> 1 <= d2 ->
  (if 2 <? m1 then m1 - 3 else m1 + 9) < (if 2 <? m2 then m2 - 3 else m2 + 9)
  \/ (m1 = m2 /\ d1 < d2) ->
  marchDay m1 d1 < marchDay m2 d2.
Proof.
  intros Hm1 Hd1 Hm2 Hd2 Hlt. unfold marchDay.
  destruct Hlt as [Hlt | [-> Hlt]]; [| lia].
  assert (Hc1 : m1 = 1 \/ m1 = 2 \/ m1 = 3 \/ m1 = 4 \/ m1 = 5 \/ m1 = 6
                \/ m1 = 7 \/ m1 = 8 \/ m1 = 9 \/ m1 = 10 \/ m1 = 11
                \/ m1 = 12) by lia.
  unfold JsDate.daysInMonth in Hd1.
  repeat (destruct Hc1 as [-> | Hc1]); try subst m1;
    cbn [Z.eqb Pos.eqb orb] in Hd1;
    cbn [Z.ltb Z.compare Pos.compare Pos.compare_cont] in Hlt |- *;
    try (destruct (JsDate.isLeap y));
    destruct (2 <? m2) eqn:E;
    try (apply Z.ltb_lt in E); try (apply Z.ltb_ge in E);
    try lia; Z.div_mod_to_equations; lia.
Qed.

Lemma daysFromCivil_lt (y1 m1 d1 y2 m2 d2 : Z) :
  1 <= m1 <= 12 -> 1 <= d1 <= JsDate.daysInMonth y1 m1 ->
  1 <= m2 <= 12 -> 1 <= d2 <= JsDate.daysInMonth y2 m2 ->
  y1 < y2 \/ (y1 = y2 /\ (m1 < m2 \/ (m1 = m2 /\ d1 < d2))) ->
  JsDate.daysFromCivil y1 m1 d1 < JsDate.daysFromCivil y2 m2 d2.
Proof.
  intros Hm1 Hd1 Hm2 Hd2 Hlt. rewrite !daysFromCivil_march.
  destruct (marchDay_range y1 m1 d1 Hm1 Hd1) as [Hr1 Hl1].
  destruct (marchDay_range y2 m2 d2 Hm2 Hd2) as [Hr2 _].
  set (y1' := if m1 <=? 2 then y1 - 1 else y1).
  set (y2' := if m2 <=? 2 then y2 - 1 else y2).
  assert (Hy : y1' < y2'
               \/ (y1' = y2'
                   /\ ((if 2 <? m1 then m1 - 3 else m1 + 9)
                       < (if 2 <? m2 then m2 - 3 else m2 + 9)
                       \/ (m1 = m2 /\ d1 < d2)))).
  { subst y1' y2'.
    destruct (m1 <=? 2) eqn:A1; destruct (2 <? m1) eqn:B1;
      try (apply Z.leb_le in A1); try (apply Z.leb_gt in A1);
      try (apply Z.ltb_lt in B1); try (apply Z.ltb_ge in B1); try lia;
      destruct (m2 <=? 2) eqn:A2; destruct (2 <? m2) eqn:B2;
      try (apply Z.leb_le in A2); try (apply Z.leb_gt in A2);
      try (apply Z.ltb_lt in B2); try (apply Z.ltb_ge in B2); lia. }
  destruct Hy as [Hy | [Hy Hmd]].
  - pose proof (marchFirst_lt y1' y2' Hy) as Hstep.
    destruct (marchFirst_succ y1') as [H365 H366].
    destruct (Z.eq_dec (marchDay m1 d1) 365) as [E | E]; [| lia].
    destruct (Hl1 E) as [Hfeb Hleap].
    assert (Hy1 : y1' + 1 = y1).
    { subst y1'. destruct (m1 <=? 2) eqn:A; [lia | apply Z.leb_gt in A; lia]. }
    rewrite Hy1 in H366. specialize (H366 Hleap). rewrite Hy1 in Hstep. lia.
  - rewrite Hy.
    pose proof (marchDay_lt y1 m1 d1 m2 d2 Hm1 Hd1 Hm2 ltac:(lia) Hmd). lia.
Qed.

Lemma thenBy_lexicographic (a1 a2 b1 b2 x y : Z) :
  (a1 < a2 -> x < y) -> (a2 < a1 -> y < x) ->
  (a1 = a2 -> (b1 ?= b2) = (x ?= y)) ->
  thenBy (a1 ?= a2) (b1 ?= b2) = (x ?= y).
Proof.
  intros Hlt Hgt Heq. unfold thenBy.
  destruct (Z.compare_spec a1 a2) as [E | L | G].
  - now apply Heq.
  - symmetry. apply Z.compare_lt_iff. now apply Hlt.
  - symmetry. apply Z.compare_gt_iff. now apply Hgt.
Qed.

(** Dates compare by year, then month, then day. *)
Lemma daysFromCivil_compare (y1 m1 d1 y2 m2 d2 : Z) :
  1 <= m1 <= 12 -> 1 <= d1 <= JsDate.daysInMonth y1 m1 ->
  1 <= m2 <= 12 -> 1 <= d2 <= JsDate.daysInMonth y2 m2 ->
  thenBy (y1 ?= y2) (thenBy (m1 ?= m2) (d1 ?= d2))
  = (JsDate.daysFromCivil y1 m1 d1 ?= JsDate.daysFromCivil y2 m2 d2).
Proof.
  intros Hm1 Hd1 Hm2 Hd2.
  unfold thenBy.
  destruct (Z.compare_spec y1 y2) as [Ey | Ly | Gy].
  - destruct (Z.compare_spec m1 m2) as [Em | Lm | Gm].
    + subst y2 m2. destruct (Z.compare_spec d1 d2) as [Ed | Ld | Gd].
      * subst d2. symmetry. apply Z.compare_refl.
      * symmetry. apply Z.compare_lt_iff.
        apply daysFromCivil_lt; try assumption. right. tauto.
      * symmetry. apply Z.compare_gt_iff.
        apply daysFromCivil_lt; try assumption. right. tauto.
    + symmetry. apply Z.compare_lt_iff.
      apply daysFromCivil_lt; try assumption. right. tauto.
    + symmetry. apply Z.compare_gt_iff.
      apply daysFromCivil_lt; try assumption. right. split; [easy | tauto].
  - symmetry. apply Z.compare_lt_iff.
    apply daysFromCivil_lt; try assumption. now left.
  - symmetry. apply Z.compare_gt_iff.
    apply daysFromCivil_lt; try assumption. now left.
Qed.

(** Times of day compare by hour, then minute, second and millisecond. *)
Lemma timeOfDay_compare (t1 t2 : Z) :
  0 <= t1 < 86400000 -> 0 <= t2 < 86400000 ->
  thenBy (t1 / 3600000 ?= t2 / 3600000)
    (thenBy (t1 / 60000 mod 60 ?= t2 / 60000 mod 60)
       (thenBy (t1 / 1000 mod 60 ?= t2 / 1000 mod 60)
          (t1 mod 1000 ?= t2 mod 1000)))
  = (t1 ?= t2).
Proof.
  intros H1 H2. unfold thenBy.
  destruct (Z.compare_spec (t1 / 3600000) (t2 / 3600000)) as [Eh | Lh | Gh];
    [| symmetry; apply Z.compare_lt_iff; Z.div_mod_to_equations; lia
     | symmetry; apply Z.compare_gt_iff; Z.div_mod_to_equations; lia].
  destruct (Z.compare_spec (t1 / 60000 mod 60) (t2 / 60000 mod 60))
    as [Em | Lm | Gm];
    [| symmetry; apply Z.compare_lt_iff; Z.div_mod_to_equations; lia
     | symmetry; apply Z.compare_gt_iff; Z.div_mod_to_equations; lia].
  destruct (Z.compare_spec (t1 / 1000 mod 60) (t2 / 1000 mod 60))
    as [Es | Ls | Gs];
    [| symmetry; apply Z.compare_lt_iff; Z.div_mod_to_equations; lia
     | symmetry; apply Z.compare_gt_iff; Z.div_mod_to_equations; lia].
  destruct (Z.compare_spec (t1 mod 1000) (t2 mod 1000)) as [E | L | G];
    symmetry;
    [ apply Z.compare_eq_iff | apply Z.compare_lt_iff | apply Z.compare_gt_iff ];
    Z.div_mod_to_equations; lia.
Qed.

(** The text of an instant of the years 0 to 9999, field by field. *)
Lemma isoText_fields (t : Z) :
  firstInstant <= t <= lastInstant ->
  exists y m d,
    JsDate.isoText t
    = (JsDate.padded 4 y ++ "-" ++ JsDate.padded 2 m ++ "-"
       ++ JsDate.padded 2 d ++ "T"
       ++ JsDate.padded 2 (t mod JsDate.msPerDay / 3600000) ++ ":"
       ++ JsDate.padded 2 (t mod JsDate.msPerDay / 60000 mod 60) ++ ":"
       ++ JsDate.padded 2 (t mod JsDate.msPerDay / 1000 mod 60) ++ "."
       ++ JsDate.padded 3 (t mod JsDate.msPerDay mod 1000) ++ "Z")%string
    /\ 0 <= y <= 9999 /\ 1 <= m <= 12 /\ 1 <= d <= JsDate.daysInMonth y m
    /\ JsDate.daysFromCivil y m d = t / JsDate.msPerDay.
Proof.
  unfold firstInstant, lastInstant. intros Ht. unfold JsDate.isoText.
  pose proof (daysFromCivil_civilFromDays (t / JsDate.msPerDay)) as Hciv.
  destruct (JsDate.civilFromDays (t / JsDate.msPerDay)) as [[y m] d].
  destruct Hciv as [Hday [Hm Hd]].
  pose proof (daysInMonth_le_31 y m) as H31.
  assert (Hy : 0 <= y <= 9999).
  { destruct (daysFromCivil_year y m d Hm ltac:(lia)) as [Hlo Hhi].
    assert (-719528 <= t / JsDate.msPerDay <= 2932896)
      by (unfold JsDate.msPerDay; Z.div_mod_to_equations; lia).
    lia. }
  exists y, m, d.
  destruct (0 <=? y) eqn:E1; [| lia].
  destruct (y <=? 9999) eqn:E2; [| lia].
  cbn [andb]. repeat split; try lia. 
Qed.

(** Instants of the years 0 to 9999 are in the order of their texts: this
    is what lets the program compare ISO strings where it means times. *)
Lemma isoText_compare (a b : Z) :
  firstInstant <= a <= lastInstant -> firstInstant <= b <= lastInstant ->
  String.compare (JsDate.isoText a) (JsDate.isoText b) = (a ?= b).
Proof.
  intros Ha Hb.
  destruct (isoText_fields a Ha) as [y1 [m1 [d1 [-> [Hy1 [Hm1 [Hd1 Hday1]]]]]]].
  destruct (isoText_fields b Hb) as [y2 [m2 [d2 [-> [Hy2 [Hm2 [Hd2 Hday2]]]]]]].
  pose proof (daysInMonth_le_31 y1 m1) as H31a.
  pose proof (daysInMonth_le_31 y2 m2) as H31b.
  set (ta := a mod JsDate.msPerDay). set (tb := b mod JsDate.msPerDay).
  assert (Hta : 0 <= ta < 86400000)
    by (subst ta; unfold JsDate.msPerDay; apply Z.mod_pos_bound; lia).
  assert (Htb : 0 <= tb < 86400000)
    by (subst tb; unfold JsDate.msPerDay; apply Z.mod_pos_bound; lia).
  rewrite (compare_padded_small 4) by (cbn; lia).
  rewrite ?append_cons, ?append_nil, compare_same_head.
  rewrite (compare_padded_small 2) by (cbn; lia).
  rewrite ?append_cons, ?append_nil, compare_same_head.
  rewrite (compare_padded_small 2) by (cbn; lia).
  rewrite ?append_cons, ?append_nil, compare_same_head.
  rewrite (compare_padded_small 2) by (cbn; Z.div_mod_to_equations; lia).
  rewrite ?append_cons, ?append_nil, compare_same_head.
  rewrite (compare_padded_small 2) by (cbn; Z.div_mod_to_equations; lia).
  rewrite ?append_cons, ?append_nil, compare_same_head.
  rewrite (compare_padded_small 2) by (cbn; Z.div_mod_to_equations; lia).
  rewrite ?append_cons, ?append_nil, compare_same_head.
  rewrite (compare_padded_small 3) by (cbn; Z.div_mod_to_equations; lia).
  rewrite compare_same_head. cbn [String.compare].
  assert (Htod :
    thenBy (ta / 3600000 ?= tb / 3600000)
      (thenBy (ta / 60000 mod 60 ?= tb / 60000 mod 60)
         (thenBy (ta / 1000 mod 60 ?= tb / 1000 mod 60)
            (thenBy (ta mod 1000 ?= tb mod 1000) Eq)))
    = (ta ?= tb)).
  { rewrite <- (timeOfDay_compare ta tb Hta Htb). unfold thenBy.
    repeat match goal with |- context [match ?c with _ => _ end] =>
      destruct c end; reflexivity. }
  rewrite Htod.
  assert (Hdate :
    forall c, thenBy (y1 ?= y2) (thenBy (m1 ?= m2) (thenBy (d1 ?= d2) c))
              = thenBy (a / JsDate.msPerDay ?= b / JsDate.msPerDay) c).
  { intros c. rewrite <- Hday1, <- Hday2.
    rewrite <- (daysFromCivil_compare y1 m1 d1 y2 m2 d2) by assumption.
    unfold thenBy.
    destruct (y1 ?= y2); destruct (m1 ?= m2); destruct (d1 ?= d2);
      reflexivity. }
  rewrite Hdate.
  assert (Hsplit : forall t, t = t / JsDate.msPerDay * JsDate.msPerDay
                                 + t mod JsDate.msPerDay)
    by (intros t; unfold JsDate.msPerDay; Z.div_mod_to_equations; lia).
  rewrite (Hsplit a) at 2. rewrite (Hsplit b) at 2. fold ta tb.
  symmetry. apply compare_weighted; unfold JsDate.msPerDay; lia.
Qed.

Lemma isoText_lt (a b : Z) :
  firstInstant <= a <= lastInstant -> firstInstant <= b <= lastInstant ->
  JsString.lt (JsDate.isoText a) (JsDate.isoText b) = (a <? b).
Proof.
  intros Ha Hb. unfold JsString.lt, String.ltb, Z.ltb.
  now rewrite isoText_compare.
Qed.

Lemma isoText_le (a b : Z) :
  firstInstant <= a <= lastInstant -> firstInstant <= b <= lastInstant ->
  JsString.le (JsDate.isoText a) (JsDate.isoText b) = (a <=? b).
Proof.
  intros Ha Hb. unfold JsString.le, String.leb, Z.leb.
  now rewrite isoText_compare.
Qed.


(** ** Dates: what [new Date] reads *)

Lemma parseDay_length (date : string) (day : Z) :
  JsDate.parseDay date = Some day -> String.length date = 10%nat.
Proof.
  unfold JsDate.parseDay.
  destruct (String.length date =? 10)%nat eqn:H; [| discriminate].
  intros _. now apply Nat.eqb_eq.
Qed.

(** A date that is read lies in the years 0 to 9999: a day past the end of
    December there is none. *)
Lemma parseDay_range (date : string) (day : Z) :
  JsDate.parseDay date = Some day -> -719528 <= day <= 2932896.
Proof.
  unfold JsDate.parseDay.
  destruct (negb _); [discriminate |].
  destruct (JsDate.field 0 4 date) as [y |] eqn:Hy; [| discriminate].
  destruct (JsDate.field 5 2 date) as [m |] eqn:Hm; [| discriminate].
  destruct (JsDate.field 8 2 date) as [d |] eqn:Hd; [| discriminate].
  destruct ((1 <=? m) && (m <=? 12) && (1 <=? d) && (d <=? 31)) eqn:Hc;
    [| discriminate].
  intros [= <-]. apply field_range in Hy.
  repeat (apply andb_true_iff in Hc; destruct Hc as [Hc ?]).
  apply daysFromCivil_range; simpl in Hy; lia.
Qed.

(** A date of the calendar is read as the day it names. *)
Lemma calendarDay_parseDay (date : string) (day : Z) :
  calendarDay date = Some day -> JsDate.parseDay date = Some day.
Proof.
  unfold calendarDay, JsDate.parseDay.
  destruct (negb _); [discriminate |].
  destruct (JsDate.field 0 4 date) as [y |]; [| discriminate].
  destruct (JsDate.field 5 2 date) as [m |]; [| discriminate].
  destruct (JsDate.field 8 2 date) as [d |]; [| discriminate].
  destruct ((1 <=? m) && (m <=? 12) && (1 <=? d)
            && (d <=? JsDate.daysInMonth y m)) eqn:Hc; [| discriminate].
  intros H.
  repeat (apply andb_true_iff in Hc; destruct Hc as [Hc ?]).
  pose proof (daysInMonth_le_31 y m).
  destruct ((1 <=? m) && (m <=? 12) && (1 <=? d) && (d <=? 31)) eqn:Hw;
    [exact H |].
  exfalso. revert Hw. rewrite !andb_false_iff. lia.
Qed.

Lemma parseTimeOfDay_shape (rest : string) (tod : Z) :
  JsDate.parseTimeOfDay rest = Some tod ->
  exists time : string,
    String.length time = 13%nat /\ rest = (time ++ "Z")%string.
Proof.
  unfold JsDate.parseTimeOfDay.
  destruct (String.length rest =? 14)%nat eqn:Hlen; [| discriminate].
  destruct (JsDate.charIs 13 "Z" rest) eqn:Hz;
    [| now rewrite !andb_false_r].
  intros _. apply Nat.eqb_eq in Hlen.
  destruct rest as [| r0 [| r1 [| r2 [| r3 [| r4 [| r5 [| r6 [| r7 [| r8
    [| r9 [| r10 [| r11 [| r12 [| r13 [| r14 r]]]]]]]]]]]]]]];
    try discriminate Hlen.
  unfold JsDate.charIs in Hz. cbn [String.get] in Hz.
  apply Ascii.eqb_eq in Hz. subst r13.
  eexists (String r0 (String r1 (String r2 (String r3 (String r4 (String r5
    (String r6 (String r7 (String r8 (String r9 (String r10 (String r11
    (String r12 ""))))))))))))).
  split; reflexivity.
Qed.

(** The date-time form with milliseconds and [Z]: the day of the date and
    the time of the day. *)
Lemma parseFormat_utc (date rest : string) (day tod : Z) :
  JsDate.parseDay date = Some day ->
  JsDate.parseTimeOfDay rest = Some tod ->
  JsDate.parseFormat (date ++ rest)
  = Some (day * JsDate.msPerDay + tod).
Proof.
  intros Hday Hrest.
  pose proof (parseDay_length _ _ Hday) as Hlen.
  destruct (parseTimeOfDay_shape _ _ Hrest) as [time [Htime ->]].
  destruct date as [| c0 [| c1 [| c2 [| c3 [| c4 [| c5 [| c6 [| c7 [| c8
    [| c9 [| c10 r]]]]]]]]]]]; try discriminate Hlen.
  destruct time as [| r0 [| r1 [| r2 [| r3 [| r4 [| r5 [| r6 [| r7 [| r8
    [| r9 [| r10 [| r11 [| r12 [| r13 r]]]]]]]]]]]]]];
    try discriminate Htime.
  unfold JsDate.parseFormat. rewrite !append_cons, !append_nil.
  cbn [String.length String.substring Nat.sub].
  rewrite Hday.
  cbn [String.length String.substring Nat.sub Nat.eqb JsString.endsWith
       Nat.leb String.eqb Ascii.eqb Bool.eqb JsDate.completeTime
       JsDate.parseZone].
  rewrite Hrest. f_equal. lia.
Qed.

(** A date-time that is read has its hour. *)
Lemma hourMissing_utc (date rest : string) (day tod : Z) :
  JsDate.parseDay date = Some day ->
  JsDate.parseTimeOfDay rest = Some tod ->
  JsDate.hourMissing (date ++ rest) = false.
Proof.
  intros Hday Hrest.
  pose proof (parseDay_length _ _ Hday) as Hlen.
  destruct (parseTimeOfDay_shape _ _ Hrest) as [time [Htime ->]].
  destruct date as [| c0 [| c1 [| c2 [| c3 [| c4 [| c5 [| c6 [| c7 [| c8
    [| c9 [| c10 r]]]]]]]]]]]; try discriminate Hlen.
  destruct time as [| r0 [| r1 [| r2 [| r3 [| r4 [| r5 [| r6 [| r7 [| r8
    [| r9 [| r10 [| r11 [| r12 [| r13 r]]]]]]]]]]]]]];
    try discriminate Htime.
  unfold JsDate.hourMissing. rewrite !append_cons, !append_nil.
  cbn [String.substring]. rewrite Hday.
  unfold JsDate.parseTimeOfDay in Hrest.
  rewrite !append_cons, !append_nil in Hrest.
  destruct (negb _) eqn:Hguard in Hrest; [discriminate Hrest |].
  apply negb_false_iff in Hguard.
  repeat (apply andb_true_iff in Hguard; destruct Hguard as [Hguard ?]).
  unfold JsDate.charIs in *. cbn [String.get] in *.
  unfold JsDate.field, JsDate.isDigitAt in *.
  cbn [String.substring String.get String.length Nat.eqb] in *.
  destruct (JsDate.digits 0 (String r1 (String r2 ""))) as [h |] eqn:Hh;
    [| discriminate Hrest].
  destruct (JsDate.digits 0 (String r4 (String r5 ""))) as [mi |];
    [| discriminate Hrest].
  destruct (JsDate.digits 0 (String r7 (String r8 ""))) as [sec |];
    [| discriminate Hrest].
  destruct (JsDate.digits 0 (String r10 (String r11 (String r12 ""))))
    as [ms |]; [| discriminate Hrest].
  destruct ((h <=? 23) && (mi <=? 59) && (sec <=? 59)
            || (h =? 24) && (mi =? 0) && (sec =? 0) && (ms =? 0)) eqn:Hc;
    [| discriminate Hrest].
  assert (Hh24 : (h <=? 24) = true).
  { apply orb_true_iff in Hc.
    destruct Hc as [Hc | Hc];
      repeat (apply andb_true_iff in Hc; destruct Hc as [Hc ?]); lia. }
  rewrite Hh24.
  match goal with
  | H : Ascii.eqb ":" r3 = true |- _ => apply Ascii.eqb_eq in H; subst r3
  end.
  cbn. now rewrite !andb_false_r.
Qed.

Lemma string_of_uint_allDigits (d : Decimal.uint) :
  allDigits (NilEmpty.string_of_uint d) = true.
Proof. induction d; cbn; auto. Qed.

(** [String(n)] of an integral number is a text of digits, after a minus
    sign when the number is negative. *)
Lemma String_of_Z_shape (n : Z) :
  allDigits (String_of_Z n) = true
  \/ exists q, String_of_Z n = String "-" q /\ allDigits q = true.
Proof.
  unfold String_of_Z. destruct (Z.to_int n) as [d | d].
  - left. apply string_of_uint_allDigits.
  - right. eexists. split; [reflexivity |]. apply string_of_uint_allDigits.
Qed.

Lemma digit_code (c : ascii) (d : Z) :
  JsDate.digit c = Some d -> (JsString.code c <? 65)%N = true.
Proof.
  unfold JsDate.digit, JsString.code.
  destruct ((48 <=? Z.of_N (N_of_ascii c))
            && (Z.of_N (N_of_ascii c) <=? 57)) eqn:H; [| discriminate].
  intros _. apply andb_true_iff in H. apply N.ltb_lt. lia.
Qed.

(** A date and [T] before a number that is no hour of two digits: the
    hour is missing. *)
Lemma hourMissing_hourText (date : string) (day h : Z) :
  JsDate.parseDay date = Some day ->
  JsDate.parseTimeOfDay
    ("T" ++ padStart2 (String_of_Z h) ++ ":00:00.000Z") = None ->
  JsDate.hourMissing (hourText date h) = true.
Proof.
  intros Hday Hrest. unfold hourText.
  pose proof (parseDay_length _ _ Hday) as Hlen.
  destruct date as [| c0 [| c1 [| c2 [| c3 [| c4 [| c5 [| c6 [| c7 [| c8
    [| c9 [| c10 r]]]]]]]]]]]; try discriminate Hlen.
  unfold JsDate.hourMissing. rewrite !append_cons, !append_nil.
  cbn [String.substring]. rewrite Hday.
  unfold JsDate.charIs, JsDate.field, JsDate.isDigitAt.
  cbn [String.get String.substring]. rewrite Ascii.eqb_refl, andb_true_l.
  revert Hrest.
  assert (Hshape :
    forall p : string,
      (allDigits p = true \/ (exists q, p = String "-" q) \/ p = "0-") ->
      (2 <= String.length p)%nat \/ p = "0-" \/ p = "00" ->
      JsDate.parseTimeOfDay ("T" ++ p ++ ":00:00.000Z") = None ->
      match String.get 1 ("T" ++ p ++ ":00:00.000Z") with
      | Some c => (JsString.code c <? 65)%N
      | None => true
      end
      && negb
           ((String.length (String.substring 1 2 ("T" ++ p ++ ":00:00.000Z"))
             =? 2)%nat
            && match
                 JsDate.digits 0
                   (String.substring 1 2 ("T" ++ p ++ ":00:00.000Z"))
               with
               | Some h => h <=? 24
               | None => false
               end
            && negb
                 match String.get 3 ("T" ++ p ++ ":00:00.000Z") with
                 | Some c =>
                     match JsDate.digit c with
                     | Some _ => true
                     | None => false
                     end
                 | None => false
                 end) = true).
  { intros p Hp Hlong Hnone.
    destruct p as [| a [| b [| c p']]].
    - destruct Hlong as [Hl | [Hl | Hl]]; [cbn in Hl; lia | discriminate Hl ..].
    - destruct Hlong as [Hl | [Hl | Hl]]; [cbn in Hl; lia | discriminate Hl ..].
    - (* two characters *)
      repeat (rewrite append_cons in * || rewrite append_nil in * ).
      cbn [String.get String.substring String.length Nat.eqb].
      assert (Ha : (JsString.code a <? 65)%N = true).
      { destruct Hp as [Hp | [[q Hq] | Hq]].
        - cbn [allDigits] in Hp.
          destruct (JsDate.digit a) eqn:Hd; [| discriminate Hp].
          eapply digit_code; eassumption.
        - injection Hq as -> _. reflexivity.
        - injection Hq as -> _. reflexivity. }
      rewrite Ha, andb_true_l.
      unfold JsDate.parseTimeOfDay, JsDate.charIs, JsDate.field in Hnone.
      cbn [String.get String.substring String.length Nat.eqb Ascii.eqb
           Bool.eqb andb negb] in Hnone.
      destruct (JsDate.digits 0 (String a (String b ""))) as [h0 |];
        [| reflexivity].
      change (JsDate.digits 0 "00") with (Some 0) in Hnone.
      change (JsDate.digits 0 "000") with (Some 0) in Hnone.
      cbn [Z.leb Z.eqb Z.compare andb] in Hnone.
      destruct (h0 <=? 24) eqn:H24; [| reflexivity].
      exfalso.
      destruct (h0 <=? 23) eqn:H23; [discriminate Hnone |].
      destruct (h0 =? 24) eqn:He; [discriminate Hnone |]. lia.
    - (* three characters or more *)
      repeat (rewrite append_cons in * || rewrite append_nil in * ).
      cbn [String.get String.substring String.length Nat.eqb].
      destruct Hp as [Hp | [[q Hq] | Hq]].
      + cbn [allDigits] in Hp.
        destruct (JsDate.digit a) eqn:Hda; [| discriminate Hp].
        destruct (JsDate.digit b) eqn:Hdb; [| discriminate Hp].
        destruct (JsDate.digit c) eqn:Hdc; [| discriminate Hp].
        rewrite (digit_code _ _ Hda). cbn [negb andb].
        now rewrite andb_false_r.
      + injection Hq as -> _. reflexivity.
      + discriminate Hq. }
  intros Hrest.
  apply Hshape; [| | exact Hrest].
  - destruct (String_of_Z_shape h) as [Hd | [q [Hq Hd]]].
    + left. unfold padStart2.
      destruct (String_of_Z h) as [| a [| b s]]; [reflexivity | | exact Hd].
      cbn [String.length]. cbn. exact Hd.
    + unfold padStart2. rewrite Hq.
      destruct q as [| b s]; cbn.
      * right. right. reflexivity.
      * right. left. eexists. reflexivity.
  - unfold padStart2.
    destruct (String_of_Z h) as [| a [| b s]];
      cbn [String.length]; rewrite ?append_cons, ?append_nil.
    + right. right. reflexivity.
    + left. cbn [String.length]. lia.
    + left. cbn [String.length]. lia.
Qed.

Section Reading.

Variable engine : string -> option Z.

Lemma parse_utc (date rest : string) (day tod : Z) :
  JsDate.parseDay date = Some day ->
  JsDate.parseTimeOfDay rest = Some tod ->
  JsDate.parse engine (date ++ rest) = Some (day * JsDate.msPerDay + tod).
Proof.
  intros Hday Hrest. unfold JsDate.parse.
  rewrite (hourMissing_utc _ _ _ _ Hday Hrest).
  now rewrite (parseFormat_utc _ _ _ _ Hday Hrest).
Qed.

(** A text in the form [toISOString] writes is read as its instant by
    every engine. *)
Lemma isoInstant_parse (s : string) (t : Z) :
  isoInstant s = Some t -> JsDate.parse engine s = Some t.
Proof.
  intros H. unfold isoInstant in H.
  destruct (calendarDay (String.substring 0 10 s)) as [day |] eqn:Hday;
    [| discriminate H].
  destruct (JsDate.parseTimeOfDay
              (String.substring 10 (String.length s - 10) s))
    as [tod |] eqn:Htod; [| discriminate H].
  injection H as <-.
  assert (Hlen : (10 <= String.length s)%nat).
  { pose proof (calendarDay_length _ _ Hday) as Hl.
    destruct (le_lt_dec 10 (String.length s)) as [Hle | Hlt]; [exact Hle |].
    exfalso.
    assert (Hall : String.substring 0 10 s = s).
    { clear - Hlt. revert Hlt. generalize 10%nat as n.
      induction s as [| c s IH]; intros n Hn.
      - now destruct n.
      - destruct n as [| n]; [cbn in Hn; lia |].
        cbn. f_equal. apply IH. cbn in Hn. lia. }
    rewrite Hall in Hl. lia. }
  rewrite (substring_split s 10 Hlen) at 1.
  apply parse_utc; [now apply calendarDay_parseDay | exact Htod].
Qed.


(** What [toISOString] writes for an instant of the years 0 to 9999 is
    read back as that instant. *)
Lemma parse_isoText (t : Z) :
  firstInstant <= t <= lastInstant ->
  JsDate.parse engine (JsDate.isoText t) = Some t.
Proof. intros H. now apply isoInstant_parse, isoInstant_isoText. Qed.

End Reading.

Section ReadingHours.

Variable engine : string -> option Z.

(** [date@hour:00] is read as an instant of the day or of the midnight
    that ends it, or else as NaN. *)
Lemma parse_hourText_day (date : string) (day h : Z) :
  JsDate.parseDay date = Some day ->
  JsDate.parse engine (hourText date h) = None
  \/ exists tod,
       0 <= tod <= 86400000
       /\ JsDate.parse engine (hourText date h)
          = Some (day * JsDate.msPerDay + tod).
Proof.
  intros Hday.
  destruct (JsDate.parseTimeOfDay
              ("T" ++ padStart2 (String_of_Z h) ++ ":00:00.000Z"))
    as [tod |] eqn:Hrest.
  - right. exists tod. split.
    + destruct (parseTimeOfDay_inv _ _ Hrest)
        as [h0 [mi [sec [ms [_ [Hh [Hmi [Hsec [Hms [Hcase ->]]]]]]]]]].
      lia.
    + unfold hourText. now apply parse_utc.
  - left. unfold JsDate.parse.
    now rewrite (hourMissing_hourText _ _ _ Hday Hrest).
Qed.

End ReadingHours.

(** ** Scheduling: the candidate slots *)

Section SlotLoop.

Context {V : Type}.


Lemma toISOString_out_of_range (t : Z) :
  ~ (- JsDate.maxTime <= t <= JsDate.maxTime) ->
  JsDate.toISOString (V := V) t = Throw (ThrownError "Invalid time value").
Proof.
  intros H. unfold JsDate.toISOString.
  destruct (- JsDate.maxTime <=? t) eqn:H1;
    [destruct (t <=? JsDate.maxTime) eqn:H2; [lia |] |]; reflexivity.
Qed.

(** One turn of the loop. *)
Lemma slotsLoop_unfold (room : nat) (cursor end_ durationMs intervalMs : Z) :
  slotsLoop (V := V) room cursor end_ durationMs intervalMs
  = if cursor + durationMs <=? end_ then
      match JsDate.toISOString cursor with
      | Throw e => Throw e
      | Ok slotStart =>
          match JsDate.toISOString (cursor + durationMs) with
          | Throw e => Throw e
          | Ok slotEnd =>
              match room with
              | O => Throw (ThrownError "Invalid array length")
              | S room' =>
                  match
                    slotsLoop room' (cursor + intervalMs) end_ durationMs
                      intervalMs
                  with
                  | Throw e => Throw e
                  | Ok slots => Ok (mkSlot slotStart slotEnd :: slots)
                  end
              end
          end
      end
    else Ok [].
Proof. destruct room; reflexivity. Qed.


(** Once the loop has come to its end, by a test that fails or by a time
    value out of range, room for more slots changes nothing. *)
Lemma slotsLoop_more_room (end_ durationMs intervalMs : Z) :
  forall (n extra : nat) (cursor : Z),
    (end_ < cursor + Z.of_nat n * intervalMs + durationMs
     \/ ~ (- JsDate.maxTime <= cursor + Z.of_nat n * intervalMs
           <= JsDate.maxTime)
     \/ ~ (- JsDate.maxTime <= cursor + Z.of_nat n * intervalMs + durationMs
           <= JsDate.maxTime)) ->
    slotsLoop (V := V) (n + extra) cursor end_ durationMs intervalMs
    = slotsLoop n cursor end_ durationMs intervalMs.
Proof.
  induction n as [| n IH]; intros extra cursor Hstop.
  - replace (cursor + Z.of_nat 0 * intervalMs) with cursor in Hstop by lia.
    rewrite (slotsLoop_unfold (0 + extra)), (slotsLoop_unfold 0).
    destruct (cursor + durationMs <=? end_) eqn:Htest; [| reflexivity].
    destruct Hstop as [Hstop | [Hstop | Hstop]]; [lia | |].
    + now rewrite (toISOString_out_of_range _ Hstop).
    + rewrite (toISOString_out_of_range _ Hstop).
      now destruct (JsDate.toISOString cursor).
  - rewrite (slotsLoop_unfold (S n + extra)), (slotsLoop_unfold (S n)).
    cbn [Nat.add]. rewrite IH; [reflexivity |].
    replace (cursor + intervalMs + Z.of_nat n * intervalMs)
      with (cursor + Z.of_nat (S n) * intervalMs) by lia.
    exact Hstop.
Qed.

(** By [turnsBound] turns the loop has come to its end. *)
Lemma turnsBound_stop (cursor end_ durationMs intervalMs : Z) :
  turnsBound cursor end_ durationMs intervalMs < arrayLimit ->
  forall n : nat,
    n = Z.to_nat (turnsBound cursor end_ durationMs intervalMs) ->
    end_ < cursor + Z.of_nat n * intervalMs + durationMs
    \/ ~ (- JsDate.maxTime <= cursor + Z.of_nat n * intervalMs
          <= JsDate.maxTime)
    \/ ~ (- JsDate.maxTime <= cursor + Z.of_nat n * intervalMs + durationMs
          <= JsDate.maxTime).
Proof.
  unfold turnsBound. intros Hsmall n ->.
  destruct (cursor + durationMs <=? end_) eqn:Htest;
    [| left; cbn; lia].
  apply Z.leb_le in Htest.
  destruct (0 <? intervalMs) eqn:Hpos.
  - apply Z.ltb_lt in Hpos. left.
    pose proof (Z.div_pos (end_ - cursor - durationMs) intervalMs
                  ltac:(lia) Hpos).
    rewrite Z2Nat.id by lia.
    pose proof (Z.mul_succ_div_gt (end_ - cursor - durationMs) intervalMs
                  Hpos).
    lia.
  - destruct (intervalMs <? 0) eqn:Hneg; [| lia].
    apply Z.ltb_lt in Hneg. right. left.
    rewrite Z2Nat.id by lia.
    destruct (Z_le_gt_dec 0 (cursor + JsDate.maxTime)) as [Hin | Hout].
    + pose proof (Z.div_pos (cursor + JsDate.maxTime) (- intervalMs)
                    Hin ltac:(lia)).
      rewrite Z.max_r by lia.
      pose proof (Z.mul_succ_div_gt (cursor + JsDate.maxTime) (- intervalMs)
                    ltac:(lia)).
      nia.
    + assert (Hq : (cursor + JsDate.maxTime) / - intervalMs < 0)
        by (apply Z.div_lt_upper_bound; lia).
      rewrite Z.max_l by lia. lia.
Qed.

(** [createTimeSlots] runs the loop as with all the room an array has. *)
Lemma slotsLoop_room (cursor end_ durationMs intervalMs : Z) :
  slotsLoop (V := V)
    (Z.to_nat
       (Z.min arrayLimit (turnsBound cursor end_ durationMs intervalMs)))
    cursor end_ durationMs intervalMs
  = slotsLoop (Z.to_nat arrayLimit) cursor end_ durationMs intervalMs.
Proof.
  destruct (Z_lt_le_dec (turnsBound cursor end_ durationMs intervalMs)
              arrayLimit) as [Hsmall | Hlarge].
  - rewrite Z.min_r by lia.
    assert (Hnn : 0 <= turnsBound cursor end_ durationMs intervalMs).
    { unfold turnsBound, arrayLimit.
      destruct (cursor + durationMs <=? end_) eqn:Htest; [| lia].
      apply Z.leb_le in Htest.
      destruct (0 <? intervalMs) eqn:Hpos.
      - apply Z.ltb_lt in Hpos.
        pose proof (Z.div_pos (end_ - cursor - durationMs) intervalMs
                      ltac:(lia) Hpos). lia.
      - destruct (intervalMs <? 0); lia. }
    replace (Z.to_nat arrayLimit)
      with (Z.to_nat (turnsBound cursor end_ durationMs intervalMs)
            + (Z.to_nat arrayLimit
               - Z.to_nat (turnsBound cursor end_ durationMs intervalMs)))%nat
      by lia.
    symmetry. apply slotsLoop_more_room.
    now apply turnsBound_stop.
  - now rewrite Z.min_l by lia.
Qed.

(** With a step that is not positive the loop never passes the end: it
    goes on until [toISOString] or [push] throws. *)
Lemma slotsLoop_without_progress (end_ durationMs intervalMs : Z) :
  intervalMs <= 0 ->
  forall (room : nat) (cursor : Z),
    cursor + durationMs <= end_ ->
    exists message,
      slotsLoop (V := V) room cursor end_ durationMs intervalMs
      = Throw (ThrownError message).
Proof.
  intros Hstep. induction room as [| room IH]; intros cursor Hfit;
    rewrite slotsLoop_unfold;
    (destruct (cursor + durationMs <=? end_) eqn:Htest; [| lia]);
    unfold JsDate.toISOString;
    (destruct ((- JsDate.maxTime <=? cursor) && (cursor <=? JsDate.maxTime));
       [| eexists; reflexivity]);
    (destruct ((- JsDate.maxTime <=? cursor + durationMs)
               && (cursor + durationMs <=? JsDate.maxTime));
       [| eexists; reflexivity]).
  - eexists; reflexivity.
  - destruct (IH (cursor + intervalMs) ltac:(lia)) as [message ->].
    eexists; reflexivity.
Qed.

(** Every slot the loop gives is a whole number of steps after the start
    and ends by the end. *)
Lemma slotsLoop_In (end_ durationMs intervalMs : Z) :
  forall (room : nat) (cursor : Z) (slots : list Slot) (slot : Slot),
    slotsLoop (V := V) room cursor end_ durationMs intervalMs = Ok slots ->
    In slot slots ->
    exists k : nat,
      startAt slot = JsDate.isoText (cursor + Z.of_nat k * intervalMs)
      /\ endAt slot
         = JsDate.isoText (cursor + Z.of_nat k * intervalMs + durationMs)
      /\ cursor + Z.of_nat k * intervalMs + durationMs <= end_.
Proof.
  induction room as [| room IH]; intros cursor slots slot Hrun Hin;
    rewrite slotsLoop_unfold in Hrun;
    (destruct (cursor + durationMs <=? end_) eqn:Htest;
       [| injection Hrun as <-; destruct Hin]);
    apply Z.leb_le in Htest;
    unfold JsDate.toISOString in Hrun;
    (destruct ((- JsDate.maxTime <=? cursor) && (cursor <=? JsDate.maxTime));
       [| discriminate Hrun]);
    (destruct ((- JsDate.maxTime <=? cursor + durationMs)
               && (cursor + durationMs <=? JsDate.maxTime));
       [| discriminate Hrun]).
  - discriminate Hrun.
  - destruct (slotsLoop room (cursor + intervalMs) end_ durationMs intervalMs)
      as [rest | e] eqn:Hrest; [| discriminate Hrun].
    injection Hrun as <-. destruct Hin as [<- | Hin].
    + exists O. cbn [startAt endAt].
      replace (cursor + Z.of_nat 0 * intervalMs) with cursor by lia.
      repeat split; [exact Htest].
    + destruct (IH _ _ _ Hrest Hin) as [k [Hs [He Hfit]]].
      exists (S k).
      replace (cursor + Z.of_nat (S k) * intervalMs)
        with (cursor + intervalMs + Z.of_nat k * intervalMs) by lia.
      tauto.
Qed.

(** A list of slots comes back only from a step that is positive, unless
    the loop ends at once. *)
Lemma slotsLoop_Ok_progress (room : nat)
  (cursor end_ durationMs intervalMs : Z) (slots : list Slot) :
  slotsLoop (V := V) room cursor end_ durationMs intervalMs = Ok slots ->
  slots = [] \/ 0 < intervalMs.
Proof.
  intros Hrun.
  destruct (Z_lt_le_dec 0 intervalMs) as [Hpos | Hnot]; [now right |].
  left. rewrite slotsLoop_unfold in Hrun.
  destruct (cursor + durationMs <=? end_) eqn:Htest;
    [| now injection Hrun as <-].
  apply Z.leb_le in Htest.
  destruct (slotsLoop_without_progress end_ durationMs intervalMs Hnot room
              cursor Htest) as [message Hthrow].
  rewrite slotsLoop_unfold, (proj2 (Z.leb_le _ _) Htest) in Hthrow.
  rewrite Hthrow in Hrun. discriminate Hrun.
Qed.

End SlotLoop.

Section FreeDay.

Context {V : Type}.
Variable localeCompare : string -> string -> Z.
Variable engine : string -> option Z.

(** With a step that is not positive and a window that holds a slot,
    [createTimeSlots] throws: it returns no list. *)
Lemma createTimeSlots_without_progress (startIso endIso : string)
  (durationMinutes intervalMinutes cursor end_ : Z) :
  JsDate.parse engine startIso = Some cursor ->
  JsDate.parse engine endIso = Some end_ ->
  intervalMinutes <= 0 ->
  cursor + durationMinutes * 60 * 1000 <= end_ ->
  exists message,
    createTimeSlots (V := V) engine startIso endIso durationMinutes
      intervalMinutes
    = Throw (ThrownError message).
Proof.
  intros Hs He Hstep Hfit. unfold createTimeSlots. rewrite Hs, He.
  apply slotsLoop_without_progress; lia.
Qed.

Lemma filter_all_true {A : Type} (f : A -> bool) (l : list A) :
  (forall x, f x = true) -> filter f l = l.
Proof.
  intros Hf. induction l as [| x l IH]; simpl; [reflexivity |].
  now rewrite Hf, IH.
Qed.



End FreeDay.


(** A day that its month does not have counts on into the next month:
    asked for the 30th of February 2025, [findOpenSlots] returns the slots
    of the 2nd of March. *)
Lemma findOpenSlots_day_past_the_month :
  findOpenSlots (V := unit) codeUnitCompare plainEngine
    (mkFindOpenSlotsInput exProvider "2025-02-30" 30 (Some 30) (Some 8)
       (Some 9))
    emptyStore emptyRepo
  = Ok [ mkSlot "2025-03-02T08:00:00.000Z" "2025-03-02T08:30:00.000Z";
         mkSlot "2025-03-02T08:30:00.000Z" "2025-03-02T09:00:00.000Z" ].
Proof. vm_compute. reflexivity. Qed.

(** ** Scheduling: the instants of the slots *)

Section SlotInstants.

Context {V : Type}.
Variable engine : string -> option Z.

Lemma parseTimeOfDay_range (rest : string) (tod : Z) :
  JsDate.parseTimeOfDay rest = Some tod -> 0 <= tod <= 86400000.
Proof.
  intros H.
  destruct (parseTimeOfDay_inv _ _ H)
    as [h [mi [sec [ms [_ [Hh [Hmi [Hsec [Hms [Hcase ->]]]]]]]]]].
  lia.
Qed.

(** The candidate slots of a request for a date that is read: each starts
    a whole number of intervals after the start of the window, lasts the
    duration, and lies in the window and in the day. *)
Lemma baseSlotsOf_In (input : FindOpenSlotsInput) (day : Z)
  (baseSlots : list Slot) (slot : Slot) :
  JsDate.parseDay (fs_date input) = Some day ->
  baseSlotsOf (V := V) engine input = Ok baseSlots ->
  In slot baseSlots ->
  exists s : Z,
    startAt slot = JsDate.isoText s
    /\ endAt slot = JsDate.isoText (s + durationMinutes input * 60000)
    /\ day * JsDate.msPerDay <= s
    /\ s + durationMinutes input * 60000 <= day * JsDate.msPerDay + JsDate.msPerDay.
Proof.
  intros Hday Hrun Hin. unfold baseSlotsOf, createTimeSlots in Hrun.
  destruct (parse_hourText_day engine (fs_date input) day
              (default 8 (startHour input)) Hday) as [H1 | [t1 [Ht1 H1]]];
    rewrite H1 in Hrun; [injection Hrun as <-; destruct Hin |].
  destruct (parse_hourText_day engine (fs_date input) day
              (default 17 (endHour input)) Hday) as [H2 | [t2 [Ht2 H2]]];
    rewrite H2 in Hrun; [injection Hrun as <-; destruct Hin |].
  destruct (slotsLoop_Ok_progress _ _ _ _ _ _ Hrun) as [-> | Hpos];
    [destruct Hin |].
  destruct (slotsLoop_In _ _ _ _ _ _ _ Hrun Hin) as [k [Hs [He Hfit]]].
  exists (day * JsDate.msPerDay + t1
          + Z.of_nat k * (intervalOf input * 60 * 1000)).
  rewrite Hs, He.
  replace (durationMinutes input * 60000)
    with (durationMinutes input * 60 * 1000) by lia.
  split; [reflexivity | split; [reflexivity |]].
  unfold JsDate.msPerDay in *. nia.
Qed.

End SlotInstants.

(** Containment and overlap of intervals of instants, as the program tests
    them on their texts. *)
Lemma within_instants (s e bs be : Z) (slot : Slot)
  (block : ScheduleBlockRecord) :
  firstInstant <= s <= lastInstant -> firstInstant <= e <= lastInstant ->
  firstInstant <= bs <= lastInstant -> firstInstant <= be <= lastInstant ->
  startAt slot = JsDate.isoText s -> endAt slot = JsDate.isoText e ->
  block_startAt block = JsDate.isoText bs ->
  block_endAt block = JsDate.isoText be ->
  within slot block = (bs <=? s) && (e <=? be).
Proof.
  intros Hs He Hbs Hbe Hss Hse Hbss Hbse. unfold within.
  rewrite Hss, Hse, Hbss, Hbse.
  unfold JsString.ge. fold (JsString.le (JsDate.isoText bs) (JsDate.isoText s)).
  now rewrite !isoText_le.
Qed.

Lemma overlap_instants (a b c d : Z) :
  firstInstant <= a <= lastInstant -> firstInstant <= b <= lastInstant ->
  firstInstant <= c <= lastInstant -> firstInstant <= d <= lastInstant ->
  overlap (JsDate.isoText a) (JsDate.isoText b) (JsDate.isoText c)
    (JsDate.isoText d)
  = (a <? d) && (c <? b).
Proof.
  intros Ha Hb Hc Hd. unfold overlap.
  unfold JsString.gt. fold (JsString.lt (JsDate.isoText c) (JsDate.isoText b)).
  now rewrite !isoText_lt.
Qed.

(** ** Scheduling: the slots returned *)

(** The text of an instant of a day that parses is the text of the day
    followed by that of the time. *)
Lemma isoText_dayText (date rest : string) (day tod : Z) :
  calendarDay date = Some day ->
  JsDate.parseTimeOfDay rest = Some tod ->
  String.substring 1 2 rest <> "24" ->
  JsDate.isoText (day * JsDate.msPerDay + tod) = (date ++ rest)%string.
Proof.
  intros Hday Hrest Hnot24.
  pose proof (calendarDay_length _ _ Hday) as Hlen.
  apply isoText_isoInstant.
  - rewrite isoInstant_append by exact Hlen. now rewrite Hday, Hrest.
  - destruct date as [| c0 [| c1 [| c2 [| c3 [| c4 [| c5 [| c6
      [| c7 [| c8 [| c9 [| c10 r]]]]]]]]]]]; try discriminate Hlen.
    rewrite !append_cons, append_nil.
    cbn [String.substring]. exact Hnot24.
Qed.

Lemma dayStartText_isoText (date : string) (day : Z) :
  calendarDay date = Some day ->
  dayStartText date = JsDate.isoText (day * JsDate.msPerDay).
Proof.
  intros Hday. unfold dayStartText.
  rewrite <- (isoText_dayText date "T00:00:00.000Z" day 0 Hday);
    [f_equal; lia | reflexivity | discriminate].
Qed.

Lemma dayEndText_isoText (date : string) (day : Z) :
  calendarDay date = Some day ->
  dayEndText date = JsDate.isoText (day * JsDate.msPerDay + 86399999).
Proof.
  intros Hday. unfold dayEndText.
  rewrite <- (isoText_dayText date "T23:59:59.999Z" day 86399999 Hday);
    [reflexivity | reflexivity | discriminate].
Qed.

Section SchedulingFilterTheorems.

Context {V : Type}.
Variable localeCompare : string -> string -> Z.

Lemma availableBlocksOf_In (repo : MemoryClinicOpsRepository)
  (input : FindOpenSlotsInput) (b : ScheduleBlockRecord) :
  In b (availableBlocksOf localeCompare repo input) <->
  In b (JsMap.values (scheduleBlocks repo))
  /\ block_provider b = fs_provider input
  /\ blockType b = available
  /\ overlap (block_startAt b) (block_endAt b) (dayStartText (fs_date input))
       (dayEndText (fs_date input)) = true.
Proof.
  unfold availableBlocksOf, isAvailable.
  rewrite filter_In, dayBlocks_In, bool_decide_eq_true. tauto.
Qed.

Variable engine : string -> option Z.

(** A returned slot is a candidate slot: its texts are those of two
    instants of the day, the duration apart. *)
Lemma findOpenSlots_slot_instants (input : FindOpenSlotsInput)
  (store : MemoryDentalStore) (repo : MemoryClinicOpsRepository)
  (slots : list Slot) (day : Z) (slot : Slot) :
  findOpenSlots (V := V) localeCompare engine input store repo = Ok slots ->
  JsDate.parseDay (fs_date input) = Some day ->
  In slot slots ->
  exists s : Z,
    startAt slot = JsDate.isoText s
    /\ endAt slot = JsDate.isoText (s + durationMinutes input * 60000)
    /\ day * JsDate.msPerDay <= s
    /\ s + durationMinutes input * 60000
       <= day * JsDate.msPerDay + JsDate.msPerDay.
Proof.
  intros Hrun Hday Hin.
  destruct (findOpenSlots_unfold localeCompare engine input store repo slots Hrun)
    as [baseSlots [Hbase ->]].
  apply filter_In in Hin. destruct Hin as [Hin _].
  exact (baseSlotsOf_In engine input day baseSlots slot Hday Hbase Hin).
Qed.

(** The instants of a day that parses are instants of the years 0 to
    9999. *)
Lemma day_instants (date : string) (day t : Z) :
  calendarDay date = Some day ->
  day * JsDate.msPerDay <= t ->
  firstInstant <= t
  /\ (t < day * JsDate.msPerDay + JsDate.msPerDay -> t <= lastInstant).
Proof.
  intros Hday Ht. apply calendarDay_range in Hday.
  unfold firstInstant, lastInstant, JsDate.msPerDay in *. lia.
Qed.

(** C6, as amended.  When the day's query finds an [available] block of the
    provider, every slot [findOpenSlots] returns lies within one of them,
    bounds included, as the program compares the texts; when it finds
    none, the returned slots are the candidates that overlap no
    appointment and no blocking block, with no containment test.  So with
    a single available block, no returned slot lies outside it, text for
    text.  In time this is containment for blocks written as
    [toISOString] writes: on a date of the calendar a returned slot runs
    from an instant [s] of the day to [s + duration], and an available
    block holds it whose bounds, when they are the texts [toISOString]
    gives for instants [bs] and [be] of the years 0 to 9999, satisfy
    [bs <= s] and [s + duration <= be]. *)
Theorem findOpenSlots_within_available_block :
  forall (input : FindOpenSlotsInput) (store : MemoryDentalStore)
         (repo : MemoryClinicOpsRepository) (slots : list Slot),
    findOpenSlots (V := V) localeCompare engine input store repo = Ok slots ->
    (availableBlocksOf localeCompare repo input <> [] ->
     forall slot, In slot slots ->
       exists block,
         In block (availableBlocksOf localeCompare repo input)
         /\ JsString.ge (startAt slot) (block_startAt block) = true
         /\ JsString.le (endAt slot) (block_endAt block) = true)
    /\ (availableBlocksOf localeCompare repo input = [] ->
        exists baseSlots,
          baseSlotsOf (V := V) engine input = Ok baseSlots
          /\ slots
             = filter
                 (clearOf
                    (dayAppointments localeCompare store (fs_provider input)
                       (fs_date input))
                    (blockingBlocksOf localeCompare repo input))
                 baseSlots)
    /\ (forall block,
          availableBlocksOf localeCompare repo input = [block] ->
          forall slot, In slot slots ->
            JsString.ge (startAt slot) (block_startAt block) = true
            /\ JsString.le (endAt slot) (block_endAt block) = true)
    /\ (forall block,
          In block (availableBlocksOf localeCompare repo input) <->
          In block (JsMap.values (scheduleBlocks repo))
          /\ block_provider block = fs_provider input
          /\ blockType block = available
          /\ overlap (block_startAt block) (block_endAt block)
               (dayStartText (fs_date input)) (dayEndText (fs_date input))
             = true)
    /\ (forall day,
          calendarDay (fs_date input) = Some day ->
          availableBlocksOf localeCompare repo input <> [] ->
          forall slot, In slot slots ->
            exists (s : Z) (block : ScheduleBlockRecord),
              startAt slot = JsDate.isoText s
              /\ endAt slot
                 = JsDate.isoText (s + durationMinutes input * 60000)
              /\ day * JsDate.msPerDay <= s
              /\ s + durationMinutes input * 60000
                 <= day * JsDate.msPerDay + JsDate.msPerDay
              /\ In block (availableBlocksOf localeCompare repo input)
              /\ (0 <= durationMinutes input ->
                  s + durationMinutes input * 60000 <= lastInstant ->
                  forall bs be,
                    firstInstant <= bs <= lastInstant ->
                    firstInstant <= be <= lastInstant ->
                    block_startAt block = JsDate.isoText bs ->
                    block_endAt block = JsDate.isoText be ->
                    bs <= s /\ s + durationMinutes input * 60000 <= be)).
Proof.
  intros input store repo slots Hrun.
  pose proof (findOpenSlots_slot_instants input store repo slots) as Hinst.
  specialize (fun day slot => Hinst day slot Hrun).
  destruct (findOpenSlots_unfold localeCompare engine input store repo slots Hrun)
    as [baseSlots [Hbase ->]].
  assert (Hany :
    availableBlocksOf localeCompare repo input <> [] ->
    forall slot,
      In slot
        (filter
           (slotIsOpen (availableBlocksOf localeCompare repo input)
              (blockingBlocksOf localeCompare repo input)
              (dayAppointments localeCompare store (fs_provider input)
                 (fs_date input)))
           baseSlots) ->
      exists block,
        In block (availableBlocksOf localeCompare repo input)
        /\ JsString.ge (startAt slot) (block_startAt block) = true
        /\ JsString.le (endAt slot) (block_endAt block) = true).
  { intros Hne slot Hin. apply filter_In in Hin. destruct Hin as [_ Hopen].
    apply slotIsOpen_true in Hopen. destruct Hopen as [[Hnil | Hex] _];
      [contradiction |].
    apply existsb_exists in Hex. destruct Hex as [block [Hb Hw]].
    unfold within in Hw. apply andb_true_iff in Hw.
    exists block. tauto. }
  split; [exact Hany | split; [| split; [| split]]].
  - intros Hnil. exists baseSlots. split; [exact Hbase |].
    rewrite Hnil. apply filter_ext. intros slot.
    destruct (slotIsOpen [] _ _ slot) eqn:Hopen.
    + apply slotIsOpen_true in Hopen. symmetry. tauto.
    + destruct (clearOf _ _ slot) eqn:Hclear; [| reflexivity].
      assert (Ht : slotIsOpen [] (blockingBlocksOf localeCompare repo input)
                     (dayAppointments localeCompare store (fs_provider input)
                        (fs_date input)) slot = true)
        by (apply slotIsOpen_true; split; [now left | exact Hclear]).
      congruence.
  - intros block Hone slot Hin.
    destruct (Hany ltac:(rewrite Hone; discriminate) slot Hin)
      as [b [Hb Hw]].
    rewrite Hone in Hb. destruct Hb as [<- | []]. exact Hw.
  - intros block. apply availableBlocksOf_In.
  - intros day Hday Hne slot Hin.
    destruct (Hinst day slot (calendarDay_parseDay _ _ Hday) Hin)
      as [s [Hs [He [Hlow Hhigh]]]].
    destruct (Hany Hne slot Hin) as [block [Hb [Hge Hle]]].
    exists s, block. repeat (split; [assumption |]).
    intros Hdur Hlast bs be Hbs Hbe Hbst Hben.
    destruct (day_instants _ _ s Hday Hlow) as [Hfirst _].
    assert (Hw : within slot block = true)
      by (unfold within; now rewrite Hge, Hle).
    rewrite (within_instants s (s + durationMinutes input * 60000) bs be)
      in Hw by (assumption || lia).
    apply andb_true_iff in Hw. lia.
Qed.

(** C7, as amended.  A slot [findOpenSlots] returns overlaps no
    appointment of the provider and no [booked], [break] or [hold] block of
    the provider that the day's query finds, those whose text starts before
    [date@23:59:59.999] and ends after [date@00:00:00.000]; two intervals
    overlap exactly when the first starts before the second ends and ends
    after the second starts, so intervals that only touch do not overlap.
    The program compares the texts.  In time, for appointments and blocks
    written as [toISOString] writes: on a date of the calendar a returned
    slot runs from an instant [s] of the day to [s + duration], and an
    appointment or a blocking block of the provider from [c] to [d],
    instants of the years 0 to 9999 with [c] before the last millisecond
    of the day and [d] after its first, ends by [s] or starts at
    [s + duration] or later. *)
Theorem findOpenSlots_avoids_appointments_and_blocks :
  forall (input : FindOpenSlotsInput) (store : MemoryDentalStore)
         (repo : MemoryClinicOpsRepository) (slots : list Slot),
    findOpenSlots (V := V) localeCompare engine input store repo = Ok slots ->
    (forall slot, In slot slots ->
       (forall a,
          In a (JsMap.values (appointments store)) ->
          appt_provider a = fs_provider input ->
          overlap (appt_startAt a) (appt_endAt a)
            (dayStartText (fs_date input)) (dayEndText (fs_date input)) = true ->
          overlap (startAt slot) (endAt slot) (appt_startAt a) (appt_endAt a)
          = false)
       /\ (forall b,
             In b (JsMap.values (scheduleBlocks repo)) ->
             block_provider b = fs_provider input ->
             In (blockType b) [booked; break; hold] ->
             overlap (block_startAt b) (block_endAt b)
               (dayStartText (fs_date input)) (dayEndText (fs_date input))
             = true ->
             overlap (startAt slot) (endAt slot) (block_startAt b)
               (block_endAt b) = false))
    /\ (forall a b c d,
          overlap a b c d = true
          <-> JsString.lt a d = true /\ JsString.gt b c = true)
    /\ (forall a b d, overlap a b b d = false)
    /\ (forall day,
          calendarDay (fs_date input) = Some day ->
          forall slot, In slot slots ->
            exists s : Z,
              startAt slot = JsDate.isoText s
              /\ endAt slot
                 = JsDate.isoText (s + durationMinutes input * 60000)
              /\ day * JsDate.msPerDay <= s
              /\ s + durationMinutes input * 60000
                 <= day * JsDate.msPerDay + JsDate.msPerDay
              /\ (0 <= durationMinutes input ->
                  s + durationMinutes input * 60000 <= lastInstant ->
                  forall c d,
                    firstInstant <= c <= lastInstant ->
                    firstInstant <= d <= lastInstant ->
                    c < day * JsDate.msPerDay + 86399999 ->
                    day * JsDate.msPerDay < d ->
                    (forall a,
                       In a (JsMap.values (appointments store)) ->
                       appt_provider a = fs_provider input ->
                       appt_startAt a = JsDate.isoText c ->
                       appt_endAt a = JsDate.isoText d ->
                       d <= s \/ s + durationMinutes input * 60000 <= c)
                    /\ (forall b,
                          In b (JsMap.values (scheduleBlocks repo)) ->
                          block_provider b = fs_provider input ->
                          In (blockType b) [booked; break; hold] ->
                          block_startAt b = JsDate.isoText c ->
                          block_endAt b = JsDate.isoText d ->
                          d <= s
                          \/ s + durationMinutes input * 60000 <= c))).
Proof.
  intros input store repo slots Hrun.
  pose proof (findOpenSlots_slot_instants input store repo slots) as Hinst.
  specialize (fun day slot => Hinst day slot Hrun).
  destruct (findOpenSlots_unfold localeCompare engine input store repo slots Hrun)
    as [baseSlots [_ ->]].
  assert (Hclear :
    forall slot,
      In slot
        (filter
           (slotIsOpen (availableBlocksOf localeCompare repo input)
              (blockingBlocksOf localeCompare repo input)
              (dayAppointments localeCompare store (fs_provider input)
                 (fs_date input)))
           baseSlots) ->
      (forall a,
         In a (JsMap.values (appointments store)) ->
         appt_provider a = fs_provider input ->
         overlap (appt_startAt a) (appt_endAt a)
           (dayStartText (fs_date input)) (dayEndText (fs_date input)) = true ->
         overlap (startAt slot) (endAt slot) (appt_startAt a) (appt_endAt a)
         = false)
      /\ (forall b,
            In b (JsMap.values (scheduleBlocks repo)) ->
            block_provider b = fs_provider input ->
            In (blockType b) [booked; break; hold] ->
            overlap (block_startAt b) (block_endAt b)
              (dayStartText (fs_date input)) (dayEndText (fs_date input))
            = true ->
            overlap (startAt slot) (endAt slot) (block_startAt b)
              (block_endAt b) = false));
    [| split; [exact Hclear | split; [| split]]].
  - intros slot Hin. apply filter_In in Hin. destruct Hin as [_ Hopen].
    apply slotIsOpen_true in Hopen. destruct Hopen as [_ Hclear].
    unfold clearOf in Hclear. apply andb_true_iff in Hclear.
    destruct Hclear as [Hap Hbl]. apply negb_true_iff in Hap, Hbl.
    split.
    + intros a Hin Hprov Hday.
      destruct (overlap (startAt slot) (endAt slot) (appt_startAt a)
                  (appt_endAt a)) eqn:Hov; [| reflexivity].
      assert (Hex : existsb
                (fun a => overlap (startAt slot) (endAt slot) (appt_startAt a)
                            (appt_endAt a))
                (dayAppointments localeCompare store (fs_provider input)
                   (fs_date input)) = true).
      { apply existsb_exists. exists a. split; [| exact Hov].
        now apply dayAppointments_In. }
      congruence.
    + intros b Hin Hprov Htype Hday.
      destruct (overlap (startAt slot) (endAt slot) (block_startAt b)
                  (block_endAt b)) eqn:Hov; [| reflexivity].
      assert (Hex : existsb
                (fun b => overlap (startAt slot) (endAt slot) (block_startAt b)
                            (block_endAt b))
                (blockingBlocksOf localeCompare repo input) = true).
      { apply existsb_exists. exists b. split; [| exact Hov].
        unfold blockingBlocksOf. apply filter_In. split.
        - apply dayBlocks_In. tauto.
        - unfold isBlocking. now apply includes_In. }
      congruence.
  - intros a b c d. unfold overlap. apply andb_true_iff.
  - intros a b d. unfold overlap, JsString.gt.
    rewrite String_ltb_irrefl. apply andb_false_r.
  - intros day Hday slot Hin.
    destruct (Hinst day slot (calendarDay_parseDay _ _ Hday) Hin)
      as [s [Hs [He [Hlow Hhigh]]]].
    exists s. repeat (split; [assumption |]).
    intros Hdur Hlast c d Hc Hd Hcday Hdday.
    destruct (day_instants _ _ s Hday Hlow) as [Hfirst _].
    destruct (day_instants _ _ (day * JsDate.msPerDay) Hday ltac:(lia))
      as [Hfirst0 Hlast0].
    assert (Hwindow :
      overlap (JsDate.isoText c) (JsDate.isoText d)
        (dayStartText (fs_date input)) (dayEndText (fs_date input)) = true).
    { rewrite (dayStartText_isoText _ day Hday), (dayEndText_isoText _ day Hday).
      rewrite overlap_instants;
        [apply andb_true_iff; lia | assumption | assumption
         | unfold JsDate.msPerDay in *; lia
         | pose proof (calendarDay_range _ _ Hday);
           unfold firstInstant, lastInstant, JsDate.msPerDay in *; lia]. }
    assert (Hapart :
      overlap (startAt slot) (endAt slot) (JsDate.isoText c)
        (JsDate.isoText d) = false ->
      d <= s \/ s + durationMinutes input * 60000 <= c).
    { rewrite Hs, He. rewrite overlap_instants by (assumption || lia).
      intros Hov. apply andb_false_iff in Hov. lia. }
    destruct (Hclear slot Hin) as [Hap Hbl].
    split.
    + intros a Ha Hprov Hst Hen. apply Hapart. rewrite <- Hst, <- Hen.
      apply Hap; [assumption | assumption |]. now rewrite Hst, Hen.
    + intros b Hb Hprov Htype Hst Hen. apply Hapart. rewrite <- Hst, <- Hen.
      apply Hbl; [assumption | assumption | assumption |].
      now rewrite Hst, Hen.
Qed.

End SchedulingFilterTheorems.

(** C6 at work: one available block 09:00-12:00, 30-minute slots every 15
    minutes between 08:00 and 17:00.  The eleven slots from 09:00 to 11:30
    come back, each within the block, as texts and as instants. *)
Lemma findOpenSlots_within_available_block_witness :
  findOpenSlots (V := unit) codeUnitCompare plainEngine exRequest emptyStore
    (withBlocks [exAvailable])
  = Ok (slotsFrom (exMidnight + 9 * 3600000) 30 15 11)
  /\ (forall slot,
        In slot (slotsFrom (exMidnight + 9 * 3600000) 30 15 11) ->
        JsString.ge (startAt slot) "2025-01-06T09:00:00.000Z" = true
        /\ JsString.le (endAt slot) "2025-01-06T12:00:00.000Z" = true)
  /\ (forall slot,
        In slot (slotsFrom (exMidnight + 9 * 3600000) 30 15 11) ->
        exists s,
          startAt slot = JsDate.isoText s
          /\ endAt slot = JsDate.isoText (s + 30 * 60000)
          /\ exMidnight + 9 * 3600000 <= s
          /\ s + 30 * 60000 <= exMidnight + 12 * 3600000).
Proof.
  destruct (findOpenSlots_within_available_block (V := unit) codeUnitCompare
              plainEngine exRequest emptyStore (withBlocks [exAvailable])
              (slotsFrom (exMidnight + 9 * 3600000) 30 15 11)
              ltac:(vm_compute; reflexivity))
    as [_ [_ [Hone [_ Hinstants]]]].
  split; [vm_compute; reflexivity |].
  split; [exact (Hone exAvailable ltac:(vm_compute; reflexivity)) |].
  intros slot Hin.
  destruct (Hinstants 20094 ltac:(vm_compute; reflexivity)
              ltac:(vm_compute; discriminate) slot Hin)
    as [s [block [Hs [He [Hlow [Hhigh [Hblock Hwithin]]]]]]].
  change (durationMinutes exRequest) with 30 in He, Hhigh, Hwithin.
  assert (Hb : block = exAvailable).
  { change (availableBlocksOf codeUnitCompare (withBlocks [exAvailable])
              exRequest) with [exAvailable] in Hblock.
    destruct Hblock as [<- | []]. reflexivity. }
  subst block. exists s. split; [exact Hs | split; [exact He |]].
  apply (Hwithin ltac:(lia)
           ltac:(unfold lastInstant, JsDate.msPerDay in *; lia)
           (exMidnight + 9 * 3600000) (exMidnight + 12 * 3600000)
           ltac:(vm_compute; split; discriminate)
           ltac:(vm_compute; split; discriminate)
           ltac:(vm_compute; reflexivity) ltac:(vm_compute; reflexivity)).
Defined.

(** C6, the claim as stated fails.  An available block from 09:00 to 12:00
    UTC is stored in the notation of a zone five hours behind, from 04:00
    to 07:00.  Of the half-hour slots between 04:00 and 12:00 UTC those
    from 04:00 to 06:30 come back: each is over, in time, before the only
    available block starts, and the slot from 09:00 to 09:30, which lies
    in the block, does not come back. *)
Lemma findOpenSlots_outside_offset_block :
  let block :=
    exBlock "block-3" available "2025-01-06T04:00:00.000-05:00"
      "2025-01-06T07:00:00.000-05:00" in
  let request :=
    mkFindOpenSlotsInput exProvider exDate 30 (Some 30) (Some 4) (Some 12) in
  let returned := slotsFrom (exMidnight + 4 * 3600000) 30 30 5 in
  availableBlocksOf codeUnitCompare (withBlocks [block]) request = [block]
  /\ JsDate.parse plainEngine (block_startAt block)
     = Some (exMidnight + 9 * 3600000)
  /\ JsDate.parse plainEngine (block_endAt block)
     = Some (exMidnight + 12 * 3600000)
  /\ findOpenSlots (V := unit) codeUnitCompare plainEngine request emptyStore
       (withBlocks [block])
     = Ok returned
  /\ nth_error returned 0
     = Some (mkSlot "2025-01-06T04:00:00.000Z" "2025-01-06T04:30:00.000Z")
  /\ nth_error returned 4
     = Some (mkSlot "2025-01-06T06:00:00.000Z" "2025-01-06T06:30:00.000Z")
  /\ (forall slot, In slot returned ->
        exists s e,
          JsDate.parse plainEngine (startAt slot) = Some s
          /\ JsDate.parse plainEngine (endAt slot) = Some e
          /\ e < exMidnight + 9 * 3600000)
  /\ ~ In (mkSlot "2025-01-06T09:00:00.000Z" "2025-01-06T09:30:00.000Z")
         returned.
Proof.
  cbv zeta.
  split; [vm_compute; reflexivity |].
  split; [vm_compute; reflexivity |].
  split; [vm_compute; reflexivity |].
  split; [vm_compute; reflexivity |].
  split; [vm_compute; reflexivity |].
  split; [vm_compute; reflexivity |].
  split.
  - intros slot Hin.
    repeat (destruct Hin as [<- | Hin];
            [eexists; eexists;
             split; [vm_compute; reflexivity |];
             split; [vm_compute; reflexivity | vm_compute; reflexivity] |]).
    destruct Hin.
  - intros Hin. vm_compute in Hin.
    repeat (destruct Hin as [Hin | Hin]; [discriminate Hin |]).
    exact Hin.
Qed.

(** C7 at work: an appointment 10:00-10:30 and a break 12:00-13:00.  The
    slot 09:30-10:00, which touches the appointment, is returned; no
    returned slot overlaps the appointment or the break, as texts and as
    instants. *)
Lemma findOpenSlots_avoids_appointments_and_blocks_witness :
  exists slots,
    findOpenSlots (V := unit) codeUnitCompare plainEngine exRequest
      (withAppointments [exAppointment]) (withBlocks [exBreak])
    = Ok slots
    /\ In (mkSlot "2025-01-06T09:30:00.000Z" "2025-01-06T10:00:00.000Z") slots
    /\ (forall slot, In slot slots ->
          overlap (startAt slot) (endAt slot) (appt_startAt exAppointment)
            (appt_endAt exAppointment) = false
          /\ overlap (startAt slot) (endAt slot) (block_startAt exBreak)
               (block_endAt exBreak) = false)
    /\ (forall slot, In slot slots ->
          exists s,
            startAt slot = JsDate.isoText s
            /\ endAt slot = JsDate.isoText (s + 30 * 60000)
            /\ (exMidnight + 10 * 3600000 + 30 * 60000 <= s
                \/ s + 30 * 60000 <= exMidnight + 10 * 3600000)
            /\ (exMidnight + 13 * 3600000 <= s
                \/ s + 30 * 60000 <= exMidnight + 12 * 3600000)).
Proof.
  eexists. split; [vm_compute; reflexivity |].
  split; [vm_compute; tauto |].
  destruct (findOpenSlots_avoids_appointments_and_blocks (V := unit)
              codeUnitCompare plainEngine exRequest
              (withAppointments [exAppointment])
              (withBlocks [exBreak]) _ ltac:(vm_compute; reflexivity))
    as [Htexts [_ [_ Hinstants]]].
  split.
  - intros slot Hin. destruct (Htexts slot Hin) as [Hap Hbl]. split.
    + apply Hap; [now left | reflexivity | vm_compute; reflexivity].
    + apply Hbl; [now left | reflexivity | vm_compute; tauto
                 | vm_compute; reflexivity].
  - intros slot Hin.
    destruct (Hinstants 20094 ltac:(vm_compute; reflexivity) slot Hin)
      as [s [Hs [He [Hlow [Hhigh Hapart]]]]].
    change (durationMinutes exRequest) with 30 in He, Hhigh, Hapart.
    exists s. split; [exact Hs | split; [exact He |]].
    assert (Hlast : s + 30 * 60000 <= lastInstant)
      by (unfold lastInstant, JsDate.msPerDay in *; lia).
    split.
    + apply (proj1 (Hapart ltac:(lia) Hlast
                      (exMidnight + 10 * 3600000)
                      (exMidnight + 10 * 3600000 + 30 * 60000)
                      ltac:(vm_compute; split; discriminate)
                      ltac:(vm_compute; split; discriminate)
                      ltac:(vm_compute; reflexivity)
                      ltac:(vm_compute; reflexivity))
               exAppointment);
        [now left | reflexivity | vm_compute; reflexivity
         | vm_compute; reflexivity].
    + apply (proj2 (Hapart ltac:(lia) Hlast
                      (exMidnight + 12 * 3600000)
                      (exMidnight + 13 * 3600000)
                      ltac:(vm_compute; split; discriminate)
                      ltac:(vm_compute; split; discriminate)
                      ltac:(vm_compute; reflexivity)
                      ltac:(vm_compute; reflexivity))
               exBreak);
        [now left | reflexivity | vm_compute; tauto | vm_compute; reflexivity
         | vm_compute; reflexivity].
Defined.

(** C7, the claim as stated fails, twice over.  An appointment of the
    provider that starts in the last millisecond of the day is not found by
    the day's query, and the slot from 23:30 to midnight is returned over
    it.  And an appointment from 10:00 to 10:30 UTC, stored in the notation
    of a zone five hours behind, is found, but its texts compare as 05:00
    to 05:30: the slot from 10:00 to 10:30 UTC is returned over it. *)
Lemma findOpenSlots_over_an_appointment :
  let late :=
    mkAppointment "appt-2" "pat-1" exProvider "emergency"
      "2025-01-06T23:59:59.999Z" "2025-01-07T00:30:00.000Z" scheduled
      "2025-01-02T08:00:00.000Z" in
  let evening :=
    mkFindOpenSlotsInput exProvider exDate 30 (Some 30) (Some 23) (Some 24) in
  let last := mkSlot "2025-01-06T23:30:00.000Z" "2025-01-07T00:00:00.000Z" in
  let abroad :=
    mkAppointment "appt-3" "pat-1" exProvider "cleaning"
      "2025-01-06T05:00:00.000-05:00" "2025-01-06T05:30:00.000-05:00"
      scheduled "2025-01-02T08:00:00.000Z" in
  let morning :=
    mkFindOpenSlotsInput exProvider exDate 30 (Some 30) (Some 10) (Some 11) in
  let ten := mkSlot "2025-01-06T10:00:00.000Z" "2025-01-06T10:30:00.000Z" in
  (findOpenSlots (V := unit) codeUnitCompare plainEngine evening
     (withAppointments [late]) emptyRepo
   = Ok [ mkSlot "2025-01-06T23:00:00.000Z" "2025-01-06T23:30:00.000Z"; last ]
   /\ appt_provider late = fs_provider evening
   /\ overlap (startAt last) (endAt last) (appt_startAt late)
        (appt_endAt late) = true
   /\ JsDate.parse plainEngine (appt_startAt late)
      = Some (exMidnight + 86399999)
   /\ JsDate.parse plainEngine (endAt last) = Some (exMidnight + 86400000)
   /\ dayAppointments codeUnitCompare (withAppointments [late])
        (fs_provider evening) (fs_date evening) = [])
  /\ (findOpenSlots (V := unit) codeUnitCompare plainEngine morning
        (withAppointments [abroad]) emptyRepo
      = Ok [ ten;
             mkSlot "2025-01-06T10:30:00.000Z" "2025-01-06T11:00:00.000Z" ]
      /\ appt_provider abroad = fs_provider morning
      /\ dayAppointments codeUnitCompare (withAppointments [abroad])
           (fs_provider morning) (fs_date morning) = [abroad]
      /\ JsDate.parse plainEngine (appt_startAt abroad)
         = JsDate.parse plainEngine (startAt ten)
      /\ JsDate.parse plainEngine (appt_endAt abroad)
         = JsDate.parse plainEngine (endAt ten)
      /\ JsDate.parse plainEngine (startAt ten)
         = Some (exMidnight + 10 * 3600000)).
Proof. cbv zeta. repeat split; vm_compute; reflexivity. Qed.

(** ** Account ledger *)

Section LedgerProperties.

Variable localeCompare : string -> string -> Z.

Lemma agingAt_agingAdd (a : Aging) (b b' : AgingBucket) (x : float) :
  agingAt (agingAdd a b x) b'
  = if bool_decide (b = b') then (agingAt a b' + x)%float else agingAt a b'.
Proof. destruct b, b'; reflexivity. Qed.

Lemma ledger_kinds (e : LedgerEntryRecord) :
  (isChargeLike e, isCredit e, isClaim e)
  = match led_type e with
    | charge | adjustment => (true, false, false)
    | payment | insurance_payment => (false, true, false)
    | claim => (false, false, true)
    end.
Proof.
  unfold isChargeLike, isCredit, isClaim. destruct (led_type e); reflexivity.
Qed.

Lemma listLedgerEntriesByPatient_In (repo : MemoryClinicOpsRepository)
  (patient : string) (e : LedgerEntryRecord) :
  In e (listLedgerEntriesByPatient localeCompare repo patient)
  <-> In e (JsMap.values (ledgerEntries repo)) /\ led_patientId e = patient.
Proof.
  unfold listLedgerEntriesByPatient.
  now rewrite sortBy_In, filter_In, String.eqb_eq.
Qed.

Variable engine : string -> option Z.

Lemma ledger_fold (clock : nat -> Z) (entries : list LedgerEntryRecord) :
  forall s : LedgerSums,
    let s' := fold_left (ledgerStep engine clock) entries s in
    (forall b,
       agingAt (sum_aging s') b
       = addAmounts (agingAt (sum_aging s) b)
           (placedIn b (bucketsFrom engine clock (sum_reads s) entries)))
    /\ sum_charges s' = addAmounts (sum_charges s) (filter isChargeLike entries)
    /\ sum_credits s' = addAmounts (sum_credits s) (filter isCredit entries)
    /\ sum_pending s' = addAmounts (sum_pending s) (filter isClaim entries).
Proof.
  induction entries as [| e r IH]; intros s; cbn [fold_left].
  - repeat split; reflexivity.
  - specialize (IH (ledgerStep engine clock s e)). cbn zeta in IH.
    destruct IH as [Hag [Hch [Hcr Hpe]]].
    cbn zeta. rewrite Hch, Hcr, Hpe.
    pose proof (ledger_kinds e) as Hk.
    cbn [filter bucketsFrom]. unfold ledgerStep in *.
    destruct (led_type e); injection Hk as -> -> ->;
      cbn [sum_aging sum_charges sum_credits sum_pending sum_reads] in *;
      (split; [| repeat split; reflexivity]);
      intros b; rewrite Hag; try reflexivity;
      rewrite agingAt_agingAdd; unfold placedIn; cbn [filter snd];
      destruct (bool_decide _); reflexivity.
Qed.

Lemma bucketsFrom_entries (clock : nat -> Z) (entries : list LedgerEntryRecord) :
  forall k,
    map fst (bucketsFrom engine clock k entries) = filter isChargeLike entries.
Proof.
  induction entries as [| e r IH]; intros k; cbn; [reflexivity |].
  destruct (isChargeLike e); cbn; now rewrite IH.
Qed.

Lemma bucketByAge_boundaries (now time : Z) (entryDate : string) :
  JsDate.parse engine entryDate = Some time ->
  (bucketByAge engine now entryDate = age_0_30 <-> ageDays now time <= 30)
  /\ (bucketByAge engine now entryDate = age_31_60
      <-> 31 <= ageDays now time <= 60)
  /\ (bucketByAge engine now entryDate = age_61_90
      <-> 61 <= ageDays now time <= 90)
  /\ (bucketByAge engine now entryDate = age_over_90
      <-> 91 <= ageDays now time).
Proof.
  intros Hp. unfold bucketByAge. rewrite Hp.
  destruct (ageDays now time <=? 30) eqn:H30;
    [apply Z.leb_le in H30 | apply Z.leb_gt in H30].
  { repeat split; intros; try discriminate; try lia. }
  destruct (ageDays now time <=? 60) eqn:H60;
    [apply Z.leb_le in H60 | apply Z.leb_gt in H60].
  { repeat split; intros; try discriminate; try lia. }
  destruct (ageDays now time <=? 90) eqn:H90;
    [apply Z.leb_le in H90 | apply Z.leb_gt in H90].
  { repeat split; intros; try discriminate; try lia. }
  repeat split; intros; try discriminate; try lia.
Qed.

(** C8.  In the snapshot of a patient's ledger, every charge and every
    adjustment is counted in exactly one ageing bucket, the one
    [bucketByAge] gives it: for an entry date that [new Date] reads,
    [0-30] up to 30 whole days between the entry date and the instant of
    the call, [31-60] up to 60, [61-90] up to 90, [over-90] beyond, and
    [over-90] also for an entry date that it does not read; the total of a
    bucket is the sum of the amounts placed in it.  [charges] sums the
    charges and adjustments, [credits] the payments and insurance
    payments, [pendingInsurance] the claims, and [estimatedBalance] is
    charges less credits less pending insurance; all figures are rounded
    to two decimals.  A single charge of 100 dated 45 days back lands in
    [31-60]; with charges 100, credits 40 and no pending insurance the
    balance is 60; charges of 100.125 are shown as 100.13, and less
    credits of 40 they leave a balance of 60.13. *)
Theorem getAccountSnapshot_buckets_and_balance :
  forall (clock : nat -> Z) (patient : string)
         (repo : MemoryClinicOpsRepository),
    let snap := getAccountSnapshot localeCompare engine clock patient repo in
    let entries := snap_entries snap in
    let placed := bucketsFrom engine clock 0 entries in
    let rawCharges := addAmounts 0 (filter isChargeLike entries) in
    let rawCredits := addAmounts 0 (filter isCredit entries) in
    let rawPending := addAmounts 0 (filter isClaim entries) in
    (forall e, In e entries
               <-> In e (JsMap.values (ledgerEntries repo))
                   /\ led_patientId e = patient)
    /\ map fst placed = filter isChargeLike entries
    /\ (forall b,
          agingAt (snap_aging snap) b
          = JsNumber.toFixed2 (addAmounts 0 (placedIn b placed)))
    /\ (forall now time entryDate,
          JsDate.parse engine entryDate = Some time ->
          ageDays now time = (now - time) / 86400000
          /\ (bucketByAge engine now entryDate = age_0_30
              <-> ageDays now time <= 30)
          /\ (bucketByAge engine now entryDate = age_31_60
              <-> 31 <= ageDays now time <= 60)
          /\ (bucketByAge engine now entryDate = age_61_90
              <-> 61 <= ageDays now time <= 90)
          /\ (bucketByAge engine now entryDate = age_over_90
              <-> 91 <= ageDays now time))
    /\ (forall now entryDate,
          JsDate.parse engine entryDate = None ->
          bucketByAge engine now entryDate = age_over_90)
    /\ charges (snap_totals snap) = JsNumber.toFixed2 rawCharges
    /\ credits (snap_totals snap) = JsNumber.toFixed2 rawCredits
    /\ pendingInsurance (snap_totals snap) = JsNumber.toFixed2 rawPending
    /\ estimatedBalance (snap_totals snap)
       = JsNumber.toFixed2 (rawCharges - rawCredits - rawPending)%float
    /\ (rawCharges = 100%float -> rawCredits = 40%float
        -> rawPending = 0%float
        -> estimatedBalance (snap_totals snap) = 60%float)
    /\ (rawCharges = (100 + 1 / 8)%float -> rawCredits = 40%float
        -> rawPending = 0%float
        -> charges (snap_totals snap) = (10013 / 100)%float
           /\ estimatedBalance (snap_totals snap) = (6013 / 100)%float)
    /\ (forall e time,
          entries = [e] -> led_type e = charge -> amount e = 100%float ->
          JsDate.parse engine (entryDate e) = Some time ->
          clock O - time = 45 * 86400000 ->
          placed = [(e, age_31_60)]
          /\ snap_aging snap = mkAging 0 100 0 0).
Proof.
  intros clock patient repo. cbv zeta.
  unfold getAccountSnapshot.
  set (entries := listLedgerEntriesByPatient localeCompare repo patient).
  unfold snapshotOf.
  cbn [snap_entries snap_aging snap_totals charges credits pendingInsurance
       estimatedBalance].
  destruct (ledger_fold clock entries (mkSums (mkAging 0 0 0 0) 0 0 0 O))
    as [Hag [Hch [Hcr Hpe]]].
  cbn [sum_aging sum_charges sum_credits sum_pending sum_reads] in *.
  fold (ledgerSums engine clock entries) in Hag, Hch, Hcr, Hpe.
  rewrite Hch, Hcr, Hpe.
  split; [| split; [| split; [| split; [| split; [| split; [| split;
    [| split; [| split; [| split; [| split]]]]]]]]]]; try reflexivity.
  - intros e. apply listLedgerEntriesByPatient_In.
  - apply bucketsFrom_entries.
  - intros b. specialize (Hag b).
    destruct b; cbn [agingAt] in *; now rewrite Hag.
  - intros now time entryDate Hp. split; [reflexivity |].
    now apply bucketByAge_boundaries.
  - intros now entryDate Hp. unfold bucketByAge. now rewrite Hp.
  - intros H1 H2 H3. rewrite H1, H2, H3. vm_compute. reflexivity.
  - intros H1 H2 H3. rewrite H1, H2, H3. split; vm_compute; reflexivity.
  - intros e time He Htype Hamount Hp Hage.
    assert (Hb : bucketByAge engine (clock O) (entryDate e) = age_31_60).
    { apply (bucketByAge_boundaries (clock O) time _ Hp).
      unfold ageDays, JsDate.msPerDay. rewrite Hage.
      rewrite Z.div_mul by lia. lia. }
    assert (Hplaced : bucketsFrom engine clock 0 entries = [(e, age_31_60)]).
    { rewrite He. cbn [bucketsFrom]. unfold isChargeLike.
      rewrite Htype. cbn. now rewrite Hb. }
    split; [exact Hplaced |].
    pose proof (Hag age_0_30) as H0. pose proof (Hag age_31_60) as H1.
    pose proof (Hag age_61_90) as H2. pose proof (Hag age_over_90) as H3.
    rewrite Hplaced in H0, H1, H2, H3.
    cbn [agingAt] in H0, H1, H2, H3.
    rewrite H0, H1, H2, H3.
    change (placedIn age_0_30 [(e, age_31_60)]) with (@nil LedgerEntryRecord).
    change (placedIn age_31_60 [(e, age_31_60)]) with [e].
    change (placedIn age_61_90 [(e, age_31_60)]) with (@nil LedgerEntryRecord).
    change (placedIn age_over_90 [(e, age_31_60)])
      with (@nil LedgerEntryRecord).
    unfold addAmounts. cbn [fold_left]. rewrite Hamount.
    vm_compute. reflexivity.
Qed.

End LedgerProperties.

(** C8 at work: a charge of 100.125 dated 2025-01-06, the date alone, seen
    45 days and nine hours later, and a payment of 40.  The charge is 45
    whole days old and lands in [31-60]; the figures are rounded to two
    decimals. *)
Lemma getAccountSnapshot_buckets_and_balance_witness :
  let repo :=
    withLedger
      [ exLedgerEntry "led-1" charge (100 + 1 / 8) "2025-01-06";
        exLedgerEntry "led-2" payment 40 "2025-01-20T09:00:00.000Z" ] in
  let snap :=
    getAccountSnapshot codeUnitCompare plainEngine
      (fun _ => exMidnight + 9 * 3600000 + 45 * 86400000) "pat-1" repo in
  bucketByAge plainEngine (exMidnight + 9 * 3600000 + 45 * 86400000)
    "2025-01-06" = age_31_60
  /\ snap_aging snap = mkAging 0 (10013 / 100) 0 0
  /\ snap_totals snap = mkAccountTotals (10013 / 100) 40 0 (6013 / 100).
Proof.
  cbv zeta.
  destruct (getAccountSnapshot_buckets_and_balance codeUnitCompare
              plainEngine
              (fun _ => exMidnight + 9 * 3600000 + 45 * 86400000) "pat-1"
              (withLedger
                 [ exLedgerEntry "led-1" charge (100 + 1 / 8) "2025-01-06";
                   exLedgerEntry "led-2" payment 40
                     "2025-01-20T09:00:00.000Z" ]))
    as [_ [_ [Hag [Hage [_ [Hch [Hcr [Hpe [Hbal _]]]]]]]]].
  split.
  - apply (Hage (exMidnight + 9 * 3600000 + 45 * 86400000) exMidnight
             "2025-01-06" ltac:(vm_compute; reflexivity)).
    vm_compute. split; discriminate.
  - split.
    + pose proof (Hag age_0_30) as H0. pose proof (Hag age_31_60) as H1.
      pose proof (Hag age_61_90) as H2. pose proof (Hag age_over_90) as H3.
      cbn [agingAt] in H0, H1, H2, H3.
      destruct (snap_aging _) as [a0 a1 a2 a3].
      cbn [aging_0_30 aging_31_60 aging_61_90 aging_over_90] in *.
      rewrite H0, H1, H2, H3. vm_compute. reflexivity.
    + destruct (snap_totals _) as [ch cr pe bal].
      cbn [charges credits pendingInsurance estimatedBalance] in *.
      rewrite Hch, Hcr, Hpe, Hbal. vm_compute. reflexivity.
Defined.

(** ** Maps keyed by id *)

Section MapProperties.

Context {A : Type}.

Lemma get_set_eq (k : string) (v : A) (m : JsMap.t A) :
  JsMap.get k (JsMap.set k v m) = Some v.
Proof.
  induction m as [| [k' v'] m IH]; cbn.
  - now rewrite String.eqb_refl.
  - destruct (String.eqb k' k) eqn:E; cbn.
    + now rewrite String.eqb_refl.
    + now rewrite E.
Qed.

Lemma get_set_ne (k k' : string) (v : A) (m : JsMap.t A) :
  k <> k' -> JsMap.get k (JsMap.set k' v m) = JsMap.get k m.
Proof.
  intros Hne. induction m as [| [k0 v0] m IH]; cbn.
  - destruct (String.eqb k' k) eqn:E; [| reflexivity].
    apply String.eqb_eq in E. congruence.
  - destruct (String.eqb k0 k') eqn:E; cbn.
    + apply String.eqb_eq in E. subst k0.
      destruct (String.eqb k' k) eqn:E'; [| reflexivity].
      apply String.eqb_eq in E'. congruence.
    + now rewrite IH.
Qed.

Lemma keys_set (k : string) (v : A) (m : JsMap.t A) :
  JsMap.keys (JsMap.set k v m)
  = if existsb (String.eqb k) (JsMap.keys m) then JsMap.keys m
    else (JsMap.keys m ++ [k])%list.
Proof.
  induction m as [| [k' v'] m IH]; cbn; [reflexivity |].
  rewrite (String.eqb_sym k k').
  destruct (String.eqb k' k) eqn:E; cbn.
  - apply String.eqb_eq in E. now subst.
  - unfold JsMap.keys in IH. rewrite IH.
    now destruct (existsb (String.eqb k) (map fst m)).
Qed.



Lemma insertSorted_Permutation (cmp : A -> A -> comparison) (x : A)
  (l : list A) : Permutation (insertSorted cmp x l) (x :: l).
Proof.
  induction l as [| y l IH]; cbn; [reflexivity |].
  destruct (cmp x y); try reflexivity.
  rewrite IH. apply perm_swap.
Qed.

(** Sorting permutes. *)
Lemma sortBy_Permutation (cmp : A -> A -> comparison) (l : list A) :
  Permutation (sortBy cmp l) l.
Proof.
  induction l as [| x l IH]; cbn; [reflexivity |].
  rewrite insertSorted_Permutation. now constructor.
Qed.

End MapProperties.

(** ** Benefit estimation *)

Section EstimationProperties.





Lemma estimateItems_ids (p s : option InsurancePlanRecord)
  (clock : nat -> string) (l : list TreatmentPlanItemRecord) :
  forall k, map item_id (estimateItems p s clock k l) = map item_id l.
Proof.
  induction l as [| x l IH]; intros k; cbn; [reflexivity |].
  now rewrite IH.
Qed.


Lemma fold_save_other (items : list TreatmentPlanItemRecord) :
  forall (repo : MemoryClinicOpsRepository) (id : string),
    ~ In id (map item_id items) ->
    JsMap.get id (treatmentPlanItems (fold_left saveTreatmentPlanItem items repo))
    = JsMap.get id (treatmentPlanItems repo).
Proof.
  induction items as [| x items IH]; intros repo id Hnotin; cbn;
    [reflexivity |].
  cbn in Hnotin. rewrite IH by tauto.
  cbn [saveTreatmentPlanItem treatmentPlanItems].
  apply get_set_ne. intros ->. tauto.
Qed.


Lemma fold_save_keeps (items : list TreatmentPlanItemRecord) :
  forall repo : MemoryClinicOpsRepository,
    let repo' := fold_left saveTreatmentPlanItem items repo in
    families repo' = families repo
    /\ insurancePlans repo' = insurancePlans repo
    /\ treatmentPlans repo' = treatmentPlans repo
    /\ ledgerEntries repo' = ledgerEntries repo
    /\ scheduleBlocks repo' = scheduleBlocks repo.
Proof.
  induction items as [| x items IH]; intros repo; cbn; [tauto |].
  destruct (IH (saveTreatmentPlanItem repo x)) as [H1 [H2 [H3 [H4 H5]]]].
  cbn zeta in *. rewrite H1, H2, H3, H4, H5. repeat split; reflexivity.
Qed.


End EstimationProperties.

Section EstimationTheorem.

Context {V : Type}.
Variable localeCompare : string -> string -> Z.

Lemma listTreatmentPlanItemsByPlan_In (repo : MemoryClinicOpsRepository)
  (plan : string) (item : TreatmentPlanItemRecord) :
  In item (listTreatmentPlanItemsByPlan repo plan)
  <-> In item (JsMap.values (treatmentPlanItems repo)) /\ planId item = plan.
Proof.
  unfold listTreatmentPlanItemsByPlan.
  now rewrite sortBy_In, filter_In, String.eqb_eq.
Qed.


End EstimationTheorem.



(** ** Family linker *)

Section FamilyProperties.

Context {V : Type}.

Lemma upsertFamily_unfold (now uuid : string) (input : UpsertFamilyInput)
  (store : MemoryDentalStore) (repo : MemoryClinicOpsRepository) :
  getPatient store (uf_guarantorPatientId input) <> None ->
  getPatient store (uf_memberPatientId input) <> None ->
  upsertFamily (V := V) now uuid input store repo
  = let family :=
      linkMember now input
        (default (freshFamily now uuid input) (locateFamily input repo)) in
    (Ok family, saveFamily repo family).
Proof.
  intros Hg Hm. unfold upsertFamily, locateFamily, freshFamily, linkMember.
  destruct (getPatient store (uf_guarantorPatientId input)); [| congruence].
  destruct (getPatient store (uf_memberPatientId input)); [| congruence].
  destruct (match givenFamilyId input with
            | Some f => findFamilyById repo f
            | None => None
            end) as [f |];
    [| destruct (findFamilyByGuarantor repo (uf_guarantorPatientId input))];
    cbn [from_option id];
    match goal with
    | |- context [find ?p ?l] => destruct (find p l)
    end; reflexivity.
Qed.

Lemma relabelFirst_ids (member relation : string) (l : list FamilyMember) :
  map patientId (relabelFirst member relation l) = map patientId l.
Proof.
  induction l as [| x l IH]; cbn; [reflexivity |].
  destruct (String.eqb (patientId x) member); cbn; [reflexivity |].
  now rewrite IH.
Qed.

Lemma relabelFirst_idem (member relation : string) (l : list FamilyMember) :
  relabelFirst member relation (relabelFirst member relation l)
  = relabelFirst member relation l.
Proof.
  induction l as [| x l IH]; cbn; [reflexivity |].
  destruct (String.eqb (patientId x) member) eqn:E; cbn; rewrite E;
    [reflexivity | now rewrite IH].
Qed.

Lemma find_member_None (member : string) (l : list FamilyMember) :
  find (fun m => String.eqb (patientId m) member) l = None
  <-> ~ In member (map patientId l).
Proof.
  induction l as [| x l IH]; cbn; [tauto |].
  destruct (String.eqb (patientId x) member) eqn:E.
  - apply String.eqb_eq in E. split; [discriminate | tauto].
  - apply String.eqb_neq in E. rewrite IH. tauto.
Qed.

Lemma find_member_ids (member : string) (l l' : list FamilyMember) :
  map patientId l = map patientId l' ->
  find (fun m => String.eqb (patientId m) member) l = None ->
  find (fun m => String.eqb (patientId m) member) l' = None.
Proof. rewrite !find_member_None. now intros ->. Qed.

Lemma relabelFirst_append (member relation : string) (l : list FamilyMember)
  (g : bool) :
  find (fun m => String.eqb (patientId m) member) l = None ->
  relabelFirst member relation (l ++ [mkFamilyMember member relation g])
  = (l ++ [mkFamilyMember member relation g])%list.
Proof.
  induction l as [| x l IH]; cbn.
  - now rewrite String.eqb_refl.
  - destruct (String.eqb (patientId x) member); [discriminate |].
    intros H. now rewrite IH.
Qed.

(** Linking the same member again changes no member entry. *)
Lemma linkMember_again (now now' : string) (input : UpsertFamilyInput)
  (family : FamilyRecord) :
  members (linkMember now' input (linkMember now input family))
  = members (linkMember now input family).
Proof.
  unfold linkMember. cbn [members].
  set (M := uf_memberPatientId input).
  set (R := uf_relationToGuarantor input).
  destruct (find (fun m => String.eqb (patientId m) M) (members family))
    as [m |] eqn:Hfind.
  - destruct (find (fun m => String.eqb (patientId m) M)
                (relabelFirst M R (members family))) eqn:Hfind'.
    + apply relabelFirst_idem.
    + apply (find_member_ids M _ (members family)) in Hfind';
        [congruence | apply relabelFirst_ids].
  - destruct (find (fun m => String.eqb (patientId m) M)
                (members family ++ [mkFamilyMember M R false])) eqn:Hfind'.
    + now apply relabelFirst_append.
    + apply find_member_None in Hfind'. exfalso. apply Hfind'.
      rewrite map_app, in_app_iff. right. now left.
Qed.

Lemma linkMember_ids_NoDup (now : string) (input : UpsertFamilyInput)
  (family : FamilyRecord) :
  List.NoDup (map patientId (members family)) ->
  List.NoDup (map patientId (members (linkMember now input family))).
Proof.
  intros Hnodup. unfold linkMember. cbn [members].
  destruct (find _ (members family)) eqn:Hfind.
  - now rewrite relabelFirst_ids.
  - apply find_member_None in Hfind. rewrite map_app. cbn.
    apply Permutation_NoDup with (l := uf_memberPatientId input
                                        :: map patientId (members family)).
    + apply Permutation_cons_append.
    + now constructor.
Qed.

Lemma linkMember_has_member (now : string) (input : UpsertFamilyInput)
  (family : FamilyRecord) :
  In (uf_memberPatientId input)
    (map patientId (members (linkMember now input family))).
Proof.
  unfold linkMember. cbn [members].
  destruct (find _ (members family)) eqn:Hfind.
  - rewrite relabelFirst_ids.
    destruct (in_dec string_dec (uf_memberPatientId input)
                (map patientId (members family))) as [Hin | Hnot];
      [exact Hin |].
    apply find_member_None in Hnot. congruence.
  - rewrite map_app, in_app_iff. right. now left.
Qed.

Lemma countMember_one (patient : string) (l : list FamilyMember) :
  List.NoDup (map patientId l) -> In patient (map patientId l) ->
  countMember patient l = 1%nat.
Proof.
  intros Hnodup Hin. unfold countMember.
  pose proof (proj1 (NoDup_count_occ string_dec _) Hnodup patient) as Hle.
  pose proof (proj1 (count_occ_In string_dec _ patient) Hin) as Hgt.
  lia.
Qed.

Lemma relabelFirst_relation (member relation : string) (l : list FamilyMember) :
  List.NoDup (map patientId l) ->
  forall m, In m (relabelFirst member relation l) -> patientId m = member ->
            relationToGuarantor m = relation.
Proof.
  induction l as [| x l IH]; cbn; intros Hnodup m Hin Hid; [destruct Hin |].
  inversion Hnodup as [| ? ? Hnotin Hrest]; subst.
  destruct (String.eqb (patientId x) (patientId m)) eqn:E.
  - apply String.eqb_eq in E. destruct Hin as [<- | Hin]; [reflexivity |].
    exfalso. apply Hnotin. rewrite E. now apply in_map.
  - apply String.eqb_neq in E. destruct Hin as [<- | Hin]; [congruence |].
    now apply IH.
Qed.

Lemma linkMember_relation (now : string) (input : UpsertFamilyInput)
  (family : FamilyRecord) :
  List.NoDup (map patientId (members family)) ->
  forall m, In m (members (linkMember now input family)) ->
            patientId m = uf_memberPatientId input ->
            relationToGuarantor m = uf_relationToGuarantor input.
Proof.
  intros Hnodup m. unfold linkMember. cbn [members].
  destruct (find _ (members family)) eqn:Hfind.
  - now apply relabelFirst_relation.
  - intros Hin Hid. apply in_app_iff in Hin. destruct Hin as [Hin | [<- | []]];
      [| reflexivity].
    apply find_member_None in Hfind. exfalso. apply Hfind.
    rewrite <- Hid. now apply in_map.
Qed.

End FamilyProperties.

Section FamilyLocation.

Context {A : Type}.

Lemma get_In (k : string) (v : A) (m : JsMap.t A) :
  JsMap.get k m = Some v -> In (k, v) m.
Proof.
  induction m as [| [k' v'] m IH]; cbn; [discriminate |].
  destruct (String.eqb k' k) eqn:E.
  - apply String.eqb_eq in E. intros [= ->]. left. now subst.
  - intros H. right. now apply IH.
Qed.

Lemma In_get_Some (m : JsMap.t A) (k : string) (v : A) :
  In (k, v) m -> JsMap.get k m <> None.
Proof.
  induction m as [| [k' v'] m IH]; cbn; [tauto |].
  intros [[= -> ->] | Hin].
  - now rewrite String.eqb_refl.
  - destruct (String.eqb k' k); [discriminate | now apply IH].
Qed.

(** Saving a record that [find] accepts, when it accepted none, makes it
    the record [find] returns. *)
Lemma find_set_fresh (p : A -> bool) (m : JsMap.t A) (k : string) (v' : A) :
  find p (JsMap.values m) = None -> p v' = true ->
  find p (JsMap.values (JsMap.set k v' m)) = Some v'.
Proof.
  intros Hfind Hp. induction m as [| [k0 v0] m IH]; cbn in *.
  - now rewrite Hp.
  - destruct (p v0) eqn:Hp0; [discriminate |].
    destruct (String.eqb k0 k); cbn.
    + now rewrite Hp.
    + rewrite Hp0. now apply IH.
Qed.

Lemma Forall_set (P : string * A -> Prop) (m : JsMap.t A) (k : string)
  (v : A) :
  Forall P m -> P (k, v) -> Forall P (JsMap.set k v m).
Proof.
  intros Hall Hv. induction Hall as [| [k0 v0] m Hhead Htail IH]; cbn.
  - now constructor.
  - destruct (String.eqb k0 k); now constructor.
Qed.

Variable id : A -> string.

Lemma keyedBy_In (m : JsMap.t A) (k : string) (v : A) :
  keyedBy id m -> In (k, v) m -> id v = k.
Proof.
  intros [_ Hall] Hin. rewrite Forall_forall in Hall.
  exact (Hall (k, v) Hin).
Qed.

Lemma keyedBy_get (m : JsMap.t A) (k : string) (v : A) :
  keyedBy id m -> JsMap.get k m = Some v -> id v = k.
Proof. intros Hk Hget. eapply keyedBy_In; [exact Hk | now apply get_In]. Qed.

Lemma keyedBy_tail (kv : string * A) (m : JsMap.t A) :
  keyedBy id (kv :: m) -> keyedBy id m.
Proof.
  intros [Hnodup Hall]. split.
  - now inversion Hnodup.
  - now inversion Hall.
Qed.

(** Saving a record in place of the first one that [find] returns makes
    [find] return the saved record. *)
Lemma find_set_found (p : A -> bool) (m : JsMap.t A) (v v' : A) :
  keyedBy id m ->
  find p (JsMap.values m) = Some v -> p v' = true ->
  find p (JsMap.values (JsMap.set (id v) v' m)) = Some v'.
Proof.
  intros Hkeyed Hfind Hp. induction m as [| [k0 v0] m IH]; cbn in *;
    [discriminate |].
  destruct (p v0) eqn:Hp0.
  - injection Hfind as ->.
    rewrite (keyedBy_In _ k0 v Hkeyed) by now left.
    rewrite String.eqb_refl. cbn. now rewrite Hp.
  - assert (Hin : In v (JsMap.values m)) by (eapply find_some; eassumption).
    apply in_map_iff in Hin. destruct Hin as [[k1 v1] [Hv Hin]].
    cbn in Hv. subst v1.
    assert (Hk1 : id v = k1)
      by (eapply keyedBy_In; [eapply keyedBy_tail; exact Hkeyed | exact Hin]).
    destruct (String.eqb k0 (id v)) eqn:E.
    + apply String.eqb_eq in E. destruct Hkeyed as [Hnodup _].
      inversion Hnodup as [| ? ? Hnotin _]. exfalso. apply Hnotin.
      apply in_map_iff. exists (k1, v). split; [cbn; congruence | exact Hin].
    + cbn. rewrite Hp0. apply IH; [eapply keyedBy_tail; exact Hkeyed |].
      exact Hfind.
Qed.

Lemma keyedBy_set (m : JsMap.t A) (v : A) :
  keyedBy id m -> keyedBy id (JsMap.set (id v) v m).
Proof.
  intros Hkeyed. induction m as [| [k0 v0] m IH]; cbn.
  - split; [repeat constructor; cbn; tauto | repeat constructor].
  - pose proof (keyedBy_tail _ _ Hkeyed) as Htail.
    destruct Hkeyed as [Hnodup Hall].
    inversion Hnodup as [| ? ? Hnotin Hrest]; subst.
    inversion Hall as [| ? ? Hhead Hall']; subst.
    destruct (String.eqb k0 (id v)) eqn:E.
    + apply String.eqb_eq in E. subst k0. split.
      * exact Hnodup.
      * constructor; [reflexivity | exact Hall'].
    + apply String.eqb_neq in E. destruct (IH Htail) as [Hnodup' Hall''].
      split.
      * pose proof (keys_set (id v) v m) as Hks.
        unfold JsMap.keys in *. cbn [map fst].
        constructor; [| exact Hnodup'].
        rewrite Hks.
        destruct (existsb (String.eqb (id v)) (map fst m));
          [exact Hnotin |].
        rewrite in_app_iff. cbn. intros [Hin | [Heq | []]];
          [now apply Hnotin | congruence].
      * constructor; [exact Hhead | exact Hall''].
Qed.

End FamilyLocation.

Section FamilyTheorem.

Context {V : Type}.

Lemma locateFamily_In (input : UpsertFamilyInput)
  (repo : MemoryClinicOpsRepository) (f : FamilyRecord) :
  locateFamily input repo = Some f -> exists k, In (k, f) (families repo).
Proof.
  unfold locateFamily, findFamilyById, findFamilyByGuarantor.
  destruct (givenFamilyId input) as [fid |].
  - destruct (JsMap.get fid (families repo)) as [f' |] eqn:Hget.
    + intros [= ->]. exists fid. now apply get_In.
    + intros Hfind. apply find_some in Hfind. destruct Hfind as [Hin _].
      apply in_map_iff in Hin. destruct Hin as [[k f'] [Hf Hin]].
      cbn in Hf. subst f'. now exists k.
  - intros Hfind. apply find_some in Hfind. destruct Hfind as [Hin _].
    apply in_map_iff in Hin. destruct Hin as [[k f'] [Hf Hin]].
    cbn in Hf. subst f'. now exists k.
Qed.

Lemma working_family_NoDup (now uuid : string) (input : UpsertFamilyInput)
  (repo : MemoryClinicOpsRepository) :
  familiesWf repo ->
  List.NoDup
    (map patientId
       (members (default (freshFamily now uuid input)
                   (locateFamily input repo)))).
Proof.
  intros [_ Hall]. destruct (locateFamily input repo) as [f |] eqn:Hloc;
    cbn [from_option id].
  - destruct (locateFamily_In _ _ _ Hloc) as [k Hin].
    rewrite Forall_forall in Hall. exact (Hall (k, f) Hin).
  - cbn. repeat constructor. cbn. tauto.
Qed.

(** After the call, the family it worked on is the one a second call with
    the same input finds. *)
Lemma locateFamily_after_save (now uuid : string) (input : UpsertFamilyInput)
  (repo : MemoryClinicOpsRepository) :
  familiesWf repo ->
  let f1 :=
    linkMember now input
      (default (freshFamily now uuid input) (locateFamily input repo)) in
  locateFamily input (saveFamily repo f1) = Some f1.
Proof.
  intros [Hkeyed _] f1.
  assert (Hself : String.eqb (uf_guarantorPatientId input)
                    (uf_guarantorPatientId input) = true)
    by apply String.eqb_refl.
  unfold locateFamily in *. unfold findFamilyById, findFamilyByGuarantor in *.
  cbn [saveFamily families].
  destruct (givenFamilyId input) as [fid |] eqn:Hgiven.
  - destruct (JsMap.get fid (families repo)) as [f |] eqn:Hget.
    + cbn [from_option id] in f1.
      assert (Hid : fam_id f1 = fid)
        by (subst f1; cbn; eapply keyedBy_get; eassumption).
      rewrite Hid. now rewrite get_set_eq.
    + destruct (find _ (JsMap.values (families repo))) as [f |] eqn:Hfind.
      * cbn [from_option id] in f1.
        assert (Hin : In f (JsMap.values (families repo)))
          by (eapply find_some; eassumption).
        apply in_map_iff in Hin. destruct Hin as [[k f'] [Hf Hin]].
        cbn in Hf. subst f'.
        assert (Hk : fam_id f = k) by (eapply keyedBy_In; eassumption).
        assert (Hne : fid <> fam_id f1).
        { subst f1. cbn. intros ->. apply In_get_Some in Hin. congruence. }
        rewrite get_set_ne by exact Hne.
        rewrite Hget.
        change (fam_id f1) with (fam_id f).
        apply (find_set_found fam_id); [exact Hkeyed | exact Hfind |].
        apply find_some in Hfind. exact (proj2 Hfind).
      * cbn [from_option id] in f1.
        assert (Hid : fam_id f1 = fid)
          by (subst f1; cbn; now rewrite Hgiven).
        rewrite Hid. now rewrite get_set_eq.
  - destruct (find _ (JsMap.values (families repo))) as [f |] eqn:Hfind.
    + cbn [from_option id] in f1.
      change (fam_id f1) with (fam_id f).
      apply (find_set_found fam_id); [exact Hkeyed | exact Hfind |].
      apply find_some in Hfind. exact (proj2 Hfind).
    + cbn [from_option id] in f1.
      apply find_set_fresh; [exact Hfind | exact Hself].
Qed.

Lemma saveFamily_wf (repo : MemoryClinicOpsRepository) (f : FamilyRecord) :
  familiesWf repo -> List.NoDup (map patientId (members f)) ->
  familiesWf (saveFamily repo f).
Proof.
  intros [Hkeyed Hall] Hf. split; cbn [saveFamily families].
  - now apply keyedBy_set.
  - now apply Forall_set.
Qed.

(** C9.  With both patients on file and a repository that keeps each family
    under its id and lists no patient twice in a family, two calls of
    [upsertFamily] with the same guarantor, member and relation both
    succeed, work on the same family, and the second leaves its members as
    the first left them: one entry for the member, with the relation of the
    call; the family is saved, and the repository keeps its invariant.
    Without the guarantor or without the member on file, the call throws
    and the repository is as it was. *)
Theorem upsertFamily_idempotent_membership :
  forall (now1 uuid1 now2 uuid2 : string) (input : UpsertFamilyInput)
         (store : MemoryDentalStore) (repo : MemoryClinicOpsRepository),
    (familiesWf repo ->
     getPatient store (uf_guarantorPatientId input) <> None ->
     getPatient store (uf_memberPatientId input) <> None ->
     exists f1 repo1 f2 repo2,
       upsertFamily (V := V) now1 uuid1 input store repo = (Ok f1, repo1)
       /\ upsertFamily (V := V) now2 uuid2 input store repo1 = (Ok f2, repo2)
       /\ fam_id f2 = fam_id f1
       /\ members f2 = members f1
       /\ countMember (uf_memberPatientId input) (members f1) = 1%nat
       /\ countMember (uf_memberPatientId input) (members f2) = 1%nat
       /\ (forall m, In m (members f2) ->
                     patientId m = uf_memberPatientId input ->
                     relationToGuarantor m = uf_relationToGuarantor input)
       /\ findFamilyById repo1 (fam_id f1) = Some f1
       /\ findFamilyById repo2 (fam_id f2) = Some f2
       /\ familiesWf repo2)
    /\ (getPatient store (uf_guarantorPatientId input) = None
        \/ getPatient store (uf_memberPatientId input) = None ->
        upsertFamily (V := V) now1 uuid1 input store repo
        = (Throw (ThrownError "Guarantor and member must both exist"), repo)).
Proof.
  intros now1 uuid1 now2 uuid2 input store repo. split.
  - intros Hwf Hg Hm.
    set (f1 := linkMember now1 input
                 (default (freshFamily now1 uuid1 input)
                    (locateFamily input repo))).
    set (repo1 := saveFamily repo f1).
    set (f2 := linkMember now2 input f1).
    set (repo2 := saveFamily repo1 f2).
    assert (Hnodup1 : List.NoDup (map patientId (members f1)))
      by (apply linkMember_ids_NoDup; now apply working_family_NoDup).
    assert (Hwf1 : familiesWf repo1) by now apply saveFamily_wf.
    assert (Hloc : locateFamily input repo1 = Some f1)
      by now apply locateFamily_after_save.
    assert (Hsame : members f2 = members f1) by apply linkMember_again.
    assert (Hone : countMember (uf_memberPatientId input) (members f1) = 1%nat)
      by (apply countMember_one; [exact Hnodup1 | apply linkMember_has_member]).
    exists f1, repo1, f2, repo2.
    split; [now apply upsertFamily_unfold |].
    split.
    { rewrite upsertFamily_unfold by assumption. now rewrite Hloc. }
    split; [reflexivity |].
    split; [exact Hsame |].
    split; [exact Hone |].
    split; [now rewrite Hsame |].
    split.
    { intros m Hin Hid. rewrite Hsame in Hin.
      eapply linkMember_relation; [| exact Hin | exact Hid].
      now apply working_family_NoDup. }
    split; [apply get_set_eq |].
    split; [apply get_set_eq |].
    apply saveFamily_wf; [exact Hwf1 |]. now rewrite Hsame.
  - intros Hnone. unfold upsertFamily.
    destruct (getPatient store (uf_guarantorPatientId input));
      destruct (getPatient store (uf_memberPatientId input));
      try reflexivity.
    destruct Hnone; discriminate.
Qed.

End FamilyTheorem.

(** C9 at work: linking a child to a guarantor twice, starting from no
    family, leaves one family of two members. *)
Lemma upsertFamily_idempotent_membership_witness :
  exists f1 repo1 f2 repo2,
    upsertFamily (V := unit) "2025-01-06T09:00:00.000Z" "fam-1" exLink
      exFamilyStore emptyRepo = (Ok f1, repo1)
    /\ upsertFamily (V := unit) "2025-01-06T09:05:00.000Z" "fam-2" exLink
         exFamilyStore repo1 = (Ok f2, repo2)
    /\ members f2
       = [ mkFamilyMember "pat-1" "self" true;
           mkFamilyMember "pat-2" "child" false ]
    /\ countMember "pat-2" (members f2) = 1%nat
    /\ List.length (families repo2) = 1%nat.
Proof.
  destruct
    (proj1
       (upsertFamily_idempotent_membership (V := unit)
          "2025-01-06T09:00:00.000Z" "fam-1" "2025-01-06T09:05:00.000Z"
          "fam-2" exLink exFamilyStore emptyRepo)
       ltac:(split; [split |]; constructor)
       ltac:(discriminate) ltac:(discriminate))
    as [f1 [repo1 [f2 [repo2 [H1 [H2 [_ [_ [_ [Hcount _]]]]]]]]]].
  exists f1, repo1, f2, repo2.
  split; [exact H1 | split; [exact H2 |]].
  vm_compute in H1. injection H1 as <- <-.
  vm_compute in H2. injection H2 as <- <-.
  repeat split.
Defined.

(** * Further properties *)

(** ** The role table *)

(** X1.  The table of roles is a ladder: what an assistant may do a
    hygienist may do, what a hygienist or a read-only user may do a dentist
    may do, and every role's permissions are among the administrator's.
    Only [admin] and [system] hold [migration:write] or [audit:read], and
    every role holds [patient:read]. *)
Theorem assertAuthorized_role_ladder :
  forall (V : Type) (p : Permission) (a b : Actor),
    (role a = assistant -> role b = hygienist ->
     assertAuthorized (V := V) a p = Ok tt ->
     assertAuthorized (V := V) b p = Ok tt)
    /\ (role a = hygienist \/ role a = readonly -> role b = dentist ->
        assertAuthorized (V := V) a p = Ok tt ->
        assertAuthorized (V := V) b p = Ok tt)
    /\ (role b = admin \/ role b = system ->
        assertAuthorized (V := V) a p = Ok tt ->
        assertAuthorized (V := V) b p = Ok tt)
    /\ (p = migration_write \/ p = audit_read ->
        assertAuthorized (V := V) a p = Ok tt ->
        role a = admin \/ role a = system)
    /\ assertAuthorized (V := V) a patient_read = Ok tt.
Proof.
  intros V p a b. rewrite !assertAuthorized_ok.
  repeat split.
  - intros -> ->. destruct p; vm_compute; congruence.
  - intros [-> | ->] ->; destruct p; vm_compute; congruence.
  - intros [-> | ->] _; destruct p; reflexivity.
  - intros [-> | ->]; destruct (role a); vm_compute; intros H;
      try discriminate H; tauto.
  - destruct (role a); reflexivity.
Qed.

(** ** The audit log *)

Lemma slice_last {A : Type} (n : Z) (l : list A) :
  1 <= n ->
  JsArray.slice (- n) None l
  = skipn (List.length l - Z.to_nat n) l.
Proof.
  intros Hn. unfold JsArray.slice, JsArray.relativeIndex.
  destruct (- n <? 0) eqn:E; [| lia].
  set (len := Z.of_nat (List.length l)).
  replace (Z.to_nat (Z.max (len + - n) 0))
    with (List.length l - Z.to_nat n)%nat by (subst len; lia).
  apply firstn_all2. rewrite length_skipn. subst len. lia.
Qed.

Lemma AuditLog_list_rev (limit : option Z) (events : AuditLog.t) :
  AuditLog_list limit events
  = firstn (Z.to_nat (Z.max 1 (default 100 limit))) (rev events).
Proof.
  unfold AuditLog_list. rewrite slice_last by lia. now rewrite firstn_rev.
Qed.

Lemma In_firstn {A : Type} (n : nat) (l : list A) (x : A) :
  In x (firstn n l) -> In x l.
Proof.
  intros H. rewrite <- (firstn_skipn n l). apply in_or_app. now left.
Qed.

(** X2.  [list] gives the newest events first: it is the start of the log
    read backwards, [max(1, limit)] events long or the whole log if that
    is shorter; a limit below one still gives the newest event, and right
    after [log] the first event listed is the one just logged. *)
Theorem AuditLog_list_newest_first :
  forall (limit : option Z) (events : AuditLog.t),
    let n := Z.to_nat (Z.max 1 (default 100 limit)) in
    AuditLog_list limit events = firstn n (rev events)
    /\ List.length (AuditLog_list limit events)
       = Nat.min n (List.length events)
    /\ (forall event, In event (AuditLog_list limit events) -> In event events)
    /\ (forall uuid now input,
          hd_error
            (AuditLog_list limit (snd (AuditLog.log uuid now input events)))
          = Some (fst (AuditLog.log uuid now input events))).
Proof.
  intros limit events n.
  assert (Hlist : forall evs, AuditLog_list limit evs = firstn n (rev evs))
    by (intros evs; apply AuditLog_list_rev).
  split; [apply Hlist | split; [| split]].
  - rewrite Hlist, length_firstn, length_rev. reflexivity.
  - intros event. rewrite Hlist. intros Hin.
    apply in_rev. eapply In_firstn. exact Hin.
  - intros uuid now input. rewrite Hlist. cbn [AuditLog.log snd fst].
    rewrite rev_app_distr. cbn [rev app].
    assert (Hn : exists k, n = S k) by (exists (Nat.pred n); subst n; lia).
    destruct Hn as [k ->]. reflexivity.
Qed.

(** ** The in-memory store of patients and appointments *)

Section MapLaws.

Context {A : Type}.

Lemma get_None_keys (k : string) (m : JsMap.t A) :
  JsMap.get k m = None <-> ~ In k (JsMap.keys m).
Proof.
  induction m as [| [k' v'] m IH]; cbn; [tauto |].
  destruct (String.eqb k' k) eqn:E.
  - apply String.eqb_eq in E. split; [discriminate | tauto].
  - apply String.eqb_neq in E. rewrite IH. tauto.
Qed.

(** Setting a key that is present keeps the keys and their order. *)
Lemma keys_set_present (k : string) (v v' : A) (m : JsMap.t A) :
  JsMap.get k m = Some v -> JsMap.keys (JsMap.set k v' m) = JsMap.keys m.
Proof.
  induction m as [| [k0 v0] m IH]; cbn; [discriminate |].
  destruct (String.eqb k0 k) eqn:E; cbn.
  - apply String.eqb_eq in E. now subst.
  - intros H. f_equal. now apply IH.
Qed.

(** Setting a key that is absent appends the entry. *)
Lemma set_fresh (k : string) (v : A) (m : JsMap.t A) :
  JsMap.get k m = None -> JsMap.set k v m = (m ++ [(k, v)])%list.
Proof.
  induction m as [| [k0 v0] m IH]; cbn; [reflexivity |].
  destruct (String.eqb k0 k); [discriminate |].
  intros H. f_equal. now apply IH.
Qed.

Lemma set_set (k : string) (v v' : A) (m : JsMap.t A) :
  JsMap.set k v' (JsMap.set k v m) = JsMap.set k v' m.
Proof.
  induction m as [| [k0 v0] m IH]; cbn.
  - now rewrite String.eqb_refl.
  - destruct (String.eqb k0 k) eqn:E; cbn.
    + now rewrite String.eqb_refl.
    + now rewrite E, IH.
Qed.

End MapLaws.

(** X3.  [updateAppointmentStatus] answers [null] and leaves the store as
    it is for an appointment that is not there; otherwise it changes the
    status of that appointment and nothing else: the other fields, the
    other appointments, the order of the appointments and the patients
    stay, and doing it again changes nothing more. *)
Theorem updateAppointmentStatus_only_status :
  forall (store : MemoryDentalStore) (id : string)
         (status : AppointmentStatus),
    (getAppointment store id = None ->
     updateAppointmentStatus store id status = (None, store))
    /\ (forall existing,
          getAppointment store id = Some existing ->
          exists updated store',
            updateAppointmentStatus store id status = (Some updated, store')
            /\ appt_status updated = status
            /\ appt_id updated = appt_id existing
            /\ appt_patientId updated = appt_patientId existing
            /\ appt_provider updated = appt_provider existing
            /\ appt_reason updated = appt_reason existing
            /\ appt_startAt updated = appt_startAt existing
            /\ appt_endAt updated = appt_endAt existing
            /\ appt_createdAt updated = appt_createdAt existing
            /\ getAppointment store' id = Some updated
            /\ (forall id', id' <> id ->
                  getAppointment store' id' = getAppointment store id')
            /\ JsMap.keys (appointments store')
               = JsMap.keys (appointments store)
            /\ patients store' = patients store
            /\ updateAppointmentStatus store' id status
               = (Some updated, store')).
Proof.
  intros store id status. unfold getAppointment, updateAppointmentStatus.
  split.
  - intros ->. reflexivity.
  - intros existing Hget. rewrite Hget.
    eexists. eexists. split; [reflexivity |].
    cbn [appt_status appt_id appt_patientId appt_provider appt_reason
         appt_startAt appt_endAt appt_createdAt appointments patients].
    repeat (split; [reflexivity |]).
    split; [apply get_set_eq |].
    split; [intros id' Hne; now apply get_set_ne |].
    split; [eapply keys_set_present; eassumption |].
    split; [reflexivity |].
    rewrite get_set_eq. cbn [appt_status appt_id appt_patientId appt_provider
      appt_reason appt_startAt appt_endAt appt_createdAt appointments patients].
    now rewrite set_set.
Qed.

(** X4.  [upsertPatient] stores the patient under its id and leaves the
    other patients and the appointments alone.  On an update the time of
    creation is kept, and no key of the external ids or of the metadata is
    lost: a key the input gives takes the input's value, every other key
    keeps its old one. *)
Theorem upsertPatient_merges :
  forall (uuid nowCreated nowUpdated : string) (input : UpsertPatientInput)
         (store : MemoryDentalStore),
    let patient := fst (upsertPatient uuid nowCreated nowUpdated input store) in
    let store' := snd (upsertPatient uuid nowCreated nowUpdated input store) in
    getPatient store' (pat_id patient) = Some patient
    /\ (forall id', id' <> pat_id patient ->
          getPatient store' id' = getPatient store id')
    /\ appointments store' = appointments store
    /\ (forall k v,
          safeRecord (up_externalIds input) !! k = Some v ->
          pat_externalIds patient !! k = Some v)
    /\ (forall k v,
          safeRecord (up_metadata input) !! k = Some v ->
          pat_metadata patient !! k = Some v)
    /\ (getPatient store (pat_id patient) = None ->
        pat_createdAt patient = nowCreated
        /\ pat_externalIds patient = safeRecord (up_externalIds input)
        /\ pat_metadata patient = safeRecord (up_metadata input)
        /\ JsMap.keys (patients store')
           = (JsMap.keys (patients store) ++ [pat_id patient])%list)
    /\ (forall existing,
          getPatient store (pat_id patient) = Some existing ->
          (pat_createdAt existing <> "" ->
           pat_createdAt patient = pat_createdAt existing)
          /\ (forall k,
                safeRecord (up_externalIds input) !! k = None ->
                pat_externalIds patient !! k = pat_externalIds existing !! k)
          /\ (forall k,
                safeRecord (up_metadata input) !! k = None ->
                pat_metadata patient !! k = pat_metadata existing !! k)
          /\ JsMap.keys (patients store') = JsMap.keys (patients store)).
Proof.
  intros uuid nowCreated nowUpdated input store patient store'.
  subst patient store'. unfold upsertPatient, getPatient.
  cbn [fst snd pat_id patients appointments pat_externalIds pat_metadata
       pat_createdAt].
  set (id := orElse (up_patientId input) uuid).
  split; [apply get_set_eq |].
  split; [intros id' Hne; now apply get_set_ne |].
  split; [reflexivity |].
  split; [intros k v Hk; now apply lookup_union_Some_l |].
  split; [intros k v Hk; now apply lookup_union_Some_l |].
  split.
  - intros Hnone. rewrite Hnone. cbn [fmap option_fmap option_map default orElse].
    rewrite !(right_id_L ∅ (∪)).
    repeat split; try reflexivity.
    rewrite set_fresh by exact Hnone. unfold JsMap.keys.
    now rewrite map_app.
  - intros existing Hsome. rewrite Hsome.
    cbn [fmap option_fmap option_map default orElse].
    split.
    { intros Hne. unfold JsString.truthy.
      destruct (String.eqb (pat_createdAt existing) "") eqn:E;
        [apply String.eqb_eq in E; contradiction | reflexivity]. }
    split; [intros k Hk; now apply lookup_union_r |].
    split; [intros k Hk; now apply lookup_union_r |].
    eapply keys_set_present; eassumption.
Qed.

(** ** The tool handlers *)

Section ToolProperties.

Context {V : Type}.
Variable String_of : V -> string.
Variable stringValue : string -> V.
Variable localeCompare : string -> string -> Z.
Variable objectValues : gmap string string -> list string.
Variable flag : bool.

(** X5.  Setting the status of an appointment that does not exist is
    audited as a success: the unit of work answers [null] without
    throwing, the wrapper logs [success = true], and only then does the
    handler throw "Appointment ... not found".  The store is unchanged.
    For an appointment that exists the handler returns it with the new
    status, and the audit event is the same. *)
Theorem setAppointmentStatusTool_missing_is_audited_as_success :
  forall (uuid now : string) (actor : Actor) (id : string)
         (status : AppointmentStatus) (store : MemoryDentalStore)
         (log : AuditLog.t),
    assertAuthorized (V := V) actor appointment_write = Ok tt ->
    let event :=
      {| ev_id := uuid; ev_at := now; ev_actorUserId := userId actor;
         ev_actorRole := role actor; ev_action := "set-appointment-status";
         ev_resourceType := "appointment"; ev_resourceId := Some id;
         ev_success := true; ev_reason := None; ev_metadata := ∅ |} in
    (getAppointment store id = None ->
     setAppointmentStatusTool String_of flag uuid now actor id status
       (store, log)
     = (Throw (ThrownError ("Appointment " ++ id ++ " not found")),
        (store, (log ++ [event])%list)))
    /\ (forall existing,
          getAppointment store id = Some existing ->
          exists updated store',
            setAppointmentStatusTool String_of flag uuid now actor id status
              (store, log)
            = (Ok updated, (store', (log ++ [event])%list))
            /\ appt_status updated = status
            /\ getAppointment store' id = Some updated).
Proof.
  intros uuid now actor id status store log Hauth event.
  unfold setAppointmentStatusTool, runWithAuthAudit.
  cbn [opt_actor opt_permission opt_requirePurposeOnRead default andb fst snd].
  rewrite Hauth. unfold getAppointment, updateAppointmentStatus.
  split.
  - intros Hnone. rewrite Hnone. reflexivity.
  - intros existing Hsome. rewrite Hsome.
    eexists. eexists. split; [reflexivity |].
    split; [reflexivity |]. cbn [appointments]. apply get_set_eq.
Qed.

Lemma slice_front {A : Type} (n : Z) (l : list A) :
  0 <= n -> JsArray.slice 0 (Some n) l = firstn (Z.to_nat n) l.
Proof.
  intros Hn. unfold JsArray.slice, JsArray.relativeIndex.
  change (0 <? 0) with false. cbv iota.
  replace (Z.min 0 (Z.of_nat (List.length l))) with 0 by lia.
  destruct (n <? 0) eqn:E; [lia |].
  change (Z.to_nat 0) with O. change (skipn 0 l) with l. rewrite Z.sub_0_r.
  destruct (Z_le_gt_dec n (Z.of_nat (List.length l))) as [Hle | Hgt].
  - rewrite Z.min_l, Z.max_l by lia. reflexivity.
  - rewrite Z.min_r, Z.max_l by lia.
    rewrite Nat2Z.id. rewrite firstn_all.
    symmetry. apply firstn_all2. lia.
Qed.

Lemma pageSize_range (limit : option Z) : 1 <= pageSize limit <= 200.
Proof. unfold pageSize. lia. Qed.

Lemma searchPatients_In (input : SearchPatientsInput)
  (store : MemoryDentalStore) (patient : PatientRecord) :
  In patient (searchPatients localeCompare objectValues input store) ->
  In patient (JsMap.values (patients store))
  /\ (forall dob, sp_dateOfBirth input = Some dob -> dob <> "" ->
                  pat_dateOfBirth patient = dob).
Proof.
  unfold searchPatients. pose proof (pageSize_range (sp_limit input)) as Hp.
  rewrite slice_front by lia. clear Hp. intros Hin.
  assert (Hf : In patient
    (filter
       (patientMatches objectValues
          (JsText.toLowerCase (JsString.trim (orElse (sp_query input) "")))
          (JsText.toLowerCase (JsString.trim (orElse (sp_lastName input) "")))
          (JsText.toLowerCase (JsString.trim (orElse (sp_firstName input) "")))
          (JsText.digitsOnly (orElse (sp_phone input) ""))
          (JsText.toLowerCase
             (JsString.trim (orElse (sp_externalId input) "")))
          (sp_dateOfBirth input))
       (listPatients localeCompare store))).
  { rewrite <- (firstn_skipn (Z.to_nat (pageSize (sp_limit input)))).
    apply in_or_app. now left. }
  apply filter_In in Hf. destruct Hf as [Hlist Hmatch].
  split.
  - unfold listPatients in Hlist. now apply sortBy_In in Hlist.
  - intros dob Hdob Hne. unfold patientMatches in Hmatch.
    rewrite Hdob in Hmatch.
    repeat match type of Hmatch with
           | (if ?c then false else _) = true =>
               destruct c eqn:?; [discriminate Hmatch |]
           end.
    match goal with
    | H : JsString.truthy dob && _ = false |- _ =>
        apply andb_false_iff in H; destruct H as [Ht | Hd]
    end.
    + unfold JsString.truthy in Ht.
      destruct (String.eqb dob "") eqn:E; [| discriminate Ht].
      apply String.eqb_eq in E. contradiction.
    + apply negb_false_iff, String.eqb_eq in Hd. exact Hd.
Qed.

(** X6.  [search-patients] gives at most 200 patients, all of them stored
    patients with the date of birth that was asked for, and shows a
    [readonly] actor nothing of a patient but the id, the names and the
    date of birth; the other roles see the whole record.  The store is
    not changed and one audit event is appended. *)
Theorem searchPatientsTool_redacts_for_readonly :
  forall (uuid now : string) (actor : Actor) (input : SearchPatientsInput)
         (store store' : MemoryDentalStore) (log log' : AuditLog.t)
         (count : nat) (views : list PatientView),
    searchPatientsTool String_of stringValue localeCompare objectValues flag
      uuid now actor input (store, log)
    = (Ok (count, views), (store', log')) ->
    count = List.length views
    /\ (count <= 200)%nat
    /\ store' = store
    /\ (exists event, log' = (log ++ [event])%list /\ ev_success event = true)
    /\ (forall view, In view views ->
          exists patient,
            In patient (JsMap.values (patients store))
            /\ (forall dob, sp_dateOfBirth input = Some dob -> dob <> "" ->
                            pat_dateOfBirth patient = dob)
            /\ view
               = if bool_decide (role actor = readonly)
                 then RedactedPatient (pat_id patient) (pat_firstName patient)
                        (pat_lastName patient) (pat_dateOfBirth patient)
                 else WholePatient patient).
Proof.
  intros uuid now actor input store store' log log' count views.
  unfold searchPatientsTool, runWithAuthAudit.
  cbn [opt_actor opt_permission opt_requirePurposeOnRead default fst snd].
  destruct (assertAuthorized actor patient_read); [| discriminate].
  destruct (if true && flag then _ else _); [| discriminate].
  intros [= <- <- <- <-].
  set (found := searchPatients localeCompare objectValues input store).
  split; [now rewrite length_map |].
  split.
  { subst found. unfold searchPatients.
    pose proof (pageSize_range (sp_limit input)).
    rewrite slice_front by lia. rewrite length_firstn. lia. }
  split; [reflexivity |].
  split; [eexists; split; reflexivity |].
  intros view Hin. apply in_map_iff in Hin.
  destruct Hin as [patient [<- Hin]].
  exists patient. destruct (searchPatients_In _ _ _ Hin) as [Hstored Hdob].
  split; [exact Hstored | split; [exact Hdob |]].
  unfold redactPatientForRole. destruct (role actor); reflexivity.
Qed.

(** X7.  [list-audit-events] shows the log as it was before the call: at
    most [limit] events (a hundred when no limit is given), the newest
    first, all of them logged before; the call's own event is appended
    afterwards, so that it heads the list of the next call. *)
Theorem listAuditEventsTool_lists_before_logging :
  forall (uuid now uuid' now' : string) (actor actor' : Actor)
         (limit limit' : option Z) (log log' : AuditLog.t)
         (events : list AuditEvent) (count : nat),
    listAuditEventsTool String_of flag uuid now actor limit (tt, log)
    = (Ok (events, count), (tt, log')) ->
    events
    = firstn (Z.to_nat (Z.max 1 (integerOr limit 100))) (rev log)
    /\ count = List.length events
    /\ (forall event, In event events -> In event log)
    /\ (exists event,
          log' = (log ++ [event])%list
          /\ ev_id event = uuid
          /\ ev_action event = "list-audit-events"
          /\ ev_actorUserId event = userId actor
          /\ ev_success event = true
          /\ forall events' count' log'',
               listAuditEventsTool String_of flag uuid' now' actor' limit'
                 (tt, log')
               = (Ok (events', count'), (tt, log'')) ->
               hd_error events' = Some event).
Proof.
  intros uuid now uuid' now' actor actor' limit limit' log log' events count.
  unfold listAuditEventsTool, runWithAuthAudit.
  cbn [opt_actor opt_permission opt_requirePurposeOnRead default fst snd].
  destruct (assertAuthorized actor audit_read); [| discriminate].
  destruct (if true && flag then _ else _); [| discriminate].
  intros [= <- <- <-].
  split; [apply AuditLog_list_rev | split; [reflexivity |]].
  split.
  - intros event Hin. rewrite AuditLog_list_rev in Hin.
    apply in_rev. eapply In_firstn. exact Hin.
  - eexists. split; [reflexivity |]. repeat (split; [reflexivity |]).
    intros events' count' log''.
    destruct (assertAuthorized actor' audit_read); [| discriminate].
    destruct (if true && flag then _ else _); [| discriminate].
    intros [= <- _ _].
    rewrite AuditLog_list_rev. cbn [AuditLog.log snd].
    rewrite rev_app_distr. cbn [rev app default].
    match goal with
    | |- context [firstn ?n _] =>
        assert (Hn : exists k, n = S k)
          by (exists (Nat.pred n); cbn [default from_option]; lia);
        destruct Hn as [k Hk]; rewrite Hk
    end.
    reflexivity.
Qed.

End ToolProperties.

(** ** Scheduling: blocks, bookings and the open slots *)

Lemma values_set_fresh {A : Type} (k : string) (v : A) (m : JsMap.t A) :
  JsMap.get k m = None ->
  JsMap.values (JsMap.set k v m) = (JsMap.values m ++ [v])%list.
Proof.
  intros H. rewrite set_fresh by exact H. unfold JsMap.values.
  now rewrite map_app.
Qed.

Lemma In_values_set {A : Type} (k : string) (v x : A) (m : JsMap.t A) :
  In x (JsMap.values (JsMap.set k v m)) -> x = v \/ In x (JsMap.values m).
Proof.
  induction m as [| [k0 v0] m IH]; cbn.
  - intros [<- | []]. now left.
  - destruct (String.eqb k0 k); cbn.
    + intros [<- | H]; [now left | right; now right].
    + intros [<- | H]; [right; now left |].
      destruct (IH H) as [-> | H']; [now left | right; now right].
Qed.

Lemma In_values_set_new {A : Type} (k : string) (v : A) (m : JsMap.t A) :
  In v (JsMap.values (JsMap.set k v m)).
Proof.
  induction m as [| [k0 v0] m IH]; cbn; [now left |].
  destruct (String.eqb k0 k); cbn; [now left | now right].
Qed.

Lemma filter_twice {A : Type} (p q : A -> bool) (l : list A) :
  filter p (filter q l) = filter (fun x => q x && p x) l.
Proof.
  induction l as [| x l IH]; cbn; [reflexivity |].
  destruct (q x); cbn; [destruct (p x) |]; now rewrite IH.
Qed.

(** [some] looks at the members of a list only. *)
Lemma existsb_members {A : Type} (f : A -> bool) (l l' : list A) :
  (forall x, In x l' <-> In x l) -> existsb f l' = existsb f l.
Proof.
  intros H. apply eq_true_iff_eq. rewrite !existsb_exists.
  split; intros [x [Hx Hf]]; exists x; split; try assumption; now apply H.
Qed.

Lemma existsb_members_one {A : Type} (f : A -> bool) (l l' : list A) (y : A) :
  (forall x, In x l' <-> In x l \/ x = y) ->
  existsb f l' = existsb f l || f y.
Proof.
  intros H. apply eq_true_iff_eq.
  rewrite orb_true_iff, !existsb_exists. split.
  - intros [x [Hx Hf]]. apply H in Hx. destruct Hx as [Hx | ->].
    + left. now exists x.
    + now right.
  - intros [[x [Hx Hf]] | Hf].
    + exists x. split; [apply H; now left | exact Hf].
    + exists y. split; [apply H; now right | exact Hf].
Qed.

Lemma nil_members {A : Type} (l l' : list A) :
  (forall x, In x l' <-> In x l) -> (l' = [] <-> l = []).
Proof.
  intros H. split; intros ->.
  - destruct l as [| x l]; [reflexivity |].
    destruct (proj2 (H x) ltac:(now left)).
  - destruct l' as [| x l']; [reflexivity |].
    destruct (proj1 (H x) ltac:(now left)).
Qed.

(** The filter of [findOpenSlots] looks at the members of its three lists
    only. *)
Lemma slotIsOpen_members (av av' bl : list ScheduleBlockRecord)
  (ap : list AppointmentRecord) (slot : Slot) :
  (forall x, In x av' <-> In x av) ->
  slotIsOpen av' bl ap slot
  = (bool_decide (av = []) || existsb (within slot) av)
    && negb (existsb
               (fun a => overlap (startAt slot) (endAt slot) (appt_startAt a)
                           (appt_endAt a)) ap)
    && negb (existsb
               (fun b => overlap (startAt slot) (endAt slot) (block_startAt b)
                           (block_endAt b)) bl).
Proof.
  intros Hav. apply eq_true_iff_eq.
  rewrite slotIsOpen_true. unfold clearOf.
  rewrite !andb_true_iff, orb_true_iff, bool_decide_eq_true.
  rewrite (existsb_members _ av av' Hav), (nil_members av av' Hav).
  tauto.
Qed.

Section SchedulingComposition.

Context {V : Type}.
Variable localeCompare : string -> string -> Z.

Lemma dayAppointments_iff (store : MemoryDentalStore) (provider date : string)
  (a : AppointmentRecord) :
  In a (dayAppointments localeCompare store provider date) <->
  In a (JsMap.values (appointments store))
  /\ overlap (appt_startAt a) (appt_endAt a) (dayStartText date)
       (dayEndText date) = true
  /\ (provider <> "" -> appt_provider a = provider).
Proof.
  unfold dayAppointments, listAppointmentsByRange.
  rewrite sortBy_In, filter_In.
  unfold overlap, dayStartText, dayEndText, JsString.truthy.
  destruct (JsString.lt (appt_startAt a) (date ++ "T23:59:59.999Z")
            && JsString.gt (appt_endAt a) (date ++ "T00:00:00.000Z"));
    cbn [negb]; [| intuition discriminate].
  destruct (String.eqb provider "") eqn:Ep; cbn [negb andb].
  - apply String.eqb_eq in Ep. intuition congruence.
  - apply String.eqb_neq in Ep.
    destruct (String.eqb (appt_provider a) provider) eqn:Ea; cbn [negb].
    + apply String.eqb_eq in Ea. tauto.
    + apply String.eqb_neq in Ea. intuition discriminate.
Qed.

Lemma blocksOf_saved (repo : MemoryClinicOpsRepository)
  (input : FindOpenSlotsInput) (block x : ScheduleBlockRecord) :
  JsMap.get (block_id block) (scheduleBlocks repo) = None ->
  (In x (dayBlocks localeCompare (saveScheduleBlock repo block)
           (fs_provider input) (fs_date input))
   <-> In x (dayBlocks localeCompare repo (fs_provider input) (fs_date input))
       \/ (x = block
           /\ block_provider block = fs_provider input
           /\ overlap (block_startAt block) (block_endAt block)
                (dayStartText (fs_date input)) (dayEndText (fs_date input))
              = true)).
Proof.
  intros Hfresh. rewrite !dayBlocks_In.
  cbn [saveScheduleBlock scheduleBlocks].
  rewrite values_set_fresh by exact Hfresh. rewrite in_app_iff. cbn [In].
  intuition (subst; auto).
Qed.

Variable engine : string -> option Z.

Lemma findOpenSlots_fold (input : FindOpenSlotsInput)
  (store : MemoryDentalStore) (repo : MemoryClinicOpsRepository)
  (baseSlots : list Slot) :
  baseSlotsOf (V := V) engine input = Ok baseSlots ->
  findOpenSlots (V := V) localeCompare engine input store repo
  = Ok (filter
          (slotIsOpen (availableBlocksOf localeCompare repo input)
             (blockingBlocksOf localeCompare repo input)
             (dayAppointments localeCompare store (fs_provider input)
                (fs_date input)))
          baseSlots).
Proof.
  unfold findOpenSlots, baseSlotsOf, availableBlocksOf, blockingBlocksOf.
  intros ->. reflexivity.
Qed.

(** X8.  A new block of a provider changes the open slots of a day
    only through the filter, which compares texts: a [booked], [break] or
    [hold] block that meets the day removes the slots that overlap it and
    no other; the provider's first [available] block of the day keeps the
    slots that lie within it; a block of another provider, or one that does
    not meet the day, changes nothing.  For a block whose bounds are
    written as [toISOString] writes them, for instants [bs] and [be] of the
    years 0 to 9999, on a date of the calendar before the last day of the
    year 9999, the texts compare as the instants do: the block meets the
    day when [bs] is before its last millisecond and [be] after its start,
    a slot from [s] to [e] overlaps the block when [s < be] and [bs < e],
    and lies within it when [bs <= s] and [e <= be]. *)
Theorem upsertScheduleBlock_filters_open_slots :
  forall (now uuid : string) (block : UpsertScheduleBlockInput)
         (input : FindOpenSlotsInput) (store : MemoryDentalStore)
         (repo : MemoryClinicOpsRepository) (slots : list Slot),
    findOpenSlots (V := V) localeCompare engine input store repo = Ok slots ->
    JsMap.get (orElse (usb_blockId block) uuid) (scheduleBlocks repo) = None ->
    let repo' := snd (upsertScheduleBlock now uuid block repo) in
    let meetsDay :=
      overlap (usb_startAt block) (usb_endAt block)
        (dayStartText (fs_date input)) (dayEndText (fs_date input)) in
    (usb_provider block <> fs_provider input \/ meetsDay = false ->
     findOpenSlots (V := V) localeCompare engine input store repo' = Ok slots)
    /\ (usb_provider block = fs_provider input -> meetsDay = true ->
        In (usb_blockType block) [booked; break; hold] ->
        findOpenSlots (V := V) localeCompare engine input store repo'
        = Ok (filter
                (fun slot =>
                   negb (overlap (startAt slot) (endAt slot)
                           (usb_startAt block) (usb_endAt block)))
                slots))
    /\ (usb_provider block = fs_provider input -> meetsDay = true ->
        usb_blockType block = available ->
        availableBlocksOf localeCompare repo input = [] ->
        findOpenSlots (V := V) localeCompare engine input store repo'
        = Ok (filter
                (fun slot =>
                   JsString.ge (startAt slot) (usb_startAt block)
                   && JsString.le (endAt slot) (usb_endAt block))
                slots))
    /\ (forall day bs be,
          calendarDay (fs_date input) = Some day -> day < 2932896 ->
          0 <= durationMinutes input ->
          firstInstant <= bs <= lastInstant ->
          firstInstant <= be <= lastInstant ->
          usb_startAt block = JsDate.isoText bs ->
          usb_endAt block = JsDate.isoText be ->
          meetsDay
          = (bs <? day * JsDate.msPerDay + 86399999)
            && (day * JsDate.msPerDay <? be)
          /\ forall slot, In slot slots ->
               exists s e,
                 e = s + durationMinutes input * 60000
                 /\ startAt slot = JsDate.isoText s
                 /\ endAt slot = JsDate.isoText e
                 /\ JsDate.parse engine (startAt slot) = Some s
                 /\ JsDate.parse engine (endAt slot) = Some e
                 /\ JsDate.parse engine (usb_startAt block) = Some bs
                 /\ JsDate.parse engine (usb_endAt block) = Some be
                 /\ overlap (startAt slot) (endAt slot) (usb_startAt block)
                      (usb_endAt block)
                    = (s <? be) && (bs <? e)
                 /\ JsString.ge (startAt slot) (usb_startAt block)
                    && JsString.le (endAt slot) (usb_endAt block)
                    = (bs <=? s) && (e <=? be)).
Proof.
  intros now uuid block input store repo slots Hrun Hfresh repo' meetsDay.
  pose proof (findOpenSlots_slot_instants (V := V) localeCompare engine
                input store repo slots) as Hinst.
  specialize (fun day slot => Hinst day slot Hrun).
  destruct (findOpenSlots_unfold localeCompare engine input store repo slots
              Hrun) as [baseSlots [Hbase Hslots]].
  rewrite Hslots.
  subst repo'. unfold upsertScheduleBlock. cbn [snd].
  set (b := {| block_id := orElse (usb_blockId block) uuid;
               block_provider := usb_provider block;
               operatory := usb_operatory block;
               block_startAt := usb_startAt block;
               block_endAt := usb_endAt block;
               blockType := usb_blockType block;
               block_patientId := usb_patientId block;
               appointmentId := usb_appointmentId block;
               block_notes := usb_notes block;
               block_createdAt := now;
               block_updatedAt := now |}).
  pose proof (fun x => blocksOf_saved repo input b x Hfresh) as Hday.
  cbn [b block_provider block_startAt block_endAt] in Hday.
  fold b in Hday. fold meetsDay in Hday.
  rewrite (findOpenSlots_fold input store (saveScheduleBlock repo b) baseSlots
             Hbase).
  assert (Hav : forall x,
    In x (availableBlocksOf localeCompare (saveScheduleBlock repo b) input)
    <-> In x (availableBlocksOf localeCompare repo input)
        \/ (x = b /\ usb_provider block = fs_provider input
            /\ meetsDay = true /\ usb_blockType block = available)).
  { intros x. unfold availableBlocksOf. rewrite !filter_In, Hday.
    unfold isAvailable. rewrite bool_decide_eq_true.
    split.
    - intros [[H | [-> [Hp Hm]]] Ht]; [left; tauto |].
      right. cbn [b blockType] in Ht. tauto.
    - intros [[H Ht] | [-> [Hp [Hm Ht]]]]; [tauto |].
      split; [right; tauto | exact Ht]. }
  assert (Hbl : forall x,
    In x (blockingBlocksOf localeCompare (saveScheduleBlock repo b) input)
    <-> In x (blockingBlocksOf localeCompare repo input)
        \/ (x = b /\ usb_provider block = fs_provider input
            /\ meetsDay = true
            /\ In (usb_blockType block) [booked; break; hold])).
  { intros x. unfold blockingBlocksOf. rewrite !filter_In, Hday.
    unfold isBlocking. rewrite !includes_In.
    split.
    - intros [[H | [-> [Hp Hm]]] Ht]; [left; tauto |].
      right. cbn [b blockType] in Ht. tauto.
    - intros [[H Ht] | [-> [Hp [Hm Ht]]]]; [tauto |].
      split; [right; tauto | exact Ht]. }
  split; [| split; [| split]].
  - intros Hout. f_equal. apply filter_ext. intros slot.
    rewrite (slotIsOpen_members (availableBlocksOf localeCompare repo input)
               (availableBlocksOf localeCompare (saveScheduleBlock repo b) input))
      by (intros x; rewrite Hav; destruct Hout as [Hout | Hout];
          intuition congruence).
    rewrite (existsb_members _ (blockingBlocksOf localeCompare repo input)
               (blockingBlocksOf localeCompare (saveScheduleBlock repo b) input))
      by (intros x; rewrite Hbl; destruct Hout as [Hout | Hout];
          intuition congruence).
    symmetry. apply slotIsOpen_members. tauto.
  - intros Hp Hm Ht. f_equal. rewrite filter_twice.
    apply filter_ext. intros slot.
    assert (Hnot : usb_blockType block <> available)
      by (intros E; rewrite E in Ht; cbn in Ht; intuition discriminate).
    rewrite (slotIsOpen_members (availableBlocksOf localeCompare repo input)
               (availableBlocksOf localeCompare (saveScheduleBlock repo b) input))
      by (intros x; rewrite Hav; intuition congruence).
    rewrite (existsb_members_one _ (blockingBlocksOf localeCompare repo input)
               (blockingBlocksOf localeCompare (saveScheduleBlock repo b) input)
               b)
      by (intros x; rewrite Hbl; tauto).
    rewrite (slotIsOpen_members (availableBlocksOf localeCompare repo input)
               (availableBlocksOf localeCompare repo input)) by tauto.
    cbn [b block_startAt block_endAt]. rewrite negb_orb.
    repeat match goal with |- context [existsb ?f ?l] =>
      generalize (existsb f l); intro end.
    repeat match goal with |- context [bool_decide ?P] =>
      generalize (bool_decide P); intro end.
    repeat match goal with |- context [overlap ?a ?b ?c ?d] =>
      generalize (overlap a b c d); intro end.
    repeat match goal with x : bool |- _ => destruct x end; reflexivity.
  - intros Hp Hm Ht Hnone. f_equal. rewrite filter_twice.
    apply filter_ext. intros slot.
    assert (Hnb : ~ In (usb_blockType block) [booked; break; hold])
      by (rewrite Ht; cbn; intuition discriminate).
    rewrite (slotIsOpen_members [b]
               (availableBlocksOf localeCompare (saveScheduleBlock repo b) input))
      by (intros x; rewrite Hav, Hnone; cbn [In]; intuition congruence).
    rewrite (existsb_members _ (blockingBlocksOf localeCompare repo input)
               (blockingBlocksOf localeCompare (saveScheduleBlock repo b) input))
      by (intros x; rewrite Hbl; tauto).
    rewrite Hnone.
    rewrite (slotIsOpen_members [] []) by tauto.
    cbn [existsb]. unfold within. cbn [b block_startAt block_endAt].
    rewrite orb_false_r.
    repeat match goal with |- context [existsb ?f ?l] =>
      generalize (existsb f l); intro end.
    rewrite (bool_decide_eq_false_2 ([b] = [])) by discriminate.
    rewrite (bool_decide_eq_true_2 (@nil ScheduleBlockRecord = []))
      by reflexivity.
    generalize (JsString.ge (startAt slot) (usb_startAt block)).
    generalize (JsString.le (endAt slot) (usb_endAt block)).
    intros. repeat match goal with x : bool |- _ => destruct x end;
      reflexivity.
  - intros day bs be Hcal Hlast Hdur Hbs Hbe Hst Hen.
    pose proof (calendarDay_range _ _ Hcal) as Hrange.
    destruct (day_instants _ _ (day * JsDate.msPerDay) Hcal ltac:(lia))
      as [Hfirst0 Hlast0].
    split.
    + unfold meetsDay. rewrite Hst, Hen.
      rewrite (dayStartText_isoText _ day Hcal),
        (dayEndText_isoText _ day Hcal).
      apply overlap_instants; try assumption;
        unfold firstInstant, lastInstant, JsDate.msPerDay in *; lia.
    + intros slot Hin. rewrite <- Hslots in Hin.
      destruct (Hinst day slot (calendarDay_parseDay _ _ Hcal) Hin)
        as [s [Hs [He [Hlow Hhigh]]]].
      destruct (day_instants _ _ s Hcal Hlow) as [Hfirst _].
      assert (Hs_in : firstInstant <= s <= lastInstant)
        by (unfold firstInstant, lastInstant, JsDate.msPerDay in *; lia).
      assert (He_in : firstInstant
                      <= s + durationMinutes input * 60000 <= lastInstant)
        by (unfold firstInstant, lastInstant, JsDate.msPerDay in *; lia).
      exists s, (s + durationMinutes input * 60000).
      split; [reflexivity |].
      split; [exact Hs | split; [exact He |]].
      rewrite Hs, He, Hst, Hen.
      split; [now apply parse_isoText |].
      split; [now apply parse_isoText |].
      split; [now apply parse_isoText |].
      split; [now apply parse_isoText |].
      split.
      * now apply overlap_instants.
      * unfold JsString.ge.
        fold (JsString.le (JsDate.isoText bs) (JsDate.isoText s)).
        now rewrite !isoText_le.
Qed.


(** A slot that [findOpenSlots] returns for a date before the last day of
    the year 9999, with a positive duration, overlaps itself and meets the
    day, as the program compares the texts. *)
Lemma returned_slot_overlaps (input : FindOpenSlotsInput)
  (store : MemoryDentalStore) (repo : MemoryClinicOpsRepository)
  (slots : list Slot) (slot : Slot) (day : Z) :
  findOpenSlots (V := V) localeCompare engine input store repo = Ok slots ->
  In slot slots ->
  calendarDay (fs_date input) = Some day -> day < 2932896 ->
  0 < durationMinutes input ->
  overlap (startAt slot) (endAt slot) (startAt slot) (endAt slot) = true
  /\ overlap (startAt slot) (endAt slot) (dayStartText (fs_date input))
       (dayEndText (fs_date input)) = true.
Proof.
  intros Hrun Hin Hday Hlast Hdur.
  destruct (findOpenSlots_slot_instants localeCompare engine input store
              repo slots day slot Hrun (calendarDay_parseDay _ _ Hday) Hin)
    as [s [Hs [He [Hlow Hhigh]]]].
  destruct (day_instants _ _ s Hday Hlow) as [Hfirst Hslast].
  destruct (day_instants _ _ (day * JsDate.msPerDay) Hday ltac:(lia))
    as [Hfirst0 Hlast0].
  pose proof (calendarDay_range _ _ Hday) as Hrange.
  assert (Hs_in : firstInstant <= s <= lastInstant)
    by (unfold JsDate.msPerDay in *; lia).
  assert (He_in : firstInstant
                  <= s + durationMinutes input * 60000 <= lastInstant)
    by (unfold firstInstant, lastInstant, JsDate.msPerDay in *; lia).
  rewrite Hs, He.
  rewrite (dayStartText_isoText _ day Hday), (dayEndText_isoText _ day Hday).
  rewrite !overlap_instants;
    try assumption;
    try (unfold firstInstant, lastInstant, JsDate.msPerDay in *; lia).
Qed.

(** X9.  Booking a slot that [findOpenSlots] returned takes it off the
    list: the appointment is stored as [scheduled], the [booked] block
    points to it, and the next search of that day for the provider no
    longer returns the slot.  When the two new ids are fresh, the next
    search returns the earlier slots that do not overlap the booked one,
    and no other. *)
Theorem bookAppointmentFromSlot_takes_the_slot :
  forall (appointmentUuid appointmentNow blockNow blockUuid : string)
         (patient reason : string) (room : option string)
         (input : FindOpenSlotsInput) (store : MemoryDentalStore)
         (repo : MemoryClinicOpsRepository) (slots : list Slot) (slot : Slot)
         (day : Z),
    findOpenSlots (V := V) localeCompare engine input store repo = Ok slots ->
    In slot slots ->
    calendarDay (fs_date input) = Some day -> day < 2932896 ->
    0 < durationMinutes input ->
    let result :=
      bookAppointmentFromSlot appointmentUuid appointmentNow blockNow
        blockUuid
        {| ba_patientId := patient; ba_provider := fs_provider input;
           ba_reason := reason; ba_startAt := startAt slot;
           ba_endAt := endAt slot; ba_operatory := room |}
        store repo in
    let appointment := booking_appointment (fst result) in
    let block := booking_scheduleBlock (fst result) in
    let store' := fst (snd result) in
    let repo' := snd (snd result) in
    getAppointment store' appointmentUuid = Some appointment
    /\ appt_status appointment = scheduled
    /\ appt_startAt appointment = startAt slot
    /\ appt_endAt appointment = endAt slot
    /\ blockType block = booked
    /\ appointmentId block = Some appointmentUuid
    /\ JsMap.get blockUuid (scheduleBlocks repo') = Some block
    /\ exists slots',
         findOpenSlots (V := V) localeCompare engine input store' repo'
         = Ok slots'
         /\ ~ In slot slots'
         /\ (JsMap.get appointmentUuid (appointments store) = None ->
             JsMap.get blockUuid (scheduleBlocks repo) = None ->
             slots'
             = filter
                 (fun candidate =>
                    negb (overlap (startAt candidate) (endAt candidate)
                            (startAt slot) (endAt slot)))
                 slots).
Proof.
  intros appointmentUuid appointmentNow blockNow blockUuid patient reason room
    input store repo slots slot day Hrun Hin Hday Hlast Hdur.
  destruct (returned_slot_overlaps input store repo slots slot day Hrun Hin
              Hday Hlast Hdur) as [Hself Hmeets].
  destruct (findOpenSlots_unfold localeCompare engine input store repo slots
              Hrun) as [baseSlots [Hbase Hslots]].
  unfold bookAppointmentFromSlot, createAppointment, upsertScheduleBlock.
  cbn [fst snd booking_appointment booking_scheduleBlock appt_id ca_patientId
       ca_provider ca_reason ca_startAt ca_endAt ca_status default
       usb_blockId usb_provider usb_operatory usb_startAt usb_endAt
       usb_blockType usb_patientId usb_appointmentId usb_notes orElse
       ba_patientId ba_provider ba_reason ba_startAt ba_endAt ba_operatory
       from_option id].
  set (a := {| appt_id := appointmentUuid; appt_patientId := patient;
               appt_provider := fs_provider input; appt_reason := reason;
               appt_startAt := startAt slot; appt_endAt := endAt slot;
               appt_status := scheduled; appt_createdAt := appointmentNow |}).
  set (b := {| block_id := blockUuid; block_provider := fs_provider input;
               operatory := room; block_startAt := startAt slot;
               block_endAt := endAt slot; blockType := booked;
               block_patientId := Some patient;
               appointmentId := Some appointmentUuid;
               block_notes := Some reason; block_createdAt := blockNow;
               block_updatedAt := blockNow |}).
  set (store' := {| patients := patients store;
                    appointments := JsMap.set appointmentUuid a
                                      (appointments store) |}).
  unfold getAppointment. cbn [appointments store'].
  split; [apply get_set_eq |].
  do 5 (split; [reflexivity |]).
  split; [cbn [saveScheduleBlock scheduleBlocks b block_id]; apply get_set_eq |].
  eexists. split; [apply findOpenSlots_fold; exact Hbase |].
  assert (Ha : In a (dayAppointments localeCompare store' (fs_provider input)
                       (fs_date input))).
  { apply dayAppointments_In; [| reflexivity | exact Hmeets].
    cbn [store' appointments]. apply In_values_set_new. }
  split.
  - intros Hin'. apply filter_In in Hin'. destruct Hin' as [_ Hopen].
    apply slotIsOpen_true in Hopen. destruct Hopen as [_ Hclear].
    unfold clearOf in Hclear. apply andb_true_iff in Hclear.
    destruct Hclear as [Hap _]. apply negb_true_iff in Hap.
    assert (Hex : existsb
              (fun x => overlap (startAt slot) (endAt slot) (appt_startAt x)
                          (appt_endAt x))
              (dayAppointments localeCompare store' (fs_provider input)
                 (fs_date input)) = true).
    { apply existsb_exists. exists a. split; [exact Ha | exact Hself]. }
    congruence.
  - intros Hfa Hfb. rewrite Hslots, filter_twice. apply filter_ext.
    intros candidate.
    assert (Hap : forall x,
      In x (dayAppointments localeCompare store' (fs_provider input)
              (fs_date input))
      <-> In x (dayAppointments localeCompare store (fs_provider input)
                  (fs_date input)) \/ x = a).
    { intros x. rewrite !dayAppointments_iff. cbn [store' appointments].
      rewrite values_set_fresh by exact Hfa. rewrite in_app_iff. cbn [In].
      split.
      - intros [[H | [<- | []]] [Hm Hp]]; [left; tauto | now right].
      - intros [[H [Hm Hp]] | ->]; [tauto |].
        split; [right; now left |]. split; [exact Hmeets | reflexivity]. }
    pose proof (fun x => blocksOf_saved repo input b x Hfb) as Hday'.
    assert (Hav : forall x,
      In x (availableBlocksOf localeCompare (saveScheduleBlock repo b) input)
      <-> In x (availableBlocksOf localeCompare repo input)).
    { intros x. unfold availableBlocksOf. rewrite !filter_In, Hday'.
      unfold isAvailable. rewrite bool_decide_eq_true.
      split; [| tauto].
      intros [[H | [-> _]] Ht]; [tauto | discriminate Ht]. }
    assert (Hbl : forall x,
      In x (blockingBlocksOf localeCompare (saveScheduleBlock repo b) input)
      <-> In x (blockingBlocksOf localeCompare repo input) \/ x = b).
    { intros x. unfold blockingBlocksOf. rewrite !filter_In, Hday'.
      split.
      - intros [[H | [-> _]] Ht]; [left; tauto | now right].
      - intros [[H Ht] | ->]; [tauto |].
        split; [right; split; [reflexivity |];
                split; [reflexivity | exact Hmeets]
               | reflexivity]. }
    rewrite (slotIsOpen_members (availableBlocksOf localeCompare repo input)
               (availableBlocksOf localeCompare (saveScheduleBlock repo b) input))
      by exact Hav.
    rewrite (existsb_members_one _ _ _ a Hap).
    rewrite (existsb_members_one _ _ _ b Hbl).
    rewrite (slotIsOpen_members (availableBlocksOf localeCompare repo input)
               (availableBlocksOf localeCompare repo input)) by tauto.
    cbn [a b appt_startAt appt_endAt block_startAt block_endAt].
    rewrite !negb_orb.
    repeat match goal with |- context [existsb ?f ?l] =>
      generalize (existsb f l); intro end.
    repeat match goal with |- context [bool_decide ?P] =>
      generalize (bool_decide P); intro end.
    repeat match goal with |- context [overlap ?x ?y ?z ?w] =>
      generalize (overlap x y z w); intro end.
    repeat match goal with x : bool |- _ => destruct x end; reflexivity.
Qed.

End SchedulingComposition.

(** ** Scheduling: the order of the slots *)

Lemma filter_map_swap {A B : Type} (p : B -> bool) (g : A -> B) (l : list A) :
  filter p (map g l) = map g (filter (fun x => p (g x)) l).
Proof.
  induction l as [| x l IH]; [reflexivity |].
  cbn [map filter]. destruct (p (g x)); cbn [map]; now rewrite IH.
Qed.

Lemma StronglySorted_filter_of {A : Type} (R : A -> A -> Prop)
  (p : A -> bool) (l : list A) :
  StronglySorted R l -> StronglySorted R (filter p l).
Proof.
  induction 1 as [| x l Hl IH Hx]; [constructor |].
  cbn [filter]. destruct (p x); [| exact IH].
  constructor; [exact IH |].
  apply Forall_forall. intros y Hy. apply filter_In in Hy.
  rewrite Forall_forall in Hx. apply Hx. tauto.
Qed.

Lemma StronglySorted_map_of {A B : Type} (R : A -> A -> Prop)
  (Q : B -> B -> Prop) (g : A -> B) (l : list A) :
  (forall x y, In x l -> In y l -> R x y -> Q (g x) (g y)) ->
  StronglySorted R l -> StronglySorted Q (map g l).
Proof.
  intros Hg Hl. induction Hl as [| x l Hl IH Hx]; [constructor |].
  cbn [map]. constructor.
  - apply IH. intros a b Ha Hb. apply Hg; now right.
  - apply Forall_forall. intros y Hy. apply in_map_iff in Hy.
    destruct Hy as [a [<- Ha]]. rewrite Forall_forall in Hx.
    apply Hg; [now left | now right | now apply Hx].
Qed.

Lemma StronglySorted_seq (start len : nat) :
  StronglySorted Nat.lt (seq start len).
Proof.
  revert start. induction len as [| len IH]; intros start; [constructor |].
  cbn [seq]. constructor; [apply IH |].
  apply Forall_forall. intros y Hy. apply in_seq in Hy. unfold Nat.lt. lia.
Qed.

Section SlotOrder.

Context {V : Type}.
Variable localeCompare : string -> string -> Z.
Variable engine : string -> option Z.

(** The loop gives the slots of the first turns, one step apart, each
    ending by the end. *)
Lemma slotsLoop_shape (end_ durationMs intervalMs : Z) :
  forall (fuel : nat) (cursor : Z) (slots : list Slot),
    slotsLoop (V := V) fuel cursor end_ durationMs intervalMs = Ok slots ->
    exists n : nat,
      slots
      = map (fun k : nat =>
               mkSlot (JsDate.isoText (cursor + Z.of_nat k * intervalMs))
                 (JsDate.isoText
                    (cursor + Z.of_nat k * intervalMs + durationMs)))
          (seq 0 n)
      /\ forall k : nat,
           (k < n)%nat -> cursor + Z.of_nat k * intervalMs + durationMs <= end_.
Proof.
  induction fuel as [| fuel IH]; intros cursor slots Hrun;
    rewrite slotsLoop_unfold in Hrun;
    (destruct (cursor + durationMs <=? end_) eqn:Htest;
       [| injection Hrun as <-; exists O; split; [reflexivity | lia]]);
    apply Z.leb_le in Htest;
    unfold JsDate.toISOString in Hrun;
    (destruct ((- JsDate.maxTime <=? cursor) && (cursor <=? JsDate.maxTime));
       [| discriminate Hrun]);
    (destruct ((- JsDate.maxTime <=? cursor + durationMs)
               && (cursor + durationMs <=? JsDate.maxTime));
       [| discriminate Hrun]).
  - discriminate Hrun.
  - destruct (slotsLoop fuel (cursor + intervalMs) end_ durationMs intervalMs)
      as [rest | e] eqn:Hrest; [| discriminate Hrun].
    injection Hrun as <-.
    destruct (IH _ _ Hrest) as [n [-> Hfit]].
    exists (S n). split.
    + cbn [seq map]. rewrite <- seq_shift, map_map. f_equal.
      * f_equal; f_equal; lia.
      * apply map_ext. intros k. f_equal; f_equal; lia.
    + intros [| k] Hk; [lia |]. specialize (Hfit k ltac:(lia)). lia.
Qed.

(** X10.  The slots [findOpenSlots] returns for a date that is read come in
    the order of time: they are the slots of strictly increasing start
    instants of that day, any two a whole number of steps apart, each
    lasting the duration.  For a positive duration and a date before the
    last day of the year 9999 the start texts increase strictly, as the
    program compares texts, so no slot is returned twice. *)
Theorem findOpenSlots_chronological :
  forall (input : FindOpenSlotsInput) (store : MemoryDentalStore)
         (repo : MemoryClinicOpsRepository) (slots : list Slot) (day : Z),
    findOpenSlots (V := V) localeCompare engine input store repo = Ok slots ->
    JsDate.parseDay (fs_date input) = Some day ->
    exists starts : list Z,
      slots
      = map (fun s => mkSlot (JsDate.isoText s)
                        (JsDate.isoText (s + durationMinutes input * 60000)))
          starts
      /\ StronglySorted Z.lt starts
      /\ (forall s s', In s starts -> In s' starts ->
            exists k : Z, s' - s = k * (intervalOf input * 60000))
      /\ (0 < durationMinutes input -> day < 2932896 ->
          StronglySorted
            (fun a b => JsString.lt (startAt a) (startAt b) = true) slots
          /\ NoDup slots).
Proof.
  intros input store repo slots day Hrun Hday.
  destruct (findOpenSlots_unfold localeCompare engine input store repo slots
              Hrun) as [baseSlots [Hbase ->]].
  pose proof Hbase as Hbase0.
  unfold baseSlotsOf, createTimeSlots in Hbase.
  pose proof (parseDay_range _ _ Hday) as Hrange.
  pose proof Hday as Hread.
  assert (Hnil : baseSlots = [] ->
    exists starts : list Z,
      filter (slotIsOpen (availableBlocksOf localeCompare repo input)
                (blockingBlocksOf localeCompare repo input)
                (dayAppointments localeCompare store (fs_provider input)
                   (fs_date input))) baseSlots
      = map (fun s => mkSlot (JsDate.isoText s)
                        (JsDate.isoText (s + durationMinutes input * 60000)))
          starts
      /\ StronglySorted Z.lt starts
      /\ (forall s s', In s starts -> In s' starts ->
            exists k : Z, s' - s = k * (intervalOf input * 60000))
      /\ (0 < durationMinutes input -> day < 2932896 ->
          StronglySorted
            (fun a b => JsString.lt (startAt a) (startAt b) = true)
            (filter (slotIsOpen (availableBlocksOf localeCompare repo input)
                (blockingBlocksOf localeCompare repo input)
                (dayAppointments localeCompare store (fs_provider input)
                   (fs_date input))) baseSlots)
          /\ NoDup
            (filter (slotIsOpen (availableBlocksOf localeCompare repo input)
                (blockingBlocksOf localeCompare repo input)
                (dayAppointments localeCompare store (fs_provider input)
                   (fs_date input))) baseSlots))).
  { intros ->. exists []. cbn [filter map].
    repeat split; try constructor. intros s s' []. }
  destruct (parse_hourText_day engine (fs_date input) day
              (default 8 (startHour input)) Hread) as [E1 | [t1 [H1 E1]]];
    rewrite E1 in Hbase; [injection Hbase as <-; now apply Hnil |].
  destruct (parse_hourText_day engine (fs_date input) day
              (default 17 (endHour input)) Hread) as [E2 | [t2 [H2 E2]]];
    rewrite E2 in Hbase; [injection Hbase as <-; now apply Hnil |].
  destruct (slotsLoop_Ok_progress _ _ _ _ _ _ Hbase) as [Hempty | Hpos];
    [now apply Hnil |].
  clear Hnil.
  destruct (slotsLoop_shape _ _ _ _ _ _ Hbase) as [n [-> Hfit]].
  set (c := day * JsDate.msPerDay + t1) in *.
  set (i := intervalOf input * 60 * 1000) in *.
  set (open := slotIsOpen _ _ _).
  rewrite filter_map_swap.
  set (steps := filter _ (seq 0 n)).
  assert (Hsteps : forall k, In k steps -> (k < n)%nat).
  { intros k Hk. apply filter_In in Hk. destruct Hk as [Hk _].
    apply in_seq in Hk. lia. }
  assert (Hsorted : StronglySorted Nat.lt steps)
    by apply StronglySorted_filter_of, StronglySorted_seq.
  exists (map (fun k : nat => c + Z.of_nat k * i) steps).
  split; [| split; [| split]].
  - rewrite map_map. apply map_ext. intros k. f_equal. f_equal. lia.
  - apply (StronglySorted_map_of Nat.lt); [| exact Hsorted].
    intros x y _ _ Hxy. unfold Nat.lt in Hxy. nia.
  - intros s s' Hs Hs'. apply in_map_iff in Hs, Hs'.
    destruct Hs as [k [<- _]]. destruct Hs' as [k' [<- _]].
    exists (Z.of_nat k' - Z.of_nat k). unfold i. lia.
  - intros Hdur Hlast.
    assert (Htext : StronglySorted
              (fun a b => JsString.lt (startAt a) (startAt b) = true)
              (map (fun k : nat =>
                      mkSlot (JsDate.isoText (c + Z.of_nat k * i))
                        (JsDate.isoText
                           (c + Z.of_nat k * i
                            + durationMinutes input * 60 * 1000)))
                 steps)).
    { apply (StronglySorted_map_of Nat.lt); [| exact Hsorted].
      intros x y Hx Hy Hxy. unfold Nat.lt in Hxy. cbn [startAt].
      pose proof (Hfit x (Hsteps x Hx)) as Hfx.
      pose proof (Hfit y (Hsteps y Hy)) as Hfy.
      rewrite isoText_lt;
        unfold firstInstant, lastInstant, c, JsDate.msPerDay in *; nia. }
    split; [exact Htext |].
    clear -Htext. induction Htext as [| a l Hl IH Ha]; constructor.
    + intros Hin. rewrite Forall_forall in Ha. specialize (Ha a Hin).
      unfold JsString.lt in Ha. rewrite String_ltb_irrefl in Ha.
      discriminate Ha.
    + exact IH.
Qed.

End SlotOrder.

(** ** Numbers: comparisons of binary64 numbers *)

Section FloatOrder.

Local Open Scope float_scope.

Lemma SFcompare_antisym (a b : SpecFloat.spec_float) :
  SpecFloat.SFcompare a b = option_map CompOpp (SpecFloat.SFcompare b a).
Proof.
  destruct a as [sa | sa | | sa ma ea], b as [sb | sb | | sb mb eb];
    try destruct sa; try destruct sb;
    cbn [SpecFloat.SFcompare option_map CompOpp]; try reflexivity;
    rewrite (Z.compare_antisym ea eb);
    destruct (Z.compare ea eb); cbn [CompOpp]; try reflexivity;
    change (Pos.compare_cont Eq mb ma) with (Pos.compare mb ma);
    change (Pos.compare_cont Eq ma mb) with (Pos.compare ma mb);
    rewrite (Pos.compare_antisym ma mb);
    destruct (Pos.compare ma mb); reflexivity.
Qed.

Lemma is_nan_false (x : float) :
  PrimFloat.is_nan x = false -> Prim2SF x <> SpecFloat.S754_nan.
Proof.
  unfold PrimFloat.is_nan. rewrite eqb_spec. intros H Hx.
  rewrite Hx in H. discriminate H.
Qed.

Lemma ltb_leb (a b : float) : (a <? b) = true -> (a <=? b) = true.
Proof.
  rewrite ltb_spec, leb_spec. unfold SpecFloat.SFltb, SpecFloat.SFleb.
  destruct (SpecFloat.SFcompare _ _) as [[] |]; congruence.
Qed.

Lemma not_ltb_leb (a b : float) :
  PrimFloat.is_nan a = false -> PrimFloat.is_nan b = false ->
  (a <? b) = false -> (b <=? a) = true.
Proof.
  intros Ha Hb. apply is_nan_false in Ha, Hb.
  rewrite ltb_spec, leb_spec. unfold SpecFloat.SFltb, SpecFloat.SFleb.
  rewrite (SFcompare_antisym (Prim2SF b) (Prim2SF a)).
  destruct (Prim2SF a) as [sa | sa | | sa ma ea],
           (Prim2SF b) as [sb | sb | | sb mb eb];
    try congruence;
    destruct (SpecFloat.SFcompare _ _) as [[] |] eqn:Hc; cbn;
    try congruence; cbn in Hc; discriminate Hc.
Qed.

Lemma isFinite_not_nan (x : float) :
  JsNumber.isFinite x = true -> PrimFloat.is_nan x = false.
Proof.
  unfold JsNumber.isFinite. destruct (PrimFloat.is_nan x); [discriminate | reflexivity].
Qed.

End FloatOrder.

(** ** Insurance: the percentages of a stored plan *)

(** What [clampPercent] gives for a finite number: it caps at 100, keeps
    what is above zero, and gives [+0] for the rest. *)
Lemma clampPercent_cases (v fallback : float) :
  JsNumber.isFinite v = true ->
  clampPercent (Some v) fallback
  = if (100 <? v)%float then 100%float
    else if (0 <? v)%float then v else 0%float.
Proof.
  intros Hfin. pose proof (isFinite_not_nan v Hfin) as Hnan.
  unfold clampPercent. rewrite Hfin. cbn [negb].
  unfold JsNumber.Math_min at 1.
  change (PrimFloat.is_nan 100) with false. rewrite Hnan. cbn [orb].
  change (PrimFloat.get_sign 100) with false.
  destruct (100 <? v)%float eqn:Hhigh.
  - reflexivity.
  - assert (Hm : (if (v <? 100)%float then v else v) = v)
      by (destruct (v <? 100)%float; reflexivity).
    rewrite Hm. unfold JsNumber.Math_max.
    change (PrimFloat.is_nan 0) with false. rewrite Hnan. cbn [orb].
    change (PrimFloat.get_sign 0) with false.
    destruct (0 <? v)%float; [reflexivity |].
    destruct (v <? 0)%float; reflexivity.
Qed.

(** Whatever it is given, [clampPercent] with a fallback between 0 and 100
    gives a finite number between 0 and 100. *)
Lemma clampPercent_range (value : option float) (fallback : float) :
  JsNumber.isFinite fallback = true ->
  (0 <=? fallback)%float = true -> (fallback <=? 100)%float = true ->
  let r := clampPercent value fallback in
  JsNumber.isFinite r = true
  /\ (0 <=? r)%float = true /\ (r <=? 100)%float = true.
Proof.
  intros Hf H0 H100. cbv zeta.
  destruct value as [v |]; [| cbn; tauto].
  destruct (JsNumber.isFinite v) eqn:Hfin.
  - rewrite clampPercent_cases by exact Hfin.
    pose proof (isFinite_not_nan v Hfin) as Hnan.
    destruct (100 <? v)%float eqn:Hhigh; [now vm_compute |].
    destruct (0 <? v)%float eqn:Hlow; [| now vm_compute].
    split; [exact Hfin |]. split; [now apply ltb_leb |].
    apply not_ltb_leb; [reflexivity | exact Hnan | exact Hhigh].
  - unfold clampPercent. rewrite Hfin. cbn. tauto.
Qed.

Lemma categoryOfUpper_default (code : string) :
  In (categoryOfUpper code) (map fst benefitDefaults).
Proof.
  unfold categoryOfUpper.
  repeat match goal with
         | |- context [if ?c then _ else _] => destruct c
         end; cbn; tauto.
Qed.

Lemma normalizedBenefits_lookup (input : UpsertInsurancePlanInput)
  (category : string) :
  normalizedBenefits input !! category
  = match List.find (fun d => String.eqb (fst d) category) benefitDefaults with
    | Some d => Some (normalizedBenefit input category (snd d))
    | None => None
    end.
Proof.
  unfold normalizedBenefits, benefitDefaults. cbn [List.find fst snd].
  repeat match goal with
         | |- context [String.eqb ?k category] =>
             destruct (String.eqb_spec k category) as [<- | Hne];
             [ rewrite ?lookup_insert_ne by discriminate;
               now rewrite lookup_insert
             | rewrite lookup_insert_ne by exact Hne; clear Hne ]
         end.
  apply lookup_empty.
Qed.

(** X11.  [upsertInsurancePlan] stores a plan whose percentages cover the
    seven categories and no other, each a finite number between 0 and 100:
    a percentage that is absent or not finite becomes the fallback of its
    category, one above 100 becomes 100, one that is not above 0 becomes 0,
    and the others are kept.  So every procedure code finds a percentage in
    a stored plan. *)
Theorem upsertInsurancePlan_normalizes :
  forall (now uuid : string) (input : UpsertInsurancePlanInput)
         (repo : MemoryClinicOpsRepository),
    let plan := fst (upsertInsurancePlan now uuid input repo) in
    let repo' := snd (upsertInsurancePlan now uuid input repo) in
    let given category := uip_benefitPercentages input ≫= (.!! category) in
    getInsurancePlan repo' (ins_id plan) = Some plan
    /\ (forall category,
          is_Some (benefitPercentages plan !! category)
          <-> In category (map fst benefitDefaults))
    /\ (forall category v,
          benefitPercentages plan !! category = Some v ->
          JsNumber.isFinite v = true
          /\ (0 <=? v)%float = true /\ (v <=? 100)%float = true)
    /\ (forall category fallback,
          In (category, fallback) benefitDefaults ->
          benefitPercentages plan !! category
          = Some match given category with
                 | None => fallback
                 | Some v =>
                     if negb (JsNumber.isFinite v) then fallback
                     else if (100 <? v)%float then 100%float
                     else if (0 <? v)%float then v
                     else 0%float
                 end)
    /\ (forall code,
          is_Some (benefitOf (Some plan) (estimateCategoryFromAdaCode code))).
Proof.
  intros now uuid input repo plan repo' given.
  assert (Hbp : benefitPercentages plan = normalizedBenefits input)
    by reflexivity.
  assert (Hdom : forall category,
            is_Some (benefitPercentages plan !! category)
            <-> In category (map fst benefitDefaults)).
  { intros category. rewrite Hbp, normalizedBenefits_lookup. split.
    - destruct (List.find _ _) as [d |] eqn:Hfind;
        [| intros [x Hx]; discriminate Hx].
      intros _. apply find_some in Hfind. destruct Hfind as [Hin Heq].
      apply String.eqb_eq in Heq. subst category. now apply in_map.
    - unfold benefitDefaults. cbn [map fst In].
      intros Hin.
      repeat match goal with
             | H : _ \/ _ |- _ => destruct H as [H | H]
             | H : False |- _ => destruct H
             end; subst category; eexists; reflexivity. }
  split; [| split; [exact Hdom | split; [| split]]].
  - unfold repo', plan, upsertInsurancePlan, getInsurancePlan,
      saveInsurancePlan.
    cbn [fst snd insurancePlans ins_id]. apply get_set_eq.
  - intros category v. rewrite Hbp, normalizedBenefits_lookup.
    destruct (List.find _ _) as [[k fallback] |] eqn:Hfind;
      [| discriminate].
    apply find_some in Hfind. destruct Hfind as [Hin _].
    intros Hv. injection Hv as <-. unfold normalizedBenefit. cbn [snd].
    apply clampPercent_range;
      unfold benefitDefaults in Hin; cbn [In] in Hin;
      repeat match goal with
             | H : _ \/ _ |- _ => destruct H as [H | H]
             | H : (_, _) = (_, _) |- _ => injection H as <- <-
             | H : False |- _ => destruct H
             end; now vm_compute.
  - intros category fallback Hin. rewrite Hbp, normalizedBenefits_lookup.
    unfold benefitDefaults in Hin |- *. cbn [In] in Hin.
    repeat match goal with
           | H : _ \/ _ |- _ => destruct H as [H | H]
           | H : (_, _) = (_, _) |- _ => injection H as <- <-
           | H : False |- _ => destruct H
           end;
      cbn [List.find fst snd String.eqb Ascii.eqb Bool.eqb];
      unfold normalizedBenefit, given;
      (destruct (uip_benefitPercentages input ≫= _) as [v |];
       [| reflexivity]);
      (destruct (JsNumber.isFinite v) eqn:Hfin;
       [ now rewrite clampPercent_cases by exact Hfin
       | unfold clampPercent; now rewrite Hfin ]).
  - intros code. cbn [benefitOf]. apply Hdom.
    apply categoryOfUpper_default.
Qed.

(** ** The text cipher: the envelope and its round trip *)

Lemma hex_byte (b : Byte.byte) :
  Hex.valueOf (Hex.digitOf (Byte.to_N b / 16)) = Some (Byte.to_N b / 16)%N
  /\ Hex.valueOf (Hex.digitOf (Byte.to_N b mod 16))
     = Some (Byte.to_N b mod 16)%N
  /\ Byte.of_N (Byte.to_N b / 16 * 16 + Byte.to_N b mod 16) = Some b
  /\ Ascii.eqb (Hex.digitOf (Byte.to_N b / 16)) ":" = false
  /\ Ascii.eqb (Hex.digitOf (Byte.to_N b mod 16)) ":" = false.
Proof. destruct b; vm_compute; repeat split. Qed.

(** Reading the hexadecimal text of bytes gives the bytes. *)
Lemma fromHex_toHex (bytes : list Byte.byte) :
  Hex.fromHex (Hex.toHex bytes) = bytes.
Proof.
  induction bytes as [| b bytes IH]; [reflexivity |].
  cbn [Hex.toHex Hex.fromHex].
  destruct (hex_byte b) as [-> [-> [-> _]]]. now rewrite IH.
Qed.

(** The hexadecimal text of bytes holds no colon: [split] cuts after
    it. *)
Lemma split_toHex (bytes : list Byte.byte) (rest : string) :
  JsText.split ":" (Hex.toHex bytes ++ String ":" rest)
  = Hex.toHex bytes :: JsText.split ":" rest.
Proof.
  induction bytes as [| b bytes IH].
  - cbn [Hex.toHex]. rewrite append_nil. reflexivity.
  - cbn [Hex.toHex]. rewrite !append_cons. cbn [JsText.split].
    destruct (hex_byte b) as [_ [_ [_ [-> ->]]]]. now rewrite IH.
Qed.

Lemma split_toHex_last (bytes : list Byte.byte) :
  JsText.split ":" (Hex.toHex bytes) = [Hex.toHex bytes].
Proof.
  induction bytes as [| b bytes IH]; [reflexivity |].
  cbn [Hex.toHex JsText.split].
  destruct (hex_byte b) as [_ [_ [_ [-> ->]]]]. now rewrite IH.
Qed.

Section CryptoProperties.

Context {V : Type}.
Variable sha256 : list Byte.byte -> list Byte.byte.
Variable aesGcmEncrypt :
  list Byte.byte -> list Byte.byte -> list Byte.byte
  -> list Byte.byte * list Byte.byte.
Variable aesGcmDecrypt :
  list Byte.byte -> list Byte.byte -> list Byte.byte -> list Byte.byte
  -> Result (Thrown V) (list Byte.byte).
Variable utf8Encode : string -> list Byte.byte.
Variable utf8Decode : list Byte.byte -> string.

(** What the primitives promise: deciphering with the key, the vector and
    the tag of the enciphering gives the plain bytes back, and so does
    decoding the UTF-8 bytes of a text. *)
Hypothesis aesGcm_round_trip :
  forall key iv plain,
    aesGcmDecrypt key iv (snd (aesGcmEncrypt key iv plain))
      (fst (aesGcmEncrypt key iv plain))
    = Ok plain.
Hypothesis utf8_round_trip : forall text, utf8Decode (utf8Encode text) = text.

Lemma cipher_envelope (material : string) (iv : list Byte.byte)
  (plaintext : string) :
  JsString.truthy material = true ->
  let cipher :=
    createTextCipher (V := V) sha256 aesGcmEncrypt aesGcmDecrypt utf8Encode
      utf8Decode (Some material) in
  let key := sha256 (utf8Encode material) in
  let sealed := aesGcmEncrypt key iv (utf8Encode plaintext) in
  encrypt cipher iv plaintext
  = "enc:v1:" ++ Hex.toHex iv ++ ":" ++ Hex.toHex (snd sealed) ++ ":"
      ++ Hex.toHex (fst sealed).
Proof.
  intros Hm. cbv zeta. unfold createTextCipher. rewrite Hm.
  cbn [encrypt]. unfold normalizeKey.
  destruct (aesGcmEncrypt _ _ _) as [body tag]. cbn [fst snd].
  unfold PREFIX. rewrite ?append_cons, ?append_nil. reflexivity.
Qed.

Lemma cipher_round_trip (material : string) (iv : list Byte.byte)
  (plaintext : string) :
  JsString.truthy material = true ->
  let cipher :=
    createTextCipher (V := V) sha256 aesGcmEncrypt aesGcmDecrypt utf8Encode
      utf8Decode (Some material) in
  decrypt cipher (encrypt cipher iv plaintext) = Ok plaintext.
Proof.
  intros Hm. cbv zeta. rewrite (cipher_envelope material iv plaintext Hm).
  unfold createTextCipher. rewrite Hm. cbn [decrypt].
  unfold PREFIX, JsString.startsWith.
  rewrite ?append_cons, ?append_nil. cbn [String.prefix Ascii.eqb Bool.eqb].
  rewrite ?append_cons, ?append_nil.
  assert (Hprefix : forall s, String.prefix "" s = true) by (now intros []).
  rewrite ?Hprefix. cbn [negb].
  cbn [JsText.split Ascii.eqb Bool.eqb].
  rewrite !split_toHex, split_toHex_last.
  rewrite !fromHex_toHex. unfold normalizeKey.
  rewrite aesGcm_round_trip. now rewrite utf8_round_trip.
Qed.

(** X12.  A cipher made from key material gives back what it enciphered,
    whatever the initialisation vector: the envelope is
    [enc:v1:<iv>:<tag>:<body>] in hexadecimal, and [decrypt] of it is the
    plain text.  A text that does not start with [enc:v1:] is returned as
    it is, and one that starts with it but has not five fields is
    refused.  Without key material both directions leave the text as it
    is. *)
Theorem createTextCipher_round_trip :
  forall (material : string) (iv : list Byte.byte) (plaintext : string),
    JsString.truthy material = true ->
    let cipher :=
      createTextCipher (V := V) sha256 aesGcmEncrypt aesGcmDecrypt utf8Encode
        utf8Decode (Some material) in
    let plain :=
      createTextCipher (V := V) sha256 aesGcmEncrypt aesGcmDecrypt utf8Encode
        utf8Decode None in
    enabled cipher = true
    /\ decrypt cipher (encrypt cipher iv plaintext) = Ok plaintext
    /\ JsString.startsWith (encrypt cipher iv plaintext) "enc:v1:" = true
    /\ (forall text,
          JsString.startsWith text "enc:v1:" = false ->
          decrypt cipher text = Ok text)
    /\ (forall text,
          JsString.startsWith text "enc:v1:" = true ->
          List.length (JsText.split ":" text) <> 5%nat ->
          decrypt cipher text = Throw (ThrownError "Invalid ciphertext envelope"))
    /\ enabled plain = false
    /\ (forall text, encrypt plain iv text = text
                     /\ decrypt plain text = Ok text).
Proof.
  intros material iv plaintext Hm cipher plain.
  split; [unfold cipher, createTextCipher; now rewrite Hm |].
  split; [exact (cipher_round_trip material iv plaintext Hm) |].
  split.
  { unfold cipher. rewrite (cipher_envelope material iv plaintext Hm).
    unfold JsString.startsWith. rewrite ?append_cons, ?append_nil.
    cbn [String.prefix Ascii.eqb Bool.eqb]. now destruct (Hex.toHex iv ++ _). }
  split.
  { intros text Ht. unfold cipher, createTextCipher. rewrite Hm.
    cbn [decrypt]. change (PREFIX ++ ":") with "enc:v1:". now rewrite Ht. }
  split.
  { intros text Ht Hlen. unfold cipher, createTextCipher. rewrite Hm.
    cbn [decrypt]. change (PREFIX ++ ":") with "enc:v1:". rewrite Ht.
    cbn [negb].
    destruct (JsText.split ":" text) as [| a [| b [| c [| d [| e [| f l]]]]]];
      try reflexivity.
    now contradiction Hlen. }
  split; [reflexivity |]. intros text. split; reflexivity.
Qed.

End CryptoProperties.

(** ** Communication logs, tasks and the dashboard *)

Lemma filter_length_le {A : Type} (p : A -> bool) (l : list A) :
  (List.length (filter p l) <= List.length l)%nat.
Proof.
  induction l as [| x l IH]; [reflexivity |].
  cbn [filter]. destruct (p x); cbn [List.length]; lia.
Qed.

Section RecordsProperties.

Context {V Rand : Type}.
Variable localeCompare : string -> string -> Z.
Variable textCipher : TextCipher V Rand.

Lemma decryptLogs_Ok (logs : list CommunicationLogRecord) :
  (forall log, In log logs ->
               exists note, decrypt textCipher (noteCiphertext log) = Ok note) ->
  decryptLogs textCipher logs
  = Ok (map (fun log => (log, noteOf textCipher log)) logs).
Proof.
  induction logs as [| log logs IH]; intros Hall; [reflexivity |].
  cbn [decryptLogs map]. unfold noteOf at 1.
  destruct (Hall log ltac:(now left)) as [note ->].
  rewrite IH; [reflexivity |]. intros x Hx. apply Hall. now right.
Qed.

Lemma decryptLogs_inv (logs : list CommunicationLogRecord)
  (notes : list (CommunicationLogRecord * string)) :
  decryptLogs textCipher logs = Ok notes ->
  forall log, In log logs ->
              exists note, decrypt textCipher (noteCiphertext log) = Ok note.
Proof.
  revert notes. induction logs as [| x logs IH]; intros notes Hrun log Hin;
    [destruct Hin |].
  cbn [decryptLogs] in Hrun.
  destruct (decrypt textCipher (noteCiphertext x)) as [note | e] eqn:Hx;
    [| discriminate Hrun].
  destruct (decryptLogs textCipher logs) as [rest | e] eqn:Hrest;
    [| discriminate Hrun].
  destruct Hin as [<- | Hin]; [now exists note |].
  exact (IH rest eq_refl log Hin).
Qed.

(** X13.  A note that is logged is read back: with a cipher that gives
    back what it enciphers, after [addCommunicationLog] under a fresh id
    the patient's list holds the new log with the note as it was given,
    beside the logs and notes that were listed before, and the lists of
    the other patients are as they were.  What is stored is the
    enciphered note. *)
Theorem addCommunicationLog_round_trip :
  forall (uuid : string) (rand : Rand) (now : string)
         (input : AddCommunicationLogInput) (repo : MemoryClinicOpsRecords)
         (notes : list (CommunicationLogRecord * string)),
    (forall r text, decrypt textCipher (encrypt textCipher r text) = Ok text) ->
    JsMap.get uuid (communicationLogs repo) = None ->
    listCommunicationLogs localeCompare textCipher repo (acl_patientId input)
    = Ok notes ->
    let log := fst (addCommunicationLog textCipher uuid rand now input repo) in
    let repo' := snd (addCommunicationLog textCipher uuid rand now input repo) in
    noteCiphertext log = encrypt textCipher rand (acl_note input)
    /\ (exists notes',
          listCommunicationLogs localeCompare textCipher repo'
            (acl_patientId input)
          = Ok notes'
          /\ In (log, acl_note input) notes'
          /\ Permutation notes' ((log, acl_note input) :: notes))
    /\ (forall other,
          other <> acl_patientId input ->
          listCommunicationLogs localeCompare textCipher repo' other
          = listCommunicationLogs localeCompare textCipher repo other).
Proof.
  intros uuid rand now input repo notes Hround Hfresh Hrun log repo'.
  split; [reflexivity |].
  assert (Hvalues : JsMap.values (communicationLogs repo')
                    = (JsMap.values (communicationLogs repo) ++ [log])%list).
  { unfold repo', addCommunicationLog, saveCommunicationLog.
    cbn [snd communicationLogs comm_id]. now apply values_set_fresh. }
  assert (Hnote : noteOf textCipher log = acl_note input).
  { unfold noteOf, log, addCommunicationLog. cbn [fst noteCiphertext].
    now rewrite Hround. }
  unfold listCommunicationLogs, listCommunicationLogsByPatient in *.
  rewrite Hvalues, filter_app. cbn [filter].
  split.
  - change (comm_patientId log) with (acl_patientId input).
    rewrite String.eqb_refl.
    set (cmp := fun a b => byLocale localeCompare comm_createdAt b a) in *.
    set (old := filter _ (JsMap.values (communicationLogs repo))) in *.
    pose proof (decryptLogs_inv _ _ Hrun) as Hold.
    rewrite decryptLogs_Ok in Hrun
      by exact Hold.
    injection Hrun as <-.
    assert (Hperm : Permutation (sortBy cmp (old ++ [log])) (log :: sortBy cmp old)).
    { rewrite !sortBy_Permutation. symmetry. apply Permutation_cons_append. }
    eexists. split.
    + apply decryptLogs_Ok. intros x Hx.
      apply (Permutation_in _ Hperm) in Hx. destruct Hx as [<- | Hx].
      * exists (acl_note input). unfold log, addCommunicationLog.
        cbn [fst noteCiphertext]. apply Hround.
      * now apply Hold.
    + split.
      * rewrite <- Hnote.
        apply (in_map (fun x => (x, noteOf textCipher x))), sortBy_In, in_or_app.
        right. now left.
      * rewrite <- Hnote.
        exact (Permutation_map (fun x => (x, noteOf textCipher x)) Hperm).
  - intros other Hother. rewrite filter_app. cbn [filter].
    change (comm_patientId log) with (acl_patientId input).
    destruct (String.eqb_spec (acl_patientId input) other) as [Heq | _];
      [now contradiction Hother |].
    now rewrite app_nil_r.
Qed.

Lemma decryptTasks_fst (l : list TaskRecord)
  (r : list (TaskRecord * option string)) :
  decryptTasks textCipher l = Ok r -> map fst r = l.
Proof.
  revert r. induction l as [| task l IH]; intros r Hrun.
  - injection Hrun as <-. reflexivity.
  - cbn [decryptTasks] in Hrun.
    destruct (match detailsCiphertext task with
              | Some c => _ | None => _ end) as [d | e]; [| discriminate Hrun].
    destruct (decryptTasks textCipher l) as [rest | e] eqn:Hrest;
      [| discriminate Hrun].
    injection Hrun as <-. cbn [map fst]. now rewrite (IH rest eq_refl).
Qed.

Lemma decryptTasks_Ok (l : list TaskRecord) :
  (forall task c,
     In task l -> detailsCiphertext task = Some c ->
     JsString.truthy c = true ->
     exists d, decrypt textCipher c = Ok d) ->
  exists r, decryptTasks textCipher l = Ok r.
Proof.
  induction l as [| task l IH]; intros Hall; [now exists [] |].
  destruct IH as [rest Hrest]; [intros x c Hx; apply Hall; now right |].
  cbn [decryptTasks]. rewrite Hrest.
  destruct (detailsCiphertext task) as [c |] eqn:Hc; [| now eexists].
  destruct (JsString.truthy c) eqn:Ht; [| now eexists].
  destruct (Hall task c ltac:(now left) Hc Ht) as [d ->]. now eexists.
Qed.

(** X14.  The dashboard counts at most 200 open tasks: it asks [listTasks]
    for 500, which [listTasks] caps at 200.  When the details of the open
    tasks decipher, [getDashboard] answers, [openTasks] is the number of
    tasks of status [open], or 200 when there are more, and [urgentTasks]
    is at most [openTasks]. *)
Theorem getDashboard_caps_open_tasks :
  forall (date : string) (store : MemoryDentalStore)
         (repo : MemoryClinicOpsRecords),
    (forall task c,
       In task (JsMap.values (tasks repo)) ->
       task_status task = task_open ->
       detailsCiphertext task = Some c -> JsString.truthy c = true ->
       exists d, decrypt textCipher c = Ok d) ->
    exists dash,
      getDashboard localeCompare textCipher date store repo = Ok dash
      /\ dash_date dash = date
      /\ openTasks dash
         = Nat.min 200
             (List.length
                (filter (fun task => bool_decide (task_status task = task_open))
                   (JsMap.values (tasks repo))))
      /\ (openTasks dash <= 200)%nat
      /\ (urgentTasks dash <= openTasks dash)%nat.
Proof.
  intros date store repo Hall. unfold getDashboard, listTasks.
  cbn [lt_status lt_assignedTo lt_limit].
  change (pageSize (Some 500)) with 200.
  set (l := repoListTasks localeCompare repo _).
  assert (Hl : l = firstn 200
                 (sortBy (fun a b => byLocale localeCompare task_updatedAt b a)
                    (filter
                       (fun task => bool_decide (task_status task = task_open))
                       (JsMap.values (tasks repo))))).
  { unfold l, repoListTasks. cbn [filter_limit filter_status filter_assignedTo].
    rewrite filter_all_true by reflexivity.
    now rewrite slice_front by lia. }
  assert (Hin : forall task, In task l ->
            In task (JsMap.values (tasks repo)) /\ task_status task = task_open).
  { intros task Ht. rewrite Hl in Ht. apply In_firstn in Ht.
    apply sortBy_In, filter_In in Ht. destruct Ht as [Ht Hs].
    apply bool_decide_eq_true in Hs. tauto. }
  destruct (decryptTasks_Ok l) as [r Hr].
  { intros task c Ht. destruct (Hin task Ht) as [Hv Hs]. now apply Hall. }
  rewrite Hr. eexists. split; [reflexivity |].
  cbn [dash_date openTasks urgentTasks].
  assert (Hlen : List.length r = List.length l)
    by (now rewrite <- (decryptTasks_fst l r Hr), length_map).
  rewrite Hlen, Hl, length_firstn.
  rewrite (Permutation_length (sortBy_Permutation _ _)).
  split; [reflexivity |]. split; [reflexivity |]. split; [lia |].
  rewrite <- (Permutation_length (sortBy_Permutation
     (fun a b => byLocale localeCompare task_updatedAt b a) _)).
  rewrite <- length_firstn, <- Hl, <- Hlen. apply filter_length_le.
Qed.

End RecordsProperties.

(** ** Treatment plans and the ledger: what is added is what is listed *)

Section PlanAndLedgerProperties.

Context {V : Type}.
Variable localeCompare : string -> string -> Z.

(** X15.  [addTreatmentPlanItem] refuses an item for a plan that is not
    stored, and leaves the repository as it was.  For a stored plan it
    saves a [proposed] item with no insurance estimate and the whole fee
    as the patient's part, under the patient the request names, whoever
    the plan's patient is; the plans are untouched, the item is listed
    with its plan, and the next [estimateTreatmentPlan] of that plan
    succeeds and estimates it. *)
Theorem addTreatmentPlanItem_needs_plan :
  forall (now uuid : string) (input : AddTreatmentPlanItemInput)
         (repo : MemoryClinicOpsRepository) (clock : nat -> string),
    let result := addTreatmentPlanItem (V := V) now uuid input repo in
    let repo' := snd result in
    (getTreatmentPlan repo (ati_planId input) = None ->
     result
     = (Throw (ThrownError
                 ("Treatment plan " ++ ati_planId input ++ " not found")),
        repo))
    /\ (forall plan,
          getTreatmentPlan repo (ati_planId input) = Some plan ->
          exists item,
            fst result = Ok item
            /\ item_id item = orElse (ati_itemId input) uuid
            /\ planId item = ati_planId input
            /\ item_patientId item = ati_patientId input
            /\ item_status item = proposed
            /\ insuranceEstPrimary item = 0%float
            /\ insuranceEstSecondary item = 0%float
            /\ patientEst item = ati_fee input
            /\ JsMap.get (item_id item) (treatmentPlanItems repo') = Some item
            /\ treatmentPlans repo' = treatmentPlans repo
            /\ In item (listTreatmentPlanItemsByPlan repo' (ati_planId input))
            /\ (tp_id plan = ati_planId input ->
                In (plan, listTreatmentPlanItemsByPlan repo' (ati_planId input))
                  (listTreatmentPlans localeCompare repo' (tp_patientId plan))
                /\ exists est repo'',
                     estimateTreatmentPlan (V := V) localeCompare clock
                       (ati_planId input) repo'
                     = (Ok est, repo'')
                     /\ est_plan est = plan
                     /\ In (item_id item) (map item_id (est_items est)))).
Proof.
  intros now uuid input repo clock result repo'. split.
  - intros Hnone. unfold result, addTreatmentPlanItem. now rewrite Hnone.
  - intros plan Hplan.
    unfold repo', result, addTreatmentPlanItem. rewrite Hplan.
    cbn [fst snd]. eexists. split; [reflexivity |].
    cbn [item_id planId item_patientId item_status insuranceEstPrimary
         insuranceEstSecondary patientEst].
    do 7 (split; [reflexivity |]).
    set (item := {| item_id := orElse (ati_itemId input) uuid |}).
    assert (Hin : In item (listTreatmentPlanItemsByPlan
                             (saveTreatmentPlanItem repo item)
                             (ati_planId input))).
    { apply listTreatmentPlanItemsByPlan_In. split; [| reflexivity].
      cbn [saveTreatmentPlanItem treatmentPlanItems]. apply In_values_set_new. }
    split; [cbn [saveTreatmentPlanItem treatmentPlanItems]; apply get_set_eq |].
    split; [reflexivity |]. split; [exact Hin |].
    intros Hid. split.
    + unfold listTreatmentPlans. rewrite <- Hid.
      apply (in_map (fun p => (p, listTreatmentPlanItemsByPlan
                                    (saveTreatmentPlanItem repo item) (tp_id p)))).
      unfold listTreatmentPlansByPatient.
      apply sortBy_In, filter_In. split; [| apply String.eqb_refl].
      cbn [saveTreatmentPlanItem treatmentPlans].
      unfold getTreatmentPlan in Hplan. apply get_In in Hplan.
      unfold JsMap.values. now apply (in_map snd) in Hplan.
    + unfold estimateTreatmentPlan.
      assert (Hplan' : getTreatmentPlan (saveTreatmentPlanItem repo item)
                         (ati_planId input) = Some plan) by exact Hplan.
      rewrite Hplan'. eexists. eexists. split; [reflexivity |].
      cbn [est_plan est_items]. split; [reflexivity |].
      rewrite estimateItems_ids, Hid.
      exact (in_map item_id _ item Hin).
Qed.

(** X16.  A ledger entry posted under a fresh id shows in the account of
    its patient, with the amount rounded to cents, beside the entries that
    were there; the account of every other patient is what it was, and
    nothing but the ledger changes. *)
Theorem postLedgerEntry_reaches_one_account :
  forall (uuid nowEntry nowCreated : string) (input : PostLedgerEntryInput)
         (repo : MemoryClinicOpsRepository) (engine : string -> option Z)
         (clock : nat -> Z),
    JsMap.get uuid (ledgerEntries repo) = None ->
    let entry := fst (postLedgerEntry uuid nowEntry nowCreated input repo) in
    let repo' := snd (postLedgerEntry uuid nowEntry nowCreated input repo) in
    let account patient r :=
      getAccountSnapshot localeCompare engine clock patient r in
    amount entry = JsNumber.toFixed2 (ple_amount input)
    /\ Permutation
         (snap_entries (account (ple_patientId input) repo'))
         (entry :: snap_entries (account (ple_patientId input) repo))
    /\ (forall other,
          other <> ple_patientId input ->
          account other repo' = account other repo)
    /\ families repo' = families repo
    /\ insurancePlans repo' = insurancePlans repo
    /\ treatmentPlans repo' = treatmentPlans repo
    /\ treatmentPlanItems repo' = treatmentPlanItems repo
    /\ scheduleBlocks repo' = scheduleBlocks repo.
Proof.
  intros uuid nowEntry nowCreated input repo engine clock Hfresh entry repo'
    account.
  split; [reflexivity |].
  assert (Hvalues : JsMap.values (ledgerEntries repo')
                    = (JsMap.values (ledgerEntries repo) ++ [entry])%list).
  { unfold repo', postLedgerEntry, saveLedgerEntry.
    cbn [snd ledgerEntries led_id]. now apply values_set_fresh. }
  split; [| split; [| repeat split]].
  - unfold account, getAccountSnapshot, snapshotOf. cbn [snap_entries].
    unfold listLedgerEntriesByPatient.
    rewrite Hvalues, filter_app. cbn [filter].
    change (led_patientId entry) with (ple_patientId input).
    rewrite String.eqb_refl, !sortBy_Permutation.
    symmetry. apply Permutation_cons_append.
  - intros other Hother. unfold account, getAccountSnapshot.
    f_equal. unfold listLedgerEntriesByPatient.
    rewrite Hvalues, filter_app. cbn [filter].
    change (led_patientId entry) with (ple_patientId input).
    destruct (String.eqb_spec (ple_patientId input) other) as [Heq | _];
      [now contradiction Hother |].
    now rewrite app_nil_r.
Qed.

End PlanAndLedgerProperties.

(** ** Recalls: months added on a host that keeps UTC *)

Lemma daysFromCivil_day (y m d : Z) :
  JsDate.daysFromCivil y m 1 + d - 1 = JsDate.daysFromCivil y m d.
Proof. unfold JsDate.daysFromCivil. lia. Qed.

Lemma daysInMonth_28 (y m : Z) : 28 <= JsDate.daysInMonth y m.
Proof.
  unfold JsDate.daysInMonth.
  destruct (m =? 2); [destruct (JsDate.isLeap y); lia |].
  destruct (_ || _); lia.
Qed.

Section RecallProperties.

Context {V : Type}.
Variable localeCompare : string -> string -> Z.
Variable localTZA : Z -> bool -> Z.

(** The host's zone is UTC, at every instant. *)
Hypothesis host_is_utc : forall t isUTC, localTZA t isUTC = 0.

Lemma setMonthFrom_utc (t months y m d : Z) :
  JsDate.civilFromDays (t / JsDate.msPerDay) = (y, m, d) ->
  d <= 28 ->
  0 <= y + (m - 1 + months) / 12 <= 9999 ->
  let y' := y + (m - 1 + months) / 12 in
  let m' := (m - 1 + months) mod 12 + 1 in
  let u := JsDate.daysFromCivil y' m' d * JsDate.msPerDay
           + t mod JsDate.msPerDay in
  setMonthFrom localTZA t months = Some u
  /\ JsDate.civilFromDays (u / JsDate.msPerDay) = (y', m', d)
  /\ u mod JsDate.msPerDay = t mod JsDate.msPerDay
  /\ firstInstant <= u <= lastInstant.
Proof.
  intros Hciv Hd Hy y' m' u.
  pose proof (daysFromCivil_civilFromDays (t / JsDate.msPerDay)) as Hback.
  rewrite Hciv in Hback. destruct Hback as [_ [Hm Hd1]].
  assert (Hm' : 1 <= m' <= 12)
    by (unfold m'; pose proof (Z.mod_pos_bound (m - 1 + months) 12); lia).
  assert (Hd' : 1 <= d <= JsDate.daysInMonth y' m')
    by (pose proof (daysInMonth_28 y' m'); lia).
  pose proof (daysFromCivil_range y' m' d Hy Hm' ltac:(lia)) as Hrange.
  pose proof (Z.mod_pos_bound t JsDate.msPerDay ltac:(reflexivity)) as Htod.
  assert (Hdiv : u / JsDate.msPerDay = JsDate.daysFromCivil y' m' d).
  { unfold u. rewrite Z.add_comm, Z.div_add by discriminate.
    rewrite Z.div_small by exact Htod. reflexivity. }
  assert (Hmod : u mod JsDate.msPerDay = t mod JsDate.msPerDay).
  { unfold u. rewrite Z.add_comm, Z.mod_add by discriminate.
    apply Z.mod_small. exact Htod. }
  assert (Hu : firstInstant <= u <= lastInstant)
    by (unfold u, firstInstant, lastInstant, JsDate.msPerDay in *; lia).
  split; [| split; [| split; [exact Hmod | exact Hu]]].
  - unfold setMonthFrom. rewrite host_is_utc, Z.add_0_r, Hciv.
    cbv beta iota zeta. rewrite host_is_utc, Z.sub_0_r, daysFromCivil_day.
    fold y' m' u.
    destruct ((- JsDate.maxTime <=? u) && (u <=? JsDate.maxTime)) eqn:Hin;
      [reflexivity |].
    unfold firstInstant, lastInstant, JsDate.maxTime in *. lia.
  - rewrite Hdiv. now apply civilFromDays_daysFromCivil.
Qed.

Variable engine : string -> option Z.

(** X17.  On a host that keeps UTC, [addMonths] of a text that [new Date]
    reads as an instant on one of the first 28 days of a month gives, in
    the form [toISOString] writes, the same day of the month and the same
    time of day, [months] months away, when that is a date of the years 0
    to 9999. *)
Theorem addMonths_utc_same_day_and_time :
  forall (dateIso : string) (t months y m d : Z),
    JsDate.parse engine dateIso = Some t ->
    JsDate.civilFromDays (t / JsDate.msPerDay) = (y, m, d) ->
    d <= 28 ->
    0 <= y + (m - 1 + months) / 12 <= 9999 ->
    exists u,
      addMonths (V := V) localTZA engine dateIso months
      = Ok (JsDate.isoText u)
      /\ JsDate.parse engine (JsDate.isoText u) = Some u
      /\ JsDate.civilFromDays (u / JsDate.msPerDay)
         = (y + (m - 1 + months) / 12, (m - 1 + months) mod 12 + 1, d)
      /\ u mod JsDate.msPerDay = t mod JsDate.msPerDay.
Proof.
  intros dateIso t months y m d Hparse Hciv Hd Hy.
  destruct (setMonthFrom_utc t months y m d Hciv Hd Hy)
    as [Hset [Hciv' [Hmod Hu]]].
  eexists. split; [| split; [| split; [exact Hciv' | exact Hmod]]].
  - unfold addMonths. rewrite Hparse, Hset. unfold JsDate.toISOString.
    match goal with |- context [if ?c then _ else _] =>
      destruct c eqn:Hin end; [reflexivity |].
    unfold firstInstant, lastInstant, JsDate.maxTime in *. lia.
  - now apply parse_isoText.
Qed.

(** X18.  A due date that is given is kept as it is, and the recall is
    saved.  A recall with no due date given, made from a last visit that
    [new Date] reads, falls due [intervalMonths] months after the visit,
    on the same day of the month and at the same time, on a host that
    keeps UTC (for a visit on one of the first 28 days of a month, the due
    date being of the years 0 to 9999); it is saved, and [listRecallDue]
    of that day holds it. *)
Theorem upsertRecall_due_after_interval :
  forall (now uuid : string) (input : UpsertRecallInput)
         (repo : MemoryClinicOpsRecords),
    let result := upsertRecall (V := V) localTZA engine now uuid input repo in
    (forall due,
       ur_dueDate input = Some due -> JsString.truthy due = true ->
       exists recall,
         fst result = Ok recall
         /\ dueDate recall = due
         /\ JsMap.get (recall_id recall) (recalls (snd result)) = Some recall)
    /\ (forall (lastVisit : string) (t y m d : Z),
          ur_dueDate input = None \/ ur_dueDate input = Some "" ->
          ur_lastVisitDate input = Some lastVisit -> lastVisit <> "" ->
          JsDate.parse engine lastVisit = Some t ->
          JsDate.civilFromDays (t / JsDate.msPerDay) = (y, m, d) ->
          d <= 28 ->
          0 <= y + (m - 1 + ur_intervalMonths input) / 12 <= 9999 ->
          let y' := y + (m - 1 + ur_intervalMonths input) / 12 in
          let m' := (m - 1 + ur_intervalMonths input) mod 12 + 1 in
          let day :=
            JsDate.padded 4 y' ++ "-" ++ JsDate.padded 2 m' ++ "-"
              ++ JsDate.padded 2 d in
          exists recall,
            fst result = Ok recall
            /\ JsMap.get (recall_id recall) (recalls (snd result))
               = Some recall
            /\ dueDate recall
               = JsDate.isoText
                   (JsDate.daysFromCivil y' m' d * JsDate.msPerDay
                    + t mod JsDate.msPerDay)
            /\ In recall (listRecallDue localeCompare (snd result) day day)).
Proof.
  intros now uuid input repo result. split.
  - intros due Hdue Hgiven. unfold result, upsertRecall.
    rewrite Hdue, Hgiven. eexists. cbn [fst snd].
    split; [reflexivity | split; [reflexivity |]].
    cbn [saveRecall recalls recall_id]. apply get_set_eq.
  - intros lastVisit t y m d Hnodue Hvisit Hnonempty Hparse Hciv Hd Hy
      y' m' day.
    destruct (setMonthFrom_utc t (ur_intervalMonths input) y m d Hciv Hd Hy)
      as [Hset [Hciv' [Hmod Hu]]].
    fold y' m' in Hset, Hciv', Hmod, Hu.
    set (u := JsDate.daysFromCivil y' m' d * JsDate.msPerDay
              + t mod JsDate.msPerDay) in *.
    assert (Hadd : addMonths (V := V) localTZA engine lastVisit
                     (ur_intervalMonths input)
                   = Ok (JsDate.isoText u)).
    { unfold addMonths. rewrite Hparse, Hset. unfold JsDate.toISOString.
      match goal with |- context [if ?c then _ else _] =>
        destruct c eqn:Hin end; [reflexivity |].
      unfold firstInstant, lastInstant, JsDate.maxTime in *. lia. }
    assert (Htruthy : JsString.truthy lastVisit = true).
    { unfold JsString.truthy. apply negb_true_iff.
      now apply String.eqb_neq. }
    assert (Hrun :
      result
      = (Ok {| recall_id := orElse (ur_recallId input) uuid;
               recall_patientId := ur_patientId input;
               recallType := ur_recallType input;
               recall_intervalMonths := ur_intervalMonths input;
               lastVisitDate := ur_lastVisitDate input;
               dueDate := JsDate.isoText u;
               recall_status := default recall_due (ur_status input);
               recall_createdAt := now;
               recall_updatedAt := now |},
         saveRecall repo
           {| recall_id := orElse (ur_recallId input) uuid;
              recall_patientId := ur_patientId input;
              recallType := ur_recallType input;
              recall_intervalMonths := ur_intervalMonths input;
              lastVisitDate := ur_lastVisitDate input;
              dueDate := JsDate.isoText u;
              recall_status := default recall_due (ur_status input);
              recall_createdAt := now;
              recall_updatedAt := now |})).
    { unfold result, upsertRecall. rewrite Hvisit, Htruthy, Hadd.
      destruct Hnodue as [-> | ->]; reflexivity. }
    rewrite Hrun. eexists. cbn [fst snd]. split; [reflexivity |].
    split; [cbn [saveRecall recalls recall_id]; apply get_set_eq |].
    split; [reflexivity |].
    unfold listRecallDue, listRecallsDue.
    apply sortBy_In, filter_In. split.
    + cbn [saveRecall recalls recall_id]. apply In_values_set_new.
    + cbn [dueDate].
      pose proof (daysFromCivil_civilFromDays (u / JsDate.msPerDay)) as Hback.
      rewrite Hciv' in Hback. destruct Hback as [Hday [Hm' Hd']].
      assert (Hpd : calendarDay day = Some (u / JsDate.msPerDay)).
      { unfold day. rewrite calendarDay_padded by assumption. now rewrite Hday. }
      change (startOfDayIso day) with (dayStartText day).
      change (endOfDayIso day) with (dayEndText day).
      rewrite (dayStartText_isoText _ _ Hpd), (dayEndText_isoText _ _ Hpd).
      pose proof (Z.mod_pos_bound u JsDate.msPerDay ltac:(reflexivity)) as Htod.
      pose proof (Z.div_mod u JsDate.msPerDay ltac:(discriminate)) as Hsplit.
      pose proof (calendarDay_range _ _ Hpd) as Hrange.
      unfold JsString.ge. rewrite !isoText_le;
        unfold firstInstant, lastInstant, JsDate.msPerDay in *; lia.
Qed.

End RecallProperties.

(** ** Procedure codes: what the category depends on *)

Lemma upper_lower_char (c : ascii) :
  JsString.upper_char (JsText.lower_char c) = JsString.upper_char c.
Proof.
  destruct c as [[] [] [] [] [] [] [] []]; vm_compute; reflexivity.
Qed.

Lemma toUpperCase_toLowerCase (s : string) :
  JsString.toUpperCase (JsText.toLowerCase s) = JsString.toUpperCase s.
Proof.
  induction s as [| c s IH]; [reflexivity |].
  cbn [JsText.toLowerCase JsString.toUpperCase].
  now rewrite upper_lower_char, IH.
Qed.

(** The branches look at the first two characters only: the tests of
    three characters come after tests of their first two. *)
Lemma categoryOfUpper_first_two (code : string) :
  categoryOfUpper code = categoryOfUpper (String.substring 0 2 code).
Proof.
  destruct code as [| a [| b rest]]; [reflexivity | reflexivity |].
  cbn [String.substring].
  assert (Hsub : String.substring 0 0 rest = "") by (now destruct rest).
  rewrite Hsub. unfold categoryOfUpper, JsString.startsWith.
  cbn [String.prefix].
  repeat match goal with
         | |- context [ascii_dec ?x ?y] =>
             destruct (ascii_dec x y); try subst; try discriminate
         end;
    cbn [orb]; try reflexivity;
    destruct rest; reflexivity.
Qed.

(** X19.  The category of a procedure code depends on the first two
    characters of the code only, and not on their case. *)
Theorem estimateCategoryFromAdaCode_first_two_characters :
  forall code code' : string,
    String.substring 0 2 (JsString.toUpperCase code)
    = String.substring 0 2 (JsString.toUpperCase code') ->
    estimateCategoryFromAdaCode code = estimateCategoryFromAdaCode code'
    /\ estimateCategoryFromAdaCode (JsText.toLowerCase code)
       = estimateCategoryFromAdaCode code'
    /\ estimateCategoryFromAdaCode (JsString.toUpperCase code)
       = estimateCategoryFromAdaCode code'.
Proof.
  intros code code' Heq. unfold estimateCategoryFromAdaCode.
  rewrite toUpperCase_toLowerCase.
  assert (Hup : JsString.toUpperCase (JsString.toUpperCase code)
                = JsString.toUpperCase code).
  { clear. induction code as [| c s IH]; [reflexivity |].
    cbn [JsString.toUpperCase]. rewrite IH. f_equal.
    destruct c as [[] [] [] [] [] [] [] []]; vm_compute; reflexivity. }
  rewrite Hup.
  rewrite (categoryOfUpper_first_two (JsString.toUpperCase code)), Heq.
  rewrite <- categoryOfUpper_first_two. tauto.
Qed.

(** ** Triage of dental images *)

(** X20.  [triageDentalImage] always gives between one and three findings,
    each for the teeth of the image.  The level of risk is the highest
    risk of a finding: [high] exactly when the context names an
    endodontic keyword, [moderate] exactly when it names none but a
    caries or periodontal keyword, and [low] exactly when the only
    finding is the placeholder. *)
Theorem triageDentalImage_risk_is_highest_finding :
  forall input : ImageTriageInput,
    let result := triageDentalImage input in
    let context := combinedContext input in
    (1 <= List.length (triage_findings result) <= 3)%nat
    /\ Forall
         (fun finding =>
            finding_toothNumbers finding = img_toothNumbers (image input)
            /\ (riskRank (risk finding)
                <= riskRank (triage_riskLevel result))%nat)
         (triage_findings result)
    /\ (exists finding,
          In finding (triage_findings result)
          /\ risk finding = triage_riskLevel result)
    /\ (triage_riskLevel result = risk_high
        <-> containsAny context ENDO_KEYWORDS = true)
    /\ (triage_riskLevel result = risk_moderate
        <-> containsAny context ENDO_KEYWORDS = false
            /\ (containsAny context CARIES_KEYWORDS = true
                \/ containsAny context PERIODONTAL_KEYWORDS = true))
    /\ (triage_riskLevel result = risk_low
        <-> map finding_code (triage_findings result)
            = ["no-high-risk-signal"]).
Proof.
  intros input result context. subst result. unfold triageDentalImage.
  fold context.
  generalize (containsAny context CARIES_KEYWORDS),
             (containsAny context ENDO_KEYWORDS),
             (containsAny context PERIODONTAL_KEYWORDS).
  clear context. intros caries endo perio.
  destruct caries, endo, perio;
    cbn [app List.length Nat.eqb existsb risk bool_decide decide_rel orb
         triage_findings triage_riskLevel map finding_code];
    repeat match goal with
           | |- context [bool_decide ?P] =>
               change (bool_decide P) with true
               || change (bool_decide P) with false
           end;
    cbn [orb triage_findings triage_riskLevel];
    (split; [cbn [List.length]; lia |]);
    (split;
     [repeat (apply Forall_cons; [split; [reflexivity | cbn; lia] |]);
      apply Forall_nil |]);
    (split;
     [first
        [ eexists; split; [left; reflexivity | reflexivity]
        | eexists; split; [right; left; reflexivity | reflexivity]
        | eexists; split; [right; right; left; reflexivity | reflexivity] ]
     |]);
    repeat split; intros; try discriminate; try tauto;
    try (intuition discriminate).
Qed.

(** ** Tasks: what an update keeps *)

Section TaskProperties.

Context {V Rand : Type}.
Variable textCipher : TextCipher V Rand.

(** X21.  An update of a stored task keeps what it does not give of the
    enciphered details, the priority, the status, the creator and the time
    of creation, and replaces the title, the patient, the assignee and the
    due time by what it gives, also by nothing.  The task stays under its
    id, in its place, and the other tasks are untouched. *)
Theorem upsertTask_update_keeps_and_replaces :
  forall (now uuid : string) (rand : Rand) (input : UpsertTaskInput)
         (repo : MemoryClinicOpsRecords) (taskId : string) (existing : TaskRecord),
    ut_taskId input = Some taskId -> taskId <> "" ->
    getTask repo taskId = Some existing ->
    let task := fst (upsertTask textCipher now uuid rand input repo) in
    let repo' := snd (upsertTask textCipher now uuid rand input repo) in
    task_id task = taskId
    /\ getTask repo' taskId = Some task
    /\ (forall id', id' <> taskId -> getTask repo' id' = getTask repo id')
    /\ JsMap.keys (tasks repo') = JsMap.keys (tasks repo)
    /\ detailsCiphertext task
       = match ut_details input with
         | Some details => Some (encrypt textCipher rand details)
         | None => detailsCiphertext existing
         end
    /\ task_priority task
       = default (task_priority existing) (ut_priority input)
    /\ task_status task = default (task_status existing) (ut_status input)
    /\ (task_createdBy existing <> "" ->
        task_createdBy task = task_createdBy existing)
    /\ (task_createdAt existing <> "" ->
        task_createdAt task = task_createdAt existing)
    /\ task_updatedAt task = now
    /\ title task = ut_title input
    /\ task_patientId task = ut_patientId input
    /\ assignedTo task = ut_assignedTo input
    /\ dueAt task = ut_dueAt input.
Proof.
  intros now uuid rand input repo taskId existing Hid Hne Hget task repo'.
  assert (Htruthy : JsString.truthy taskId = true).
  { unfold JsString.truthy. destruct (String.eqb_spec taskId ""); [contradiction | reflexivity]. }
  subst task repo'. unfold upsertTask. rewrite Hid, Htruthy, Hget.
  cbn [fst snd task_id orElse fmap option_fmap option_map default from_option
       id mbind option_bind detailsCiphertext task_priority task_status
       task_createdBy task_createdAt task_updatedAt title task_patientId
       assignedTo dueAt].
  rewrite Htruthy.
  assert (Hor : forall s fallback, s <> "" ->
                  (if JsString.truthy s then s else fallback) = s).
  { intros s fallback Hs. unfold JsString.truthy.
    destruct (String.eqb_spec s ""); [contradiction | reflexivity]. }
  unfold getTask, saveTask. cbn [tasks task_id].
  split; [reflexivity |].
  split; [apply get_set_eq |].
  split; [intros id' Hne'; now apply get_set_ne |].
  split; [eapply keys_set_present; exact Hget |].
  split; [now destruct (ut_details input) |].
  split; [now destruct (ut_priority input) |].
  split; [now destruct (ut_status input) |].
  split; [intros Hs; now apply Hor |].
  split; [intros Hs; now apply Hor |].
  repeat split.
Qed.

End TaskProperties.

(** ** Estimates: what [estimateTreatmentPlan] leaves alone *)

Lemma fold_save_keys (items : list TreatmentPlanItemRecord) :
  forall repo : MemoryClinicOpsRepository,
    (forall item, In item items ->
                  In (item_id item) (JsMap.keys (treatmentPlanItems repo))) ->
    JsMap.keys (treatmentPlanItems (fold_left saveTreatmentPlanItem items repo))
    = JsMap.keys (treatmentPlanItems repo).
Proof.
  induction items as [| item items IH]; intros repo Hall; [reflexivity |].
  cbn [fold_left].
  assert (Hkeys : JsMap.keys (treatmentPlanItems (saveTreatmentPlanItem repo item))
                  = JsMap.keys (treatmentPlanItems repo)).
  { cbn [saveTreatmentPlanItem treatmentPlanItems]. rewrite keys_set.
    destruct (existsb _ _) eqn:Hex; [reflexivity |].
    assert (Hin : existsb (String.eqb (item_id item))
                    (JsMap.keys (treatmentPlanItems repo)) = true).
    { apply existsb_exists. exists (item_id item).
      split; [apply Hall; now left | apply String.eqb_refl]. }
    congruence. }
  rewrite IH; [exact Hkeys |].
  intros x Hx. rewrite Hkeys. apply Hall. now right.
Qed.

Section EstimateFrame.

Context {V : Type}.
Variable localeCompare : string -> string -> Z.

(** X22.  [estimateTreatmentPlan] refuses a plan that is not stored and
    leaves the repository as it was.  Otherwise it writes to the items of
    that plan and to nothing else: families, insurance plans, treatment
    plans, ledger and schedule stay, and in a repository that keeps each
    item under its id, the items of the other plans and the set and order
    of the item ids stay too. *)
Theorem estimateTreatmentPlan_writes_only_the_plan_items :
  forall (clock : nat -> string) (id : string)
         (repo : MemoryClinicOpsRepository),
    let result := estimateTreatmentPlan (V := V) localeCompare clock id repo in
    let repo' := snd result in
    (getTreatmentPlan repo id = None ->
     result
     = (Throw (ThrownError ("Treatment plan " ++ id ++ " not found")), repo))
    /\ families repo' = families repo
    /\ insurancePlans repo' = insurancePlans repo
    /\ treatmentPlans repo' = treatmentPlans repo
    /\ ledgerEntries repo' = ledgerEntries repo
    /\ scheduleBlocks repo' = scheduleBlocks repo
    /\ (keyedBy item_id (treatmentPlanItems repo) ->
        JsMap.keys (treatmentPlanItems repo')
        = JsMap.keys (treatmentPlanItems repo)
        /\ forall plan key item,
             getTreatmentPlan repo id = Some plan ->
             JsMap.get key (treatmentPlanItems repo) = Some item ->
             planId item <> tp_id plan ->
             JsMap.get key (treatmentPlanItems repo') = Some item).
Proof.
  intros clock id repo result repo'. subst repo' result.
  unfold estimateTreatmentPlan.
  destruct (getTreatmentPlan repo id) as [plan |] eqn:Hplan.
  2:{ cbn [snd]. repeat split; try reflexivity.
      intros plan key item Hsome. discriminate Hsome. }
  cbn [snd].
  set (primaryPlan := find _ _). set (secondaryPlan := find (isTier secondary) _).
  set (source := listTreatmentPlanItemsByPlan repo (tp_id plan)).
  set (items := estimateItems primaryPlan secondaryPlan clock 0 source).
  destruct (fold_save_keeps items repo) as [Hf [Hi [Ht [Hl Hs]]]].
  split; [discriminate |].
  split; [exact Hf |]. split; [exact Hi |]. split; [exact Ht |].
  split; [exact Hl |]. split; [exact Hs |].
  intros Hkeyed.
  assert (Hids : map item_id items = map item_id source)
    by apply estimateItems_ids.
  assert (Hsource : forall x, In x source ->
            In (item_id x, x) (treatmentPlanItems repo) /\ planId x = tp_id plan).
  { intros x Hx. apply listTreatmentPlanItemsByPlan_In in Hx.
    destruct Hx as [Hv Hp]. split; [| exact Hp].
    unfold JsMap.values in Hv. apply in_map_iff in Hv.
    destruct Hv as [[k v] [Heq Hin]]. cbn in Heq. subst v.
    now rewrite (keyedBy_In item_id _ k x Hkeyed Hin). }
  split.
  - apply fold_save_keys. intros x Hx.
    apply (in_map item_id) in Hx. rewrite Hids in Hx.
    apply in_map_iff in Hx. destruct Hx as [y [Heq Hy]].
    destruct (Hsource y Hy) as [Hin _]. rewrite <- Heq.
    unfold JsMap.keys. exact (in_map fst _ _ Hin).
  - intros plan' key item [= <-] Hget Hother.
    rewrite fold_save_other; [exact Hget |].
    rewrite Hids. intros Hin. apply in_map_iff in Hin.
    destruct Hin as [y [Heq Hy]]. destruct (Hsource y Hy) as [Hin Hp].
    pose proof (keyedBy_get item_id _ key item Hkeyed Hget) as Hkey.
    apply get_In in Hget.
    assert (Hsame : y = item).
    { destruct Hkeyed as [Hnodup _]. rewrite Heq in Hin.
      clear -Hnodup Hin Hget. unfold JsMap.keys in Hnodup.
      induction (treatmentPlanItems repo) as [| [k v] m IH];
        [destruct Hin |].
      cbn in Hnodup. inversion Hnodup as [| ? ? Hnot Hrest]; subst.
      destruct Hin as [[= <- <-] | Hin], Hget as [[= <-] | Hget];
        try reflexivity.
      - exfalso. apply Hnot. exact (in_map fst _ _ Hget).
      - exfalso. apply Hnot. exact (in_map fst _ _ Hin).
      - now apply IH. }
    subst y. contradiction.
Qed.

End EstimateFrame.

(** ** The further properties at work *)

(** X5 at work: a dentist sets the status of an appointment that is not
    stored. *)
Lemma setAppointmentStatusTool_missing_is_audited_as_success_witness :
  assertAuthorized (V := string) exDentist appointment_write = Ok tt
  /\ exists event,
       setAppointmentStatusTool (V := string) (fun s => s) true "e-1"
         "2025-01-06T09:00:00.000Z" exDentist "appt-9" completed
         (emptyStore, [])
       = (Throw (ThrownError "Appointment appt-9 not found"),
          (emptyStore, [event]))
       /\ ev_success event = true.
Proof.
  split; [reflexivity |].
  eexists. split;
    [ exact (proj1 (setAppointmentStatusTool_missing_is_audited_as_success
                  (V := string) (fun s => s) true "e-1"
                  "2025-01-06T09:00:00.000Z" exDentist "appt-9" completed
                  emptyStore [] eq_refl) eq_refl)
    | reflexivity ].
Defined.

(** X6 at work: a read-only user searches a store of two patients. *)
Lemma searchPatientsTool_redacts_for_readonly_witness :
  exists log',
    searchPatientsTool (V := string) (fun s => s) (fun s => s)
      codeUnitCompare exObjectValues false "e-1" "2025-01-06T09:00:00.000Z"
      exReader (mkSearchPatientsInput (Some "lee") None None None None None None)
      (exFamilyStore, [])
    = (Ok (2%nat,
           [ RedactedPatient "pat-1" "Ana" "Lee" "1980-02-03";
             RedactedPatient "pat-2" "Ben" "Lee" "1980-02-03" ]),
       (exFamilyStore, log'))
    /\ (exists event, log' = [event] /\ ev_success event = true).
Proof.
  eexists.
  assert (Hrun :
    searchPatientsTool (V := string) (fun s => s) (fun s => s)
      codeUnitCompare exObjectValues false "e-1" "2025-01-06T09:00:00.000Z"
      exReader (mkSearchPatientsInput (Some "lee") None None None None None None)
      (exFamilyStore, [])
    = (Ok (2%nat,
           [ RedactedPatient "pat-1" "Ana" "Lee" "1980-02-03";
             RedactedPatient "pat-2" "Ben" "Lee" "1980-02-03" ]),
       (exFamilyStore, _))) by (vm_compute; reflexivity).
  split; [exact Hrun |].
  exact (proj1 (proj2 (proj2 (proj2
           (searchPatientsTool_redacts_for_readonly (V := string) _ _ _ _ _
              _ _ _ _ _ _ _ _ _ _ Hrun))))).
Defined.

(** X7 at work: an administrator lists an empty log, twice. *)
Lemma listAuditEventsTool_lists_before_logging_witness :
  exists event,
    listAuditEventsTool (V := string) (fun s => s) false "e-2"
      "2025-01-06T09:00:00.000Z" exAdmin (Some 1) (tt, [])
    = (Ok ([], 0%nat), (tt, [event]))
    /\ forall events' count' log'',
         listAuditEventsTool (V := string) (fun s => s) false "e-3"
           "2025-01-06T09:05:00.000Z" exAdmin (Some 1) (tt, [event])
         = (Ok (events', count'), (tt, log'')) ->
         hd_error events' = Some event.
Proof.
  assert (Hrun :
    listAuditEventsTool (V := string) (fun s => s) false "e-2"
      "2025-01-06T09:00:00.000Z" exAdmin (Some 1) (tt, [])
    = (Ok ([], 0%nat),
       (tt,
        [ {| ev_id := "e-2"; ev_at := "2025-01-06T09:00:00.000Z";
             ev_actorUserId := "u-1"; ev_actorRole := admin;
             ev_action := "list-audit-events"; ev_resourceType := "audit";
             ev_resourceId := None; ev_success := true; ev_reason := None;
             ev_metadata := ∅ |} ]))) by (vm_compute; reflexivity).
  destruct (listAuditEventsTool_lists_before_logging (V := string) _ _ _ _
              "e-3" "2025-01-06T09:05:00.000Z" _ exAdmin _ (Some 1) _ _ _ _
              Hrun)
    as [_ [_ [_ [event [Hlog [_ [_ [_ [_ Hnext]]]]]]]]].
  exists event. injection Hlog as <-. split; [exact Hrun |]. exact Hnext.
Defined.

(** X8 at work: a break from 12:00 to 13:00 on a free day removes the
    slots that overlap it, in time: those that start before 13:00 and end
    after 12:00. *)
Lemma upsertScheduleBlock_filters_open_slots_witness :
  let block :=
    mkUpsertScheduleBlockInput None exProvider None
      "2025-01-06T12:00:00.000Z" "2025-01-06T13:00:00.000Z" break None None
      None in
  exists slots,
    findOpenSlots (V := unit) codeUnitCompare plainEngine exRequest emptyStore
      emptyRepo
    = Ok slots
    /\ JsMap.get "block-2" (scheduleBlocks emptyRepo) = None
    /\ findOpenSlots (V := unit) codeUnitCompare plainEngine exRequest
         emptyStore
         (snd (upsertScheduleBlock "2025-01-02T08:00:00.000Z" "block-2" block
                 emptyRepo))
       = Ok (filter
               (fun slot =>
                  negb (overlap (startAt slot) (endAt slot)
                          "2025-01-06T12:00:00.000Z"
                          "2025-01-06T13:00:00.000Z"))
               slots)
    /\ forall slot, In slot slots ->
         exists s e,
           JsDate.parse plainEngine (startAt slot) = Some s
           /\ JsDate.parse plainEngine (endAt slot) = Some e
           /\ overlap (startAt slot) (endAt slot) "2025-01-06T12:00:00.000Z"
                "2025-01-06T13:00:00.000Z"
              = (s <? exMidnight + 13 * 3600000)
                && (exMidnight + 12 * 3600000 <? e).
Proof.
  intros block. eexists.
  assert (Hrun :
    findOpenSlots (V := unit) codeUnitCompare plainEngine exRequest emptyStore
      emptyRepo
    = Ok _) by (vm_compute; reflexivity).
  split; [exact Hrun |]. split; [reflexivity |].
  destruct (upsertScheduleBlock_filters_open_slots (V := unit)
              codeUnitCompare plainEngine "2025-01-02T08:00:00.000Z"
              "block-2" block exRequest emptyStore emptyRepo _ Hrun eq_refl)
    as [_ [Hblocking [_ Hinstants]]].
  split.
  - exact (Hblocking eq_refl ltac:(vm_compute; reflexivity)
             ltac:(right; left; reflexivity)).
  - intros slot Hin.
    destruct (Hinstants 20094 (exMidnight + 12 * 3600000)
                (exMidnight + 13 * 3600000) ltac:(vm_compute; reflexivity)
                ltac:(lia) ltac:(vm_compute; discriminate)
                ltac:(vm_compute; split; discriminate)
                ltac:(vm_compute; split; discriminate)
                ltac:(vm_compute; reflexivity)
                ltac:(vm_compute; reflexivity))
      as [_ Hslots].
    destruct (Hslots slot Hin)
      as [s [e [_ [_ [_ [Hs [He [_ [_ [Hov _]]]]]]]]]].
    exists s, e. split; [exact Hs | split; [exact He | exact Hov]].
Defined.

(** X9 at work: the slot of 09:00 is booked in an available block. *)
Lemma bookAppointmentFromSlot_takes_the_slot_witness :
  let slot := mkSlot "2025-01-06T09:00:00.000Z" "2025-01-06T09:30:00.000Z" in
  let result :=
    bookAppointmentFromSlot "appt-7" "2025-01-03T08:00:00.000Z"
      "2025-01-03T08:00:01.000Z" "block-7"
      (mkBookAppointmentInput "pat-1" exProvider "cleaning"
         "2025-01-06T09:00:00.000Z" "2025-01-06T09:30:00.000Z" None)
      emptyStore (withBlocks [exAvailable]) in
  exists slots,
    findOpenSlots (V := unit) codeUnitCompare plainEngine exRequest emptyStore
      (withBlocks [exAvailable])
    = Ok slots
    /\ In slot slots
    /\ calendarDay (fs_date exRequest) = Some 20094
    /\ 20094 < 2932896
    /\ 0 < durationMinutes exRequest
    /\ exists slots',
         findOpenSlots (V := unit) codeUnitCompare plainEngine exRequest
           (fst (snd result)) (snd (snd result))
         = Ok slots'
         /\ ~ In slot slots'.
Proof.
  intros slot result. eexists.
  assert (Hrun :
    findOpenSlots (V := unit) codeUnitCompare plainEngine exRequest emptyStore
      (withBlocks [exAvailable])
    = Ok _) by (vm_compute; reflexivity).
  split; [exact Hrun |]. split; [left; reflexivity |].
  split; [vm_compute; reflexivity |]. split; [lia |].
  split; [vm_compute; reflexivity |].
  destruct (bookAppointmentFromSlot_takes_the_slot (V := unit)
              codeUnitCompare plainEngine "appt-7" "2025-01-03T08:00:00.000Z"
              "2025-01-03T08:00:01.000Z" "block-7" "pat-1" "cleaning" None
              exRequest emptyStore (withBlocks [exAvailable]) _ slot 20094
              Hrun ltac:(left; reflexivity) ltac:(vm_compute; reflexivity)
              ltac:(lia)
              ltac:(vm_compute; reflexivity))
    as [_ [_ [_ [_ [_ [_ [_ [slots' [Hnext [Hgone _]]]]]]]]]].
  exists slots'. split; [exact Hnext | exact Hgone].
Defined.

(** X10 at work: a day with an appointment and a break. *)
Lemma findOpenSlots_chronological_witness :
  exists slots,
    findOpenSlots (V := unit) codeUnitCompare plainEngine exRequest
      (withAppointments [exAppointment]) (withBlocks [exBreak])
    = Ok slots
    /\ JsDate.parseDay (fs_date exRequest) = Some 20094
    /\ Sorted.StronglySorted
         (fun a b => JsString.lt (startAt a) (startAt b) = true) slots
    /\ NoDup slots.
Proof.
  eexists.
  assert (Hrun :
    findOpenSlots (V := unit) codeUnitCompare plainEngine exRequest
      (withAppointments [exAppointment]) (withBlocks [exBreak])
    = Ok _) by (vm_compute; reflexivity).
  split; [exact Hrun |]. split; [vm_compute; reflexivity |].
  destruct (findOpenSlots_chronological (V := unit) codeUnitCompare
              plainEngine exRequest
              (withAppointments [exAppointment]) (withBlocks [exBreak]) _
              20094 Hrun ltac:(vm_compute; reflexivity))
    as [starts [_ [_ [_ Htexts]]]].
  exact (Htexts ltac:(vm_compute; reflexivity) ltac:(lia)).
Defined.

(** X16 at work: a payment posted for another patient. *)
Lemma postLedgerEntry_reaches_one_account_witness :
  let repo :=
    withLedger [exLedgerEntry "led-1" charge 100 "2025-01-02T08:00:00.000Z"] in
  let input :=
    mkPostLedgerEntryInput "pat-2" None payment 40 "copay" None None None
      "u-1" in
  let posted :=
    postLedgerEntry "led-9" "2025-01-06T09:00:00.000Z"
      "2025-01-06T09:00:00.000Z" input repo in
  let account patient r :=
    getAccountSnapshot codeUnitCompare plainEngine (fun _ => exMidnight)
      patient r in
  JsMap.get "led-9" (ledgerEntries repo) = None
  /\ account "pat-1" (snd posted) = account "pat-1" repo
  /\ Permutation (snap_entries (account "pat-2" (snd posted))) [fst posted].
Proof.
  intros repo input posted account.
  destruct (postLedgerEntry_reaches_one_account codeUnitCompare "led-9"
              "2025-01-06T09:00:00.000Z" "2025-01-06T09:00:00.000Z" input
              repo plainEngine (fun _ => exMidnight) eq_refl)
    as [_ [Hown [Hother _]]].
  split; [reflexivity |].
  split; [apply Hother; discriminate | exact Hown].
Defined.

(** X12 at work: a cipher over stand-ins for the primitives. *)
Lemma createTextCipher_round_trip_witness :
  (forall key iv plain,
     exOpen key iv (snd (exSeal key iv plain)) (fst (exSeal key iv plain))
     = Ok plain)
  /\ (forall text, string_of_list_byte (list_byte_of_string text) = text)
  /\ JsString.truthy "secret" = true
  /\ encrypt exCipher exVector "ask about the crown"
     = "enc:v1:01ab:01ab:61736b2061626f7574207468652063726f776e"
  /\ decrypt exCipher (encrypt exCipher exVector "ask about the crown")
     = Ok "ask about the crown"
  /\ decrypt exCipher "enc:v1:01ab"
     = Throw (ThrownError "Invalid ciphertext envelope").
Proof.
  assert (Hseal : forall key iv plain,
            exOpen key iv (snd (exSeal key iv plain))
              (fst (exSeal key iv plain))
            = Ok plain).
  { intros key iv plain. unfold exOpen, exSeal. cbn [fst snd].
    now rewrite String.eqb_refl. }
  destruct (createTextCipher_round_trip (V := string) exDigest exSeal exOpen
              list_byte_of_string string_of_list_byte Hseal
              string_of_list_byte_of_string "secret" exVector
              "ask about the crown" eq_refl)
    as [_ [Hround [_ [_ [Hrefuse _]]]]].
  split; [exact Hseal |].
  split; [exact string_of_list_byte_of_string |].
  split; [reflexivity |]. split; [vm_compute; reflexivity |].
  split; [exact Hround |].
  apply Hrefuse; [vm_compute; reflexivity | vm_compute; discriminate].
Defined.

(** X13 at work: the first log of a patient. *)
Lemma addCommunicationLog_round_trip_witness :
  let input :=
    mkAddCommunicationLogInput "pat-1" comm_phone outbound
      "left a message" "u-3" in
  let added :=
    addCommunicationLog exCipher "log-1" exVector "2025-01-06T09:00:00.000Z"
      input (mkRecords [] [] [] []) in
  (forall r text, decrypt exCipher (encrypt exCipher r text) = Ok text)
  /\ JsMap.get "log-1" (communicationLogs (mkRecords [] [] [] [])) = None
  /\ listCommunicationLogs codeUnitCompare exCipher (mkRecords [] [] [] [])
       "pat-1"
     = Ok []
  /\ noteCiphertext (fst added)
     = "enc:v1:01ab:01ab:6c6566742061206d657373616765"
  /\ listCommunicationLogs codeUnitCompare exCipher (snd added) "pat-1"
     = Ok [(fst added, "left a message")].
Proof.
  intros input added.
  assert (Hround : forall r text,
            decrypt exCipher (encrypt exCipher r text) = Ok text).
  { intros r text. unfold exCipher.
    apply (cipher_round_trip (V := string) exDigest exSeal exOpen
             list_byte_of_string string_of_list_byte);
      [| exact string_of_list_byte_of_string | reflexivity].
    intros key iv plain. unfold exOpen, exSeal. cbn [fst snd].
    now rewrite String.eqb_refl. }
  destruct (addCommunicationLog_round_trip codeUnitCompare exCipher "log-1"
              exVector "2025-01-06T09:00:00.000Z" input
              (mkRecords [] [] [] []) [] Hround eq_refl eq_refl)
    as [_ [[notes' [Hlist [_ Hperm]]] _]].
  split; [exact Hround |]. split; [reflexivity |]. split; [reflexivity |].
  split; [vm_compute; reflexivity |].
  fold added in Hlist, Hperm.
  change (acl_patientId input) with "pat-1" in Hlist.
  change (acl_note input) with "left a message" in Hperm.
  rewrite Hlist. f_equal.
  apply Permutation_length_1_inv. symmetry. exact Hperm.
Defined.

(** X21 at work: a task is closed by an update that names no assignee. *)
Lemma upsertTask_update_keeps_and_replaces_witness :
  let input :=
    mkUpsertTaskInput (Some "task-1") None "call back today" None None None
      None (Some task_done) "u-9" in
  let updated :=
    fst (upsertTask exCipher "2025-01-06T09:00:00.000Z" "fresh" exVector
           input exRecords) in
  ut_taskId input = Some "task-1"
  /\ "task-1" <> ""
  /\ getTask exRecords "task-1" = Some (exTask "task-1" urgent task_open)
  /\ detailsCiphertext updated
     = detailsCiphertext (exTask "task-1" urgent task_open)
  /\ task_priority updated = urgent
  /\ task_status updated = task_done
  /\ task_createdBy updated = "u-1"
  /\ task_patientId updated = None
  /\ assignedTo updated = None.
Proof.
  intros input updated.
  destruct (upsertTask_update_keeps_and_replaces exCipher
              "2025-01-06T09:00:00.000Z" "fresh" exVector input exRecords
              "task-1" (exTask "task-1" urgent task_open) eq_refl
              ltac:(discriminate) eq_refl)
    as [_ [_ [_ [_ [Hd [Hp [Hs [Hby [_ [_ [_ [Hpat [Hwho _]]]]]]]]]]]]].
  split; [reflexivity |]. split; [discriminate |]. split; [reflexivity |].
  split; [exact Hd |]. split; [exact Hp |]. split; [exact Hs |].
  split; [apply Hby; discriminate |]. split; [exact Hpat | exact Hwho].
Defined.

(** X14 at work: one open task and one that is done. *)
Lemma getDashboard_caps_open_tasks_witness :
  (forall task c,
     In task (JsMap.values (tasks exRecords)) ->
     task_status task = task_open ->
     detailsCiphertext task = Some c -> JsString.truthy c = true ->
     exists d, decrypt exCipher c = Ok d)
  /\ exists dash,
       getDashboard codeUnitCompare exCipher "2025-01-06" emptyStore exRecords
       = Ok dash
       /\ openTasks dash = 1%nat /\ (urgentTasks dash <= 1)%nat.
Proof.
  assert (Hopen : forall task c,
     In task (JsMap.values (tasks exRecords)) ->
     task_status task = task_open ->
     detailsCiphertext task = Some c -> JsString.truthy c = true ->
     exists d, decrypt exCipher c = Ok d).
  { intros task c [<- | [<- | []]] Hs Hc _; [| discriminate Hs].
    injection Hc as <-. exists "ask about the crown".
    vm_compute. reflexivity. }
  split; [exact Hopen |].
  destruct (getDashboard_caps_open_tasks codeUnitCompare exCipher
              "2025-01-06" emptyStore exRecords Hopen)
    as [dash [Hrun [_ [Hcount [_ Hurgent]]]]].
  exists dash. split; [exact Hrun |].
  split; [exact Hcount |]. now rewrite Hcount in Hurgent.
Defined.

(** X17 at work: six months after 15 January 2025, 09:30, given without
    milliseconds. *)
Lemma addMonths_utc_same_day_and_time_witness :
  (forall t isUTC, exUtc t isUTC = 0)
  /\ JsDate.parse plainEngine "2025-01-15T09:30:00Z" = Some 1736933400000
  /\ JsDate.civilFromDays (1736933400000 / JsDate.msPerDay) = (2025, 1, 15)
  /\ 15 <= 28
  /\ 0 <= 2025 + (1 - 1 + 6) / 12 <= 9999
  /\ addMonths (V := unit) exUtc plainEngine "2025-01-15T09:30:00Z" 6
     = Ok "2025-07-15T09:30:00.000Z"
  /\ exists u,
       addMonths (V := unit) exUtc plainEngine "2025-01-15T09:30:00Z" 6
       = Ok (JsDate.isoText u)
       /\ JsDate.civilFromDays (u / JsDate.msPerDay) = (2025, 7, 15)
       /\ u mod JsDate.msPerDay = 34200000.
Proof.
  split; [reflexivity |]. split; [vm_compute; reflexivity |].
  split; [vm_compute; reflexivity |]. split; [lia |].
  split; [vm_compute; split; discriminate |].
  split; [vm_compute; reflexivity |].
  destruct (addMonths_utc_same_day_and_time (V := unit) exUtc
              (fun _ _ => eq_refl) plainEngine "2025-01-15T09:30:00Z"
              1736933400000
              6 2025 1 15 ltac:(vm_compute; reflexivity)
              ltac:(vm_compute; reflexivity) ltac:(lia)
              ltac:(vm_compute; split; discriminate))
    as [u [Hrun [_ [Hciv Htime]]]].
  exists u. split; [exact Hrun |]. split; [exact Hciv | exact Htime].
Defined.

(** X18 at work: a hygiene recall six months after a visit on 15 January
    2025, the date alone, falls due on 15 July at midnight UTC; a due date
    that is given is kept. *)
Lemma upsertRecall_due_after_interval_witness :
  let input :=
    mkUpsertRecallInput None "pat-1" "hygiene" 6 (Some "2025-01-15") None
      None in
  let given :=
    mkUpsertRecallInput None "pat-1" "hygiene" 6 (Some "2025-01-15")
      (Some "2025-08-01") None in
  let run i :=
    upsertRecall (V := unit) exUtc plainEngine "2025-01-15T11:00:00.000Z"
      "recall-1" i (mkRecords [] [] [] []) in
  (forall t isUTC, exUtc t isUTC = 0)
  /\ JsDate.parse plainEngine "2025-01-15" = Some 1736899200000
  /\ JsDate.civilFromDays (1736899200000 / JsDate.msPerDay) = (2025, 1, 15)
  /\ (exists recall,
        fst (run input) = Ok recall
        /\ dueDate recall = "2025-07-15T00:00:00.000Z"
        /\ In recall
             (listRecallDue codeUnitCompare (snd (run input)) "2025-07-15"
                "2025-07-15"))
  /\ (exists recall,
        fst (run given) = Ok recall /\ dueDate recall = "2025-08-01").
Proof.
  intros input given run.
  split; [reflexivity |]. split; [vm_compute; reflexivity |].
  split; [vm_compute; reflexivity |].
  split.
  - destruct (upsertRecall_due_after_interval (V := unit) codeUnitCompare
                exUtc (fun _ _ => eq_refl) plainEngine
                "2025-01-15T11:00:00.000Z" "recall-1" input
                (mkRecords [] [] [] [])) as [_ Hcomputed].
    destruct (Hcomputed "2025-01-15" 1736899200000 2025 1 15
                ltac:(left; reflexivity) eq_refl ltac:(discriminate)
                ltac:(vm_compute; reflexivity)
                ltac:(vm_compute; reflexivity) ltac:(lia)
                ltac:(vm_compute; split; discriminate))
      as [recall [Hrun [_ [Hdate Hlisted]]]].
    exists recall. split; [exact Hrun |]. split.
    + rewrite Hdate. vm_compute. reflexivity.
    + exact Hlisted.
  - destruct (upsertRecall_due_after_interval (V := unit) codeUnitCompare
                exUtc (fun _ _ => eq_refl) plainEngine
                "2025-01-15T11:00:00.000Z" "recall-1" given
                (mkRecords [] [] [] [])) as [Hgiven _].
    destruct (Hgiven "2025-08-01" eq_refl eq_refl)
      as [recall [Hrun [Hdate _]]].
    exists recall. split; [exact Hrun | exact Hdate].
Defined.

(** X19 at work: two periodontal codes, one in lower case. *)
Lemma estimateCategoryFromAdaCode_first_two_characters_witness :
  String.substring 0 2 (JsString.toUpperCase "d4341")
  = String.substring 0 2 (JsString.toUpperCase "D4910")
  /\ estimateCategoryFromAdaCode "d4341" = estimateCategoryFromAdaCode "D4910".
Proof.
  split; [reflexivity |].
  exact (proj1 (estimateCategoryFromAdaCode_first_two_characters "d4341"
                  "D4910" eq_refl)).
Defined.
